(** * PBCharacterMovement: a shallow embedding of the movement integrator

    The development follows [PBPlayerMovement.cpp] and [PBPlayerCharacter.cpp].

    Numeric model.  The C++ code computes with [float] and [double]; here both
    are embedded as the real numbers [R] of the Standard Library, so every
    arithmetic operation is exact and casts between the two widths are the
    identity.  Rounding is outside the model, and so are NaN and
    infinities, with one exception: the quotient of the step height block
    of [CalcVelocity], whose denominator is the difference of two free
    tuning properties, has its zero denominator written out.  Counters
    declared [int32] are embedded as [Z]; every counter below is only
    incremented under a [<] test against another [int32], so no wrap-around
    can occur and none is written out.

    Engine code.  Functions of the Unreal Engine base classes ([FMath],
    [FVector], [UCharacterMovementComponent]) that the repository calls are
    either written out from their documented definition (the small numeric
    ones) or passed in as functions (world queries, the base tick, the
    parts of a sub-step that sweep the capsule through the world). *)

From Stdlib Require Import Reals Lra Lia ZArith Bool List Psatz.
Import ListNotations.

Local Open Scope R_scope.

(** [int32] counters; the name [Z] itself is used below for the third
    coordinate of a vector, as in the source. *)
Definition int32 : Set := BinNums.Z.

(* ===================================================================== *)
(** ** Comparisons on reals as booleans *)

Definition Rleb (a b : R) : bool := if Rle_dec a b then true else false.
Definition Rltb (a b : R) : bool := if Rlt_dec a b then true else false.
Definition Reqb (a b : R) : bool := if Req_dec_T a b then true else false.

(* ===================================================================== *)
(** ** FMath *)

Module FMath.

(** [UE_SMALL_NUMBER], [UE_KINDA_SMALL_NUMBER] and their double twins. *)
Definition SMALL_NUMBER : R := / 100000000.
Definition KINDA_SMALL_NUMBER : R := / 10000.

Definition Max (a b : R) : R := if Rlt_dec b a then a else b.
Definition Min (a b : R) : R := if Rlt_dec a b then a else b.
Definition Max3 (a b c : R) : R := Max (Max a b) c.
Definition Abs (a : R) : R := if Rlt_dec a 0 then - a else a.
Definition Square (a : R) : R := a * a.
Definition Clamp (x lo hi : R) : R :=
  if Rlt_dec x lo then lo else if Rlt_dec x hi then x else hi.
Definition Lerp (a b alpha : R) : R := a + alpha * (b - a).
Definition Sqrt (a : R) : R := sqrt a.
Definition InvSqrt (a : R) : R := / sqrt a.

(** [FMath::IsNearlyZero(Value, ErrorTolerance = SMALL_NUMBER)] *)
Definition IsNearlyZeroTol (v tol : R) : bool := Rleb (Abs v) tol.
Definition IsNearlyZero (v : R) : bool := IsNearlyZeroTol v SMALL_NUMBER.
(** [FMath::IsNearlyEqual(A, B, ErrorTolerance = SMALL_NUMBER)] *)
Definition IsNearlyEqual (a b : R) : bool := Rleb (Abs (a - b)) SMALL_NUMBER.

End FMath.

(* ===================================================================== *)
(** ** FVector *)

Record FVector : Set := mkVec { X : R; Y : R; Z : R }.

Definition ZeroVector : FVector := mkVec 0 0 0.

Definition vadd (a b : FVector) : FVector :=
  mkVec (X a + X b) (Y a + Y b) (Z a + Z b).
Definition vsub (a b : FVector) : FVector :=
  mkVec (X a - X b) (Y a - Y b) (Z a - Z b).
Definition vscale (a : FVector) (s : R) : FVector :=
  mkVec (X a * s) (Y a * s) (Z a * s).
Definition vneg (a : FVector) : FVector := mkVec (- X a) (- Y a) (- Z a).
(** [A | B], the dot product. *)
Definition dot (a b : FVector) : R := X a * X b + Y a * Y b + Z a * Z b.

Declare Scope vec_scope.
Delimit Scope vec_scope with vec.
Infix "+v" := vadd (at level 50, left associativity) : vec_scope.
Infix "-v" := vsub (at level 50, left associativity) : vec_scope.
Infix "*v" := vscale (at level 40, left associativity) : vec_scope.
Infix "|v" := dot (at level 45, no associativity) : vec_scope.
Local Open Scope vec_scope.

Definition SizeSquared (a : FVector) : R := X a * X a + Y a * Y a + Z a * Z a.
Definition SizeSquared2D (a : FVector) : R := X a * X a + Y a * Y a.
Definition Size (a : FVector) : R := FMath.Sqrt (SizeSquared a).
Definition Size2D (a : FVector) : R := FMath.Sqrt (SizeSquared2D a).

(** [FVector::IsNearlyZero(Tolerance)]: every coordinate within the tolerance. *)
Definition IsNearlyZeroV (a : FVector) (tol : R) : bool :=
  Rleb (FMath.Abs (X a)) tol && Rleb (FMath.Abs (Y a)) tol
  && Rleb (FMath.Abs (Z a)) tol.

(** [FVector::GetSafeNormal(Tolerance = SMALL_NUMBER)] *)
Definition GetSafeNormal (a : FVector) : FVector :=
  let SquareSum := SizeSquared a in
  if Req_dec_T SquareSum 1 then a
  else if Rlt_dec SquareSum FMath.SMALL_NUMBER then ZeroVector
  else a *v FMath.InvSqrt SquareSum.

(** [FVector::GetSafeNormal2D(Tolerance = SMALL_NUMBER)] *)
Definition GetSafeNormal2D (a : FVector) : FVector :=
  let SquareSum := SizeSquared2D a in
  if Req_dec_T SquareSum 1 then
    (if Req_dec_T (Z a) 0 then a else mkVec (X a) (Y a) 0)
  else if Rlt_dec SquareSum FMath.SMALL_NUMBER then ZeroVector
  else
    let Scale := FMath.InvSqrt SquareSum in
    mkVec (X a * Scale) (Y a * Scale) 0.

(** [FVector::GetClampedToMaxSize2D(MaxSize)] *)
Definition GetClampedToMaxSize2D (a : FVector) (MaxSize : R) : FVector :=
  if Rlt_dec MaxSize FMath.KINDA_SMALL_NUMBER then mkVec 0 0 (Z a)
  else
    let VSq := SizeSquared2D a in
    if Rlt_dec (FMath.Square MaxSize) VSq then
      let Scale := MaxSize * FMath.InvSqrt VSq in
      mkVec (X a * Scale) (Y a * Scale) (Z a)
    else a.

(** [FVector::GetClampedToSize(Min, Max)] *)
Definition GetClampedToSize (a : FVector) (lo hi : R) : FVector :=
  let VecSize := Size a in
  let VecDir :=
    if Rlt_dec FMath.SMALL_NUMBER VecSize then a *v (/ VecSize)
    else ZeroVector in
  VecDir *v FMath.Clamp VecSize lo hi.

(** [FVector::ProjectOnToNormal(Normal)] *)
Definition ProjectOnToNormal (a n : FVector) : FVector := n *v (a |v n).

(** [FVector::VectorPlaneProject(V, PlaneNormal)] *)
Definition VectorPlaneProject (a n : FVector) : FVector :=
  a -v ProjectOnToNormal a n.

(** [FVector::CosineAngle2D(B)] *)
Definition CosineAngle2D (a b : FVector) : R :=
  let A := GetSafeNormal (mkVec (X a) (Y a) 0) in
  let B := GetSafeNormal (mkVec (X b) (Y b) 0) in
  A |v B.

(* ===================================================================== *)
(** ** Component state *)

(** [MIN_TICK_TIME] of [UCharacterMovementComponent]. *)
Definition MIN_TICK_TIME : R := / 1000000.
(** [MAX_FLOOR_DIST], [MIN_FLOOR_DIST], [SWEEP_EDGE_REJECT_DISTANCE]. *)
Definition MAX_FLOOR_DIST : R := 24 / 10.
Definition MIN_FLOOR_DIST : R := 19 / 10.
Definition SWEEP_EDGE_REJECT_DISTANCE : R := 15 / 100.

Module PlayerMovementConstants.
Definition JumpVelocity : R := 2667 / 10.
Definition DesiredGravity : R := - 1143.
Definition VerticalSlopeNormalZ : R := / 1000.
End PlayerMovementConstants.

Inductive EMovementMode : Set :=
| MOVE_None | MOVE_Walking | MOVE_NavWalking | MOVE_Falling
| MOVE_Swimming | MOVE_Flying | MOVE_Custom.

(** Tunables of the component: values a tick reads and never writes. *)
Record Config : Set := mkConfig {
  BrakingFrictionFactor : R;
  BrakingSubStepTime : R;
  BrakingFriction : R;
  bUseSeparateBrakingFriction : bool;
  MaxAcceleration : R;
  WalkSpeed : R;
  RunSpeed : R;
  SprintSpeed : R;
  MaxWalkSpeedCrouched : R;
  MinAnalogSpeed : R;
  GroundAccelerationMultiplier : R;
  AirAccelerationMultiplier : R;
  AirSpeedCap : R;
  AxisSpeedLimit : R;
  SpeedMultMin : R;
  SpeedMultMax : R;
  DefaultStepHeight : R;
  MinStepHeight : R;
  DefaultWalkableFloorZ : R;
  BrakingWindow : R;
  BounceMultiplier : R;
  bForceMaxAccel : bool;
  bConstrainToPlane : bool;
  PlaneConstraintNormal : FVector;
  bUseFlatBaseForFloorChecks : bool;
  GravityZ : R;
  FallingLateralFriction : R;
  MaxSimulationTimeStep : R;
  MaxSimulationIterations : int32;
  MaxJumpApexAttemptsPerSimulation : int32
}.

(** What the component reads from its owner and from the engine during one
    call: [CharacterOwner], [PBCharacter], [UpdatedComponent], [GetWorld()]. *)
Record Owner : Set := mkOwner {
  HasValidData : bool;
  HasAnimRootMotion : bool;
  HasOverrideVelocity : bool;       (* CurrentRootMotion.HasOverrideVelocity() *)
  bSimulatedProxy : bool;           (* GetLocalRole() == ROLE_SimulatedProxy *)
  bWasSimulatingRootMotion : bool;
  IsSimulatingPhysics : bool;       (* UpdatedComponent->IsSimulatingPhysics() *)
  IsSprinting : bool;
  DoesWantToWalk : bool;
  IsCrouching : bool;               (* CharacterOwner->bIsCrouched *)
  ForwardVector : FVector;          (* UpdatedComponent->GetForwardVector() *)
  ControlRotationVector : FVector;  (* GetControlRotation().Vector() *)
  ActorForwardVector : FVector;     (* CharacterOwner->GetActorForwardVector() *)
  DeltaSeconds : R;                 (* GetWorld()->GetDeltaSeconds() *)
  PawnRadius : R;                   (* GetScaledCapsuleSize *)
  PawnHalfHeight : R
}.

(** The fields of [UPBPlayerMovement] that the modelled functions write. *)
Record Movement : Set := mkMovement {
  Velocity : FVector;
  Acceleration : FVector;
  AnalogInputModifier : R;
  MovementMode : EMovementMode;
  bHasDeferredMovementMode : bool;
  DeferredMovementMode : EMovementMode;
  bCheatFlying : bool;
  bOnLadder : bool;
  SurfaceFriction : R;
  MaxStepHeight : R;
  WalkableFloorZ : R;
  bBrakingWindowElapsed : bool;
  BrakingWindowTimeElapsed : R;
  bCrouchFrameTolerated : bool
}.

Definition set_Velocity (v : FVector) (m : Movement) : Movement :=
  mkMovement v (Acceleration m) (AnalogInputModifier m) (MovementMode m)
    (bHasDeferredMovementMode m) (DeferredMovementMode m) (bCheatFlying m)
    (bOnLadder m) (SurfaceFriction m) (MaxStepHeight m) (WalkableFloorZ m)
    (bBrakingWindowElapsed m) (BrakingWindowTimeElapsed m)
    (bCrouchFrameTolerated m).

Definition set_Acceleration (a : FVector) (m : Movement) : Movement :=
  mkMovement (Velocity m) a (AnalogInputModifier m) (MovementMode m)
    (bHasDeferredMovementMode m) (DeferredMovementMode m) (bCheatFlying m)
    (bOnLadder m) (SurfaceFriction m) (MaxStepHeight m) (WalkableFloorZ m)
    (bBrakingWindowElapsed m) (BrakingWindowTimeElapsed m)
    (bCrouchFrameTolerated m).

Definition set_AnalogInputModifier (a : R) (m : Movement) : Movement :=
  mkMovement (Velocity m) (Acceleration m) a (MovementMode m)
    (bHasDeferredMovementMode m) (DeferredMovementMode m) (bCheatFlying m)
    (bOnLadder m) (SurfaceFriction m) (MaxStepHeight m) (WalkableFloorZ m)
    (bBrakingWindowElapsed m) (BrakingWindowTimeElapsed m)
    (bCrouchFrameTolerated m).

(** [SetMovementMode] as far as the model goes: the mode field. *)
Definition SetMovementMode (mode : EMovementMode) (m : Movement) : Movement :=
  mkMovement (Velocity m) (Acceleration m) (AnalogInputModifier m) mode
    (bHasDeferredMovementMode m) (DeferredMovementMode m) (bCheatFlying m)
    (bOnLadder m) (SurfaceFriction m) (MaxStepHeight m) (WalkableFloorZ m)
    (bBrakingWindowElapsed m) (BrakingWindowTimeElapsed m)
    (bCrouchFrameTolerated m).

Definition set_bHasDeferredMovementMode (b : bool) (m : Movement) : Movement :=
  mkMovement (Velocity m) (Acceleration m) (AnalogInputModifier m)
    (MovementMode m) b (DeferredMovementMode m) (bCheatFlying m)
    (bOnLadder m) (SurfaceFriction m) (MaxStepHeight m) (WalkableFloorZ m)
    (bBrakingWindowElapsed m) (BrakingWindowTimeElapsed m)
    (bCrouchFrameTolerated m).

Definition set_MaxStepHeight (h : R) (m : Movement) : Movement :=
  mkMovement (Velocity m) (Acceleration m) (AnalogInputModifier m)
    (MovementMode m) (bHasDeferredMovementMode m) (DeferredMovementMode m)
    (bCheatFlying m) (bOnLadder m) (SurfaceFriction m) h (WalkableFloorZ m)
    (bBrakingWindowElapsed m) (BrakingWindowTimeElapsed m)
    (bCrouchFrameTolerated m).

(** [SetWalkableFloorZ]: the engine clamps the value to [[0, 1]]. *)
Definition SetWalkableFloorZ (z : R) (m : Movement) : Movement :=
  mkMovement (Velocity m) (Acceleration m) (AnalogInputModifier m)
    (MovementMode m) (bHasDeferredMovementMode m) (DeferredMovementMode m)
    (bCheatFlying m) (bOnLadder m) (SurfaceFriction m) (MaxStepHeight m)
    (FMath.Clamp z 0 1)
    (bBrakingWindowElapsed m) (BrakingWindowTimeElapsed m)
    (bCrouchFrameTolerated m).

Definition set_BrakingWindow (elapsed : bool) (t : R) (m : Movement)
  : Movement :=
  mkMovement (Velocity m) (Acceleration m) (AnalogInputModifier m)
    (MovementMode m) (bHasDeferredMovementMode m) (DeferredMovementMode m)
    (bCheatFlying m) (bOnLadder m) (SurfaceFriction m) (MaxStepHeight m)
    (WalkableFloorZ m) elapsed t (bCrouchFrameTolerated m).

Definition set_bCrouchFrameTolerated (b : bool) (m : Movement) : Movement :=
  mkMovement (Velocity m) (Acceleration m) (AnalogInputModifier m)
    (MovementMode m) (bHasDeferredMovementMode m) (DeferredMovementMode m)
    (bCheatFlying m) (bOnLadder m) (SurfaceFriction m) (MaxStepHeight m)
    (WalkableFloorZ m) (bBrakingWindowElapsed m) (BrakingWindowTimeElapsed m)
    b.

(** [IsMovingOnGround], [IsFalling] of the engine; [UpdatedComponent] is
    taken to be present, as every caller below dereferences it. *)
Definition IsMovingOnGround (m : Movement) : bool :=
  match MovementMode m with
  | MOVE_Walking | MOVE_NavWalking => true
  | _ => false
  end.

Definition IsFalling (m : Movement) : bool :=
  match MovementMode m with MOVE_Falling => true | _ => false end.

(* ===================================================================== *)
(** ** ApplyVelocityBraking (PBPlayerMovement.cpp, 517-571) *)

(** The sub-step loop.  [fuel] bounds the number of iterations; [None] is
    "out of fuel".  The list holds the value of [Velocity] at the end of
    every iteration, in order. *)
Fixpoint BrakingLoop (fuel : nat) (Friction BrakingDeceleration MaxTimeStep : R)
    (RevAccel OldVel : FVector) (RemainingTime : R) (Vel : FVector)
  : option (list FVector * FVector) :=
  if Rle_dec MIN_TICK_TIME RemainingTime then
    match fuel with
    | O => None
    | S fuel' =>
        let Delta :=
          if Rlt_dec MaxTimeStep RemainingTime
          then FMath.Min MaxTimeStep (RemainingTime * (1 / 2))
          else RemainingTime in
        let RemainingTime' := RemainingTime - Delta in
        (* apply friction and braking *)
        let Vel' :=
          Vel +v (RevAccel *v (Friction * BrakingDeceleration)) *v Delta in
        (* Don't reverse direction *)
        if Rle_dec (Vel' |v OldVel) 0 then Some ([ZeroVector], ZeroVector)
        else
          match BrakingLoop fuel' Friction BrakingDeceleration MaxTimeStep
                  RevAccel OldVel RemainingTime' Vel' with
          | Some (steps, out) => Some (Vel' :: steps, out)
          | None => None
          end
    end
  else
    (* Clamp to zero if nearly zero *)
    Some ([], if IsNearlyZeroV Vel FMath.KINDA_SMALL_NUMBER
              then ZeroVector else Vel).

(** Every iteration but the last consumes at least 1/150 s, so this many
    iterations are enough (see [BrakingLoop_closed]). *)
Definition BrakingFuel (DeltaTime : R) : nat :=
  S (Z.to_nat (up (DeltaTime * 150))).

(** The guards of the function, in source order. *)
Definition BrakingSkipped (o : Owner) (DeltaTime : R) (Vel : FVector) : bool :=
  IsNearlyZeroV Vel (1 / 10) || negb (HasValidData o) || HasAnimRootMotion o
  || Rltb DeltaTime MIN_TICK_TIME.

Definition BrakingEffectiveFriction (c : Config) (Friction : R) : R :=
  let FrictionFactor := FMath.Max 0 (BrakingFrictionFactor c) in
  FMath.Max 0 (Friction * FrictionFactor).

Definition BrakingEffectiveDeceleration (BrakingDeceleration : R)
    (Vel : FVector) : R :=
  let Speed := Size2D Vel in
  FMath.Max 0 (FMath.Max BrakingDeceleration Speed).

(** The function on the velocity it updates, with the per-sub-step trace. *)
Definition ApplyVelocityBraking_steps (c : Config) (o : Owner)
    (DeltaTime Friction BrakingDeceleration : R) (Vel : FVector)
  : option (list FVector * FVector) :=
  if BrakingSkipped o DeltaTime Vel then Some ([], Vel)
  else
    let Friction := BrakingEffectiveFriction c Friction in
    let BrakingDeceleration :=
      BrakingEffectiveDeceleration BrakingDeceleration Vel in
    let bZeroFriction := FMath.IsNearlyZero Friction in
    let bZeroBraking := Reqb BrakingDeceleration 0 in
    if bZeroFriction || bZeroBraking then Some ([], Vel)
    else
      let OldVel := Vel in
      let MaxTimeStep :=
        FMath.Clamp (BrakingSubStepTime c) (1 / 75) (1 / 20) in
      let RevAccel := vneg (GetSafeNormal Vel) in
      BrakingLoop (BrakingFuel DeltaTime) Friction BrakingDeceleration
        MaxTimeStep RevAccel OldVel DeltaTime Vel.

Definition ApplyVelocityBraking (c : Config) (o : Owner)
    (DeltaTime Friction BrakingDeceleration : R) (Vel : FVector)
  : option FVector :=
  option_map snd
    (ApplyVelocityBraking_steps c o DeltaTime Friction BrakingDeceleration Vel).

(** Repeated calls with the same arguments, one per tick. *)
Fixpoint BrakeTicks (n : nat) (c : Config) (o : Owner)
    (DeltaTime Friction BrakingDeceleration : R) (Vel : FVector)
  : option FVector :=
  match n with
  | O => Some Vel
  | S n' =>
      match ApplyVelocityBraking c o DeltaTime Friction BrakingDeceleration
              Vel with
      | Some Vel' =>
          BrakeTicks n' c o DeltaTime Friction BrakingDeceleration Vel'
      | None => None
      end
  end.

(* ===================================================================== *)
(** ** GetMaxSpeed and CalcVelocity (PBPlayerMovement.cpp, 1187-1321, 1693) *)

Definition GetMaxSpeed (c : Config) (o : Owner) (m : Movement) : R :=
  if bCheatFlying m then
    (if IsSprinting o then SprintSpeed c else WalkSpeed c) * (15 / 10)
  else if IsSprinting o then
    (if IsCrouching o && bCrouchFrameTolerated m
     then MaxWalkSpeedCrouched c * (17 / 10)
     else SprintSpeed c)
  else if DoesWantToWalk o then WalkSpeed c
  else if IsCrouching o && bCrouchFrameTolerated m
       then MaxWalkSpeedCrouched c
  else RunSpeed c.

(** [UCharacterMovementComponent::IsExceedingMaxSpeed] *)
Definition IsExceedingMaxSpeed (Vel : FVector) (MaxSpeed : R) : bool :=
  let MaxSpeed := FMath.Max 0 MaxSpeed in
  Rltb (FMath.Square MaxSpeed * (101 / 100)) (SizeSquared Vel).

Definition ClampAxes (c : Config) (v : FVector) : FVector :=
  mkVec (FMath.Clamp (X v) (- AxisSpeedLimit c) (AxisSpeedLimit c))
        (FMath.Clamp (Y v) (- AxisSpeedLimit c) (AxisSpeedLimit c))
        (Z v).

(** The entry guard of [CalcVelocity]. *)
Definition CalcVelocitySkipped (o : Owner) (DeltaTime : R) : bool :=
  negb (HasValidData o) || HasAnimRootMotion o
  || Rltb DeltaTime MIN_TICK_TIME
  || (bSimulatedProxy o && negb (bWasSimulatingRootMotion o)).

(** [bForceMaxAccel]: the acceleration and analog modifier it leaves. *)
Definition ForcedAcceleration (c : Config) (o : Owner) (m : Movement)
  : FVector * R :=
  if bForceMaxAccel c then
    let MaxAccel := MaxAcceleration c in
    ((if Rlt_dec FMath.SMALL_NUMBER (SizeSquared (Acceleration m))
      then GetSafeNormal (Acceleration m) *v MaxAccel
      else (if Rlt_dec (SizeSquared (Velocity m)) FMath.SMALL_NUMBER
            then ForwardVector o
            else GetSafeNormal (Velocity m)) *v MaxAccel),
     1)
  else (Acceleration m, AnalogInputModifier m).

(** The "Apply friction" block: braking on a ground move only. *)
Definition CalcVelocity_friction (c : Config) (o : Owner)
    (DeltaTime Friction BrakingDeceleration MaxSpeed : R)
    (bIsGroundMove : bool) (Accel Vel : FVector) (surfaceFriction : R)
  : option FVector :=
  if bIsGroundMove then
    let bVelocityOverMax := IsExceedingMaxSpeed Vel MaxSpeed in
    let OldVelocity := Vel in
    let ActualBrakingFriction :=
      (if bUseSeparateBrakingFriction c then BrakingFriction c else Friction)
      * surfaceFriction in
    match ApplyVelocityBraking c o DeltaTime ActualBrakingFriction
            BrakingDeceleration Vel with
    | None => None
    | Some Vel' =>
        (* Don't allow braking to lower us below max speed if we started
           above it. *)
        if bVelocityOverMax
           && Rltb (SizeSquared Vel') (FMath.Square MaxSpeed)
           && Rltb 0 (Accel |v OldVelocity)
        then Some (GetSafeNormal OldVelocity *v MaxSpeed)
        else Some Vel'
    end
  else Some Vel.

(** The no-clip branch. *)
Definition NoClipVelocity (c : Config) (o : Owner) (Accel : FVector)
    (bZeroAcceleration : bool) : FVector :=
  if bZeroAcceleration then ZeroVector
  else
    let LookVec := ControlRotationVector o in
    let LookVec2D :=
      mkVec (X (ActorForwardVector o)) (Y (ActorForwardVector o)) 0 in
    let PerpendicularAccel := LookVec2D *v (LookVec2D |v Accel) in
    let TangentialAccel := Accel -v PerpendicularAccel in
    let Dir := CosineAngle2D Accel LookVec in
    let NoClipAccelClamp :=
      if IsSprinting o then 2 * MaxAcceleration c else MaxAcceleration c in
    GetClampedToSize
      ((LookVec *v Dir) *v Size2D PerpendicularAccel +v TangentialAccel)
      NoClipAccelClamp NoClipAccelClamp.

(** The walk/air branch: input acceleration with the veer rule.  Returns
    the velocity and the (clamped) acceleration it leaves in the member. *)
Definition ApplyInputAcceleration (c : Config) (DeltaTime MaxSpeed : R)
    (bIsGroundMove bZeroAcceleration : bool) (surfaceFriction : R)
    (Accel Vel : FVector) : FVector * FVector :=
  if negb bZeroAcceleration then
    (* Clamp acceleration to max speed *)
    let Accel := GetClampedToMaxSize2D Accel MaxSpeed in
    (* Find veer *)
    let AccelDir := GetSafeNormal2D Accel in
    let Veer := X Vel * X AccelDir + Y Vel * Y AccelDir in
    (* Get add speed with air speed cap *)
    let AddSpeed :=
      Size2D (if bIsGroundMove then Accel
              else GetClampedToMaxSize2D Accel (AirSpeedCap c)) - Veer in
    if Rlt_dec 0 AddSpeed then
      let AccelerationMultiplier :=
        if bIsGroundMove then GroundAccelerationMultiplier c
        else AirAccelerationMultiplier c in
      let CurrentAcceleration :=
        GetClampedToMaxSize2D
          (((Accel *v AccelerationMultiplier) *v surfaceFriction)
           *v DeltaTime) AddSpeed in
      (Vel +v CurrentAcceleration, Accel)
    else (Vel, Accel)
  else (Vel, Accel).

(** The dynamic step height block at the end of [CalcVelocity].

    [SpeedScale] is a quotient of doubles whose denominator,
    [SpeedMultMax - SpeedMultMin], is zero when the two properties are set
    to the same value.  The double quotient is then an infinity with the
    sign of the numerator, or NaN for 0 / 0, and [FMath::Clamp], whose two
    tests are [<] (see [FMath.Clamp]), sends minus infinity to its minimum
    and both plus infinity and NaN, for which every test is false, to its
    maximum.  [ClampedSpeedScale] is [FMath::Clamp(SpeedScale, 0., 1.)]
    with that case written out. *)
Definition ClampedSpeedScale (c : Config) (Speed : R) : R :=
  if Req_dec_T (SpeedMultMax c - SpeedMultMin c) 0 then
    if Rlt_dec (Speed - SpeedMultMin c) 0 then 0 else 1
  else
    let SpeedScale :=
      (Speed - SpeedMultMin c) / (SpeedMultMax c - SpeedMultMin c) in
    FMath.Clamp SpeedScale 0 1.

Definition SpeedMultiplierOf (c : Config) (m : Movement) (SpeedSq : R) : R :=
  let Speed := FMath.Sqrt SpeedSq in
  let SpeedMultiplier := FMath.Square (ClampedSpeedScale c Speed) in
  if negb (IsFalling m) then
    FMath.Max ((1 - SurfaceFriction m) * SpeedMultiplier) 0
  else SpeedMultiplier.

Definition UpdateStepHeight (c : Config) (m : Movement) : Movement :=
  let SpeedSq := SizeSquared2D (Velocity m) in
  if bOnLadder m
     || Rleb SpeedSq (MaxWalkSpeedCrouched c * MaxWalkSpeedCrouched c)
  then
    SetWalkableFloorZ (DefaultWalkableFloorZ c)
      (set_MaxStepHeight (DefaultStepHeight c) m)
  else
    let SpeedMultiplier := SpeedMultiplierOf c m SpeedSq in
    SetWalkableFloorZ
      (FMath.Lerp (DefaultWalkableFloorZ c) (9848 / 10000) SpeedMultiplier)
      (set_MaxStepHeight
         (FMath.Lerp (DefaultStepHeight c) (MinStepHeight c) SpeedMultiplier)
         m).

Definition CalcVelocity (c : Config) (o : Owner)
    (DeltaTime Friction : R) (bFluid : bool) (BrakingDeceleration : R)
    (m : Movement) : option Movement :=
  if CalcVelocitySkipped o DeltaTime then Some m
  else
    let Friction := FMath.Max 0 Friction in
    let MaxSpeed := GetMaxSpeed c o m in
    let '(Accel, Analog) := ForcedAcceleration c o m in
    let MaxSpeed := FMath.Max (MaxSpeed * Analog) (MinAnalogSpeed c) in
    (* Apply braking or deceleration *)
    let bZeroAcceleration := IsNearlyZeroV Accel FMath.KINDA_SMALL_NUMBER in
    let bIsGroundMove := IsMovingOnGround m && bBrakingWindowElapsed m in
    match CalcVelocity_friction c o DeltaTime Friction BrakingDeceleration
            MaxSpeed bIsGroundMove Accel (Velocity m) (SurfaceFriction m) with
    | None => None
    | Some Vel =>
        (* Apply fluid friction *)
        let Vel :=
          if bFluid then Vel *v (1 - FMath.Min (Friction * DeltaTime) 1)
          else Vel in
        (* Limit before *)
        let Vel := ClampAxes c Vel in
        let '(Vel, Accel) :=
          if bCheatFlying m then
            (NoClipVelocity c o Accel bZeroAcceleration, Accel)
          else if bOnLadder m then (Vel, Accel)
          else ApplyInputAcceleration c DeltaTime MaxSpeed bIsGroundMove
                 bZeroAcceleration (SurfaceFriction m) Accel Vel in
        (* Limit after *)
        let Vel := ClampAxes c Vel in
        Some (UpdateStepHeight c
                (set_Velocity Vel
                   (set_Acceleration Accel
                      (set_AnalogInputModifier Analog m))))
    end.

(* ===================================================================== *)
(** ** TickComponent (PBPlayerMovement.cpp, 187-236) *)

(** The braking window block of the tick. *)
Definition UpdateBrakingWindow (c : Config) (DeltaTime : R) (m : Movement)
  : Movement :=
  if IsMovingOnGround m then
    let Elapsed :=
      if negb (bBrakingWindowElapsed m)
      then BrakingWindowTimeElapsed m + DeltaTime * 1000
      else BrakingWindowTimeElapsed m in
    if Rle_dec (BrakingWindow c) Elapsed
    then set_BrakingWindow true 0 m
    else set_BrakingWindow (bBrakingWindowElapsed m) Elapsed m
  else
    (* don't brake in the air *)
    set_BrakingWindow false 0 m.

(** [Super_TickComponent] is the engine's tick (it performs the movement of
    the frame).  [PlayMoveSound], the debug overlay and the camera roll
    touch no field of [Movement] and are left out. *)
Definition TickComponent (Super_TickComponent : R -> Movement -> Movement)
    (c : Config) (o : Owner) (DeltaTime : R) (m : Movement) : Movement :=
  let m := Super_TickComponent DeltaTime m in
  let m :=
    if bHasDeferredMovementMode m
    then SetMovementMode (DeferredMovementMode m)
           (set_bHasDeferredMovementMode false m)
    else m in
  (* Skip player movement when we're simulating physics (ie ragdoll) *)
  if IsSimulatingPhysics o then m
  else
    set_bCrouchFrameTolerated (IsCrouching o)
      (UpdateBrakingWindow c DeltaTime m).

(** The movement mode the braking window block of a tick looks at. *)
Definition TickMode (Super_TickComponent : R -> Movement -> Movement)
    (DeltaTime : R) (m : Movement) : Movement :=
  let m := Super_TickComponent DeltaTime m in
  if bHasDeferredMovementMode m
  then SetMovementMode (DeferredMovementMode m)
         (set_bHasDeferredMovementMode false m)
  else m.

(* ===================================================================== *)
(** ** PhysFalling: the jump apex sub-step (PBPlayerMovement.cpp, 879-1185) *)

(** [UCharacterMovementComponent::GetSimulationTimeStep] *)
Definition GetSimulationTimeStep (c : Config) (RemainingTime : R)
    (Iterations : int32) : R :=
  let RemainingTime :=
    if Rlt_dec (MaxSimulationTimeStep c) RemainingTime then
      if (Iterations <? MaxSimulationIterations c)%Z
      then FMath.Min (MaxSimulationTimeStep c) (RemainingTime * (1 / 2))
      else RemainingTime
    else RemainingTime in
  FMath.Max MIN_TICK_TIME RemainingTime.

(** The loop variables the apex block reads and writes. *)
Record ApexState : Set := mkApex {
  aVelocity : FVector;
  aRemainingTime : R;
  aTimeTick : R;
  aIterations : int32;
  aNumJumpApexAttempts : int32;
  (** the value of the local [TimeToApex], when the block computes it *)
  aTimeToApex : option R;
  (** whether the sub-step was split at the apex *)
  aSplit : bool
}.

Definition ApexTimeMinimum : R := / 10000.

(** Lines 947-970.  [OldVelocity] is the velocity before input and gravity,
    [Vel] the one after [NewFallVelocity]. *)
Definition JumpApexSubstep (c : Config) (OldVelocity Vel : FVector)
    (TimeTick RemainingTime : R) (Iterations NumJumpApexAttempts : int32)
  : ApexState :=
  let unchanged t :=
    mkApex Vel RemainingTime TimeTick Iterations NumJumpApexAttempts t false in
  if Rltb 0 (Z OldVelocity) && Rleb (Z Vel) 0
     && (NumJumpApexAttempts <? MaxJumpApexAttemptsPerSimulation c)%Z
  then
    let DerivedAccel := (Vel -v OldVelocity) *v (/ TimeTick) in
    if negb (FMath.IsNearlyZero (Z DerivedAccel)) then
      let TimeToApex := - Z OldVelocity / Z DerivedAccel in
      if Rleb ApexTimeMinimum TimeToApex && Rltb TimeToApex TimeTick then
        let ApexVelocity := OldVelocity +v DerivedAccel *v TimeToApex in
        mkApex (mkVec (X ApexVelocity) (Y ApexVelocity) 0)
          (RemainingTime + (TimeTick - TimeToApex))
          TimeToApex
          (Iterations - 1)%Z
          (NumJumpApexAttempts + 1)%Z
          (Some TimeToApex) true
      else unchanged (Some TimeToApex)
    else unchanged None
  else unchanged None.

(** The engine and world behind one sub-step of [PhysFalling], for an
    engine state of type [EngineState]: whatever the engine-side code of
    the loop body reads and writes besides the fields of [Movement] (the
    updated component, the root motion sources, the character's jump force
    time) and the locals of the body that the apex block does not touch
    ([OldLocation], [PawnRotation], [OldVelocityWithRootMotion],
    [GravityTime], [bEndingJumpForce], [MaxDecel]).  The variables the apex
    block reads or writes are explicit.
    - [BeginSubStep] stands for lines 900-906: the reads of the component,
      [bJustTeleported = false], [OldVelocityWithRootMotion = Velocity] and
      [RestorePreAdditiveRootMotionVelocity()], which can change
      [Velocity];
    - [BeforeApex] stands for lines 910-945 (the air [CalcVelocity], the
      jump force bookkeeping, [NewFallVelocity]); it is given [TimeTick]
      and [OldVelocity] and leaves the velocity after gravity;
    - [AfterApex] stands for lines 972-1177 (root motion, apex
      notification, the sweep and the collision response); it is given
      [TimeTick], [RemainingTime], [Iterations] and [OldVelocity] as the
      apex block leaves them, and says besides the states whether the
      function returned from inside the loop. *)
Record FallingEngine (EngineState : Type) : Type := mkFallingEngine {
  BeginSubStep : EngineState -> Movement -> EngineState * Movement;
  BeforeApex :
    R -> FVector -> EngineState -> Movement -> EngineState * Movement;
  AfterApex :
    R -> R -> int32 -> FVector -> EngineState -> Movement
    -> EngineState * Movement * bool
}.

Arguments BeginSubStep {EngineState} _ _ _.
Arguments BeforeApex {EngineState} _ _ _ _ _.
Arguments AfterApex {EngineState} _ _ _ _ _ _ _.

Record FallingState (EngineState : Type) : Type := mkFalling {
  fEngine : EngineState;
  fMovement : Movement;
  fRemainingTime : R;
  fIterations : int32;
  fNumJumpApexAttempts : int32
}.

Arguments mkFalling {EngineState} _ _ _ _ _.
Arguments fEngine {EngineState} _.
Arguments fMovement {EngineState} _.
Arguments fRemainingTime {EngineState} _.
Arguments fIterations {EngineState} _.
Arguments fNumJumpApexAttempts {EngineState} _.

(** Lines 1179-1183: residual lateral speed is snapped to zero. *)
Definition SnapLateral (v : FVector) : FVector :=
  if Rle_dec (SizeSquared2D v) (FMath.KINDA_SMALL_NUMBER * 10)
  then mkVec 0 0 (Z v) else v.

(** The [while] loop of [PhysFalling]; the list is the trace of apex
    blocks, one entry per iteration.  When the function returns from
    inside the loop its loop variables are dead; the state then reports
    them as the apex block left them. *)
Fixpoint PhysFallingLoop {EngineState : Type} (fuel : nat)
    (e : FallingEngine EngineState) (c : Config)
    (s : FallingState EngineState)
  : option (list ApexState * FallingState EngineState) :=
  if Rleb MIN_TICK_TIME (fRemainingTime s)
     && (fIterations s <? MaxSimulationIterations c)%Z
  then
    match fuel with
    | O => None
    | S fuel' =>
        let Iterations := (fIterations s + 1)%Z in
        let TimeTick := GetSimulationTimeStep c (fRemainingTime s) Iterations in
        let RemainingTime := fRemainingTime s - TimeTick in
        let '(w, m) := BeginSubStep e (fEngine s) (fMovement s) in
        let OldVelocity := Velocity m in
        let '(w, m) := BeforeApex e TimeTick OldVelocity w m in
        (* See if we need to sub-step to exactly reach the apex. *)
        let a := JumpApexSubstep c OldVelocity (Velocity m) TimeTick
                   RemainingTime Iterations (fNumJumpApexAttempts s) in
        let '(w, m, returned) :=
          AfterApex e (aTimeTick a) (aRemainingTime a) (aIterations a)
            OldVelocity w (set_Velocity (aVelocity a) m) in
        if returned then
          Some ([a], mkFalling w m (aRemainingTime a) (aIterations a)
                       (aNumJumpApexAttempts a))
        else
          let m := set_Velocity (SnapLateral (Velocity m)) m in
          match PhysFallingLoop fuel' e c
                  (mkFalling w m (aRemainingTime a) (aIterations a)
                     (aNumJumpApexAttempts a)) with
          | Some (tr, s') => Some (a :: tr, s')
          | None => None
          end
    end
  else Some ([], s).

(** Every iteration either advances [Iterations] or uses up one apex
    attempt, so this many iterations are enough. *)
Definition PhysFallingFuel {EngineState : Type} (c : Config)
    (s : FallingState EngineState) : nat :=
  Z.to_nat (Z.max 0 (MaxSimulationIterations c - fIterations s)
            + Z.max 0 (MaxJumpApexAttemptsPerSimulation c
                       - fNumJumpApexAttempts s)).

(** [PhysFalling(DeltaTime, Iterations)] on the engine state [w] and the
    component [m], with the member [NumJumpApexAttempts] as the caller
    left it. *)
Definition PhysFalling {EngineState : Type} (e : FallingEngine EngineState)
    (c : Config) (DeltaTime : R) (Iterations : int32)
    (NumJumpApexAttempts : int32) (w : EngineState) (m : Movement)
  : option (list ApexState * FallingState EngineState) :=
  let s := mkFalling w m DeltaTime Iterations NumJumpApexAttempts in
  if Rltb DeltaTime MIN_TICK_TIME then Some ([], s)
  else PhysFallingLoop (PhysFallingFuel c s) e c s.

(** Number of sub-steps of a trace that were split at the apex. *)
Definition ApexSplits (tr : list ApexState) : nat :=
  length (filter aSplit tr).

(** The time the sub-steps of a trace moved the character for, in
    seconds: the sum of their [TimeTick] as the move saw it. *)
Definition MovedTime (tr : list ApexState) : R :=
  fold_right (fun a acc => aTimeTick a + acc) 0 tr.

(** A falling character with no engine state, no root motion and no jump
    force, under plain gravity in empty space: the velocity gains
    [GravityZ * TimeTick] and the move hits nothing. *)
Definition FreeFallEngine (c : Config) : FallingEngine unit :=
  {| BeginSubStep := fun w m => (w, m);
     BeforeApex :=
       fun TimeTick _ w m =>
         (w, set_Velocity
               (Velocity m +v mkVec 0 0 (GravityZ c * TimeTick)) m);
     AfterApex := fun _ _ _ _ w m => (w, m, false) |}.

(* ===================================================================== *)
(** ** Slide vectors and HandleSlopeBoosting (PBPlayerMovement.cpp, 273-301) *)

(** [FWalkableSlopeOverride] of the component that was hit. *)
Inductive EWalkableSlopeBehavior : Set :=
| WalkableSlope_Default | WalkableSlope_Increase
| WalkableSlope_Decrease | WalkableSlope_Unwalkable.

Record FHitResult : Set := mkHit {
  bBlockingHit : bool;
  bStartPenetrating : bool;
  Time : R;
  Location : FVector;
  ImpactPoint : FVector;
  Normal : FVector;
  ImpactNormal : FVector;
  SlopeBehavior : EWalkableSlopeBehavior;
  SlopeOverrideZ : R
}.

(** [UMovementComponent::ConstrainNormalToPlane] *)
Definition ConstrainNormalToPlane (c : Config) (N : FVector) : FVector :=
  if bConstrainToPlane c
  then GetSafeNormal (VectorPlaneProject N (PlaneConstraintNormal c))
  else N.

(** [UMovementComponent::ComputeSlideVector] *)
Definition Base_ComputeSlideVector (c : Config) (Delta : FVector) (t : R)
    (N : FVector) : FVector :=
  if negb (bConstrainToPlane c) then VectorPlaneProject Delta N *v t
  else VectorPlaneProject Delta (ConstrainNormalToPlane c N) *v t.

(** [UCharacterMovementComponent::HandleSlopeBoosting], the base version
    used on a ladder and in no-clip. *)
Definition Super_HandleSlopeBoosting (c : Config) (SlideResult Delta : FVector)
    (t : R) (N : FVector) : FVector :=
  if Rlt_dec 0 (Z SlideResult) then
    let ZLimit := Z Delta * t in
    if Rlt_dec FMath.KINDA_SMALL_NUMBER (Z SlideResult - ZLimit) then
      let Result :=
        if Rlt_dec 0 ZLimit then SlideResult *v (ZLimit / Z SlideResult)
        else ZeroVector in
      let Remainder := SlideResult -v Result in
      let RemainderXY := mkVec (X Remainder) (Y Remainder) 0 in
      let NormalXY := GetSafeNormal2D N in
      Result +v Base_ComputeSlideVector c RemainderXY 1 NormalXY
    else SlideResult
  else SlideResult.

Definition BounceCoefficient (c : Config) (m : Movement) : R :=
  1 + BounceMultiplier c * (1 - SurfaceFriction m).

(** The normal the slide is computed against, before any plane constraint. *)
Definition SlopeNormal (N : FVector) (Hit : FHitResult) : FVector :=
  let WallAngle := FMath.Abs (Z (ImpactNormal Hit)) in
  (* If too extreme, use the more stable hit normal *)
  if Rleb WallAngle PlayerMovementConstants.VerticalSlopeNormalZ
     || Reqb WallAngle 1
  then N else ImpactNormal Hit.

Definition HandleSlopeBoosting (c : Config) (m : Movement)
    (SlideResult Delta : FVector) (t : R) (N : FVector) (Hit : FHitResult)
  : FVector :=
  if bOnLadder m || bCheatFlying m
  then Super_HandleSlopeBoosting c SlideResult Delta t N
  else
    let ImpactNormal := SlopeNormal N Hit in
    let ImpactNormal :=
      if bConstrainToPlane c then ConstrainNormalToPlane c ImpactNormal
      else ImpactNormal in
    (Delta -v ProjectOnToNormal Delta ImpactNormal *v BounceCoefficient c m)
    *v t.

(** [UCharacterMovementComponent::ComputeSlideVector], which the override
    forwards to; it dispatches back to [HandleSlopeBoosting] when falling. *)
Definition ComputeSlideVector (c : Config) (m : Movement) (Delta : FVector)
    (t : R) (N : FVector) (Hit : FHitResult) : FVector :=
  let Result := Base_ComputeSlideVector c Delta t N in
  if IsFalling m then HandleSlopeBoosting c m Result Delta t N Hit
  else Result.

(* ===================================================================== *)
(** ** IsValidLandingSpot (PBPlayerMovement.cpp, 336-423) *)

(** [FWalkableSlopeOverride::ModifyWalkableFloorZ] *)
Definition ModifyWalkableFloorZ (Hit : FHitResult) (z : R) : R :=
  match SlopeBehavior Hit with
  | WalkableSlope_Default => z
  | WalkableSlope_Increase => FMath.Min z (SlopeOverrideZ Hit)
  | WalkableSlope_Decrease => FMath.Max z (SlopeOverrideZ Hit)
  | WalkableSlope_Unwalkable => 2
  end.

(** [UCharacterMovementComponent::IsWalkable] *)
Definition IsWalkable (m : Movement) (Hit : FHitResult) : bool :=
  if negb (bBlockingHit Hit && negb (bStartPenetrating Hit)) then false
  else if Rltb (Z (ImpactNormal Hit)) FMath.KINDA_SMALL_NUMBER then false
  else
    let TestWalkableZ := ModifyWalkableFloorZ Hit (WalkableFloorZ m) in
    negb (Rltb (Z (ImpactNormal Hit)) TestWalkableZ).

(** [UCharacterMovementComponent::IsWithinEdgeTolerance] *)
Definition IsWithinEdgeTolerance (CapsuleLocation TestImpactPoint : FVector)
    (CapsuleRadius : R) : bool :=
  let DistFromCenterSq := SizeSquared2D (TestImpactPoint -v CapsuleLocation) in
  let ReducedRadiusSq :=
    FMath.Square
      (FMath.Max (SWEEP_EDGE_REJECT_DISTANCE + FMath.KINDA_SMALL_NUMBER)
                 (CapsuleRadius - SWEEP_EDGE_REJECT_DISTANCE)) in
  Rltb DistFromCenterSq ReducedRadiusSq.

(** The floor query: [FindFloor(CapsuleLocation, FloorResult, false, &Hit)]
    followed by [FloorResult.IsWalkableFloor()], answered by the world. *)
Definition FloorQuery : Type := FVector -> FHitResult -> bool.

Definition IsValidLandingSpot (FindFloorWalkable : FloorQuery)
    (c : Config) (o : Owner) (m : Movement)
    (CapsuleLocation : FVector) (Hit : FHitResult) : bool :=
  if negb (bBlockingHit Hit) then false
  else
    let early_reject :=
      if negb (bStartPenetrating Hit) then
        (* Reject unwalkable floor normals. *)
        if negb (IsWalkable m Hit) then true
        else
          let above :=
            if bUseFlatBaseForFloorChecks c then
              (* Reject hits that are above our box *)
              let LowerHemisphereZ :=
                Z (Location Hit) - PawnHalfHeight o + MAX_FLOOR_DIST in
              (Rltb (Z (ImpactNormal Hit)) (WalkableFloorZ m)
               || Reqb (Z (ImpactNormal Hit)) 1)
              && Rltb LowerHemisphereZ (Z (ImpactPoint Hit))
            else
              (* Reject hits that are above our lower hemisphere *)
              let LowerHemisphereZ :=
                Z (Location Hit) - PawnHalfHeight o + PawnRadius o in
              Rleb LowerHemisphereZ (Z (ImpactPoint Hit)) in
          if above then true
          else
            (* Reject hits that are barely on the cusp of the radius *)
            negb (IsWithinEdgeTolerance (Location Hit) (ImpactPoint Hit)
                    (PawnRadius o))
      else
        (* Penetrating *)
        Rltb (Z (Normal Hit)) FMath.KINDA_SMALL_NUMBER in
    if early_reject then false
    else if negb (FindFloorWalkable CapsuleLocation Hit) then false
    else
      (* Slope bug fix: if moving up a slope... *)
      if Rltb (Z (Normal Hit)) 1 && Rltb (Velocity m |v Normal Hit) 0 then
        let DeflectionVector := Velocity m in
        (* a step of gravity *)
        let DeflectionVector :=
          mkVec (X DeflectionVector) (Y DeflectionVector)
            (Z DeflectionVector + (1 / 2) * GravityZ c * DeltaSeconds o) in
        let DeflectionVector :=
          ComputeSlideVector c m DeflectionVector 1 (Normal Hit) Hit in
        (* going up too fast to land *)
        negb (Rltb PlayerMovementConstants.JumpVelocity (Z DeflectionVector))
      else true.

(* ===================================================================== *)
(** ** DoUnCrouchResize (PBPlayerMovement.cpp, 1430-1641) *)

(** A capsule collision shape: radius and half height. *)
Record FCollisionShape : Set := mkShape {
  ShapeRadius : R;
  ShapeHalfHeight : R
}.

(** The character, its capsule and the crouch flags of the component. *)
Record CrouchState : Set := mkCrouch {
  ComponentLocation : FVector;          (* UpdatedComponent location *)
  CapsuleRadius : R;                    (* unscaled *)
  CapsuleHalfHeight : R;                (* unscaled *)
  bIsCrouched : bool;                   (* CharacterOwner->bIsCrouched *)
  bIsInCrouchTransition : bool;
  crouchFrameTolerated : bool;          (* bCrouchFrameTolerated *)
  bForceNextFloorCheck : bool;
  bShrinkProxyCapsule : bool;
  MeshTranslationOffsetZ : R;           (* client prediction data *)
  EndCrouchCalls : list (R * R)         (* OnEndCrouch notifications, latest first *)
}.

(** What the resize reads: defaults, tunables, the current floor and the
    world's overlap test. *)
Record CrouchEnv : Type := mkCrouchEnv {
  crouchHasValidData : bool;
  ShapeScale : R;                       (* CharacterCapsule->GetShapeScale() *)
  DefaultCapsuleRadius : R;             (* DefaultCharacter's capsule *)
  DefaultCapsuleHalfHeight : R;
  CrouchedHalfHeight : R;               (* GetCrouchedHalfHeight() *)
  GroundUncrouchCheckFactor : R;
  bCrouchMaintainsBaseLocation : bool;
  crouchIsMovingOnGround : bool;
  FloorBlockingHit : bool;              (* CurrentFloor.bBlockingHit *)
  FloorDist : R;                        (* CurrentFloor.FloorDist *)
  bSmoothMeshOffset : bool;             (* the net-mode test, with client data present *)
  OverlapBlockingTest : FVector -> FCollisionShape -> bool;
  AdjustProxyCapsuleSize : CrouchState -> CrouchState
}.

Definition set_bIsInCrouchTransition (b : bool) (s : CrouchState)
  : CrouchState :=
  mkCrouch (ComponentLocation s) (CapsuleRadius s) (CapsuleHalfHeight s)
    (bIsCrouched s) b (crouchFrameTolerated s) (bForceNextFloorCheck s)
    (bShrinkProxyCapsule s) (MeshTranslationOffsetZ s) (EndCrouchCalls s).

Definition set_bIsCrouched (b : bool) (s : CrouchState) : CrouchState :=
  mkCrouch (ComponentLocation s) (CapsuleRadius s) (CapsuleHalfHeight s)
    b (bIsInCrouchTransition s) (crouchFrameTolerated s)
    (bForceNextFloorCheck s) (bShrinkProxyCapsule s)
    (MeshTranslationOffsetZ s) (EndCrouchCalls s).

Definition set_crouchFrameTolerated (b : bool) (s : CrouchState)
  : CrouchState :=
  mkCrouch (ComponentLocation s) (CapsuleRadius s) (CapsuleHalfHeight s)
    (bIsCrouched s) (bIsInCrouchTransition s) b (bForceNextFloorCheck s)
    (bShrinkProxyCapsule s) (MeshTranslationOffsetZ s) (EndCrouchCalls s).

Definition set_bForceNextFloorCheck (b : bool) (s : CrouchState)
  : CrouchState :=
  mkCrouch (ComponentLocation s) (CapsuleRadius s) (CapsuleHalfHeight s)
    (bIsCrouched s) (bIsInCrouchTransition s) (crouchFrameTolerated s) b
    (bShrinkProxyCapsule s) (MeshTranslationOffsetZ s) (EndCrouchCalls s).

Definition set_bShrinkProxyCapsule (b : bool) (s : CrouchState)
  : CrouchState :=
  mkCrouch (ComponentLocation s) (CapsuleRadius s) (CapsuleHalfHeight s)
    (bIsCrouched s) (bIsInCrouchTransition s) (crouchFrameTolerated s)
    (bForceNextFloorCheck s) b (MeshTranslationOffsetZ s) (EndCrouchCalls s).

Definition set_MeshTranslationOffsetZ (z : R) (s : CrouchState)
  : CrouchState :=
  mkCrouch (ComponentLocation s) (CapsuleRadius s) (CapsuleHalfHeight s)
    (bIsCrouched s) (bIsInCrouchTransition s) (crouchFrameTolerated s)
    (bForceNextFloorCheck s) (bShrinkProxyCapsule s) z (EndCrouchCalls s).

(** [CharacterOwner->OnEndCrouch(HalfHeightAdjust, ScaledHalfHeightAdjust)] *)
Definition OnEndCrouch (a b : R) (s : CrouchState) : CrouchState :=
  mkCrouch (ComponentLocation s) (CapsuleRadius s) (CapsuleHalfHeight s)
    (bIsCrouched s) (bIsInCrouchTransition s) (crouchFrameTolerated s)
    (bForceNextFloorCheck s) (bShrinkProxyCapsule s)
    (MeshTranslationOffsetZ s) ((a, b) :: EndCrouchCalls s).

(** [UpdatedComponent->MoveComponent(Delta, ..., bSweep = false, ...)] *)
Definition MoveComponent (Delta : FVector) (s : CrouchState) : CrouchState :=
  mkCrouch (ComponentLocation s +v Delta) (CapsuleRadius s)
    (CapsuleHalfHeight s) (bIsCrouched s) (bIsInCrouchTransition s)
    (crouchFrameTolerated s) (bForceNextFloorCheck s)
    (bShrinkProxyCapsule s) (MeshTranslationOffsetZ s) (EndCrouchCalls s).

(** [UCapsuleComponent::SetCapsuleSize] *)
Definition SetCapsuleSize (InRadius InHalfHeight : R) (s : CrouchState)
  : CrouchState :=
  mkCrouch (ComponentLocation s) (FMath.Max 0 InRadius)
    (FMath.Max3 0 InHalfHeight InRadius) (bIsCrouched s)
    (bIsInCrouchTransition s) (crouchFrameTolerated s)
    (bForceNextFloorCheck s) (bShrinkProxyCapsule s)
    (MeshTranslationOffsetZ s) (EndCrouchCalls s).

(** [GetPawnCapsuleCollisionShape(SHRINK_HeightCustom, CustomShrinkAmount)] *)
Definition GetPawnCapsuleCollisionShape (e : CrouchEnv) (s : CrouchState)
    (CustomShrinkAmount : R) : FCollisionShape :=
  let MinExtent := FMath.KINDA_SMALL_NUMBER * 10 in
  mkShape (FMath.Max (CapsuleRadius s * ShapeScale e) MinExtent)
          (FMath.Max (CapsuleHalfHeight s * ShapeScale e - CustomShrinkAmount)
                     MinExtent).

Definition SweepInflation : R := FMath.KINDA_SMALL_NUMBER * 10.

(** [UnCrouch(false)]: only requests the transition. *)
Definition UnCrouch (s : CrouchState) : CrouchState :=
  set_bIsInCrouchTransition true s.

(** Progress of the transition: [CurrentAlpha], then [TargetAlpha] and
    [TargetAlphaDiff] before the completion clamp. *)
Definition UncrouchCurrentAlpha (e : CrouchEnv) (s : CrouchState) : R :=
  let FullCrouchDiff := DefaultCapsuleHalfHeight e - CrouchedHalfHeight e in
  1 - (DefaultCapsuleHalfHeight e - CapsuleHalfHeight s) / FullCrouchDiff.

(** The probe of lines 1486-1510: shape and location. *)
Definition RelaxedProbeShape (e : CrouchEnv) (s : CrouchState)
  : FCollisionShape :=
  let HalfHeightAdjust :=
    ShapeScale e * (DefaultCapsuleHalfHeight e - CapsuleHalfHeight s)
    * GroundUncrouchCheckFactor e in
  GetPawnCapsuleCollisionShape e s (- SweepInflation - HalfHeightAdjust).

Definition StandingLocationFor (e : CrouchEnv) (s : CrouchState)
    (shape : FCollisionShape) : FVector :=
  let CurrentCrouchedHalfHeight := CapsuleHalfHeight s * ShapeScale e in
  ComponentLocation s
  +v mkVec 0 0 (ShapeHalfHeight shape - CurrentCrouchedHalfHeight).

Definition RelaxedProbeBlocked (e : CrouchEnv) (s : CrouchState) : bool :=
  OverlapBlockingTest e (StandingLocationFor e s (RelaxedProbeShape e s))
    (RelaxedProbeShape e s).

(** The encroachment test of lines 1536-1608: the verdict [bEncroached]
    and the state after the moves it commits. *)
Definition UncrouchProbe (e : CrouchEnv) (ScaledHalfHeightAdjust : R)
    (s : CrouchState) : bool * CrouchState :=
  let PawnLocation := ComponentLocation s in
  let StandingCapsuleShape :=
    GetPawnCapsuleCollisionShape e s
      (- SweepInflation - ScaledHalfHeightAdjust) in
  if negb (bCrouchMaintainsBaseLocation e) then
    (* Expand in place *)
    if OverlapBlockingTest e PawnLocation StandingCapsuleShape then
      if Rlt_dec 0 ScaledHalfHeightAdjust then
        let PawnRadius := CapsuleRadius s * ShapeScale e in
        let PawnHalfHeight := CapsuleHalfHeight s * ShapeScale e in
        let ShrinkHalfHeight := PawnHalfHeight - PawnRadius in
        let TraceDist := PawnHalfHeight - ShrinkHalfHeight in
        (* FHitResult Hit(1.0f); the sweep itself is commented out *)
        let HitTime := 1 in
        let ShortCapsuleShape :=
          GetPawnCapsuleCollisionShape e s ShrinkHalfHeight in
        let DistanceToBase :=
          HitTime * TraceDist + ShapeHalfHeight ShortCapsuleShape in
        let NewLoc :=
          mkVec (X PawnLocation) (Y PawnLocation)
            (Z PawnLocation - DistanceToBase
             + ShapeHalfHeight StandingCapsuleShape + SweepInflation
             + MIN_FLOOR_DIST / 2) in
        if OverlapBlockingTest e NewLoc StandingCapsuleShape then (true, s)
        else (false, MoveComponent (NewLoc -v PawnLocation) s)
      else (true, s)
    else (false, s)
  else
    (* Expand while keeping base location the same. *)
    let StandingLocation := StandingLocationFor e s StandingCapsuleShape in
    let '(bEncroached, StandingLocation) :=
      if OverlapBlockingTest e StandingLocation StandingCapsuleShape then
        if crouchIsMovingOnGround e then
          let MinFloorDist := FMath.KINDA_SMALL_NUMBER * 10 in
          if FloorBlockingHit e && Rltb MinFloorDist (FloorDist e) then
            let Lowered :=
              mkVec (X StandingLocation) (Y StandingLocation)
                (Z StandingLocation - (FloorDist e - MinFloorDist)) in
            (OverlapBlockingTest e Lowered StandingCapsuleShape, Lowered)
          else (true, StandingLocation)
        else (true, StandingLocation)
      else (false, StandingLocation) in
    if bEncroached then (true, s)
    else
      (false,
       set_bForceNextFloorCheck true
         (MoveComponent (StandingLocation -v PawnLocation) s)).

Definition DoUnCrouchResize (e : CrouchEnv) (TargetTime DeltaTime : R)
    (bClientSimulation : bool) (s : CrouchState) : CrouchState :=
  if negb (crouchHasValidData e) then set_bIsInCrouchTransition false s
  else if FMath.IsNearlyEqual (CapsuleHalfHeight s) (DefaultCapsuleHalfHeight e)
  then
    (* collision is already at desired size *)
    let s := if negb bClientSimulation then set_bIsCrouched false s else s in
    set_bIsInCrouchTransition false
      (set_crouchFrameTolerated false (OnEndCrouch 0 0 s))
  else
    let ComponentScale := ShapeScale e in
    let OldUnscaledHalfHeight := CapsuleHalfHeight s in
    let UncrouchedHeight := DefaultCapsuleHalfHeight e in
    let FullCrouchDiff := UncrouchedHeight - CrouchedHalfHeight e in
    let InstantCrouch := FMath.IsNearlyZero TargetTime in
    let CurrentAlpha := UncrouchCurrentAlpha e s in
    let '(TargetAlphaDiff, TargetAlpha) :=
      if negb InstantCrouch
      then (DeltaTime / TargetTime, CurrentAlpha + DeltaTime / TargetTime)
      else (1, 1) in
    (* Don't partial uncrouch in tight places (like vents) *)
    if negb InstantCrouch && bCrouchMaintainsBaseLocation e
       && RelaxedProbeBlocked e s
    then s
    else
      let '(TargetAlphaDiff, s) :=
        if Rleb 1 TargetAlpha || FMath.IsNearlyEqual TargetAlpha 1
        then (1 - CurrentAlpha, set_bIsInCrouchTransition false s)
        else (TargetAlphaDiff, s) in
      let HalfHeightAdjust := FullCrouchDiff * TargetAlphaDiff in
      let ScaledHalfHeightAdjust := HalfHeightAdjust * ComponentScale in
      let '(aborted, s) :=
        if negb bClientSimulation then
          let '(bEncroached, s') := UncrouchProbe e ScaledHalfHeightAdjust s in
          (* If still encroached then abort. *)
          if bEncroached then (true, s')
          else (false, set_bIsCrouched false s')
        else (false, set_bShrinkProxyCapsule true s) in
      if aborted then s
      else
        (* actually grow the capsule *)
        let s :=
          SetCapsuleSize (DefaultCapsuleRadius e)
            (OldUnscaledHalfHeight + HalfHeightAdjust) s in
        let MeshAdjust :=
          DefaultCapsuleHalfHeight e - OldUnscaledHalfHeight
          + HalfHeightAdjust in
        let s := AdjustProxyCapsuleSize e s in
        let s := OnEndCrouch MeshAdjust (MeshAdjust * ComponentScale) s in
        let s := set_crouchFrameTolerated false s in
        (* Don't smooth this change in mesh position *)
        if bSmoothMeshOffset e
        then set_MeshTranslationOffsetZ
               (MeshTranslationOffsetZ s + ScaledHalfHeightAdjust) s
        else s.

(** The final verdict of the encroachment test for a call that reaches it. *)
Definition UncrouchEncroached (e : CrouchEnv) (TargetTime DeltaTime : R)
    (s : CrouchState) : bool :=
  let FullCrouchDiff := DefaultCapsuleHalfHeight e - CrouchedHalfHeight e in
  let CurrentAlpha := UncrouchCurrentAlpha e s in
  let TargetAlpha :=
    if negb (FMath.IsNearlyZero TargetTime)
    then CurrentAlpha + DeltaTime / TargetTime else 1 in
  let TargetAlphaDiff :=
    if Rleb 1 TargetAlpha || FMath.IsNearlyEqual TargetAlpha 1
    then 1 - CurrentAlpha else DeltaTime / TargetTime in
  fst (UncrouchProbe e (FullCrouchDiff * TargetAlphaDiff * ShapeScale e) s).

(* ===================================================================== *)
(** ** OnJumped_Implementation (PBPlayerCharacter.cpp, 169-231) *)

Record JumpEnv : Set := mkJumpEnv {
  CVarJumpBoost : int32;            (* move.JumpBoost *)
  CVarBunnyhop : int32;             (* move.Bunnyhopping *)
  jumpIsOnLadder : bool;            (* MovementPtr->IsOnLadder() *)
  TimeSeconds : R;                  (* GetWorld()->GetTimeSeconds() *)
  MaxJumpTime : R;
  Facing : FVector;                 (* GetActorForwardVector() *)
  CurrentAcceleration : FVector;    (* GetCurrentAcceleration() *)
  jumpIsSprinting : bool;
  jumpIsCrouched : bool;
  jumpMaxSpeed : R;                 (* GetCharacterMovement()->GetMaxSpeed() *)
  jumpMaxAcceleration : R           (* MovementPtr->GetMaxAcceleration() *)
}.

Record JumpState : Set := mkJumpState {
  jumpVelocity : FVector;           (* GetMovementComponent()->Velocity *)
  LastJumpBoostTime : R
}.

Definition OnJumped_Implementation (e : JumpEnv) (s : JumpState) : JumpState :=
  let JumpBoost := CVarJumpBoost e in
  if jumpIsOnLadder e then s
  else if Rleb (LastJumpBoostTime s + MaxJumpTime e) (TimeSeconds e)
          && negb (JumpBoost =? 0)%Z
  then
    let Vel := jumpVelocity s in
    (* Use input direction *)
    let Input := CurrentAcceleration e in
    let Input :=
      if negb (JumpBoost =? 1)%Z then
        (* Only boost input in the direction of current movement axis *)
        Input *v FMath.Max (GetSafeNormal2D Input |v GetSafeNormal2D Vel) 0
      else Input in
    let ForwardSpeed := Input |v Facing e in
    (* Adjust how much the boost is *)
    let SpeedBoostPerc :=
      if jumpIsSprinting e || jumpIsCrouched e then 1 / 10 else 1 / 2 in
    (* How much we are boosting by *)
    let SpeedAddition := FMath.Abs (ForwardSpeed * SpeedBoostPerc) in
    (* We can only boost up to this much *)
    let MaxBoostedSpeed :=
      (jumpMaxSpeed e + jumpMaxSpeed e) * SpeedBoostPerc in
    (* Calculate new speed *)
    let NewSpeed := SpeedAddition + Size2D Vel in
    let SpeedAdditionNoClamp := SpeedAddition in
    (* Scale the boost down if we are going over *)
    let SpeedAddition :=
      if Rlt_dec MaxBoostedSpeed NewSpeed
      then SpeedAddition - (NewSpeed - MaxBoostedSpeed)
      else SpeedAddition in
    (* Boost backwards if we're going backwards *)
    let '(SpeedAddition, SpeedAdditionNoClamp) :=
      if Rlt_dec ForwardSpeed (- jumpMaxAcceleration e * sin (6981 / 10000))
      then (SpeedAddition * -1, SpeedAdditionNoClamp * -1)
      else (SpeedAddition, SpeedAdditionNoClamp) in
    (* Boost our velocity *)
    let JumpBoostedVel := Vel +v Facing e *v SpeedAddition in
    let JumpBoostedSizeSq := SizeSquared2D JumpBoostedVel in
    let '(JumpBoostedVel, JumpBoostedSizeSq) :=
      if negb (CVarBunnyhop e =? 0)%Z then
        let JumpBoostedUnclampVel := Vel +v Facing e *v SpeedAdditionNoClamp in
        let JumpBoostedUnclampSizeSq := SizeSquared2D JumpBoostedUnclampVel in
        if Rlt_dec JumpBoostedSizeSq JumpBoostedUnclampSizeSq
        then (JumpBoostedUnclampVel, JumpBoostedUnclampSizeSq)
        else (JumpBoostedVel, JumpBoostedSizeSq)
      else (JumpBoostedVel, JumpBoostedSizeSq) in
    mkJumpState
      (if Rlt_dec (SizeSquared2D Vel) JumpBoostedSizeSq
       then JumpBoostedVel else Vel)
      (TimeSeconds e)
  else s.

(* ===================================================================== *)
(** ** Reference values *)

(** The values the constructor of [UPBPlayerMovement] assigns (engine
    defaults where it assigns none). *)
Definition StockConfig : Config :=
  {| BrakingFrictionFactor := 1;
     BrakingSubStepTime := 15 / 1000;
     BrakingFriction := 4;
     bUseSeparateBrakingFriction := false;
     MaxAcceleration := 85725 / 100;
     WalkSpeed := 28575 / 100;
     RunSpeed := 3619 / 10;
     SprintSpeed := 6096 / 10;
     MaxWalkSpeedCrouched := 3619 / 10 * (1 / 3);
     MinAnalogSpeed := 0;
     GroundAccelerationMultiplier := 10;
     AirAccelerationMultiplier := 10;
     AirSpeedCap := 5715 / 100;
     AxisSpeedLimit := 66675 / 10;
     SpeedMultMin := 6096 / 10 * (17 / 10);
     SpeedMultMax := 6096 / 10 * (25 / 10);
     DefaultStepHeight := 3429 / 100;
     MinStepHeight := 10;
     DefaultWalkableFloorZ := 7 / 10;
     BrakingWindow := 15;
     BounceMultiplier := 0;
     bForceMaxAccel := false;
     bConstrainToPlane := false;
     PlaneConstraintNormal := ZeroVector;
     bUseFlatBaseForFloorChecks := true;
     GravityZ := PlayerMovementConstants.DesiredGravity;
     FallingLateralFriction := 0;
     MaxSimulationTimeStep := 1 / 2;
     MaxSimulationIterations := 1%Z;
     MaxJumpApexAttemptsPerSimulation := 2%Z |}.

(** A locally controlled character standing upright, no root motion, with
    the capsule of the constructor of [APBPlayerCharacter]. *)
Definition LocalOwner : Owner :=
  {| HasValidData := true;
     HasAnimRootMotion := false;
     HasOverrideVelocity := false;
     bSimulatedProxy := false;
     bWasSimulatingRootMotion := false;
     IsSimulatingPhysics := false;
     IsSprinting := false;
     DoesWantToWalk := false;
     IsCrouching := false;
     ForwardVector := mkVec 1 0 0;
     ControlRotationVector := mkVec 1 0 0;
     ActorForwardVector := mkVec 1 0 0;
     DeltaSeconds := 1 / 100;
     PawnRadius := 3048 / 100;
     PawnHalfHeight := 6858 / 100 |}.

(** The same character as a ragdoll: its updated component simulates
    physics. *)
Definition RagdollOwner : Owner :=
  {| HasValidData := true;
     HasAnimRootMotion := false;
     HasOverrideVelocity := false;
     bSimulatedProxy := false;
     bWasSimulatingRootMotion := false;
     IsSimulatingPhysics := true;
     IsSprinting := false;
     DoesWantToWalk := false;
     IsCrouching := false;
     ForwardVector := mkVec 1 0 0;
     ControlRotationVector := mkVec 1 0 0;
     ActorForwardVector := mkVec 1 0 0;
     DeltaSeconds := 1 / 100;
     PawnRadius := 3048 / 100;
     PawnHalfHeight := 6858 / 100 |}.

(** The component right after construction, walking. *)
Definition StockMovement : Movement :=
  {| Velocity := ZeroVector;
     Acceleration := ZeroVector;
     AnalogInputModifier := 1;
     MovementMode := MOVE_Walking;
     bHasDeferredMovementMode := false;
     DeferredMovementMode := MOVE_None;
     bCheatFlying := false;
     bOnLadder := false;
     SurfaceFriction := 1;
     MaxStepHeight := 3429 / 100;
     WalkableFloorZ := 7 / 10;
     bBrakingWindowElapsed := true;
     BrakingWindowTimeElapsed := 0;
     bCrouchFrameTolerated := false |}.

(** A hit on a walkable slope of about 37 degrees (normal Z = 0.8). *)
Definition SlopeHit : FHitResult :=
  {| bBlockingHit := true;
     bStartPenetrating := false;
     Time := 1 / 2;
     Location := ZeroVector;
     ImpactPoint := mkVec 0 0 (- 60);
     Normal := mkVec (6 / 10) 0 (8 / 10);
     ImpactNormal := mkVec (6 / 10) 0 (8 / 10);
     SlopeBehavior := WalkableSlope_Default;
     SlopeOverrideZ := 0 |}.

(** A hit on a flat floor under the feet of the stock capsule. *)
Definition FloorHit : FHitResult :=
  {| bBlockingHit := true;
     bStartPenetrating := false;
     Time := 1 / 2;
     Location := ZeroVector;
     ImpactPoint := mkVec 0 0 (- (6858 / 100));
     Normal := mkVec 0 0 1;
     ImpactNormal := mkVec 0 0 1;
     SlopeBehavior := WalkableSlope_Default;
     SlopeOverrideZ := 0 |}.

(** A flat ceiling: the impact normal points straight down. *)
Definition CeilingHit : FHitResult :=
  {| bBlockingHit := true;
     bStartPenetrating := false;
     Time := 1 / 2;
     Location := ZeroVector;
     ImpactPoint := mkVec 0 0 60;
     Normal := mkVec (6 / 10) 0 (- (8 / 10));
     ImpactNormal := mkVec 0 0 (- 1);
     SlopeBehavior := WalkableSlope_Default;
     SlopeOverrideZ := 0 |}.

(** The stock component while climbing a ladder. *)
Definition LadderMovement : Movement :=
  {| Velocity := mkVec 0 0 381;
     Acceleration := ZeroVector;
     AnalogInputModifier := 1;
     MovementMode := MOVE_Flying;
     bHasDeferredMovementMode := false;
     DeferredMovementMode := MOVE_None;
     bCheatFlying := false;
     bOnLadder := true;
     SurfaceFriction := 1;
     MaxStepHeight := 10;
     WalkableFloorZ := 9 / 10;
     bBrakingWindowElapsed := false;
     BrakingWindowTimeElapsed := 0;
     bCrouchFrameTolerated := false |}.

(** The stock component just after a jump: falling, moving forward and up. *)
Definition FallingMovement : Movement :=
  {| Velocity := mkVec 300 0 (3048 / 10);
     Acceleration := ZeroVector;
     AnalogInputModifier := 1;
     MovementMode := MOVE_Falling;
     bHasDeferredMovementMode := false;
     DeferredMovementMode := MOVE_None;
     bCheatFlying := false;
     bOnLadder := false;
     SurfaceFriction := 1;
     MaxStepHeight := 3429 / 100;
     WalkableFloorZ := 7 / 10;
     bBrakingWindowElapsed := true;
     BrakingWindowTimeElapsed := 0;
     bCrouchFrameTolerated := false |}.

(** Airborne at 700 u/s along X (above the sprint speed), full input
    along Y. *)
Definition AirStrafeMovement : Movement :=
  set_Acceleration (mkVec 0 (85725 / 100) 0)
    (set_Velocity (mkVec 700 0 100) FallingMovement).

(** Airborne without input at 2.1 times the sprint speed along X, half
    way between [SpeedMultMin] and [SpeedMultMax] of the stock
    configuration. *)
Definition FastFallingMovement : Movement :=
  set_Velocity (mkVec (128016 / 100) 0 0) FallingMovement.

(** The same, with an input of 0.00005 along Y. *)
Definition TinyInputMovement : Movement :=
  set_Acceleration (mkVec 0 (5 / 100000) 0)
    (set_Velocity (mkVec 700 0 100) FallingMovement).

(** A fully crouched character under a low ceiling: every overlap test
    reports blocking geometry. *)
Definition VentEnv : CrouchEnv :=
  {| crouchHasValidData := true;
     ShapeScale := 1;
     DefaultCapsuleRadius := 3048 / 100;
     DefaultCapsuleHalfHeight := 6858 / 100;
     CrouchedHalfHeight := 3429 / 100;
     GroundUncrouchCheckFactor := 75 / 100;
     bCrouchMaintainsBaseLocation := true;
     crouchIsMovingOnGround := true;
     FloorBlockingHit := true;
     FloorDist := 2;
     bSmoothMeshOffset := false;
     OverlapBlockingTest := fun _ _ => true;
     AdjustProxyCapsuleSize := fun s => s |}.

(** The character fully crouched on the floor, an uncrouch requested. *)
Definition CrouchedState : CrouchState :=
  {| ComponentLocation := mkVec 0 0 (3429 / 100);
     CapsuleRadius := 3048 / 100;
     CapsuleHalfHeight := 3429 / 100;
     bIsCrouched := true;
     bIsInCrouchTransition := true;
     crouchFrameTolerated := true;
     bForceNextFloorCheck := false;
     bShrinkProxyCapsule := false;
     MeshTranslationOffsetZ := 0;
     EndCrouchCalls := [] |}.

(* ===================================================================== *)
(** ** Closed forms used in the statements *)

(** What braking at rate [k] (effective friction times effective
    deceleration) for [dt] seconds leaves of [V]: [V] shortened by [k * dt],
    or zero when that would reverse it or leave it nearly zero. *)
Definition BrakedVelocity (k dt : R) (V : FVector) : FVector :=
  if Rle_dec (Size V) (k * dt) then ZeroVector
  else
    let W := V *v (1 - k * (dt - 0) / Size V) in
    if IsNearlyZeroV W FMath.KINDA_SMALL_NUMBER then ZeroVector else W.

(** A velocity an intermediate braking sub-step may hold: zero, or the
    starting velocity scaled by a factor in (0, 1]. *)
Definition NotReversed (V W : FVector) : Prop :=
  W = ZeroVector \/ exists q, 0 < q <= 1 /\ W = V *v q.

(** The shape of the sub-step trace of one call that starts from [V] and
    returns [V']: positive multiples of [V], closed, when the loop snaps,
    by a single zero vector after which nothing follows and the call
    returns zero. *)
Inductive BrakeTrace (V V' : FVector) : list FVector -> Prop :=
| BT_done : BrakeTrace V V' []
| BT_snap : V' = ZeroVector -> BrakeTrace V V' [ZeroVector]
| BT_step (q : R) (steps : list FVector) :
    0 < q <= 1 -> BrakeTrace V V' steps ->
    BrakeTrace V V' (V *v q :: steps).

(* ===================================================================== *)
(** ** Braking sub-steps *)

(** The same tunables with another [BrakingSubStepTime]. *)
Definition set_BrakingSubStepTime (t : R) (c : Config) : Config :=
  mkConfig (BrakingFrictionFactor c) t (BrakingFriction c)
    (bUseSeparateBrakingFriction c) (MaxAcceleration c) (WalkSpeed c)
    (RunSpeed c) (SprintSpeed c) (MaxWalkSpeedCrouched c) (MinAnalogSpeed c)
    (GroundAccelerationMultiplier c) (AirAccelerationMultiplier c)
    (AirSpeedCap c) (AxisSpeedLimit c) (SpeedMultMin c) (SpeedMultMax c)
    (DefaultStepHeight c) (MinStepHeight c) (DefaultWalkableFloorZ c)
    (BrakingWindow c) (BounceMultiplier c) (bForceMaxAccel c)
    (bConstrainToPlane c) (PlaneConstraintNormal c)
    (bUseFlatBaseForFloorChecks c) (GravityZ c) (FallingLateralFriction c)
    (MaxSimulationTimeStep c) (MaxSimulationIterations c)
    (MaxJumpApexAttemptsPerSimulation c).

(* ===================================================================== *)
(** ** Surface friction (PBPlayerMovement.cpp, 47-54, 303-334, 601-621) *)

(** [PlayerMovementPrivate::GetFrictionFromHit].  The argument is the
    friction of the hit's physical material, [None] when the hit has no
    valid material. *)
Definition GetFrictionFromHit (PhysMaterialFriction : option R) : R :=
  match PhysMaterialFriction with
  | Some Friction => FMath.Min 1 (Friction * (125 / 100))
  | None => 1
  end.

Definition set_SurfaceFriction (f : R) (m : Movement) : Movement :=
  mkMovement (Velocity m) (Acceleration m) (AnalogInputModifier m)
    (MovementMode m) (bHasDeferredMovementMode m) (DeferredMovementMode m)
    (bCheatFlying m) (bOnLadder m) f (MaxStepHeight m) (WalkableFloorZ m)
    (bBrakingWindowElapsed m) (BrakingWindowTimeElapsed m)
    (bCrouchFrameTolerated m).

(** [FloorIsWalkable] is [CurrentFloor.IsWalkableFloor()]; [FloorMaterial]
    is the material of the hit that [TraceCharacterFloor] finds. *)
Definition UpdateSurfaceFriction (FloorIsWalkable : bool)
    (FloorMaterial : option R) (bIsSliding : bool) (m : Movement)
  : Movement :=
  if negb (IsFalling m) && FloorIsWalkable then
    set_SurfaceFriction (GetFrictionFromHit FloorMaterial) m
  else
    (* Player controls have moved vertically *)
    if bOnLadder m
       || Rltb PlayerMovementConstants.JumpVelocity (Z (Velocity m))
       || Rleb (Z (Velocity m)) 0
       || bCheatFlying m
    then set_SurfaceFriction 1 m
    else if bIsSliding then set_SurfaceFriction (25 / 100) m
    else m.

(** [ShouldCatchAir].  [OldFloorMaterial], [OldImpactNormal] and
    [NewImpactNormal] are read from the hit results of the two floors;
    [Super_ShouldCatchAir] is the verdict of the base class.  The quotient
    is the real one: a velocity without lateral part is outside the model. *)
Definition ShouldCatchAir (Super_ShouldCatchAir : bool) (c : Config)
    (OldFloorMaterial : option R) (OldImpactNormal NewImpactNormal : FVector)
    (LastInputVector ActorRightVector : FVector) (m : Movement) : bool :=
  (* Get surface friction *)
  let OldSurfaceFriction := GetFrictionFromHit OldFloorMaterial in
  (* As we get faster, make our speed multiplier smaller *)
  let SpeedMult := SpeedMultMax c / Size2D (Velocity m) in
  let bSliding := Rltb (OldSurfaceFriction * SpeedMult) (1 / 2) in
  (* See if we got less steep or are continuing at the same slope *)
  let ZDiff := Z NewImpactNormal - Z OldImpactNormal in
  let bGainingRamp := Rleb 0 ZDiff in
  let Slope := Velocity m |v OldImpactNormal in
  let bWasGoingUpRamp := Rltb Slope 0 in
  let StrafeMovement := FMath.Abs (LastInputVector |v ActorRightVector) in
  let bStrafingOffRamp := Rltb 0 StrafeMovement in
  let bMovingForCatchAir := bWasGoingUpRamp || bStrafingOffRamp in
  if bSliding && bGainingRamp && bMovingForCatchAir then true
  else Super_ShouldCatchAir.

(* ===================================================================== *)
(** ** NewFallVelocity (PBPlayerMovement.cpp, 578-583) *)

(** [Super_NewFallVelocity] is the engine's version (gravity and the
    terminal velocity of the physics volume). *)
Definition NewFallVelocity
    (Super_NewFallVelocity : FVector -> FVector -> R -> FVector)
    (c : Config) (InitialVelocity Gravity : FVector) (DeltaTime : R)
  : FVector :=
  let FallVel := Super_NewFallVelocity InitialVelocity Gravity DeltaTime in
  mkVec (X FallVel) (Y FallVel)
    (FMath.Clamp (Z FallVel) (- AxisSpeedLimit c) (AxisSpeedLimit c)).

(* ===================================================================== *)
(** ** Camera roll and no-clip (PBPlayerMovement.cpp, 472-515) *)

(** [FMath::Sign] *)
Definition Sign (a : R) : R :=
  if Rlt_dec 0 a then 1 else if Rlt_dec a 0 then - 1 else 0.

(** [RightAxis] is
    [FRotationMatrix(GetControlRotation()).GetScaledAxis(EAxis::Y)]. *)
Definition GetCameraRoll (RollSpeed RollAngle : R) (RightAxis : FVector)
    (m : Movement) : R :=
  if Reqb RollSpeed 0 || Reqb RollAngle 0 then 0
  else
    let Side := Velocity m |v RightAxis in
    let Sign := Sign Side in
    let Side := FMath.Abs Side in
    let Side :=
      if Rlt_dec Side RollSpeed then Side * RollAngle / RollSpeed
      else RollAngle in
    Side * Sign.

Definition set_bCheatFlying (b : bool) (m : Movement) : Movement :=
  mkMovement (Velocity m) (Acceleration m) (AnalogInputModifier m)
    (MovementMode m) (bHasDeferredMovementMode m) (DeferredMovementMode m)
    b (bOnLadder m) (SurfaceFriction m) (MaxStepHeight m) (WalkableFloorZ m)
    (bBrakingWindowElapsed m) (BrakingWindowTimeElapsed m)
    (bCrouchFrameTolerated m).

Definition set_DeferredMovementMode (mode : EMovementMode) (m : Movement)
  : Movement :=
  mkMovement (Velocity m) (Acceleration m) (AnalogInputModifier m)
    (MovementMode m) (bHasDeferredMovementMode m) mode
    (bCheatFlying m) (bOnLadder m) (SurfaceFriction m) (MaxStepHeight m)
    (WalkableFloorZ m) (bBrakingWindowElapsed m) (BrakingWindowTimeElapsed m)
    (bCrouchFrameTolerated m).

(** [SetNoClip]; the collision switch of the owning actor is not a field of
    [Movement]. *)
Definition SetNoClip (bNoClip : bool) (m : Movement) : Movement :=
  let m :=
    if bNoClip then
      set_bCheatFlying true
        (set_DeferredMovementMode MOVE_Flying (SetMovementMode MOVE_Flying m))
    else
      set_bCheatFlying false
        (set_DeferredMovementMode MOVE_Walking
           (SetMovementMode MOVE_Walking m)) in
  set_bHasDeferredMovementMode true m.

Definition ToggleNoClip (m : Movement) : Movement :=
  SetNoClip (negb (bCheatFlying m)) m.

(** [n] ticks of the component, one after the other. *)
Fixpoint TickComponents (n : nat)
    (Super_TickComponent : R -> Movement -> Movement)
    (c : Config) (o : Owner) (DeltaTime : R) (m : Movement) : Movement :=
  match n with
  | O => m
  | S n' =>
      TickComponents n' Super_TickComponent c o DeltaTime
        (TickComponent Super_TickComponent c o DeltaTime m)
  end.

(* ===================================================================== *)
(** ** MoveUpdatedComponentImpl (PBPlayerMovement.cpp, 1643-1675) *)

(** The delta the override hands to the base implementation.
    [LineTraceSingle Start End] is the hit of
    [LineTraceSingleByChannel], whose return value is the hit's
    [bBlockingHit]; [bTeleportNone] is [Teleport == ETeleportType::None]. *)
Definition MoveUpdatedComponentImpl_NewDelta
    (LineTraceSingle : FVector -> FVector -> FHitResult)
    (c : Config) (o : Owner) (m : Movement) (ComponentLocation : FVector)
    (Delta : FVector) (bSweep bTeleportNone : bool) : FVector :=
  if bSweep && bTeleportNone
     && negb (Reqb (X Delta) 0 && Reqb (Y Delta) 0 && Reqb (Z Delta) 0)
     && IsFalling m && Rltb 0 (Z Delta)
  then
    let HorizontalMovement := SizeSquared2D Delta in
    if Rlt_dec FMath.KINDA_SMALL_NUMBER HorizontalMovement then
      (* Shrink our base height so we don't intersect any current floor,
         and find where we would end up if we moved *)
      let LineTraceStart :=
        mkVec (X ComponentLocation) (Y ComponentLocation)
          (Z ComponentLocation
           + (- PawnHalfHeight o + MAX_FLOOR_DIST + Z Delta)) in
      (* Inflate our search radius so we can anticipate new surfaces *)
      let DeltaDir :=
        GetSafeNormal2D Delta *v (PawnRadius o + SWEEP_EDGE_REJECT_DISTANCE) in
      let Hit := LineTraceSingle LineTraceStart (LineTraceStart +v DeltaDir) in
      if bBlockingHit Hit
         && Rleb (FMath.Abs (Z (ImpactNormal Hit)))
              PlayerMovementConstants.VerticalSlopeNormalZ
      then
        (* Blocked horizontally by box *)
        ComputeSlideVector c m Delta 1 (ImpactNormal Hit) Hit
      else Delta
    else Delta
  else Delta.

(* ===================================================================== *)
(** ** Jumping (PBPlayerMovement.cpp, 238-261, 1677-1691;
       PBPlayerCharacter.cpp, 64-73, 114-167, 243-281) *)

(** [CanAttemptJump]; [IsJumpAllowed] is the answer of the engine,
    [FloorImpactNormal] is [CurrentFloor.HitResult.ImpactNormal]. *)
Definition CanAttemptJump (IsJumpAllowed : bool) (FloorImpactNormal : FVector)
    (m : Movement) : bool :=
  let bCanAttemptJump := IsJumpAllowed in
  if IsMovingOnGround m then
    let FloorZ := mkVec 0 0 1 |v FloorImpactNormal in
    let WalkableFloor := WalkableFloorZ m in
    bCanAttemptJump
    && (Rleb WalkableFloor FloorZ || FMath.IsNearlyEqual FloorZ WalkableFloor)
  else if negb (IsFalling m) then bCanAttemptJump && bOnLadder m
  else bCanAttemptJump.

(** [DoJump]; [CanJump] is [CharacterOwner && CharacterOwner->CanJump()],
    [JumpZVelocity] the tunable of the engine's component. *)
Definition DoJump (c : Config) (JumpZVelocity : R) (CanJump : bool)
    (m : Movement) : bool * Movement :=
  if negb (bCheatFlying m) && CanJump then
    (* Don't jump if we can't move up/down. *)
    if negb (bConstrainToPlane c)
       || negb (Reqb (FMath.Abs (Z (PlaneConstraintNormal c))) 1)
    then
      let VelocityZ :=
        if Rle_dec (Z (Velocity m)) 0 then JumpZVelocity
        else Z (Velocity m) + JumpZVelocity in
      (true,
       SetMovementMode MOVE_Falling
         (set_Velocity
            (mkVec (X (Velocity m)) (Y (Velocity m)) VelocityZ) m))
    else (false, m)
  else (false, m).

Module APBPlayerCharacter.

(** The jump bookkeeping of [ACharacter] and the flag the subclass adds. *)
Record JumpInput : Set := mkJumpInput {
  bPressedJump : bool;
  bWasJumping : bool;
  JumpKeyHoldTime : R;
  JumpForceTimeRemaining : R;
  JumpCurrentCount : int32;
  JumpCurrentCountPreJump : int32;
  bDeferJumpStop : bool
}.

(** Tunables and console variables the jump functions read. *)
Record JumpRules : Set := mkJumpRules {
  IsJumpAllowed : bool;             (* GetCharacterMovement()->IsJumpAllowed() *)
  JumpMaxHoldTime : R;              (* GetJumpMaxHoldTime() *)
  JumpMaxCount : int32;
  CVarAutoBHop : int32;             (* move.Pogo *)
  bAutoBunnyhop : bool
}.

Definition set_bDeferJumpStop (b : bool) (j : JumpInput) : JumpInput :=
  mkJumpInput (bPressedJump j) (bWasJumping j) (JumpKeyHoldTime j)
    (JumpForceTimeRemaining j) (JumpCurrentCount j)
    (JumpCurrentCountPreJump j) b.

(** [ACharacter::ResetJumpState] *)
Definition ResetJumpState (m : Movement) (j : JumpInput) : JumpInput :=
  if negb (IsFalling m) then
    mkJumpInput false false 0 0 0%Z 0%Z (bDeferJumpStop j)
  else
    mkJumpInput false false 0 0 (JumpCurrentCount j)
      (JumpCurrentCountPreJump j) (bDeferJumpStop j).

(** [ACharacter::Jump] *)
Definition Super_Jump (j : JumpInput) : JumpInput :=
  mkJumpInput true (bWasJumping j) 0 (JumpForceTimeRemaining j)
    (JumpCurrentCount j) (JumpCurrentCountPreJump j) (bDeferJumpStop j).

(** [ACharacter::StopJumping] *)
Definition Super_StopJumping (m : Movement) (j : JumpInput) : JumpInput :=
  ResetJumpState m
    (mkJumpInput false (bWasJumping j) (JumpKeyHoldTime j)
       (JumpForceTimeRemaining j) (JumpCurrentCount j)
       (JumpCurrentCountPreJump j) (bDeferJumpStop j)).

(** [ACharacter::ClearJumpInput] *)
Definition Super_ClearJumpInput (r : JumpRules) (DeltaTime : R)
    (j : JumpInput) : JumpInput :=
  if bPressedJump j then
    let HoldTime := JumpKeyHoldTime j + DeltaTime in
    (* Don't disable bPressedJump right away if it's still held. *)
    mkJumpInput
      (if Rle_dec (JumpMaxHoldTime r) HoldTime then false else bPressedJump j)
      (bWasJumping j) HoldTime (JumpForceTimeRemaining j)
      (JumpCurrentCount j) (JumpCurrentCountPreJump j) (bDeferJumpStop j)
  else
    mkJumpInput (bPressedJump j) false (JumpKeyHoldTime j) 0
      (JumpCurrentCount j) (JumpCurrentCountPreJump j) (bDeferJumpStop j).

(** [Tick]; [Super_Tick] is the tick of the base actor. *)
Definition Tick (Super_Tick : JumpInput -> JumpInput) (m : Movement)
    (j : JumpInput) : JumpInput :=
  let j := Super_Tick j in
  if bDeferJumpStop j
  then Super_StopJumping m (set_bDeferJumpStop false j)
  else j.

Definition ClearJumpInput (r : JumpRules) (DeltaTime : R) (m : Movement)
    (j : JumpInput) : JumpInput :=
  (* Don't clear jump input right away if we're auto hopping or noclipping
     (holding to go up), or if we are deferring a jump stop *)
  if negb (CVarAutoBHop r =? 0)%Z || bAutoBunnyhop r || bCheatFlying m
     || bDeferJumpStop j
  then j
  else Super_ClearJumpInput r DeltaTime j.

Definition Jump (m : Movement) (j : JumpInput) : JumpInput :=
  let j := if IsFalling m then set_bDeferJumpStop true j else j in
  Super_Jump j.

Definition StopJumping (m : Movement) (j : JumpInput) : JumpInput :=
  if negb (bDeferJumpStop j) then Super_StopJumping m j else j.

(** [OnMovementModeChanged] on the jump bookkeeping; [m] is the component
    after the change.  The proxy time stamp and the notifications are not
    fields of [JumpInput]. *)
Definition OnMovementModeChanged (m : Movement) (j : JumpInput) : JumpInput :=
  let j := if negb (bPressedJump j) then ResetJumpState m j else j in
  if IsFalling m then j
  else
    mkJumpInput (bPressedJump j) false 0 0 0%Z (JumpCurrentCountPreJump j)
      (bDeferJumpStop j).

Definition CanJumpInternal_Implementation (r : JumpRules)
    (FloorImpactNormal : FVector) (m : Movement) (j : JumpInput) : bool :=
  let bCanJump := IsJumpAllowed r in
  if bCanJump then
    (* Ensure JumpHoldTime and JumpCount are valid. *)
    let bCanJump :=
      if negb (bWasJumping j) || Rleb (JumpMaxHoldTime r) 0 then
        if (JumpCurrentCount j =? 0)%Z && IsFalling m
        then (JumpCurrentCount j + 1 <? JumpMaxCount r)%Z
        else (JumpCurrentCount j <? JumpMaxCount r)%Z
      else
        let bJumpKeyHeld :=
          bPressedJump j && Rltb (JumpKeyHoldTime j) (JumpMaxHoldTime r) in
        bJumpKeyHeld
        && (IsMovingOnGround m
            || (JumpCurrentCount j <? JumpMaxCount r)%Z
            || (bWasJumping j && (JumpCurrentCount j =? JumpMaxCount r)%Z)) in
    if IsMovingOnGround m then
      let FloorZ := mkVec 0 0 1 |v FloorImpactNormal in
      let WalkableFloor := WalkableFloorZ m in
      bCanJump
      && (Rleb WalkableFloor FloorZ
          || FMath.IsNearlyEqual FloorZ WalkableFloor)
    else bCanJump
  else false.

(** [SimpleSpline] of the header. *)
Definition SimpleSpline (Value : R) : R :=
  let ValueSquared := Value * Value in
  3 * ValueSquared - 2 * ValueSquared * Value.

(** [RecalculateBaseEyeHeight]: the value assigned to [BaseEyeHeight].
    [DefaultBaseEyeHeight] is [DefaultCharacter->BaseEyeHeight]. *)
Definition RecalculateBaseEyeHeight (e : CrouchEnv)
    (DefaultBaseEyeHeight CrouchedEyeHeight : R) (s : CrouchState) : R :=
  let OldUnscaledHalfHeight := DefaultCapsuleHalfHeight e in
  let CrouchedHalfHeight := CrouchedHalfHeight e in
  let FullCrouchDiff := OldUnscaledHalfHeight - CrouchedHalfHeight in
  let CurrentUnscaledHalfHeight := CapsuleHalfHeight s in
  let CurrentAlpha :=
    1 - (CurrentUnscaledHalfHeight - CrouchedHalfHeight) / FullCrouchDiff in
  FMath.Lerp DefaultBaseEyeHeight CrouchedEyeHeight
    (SimpleSpline CurrentAlpha).

(** What [ApplyDamageMomentum] reads from the capsule, the damage type and
    the movement component. *)
Record DamageEnv : Set := mkDamageEnv {
  ScaledCapsuleRadius : R;
  ScaledCapsuleHalfHeight : R;
  bScaleMomentumByMass : bool;      (* DmgTypeCDO->bScaleMomentumByMass *)
  Mass : R;                         (* GetCharacterMovement()->Mass *)
  CapDamageMomentumZ : R
}.

(** The mass scale [ApplyDamageMomentum] computes. *)
Definition DamageMassScale (e : DamageEnv) : R :=
  let bMassIndependentImpulse := negb (bScaleMomentumByMass e) in
  if negb bMassIndependentImpulse && Rltb FMath.SMALL_NUMBER (Mass e)
  then 1 / Mass e else 1.

(** [ApplyDamageMomentum]: the arguments it passes to [AddImpulse].
    [ImpulseDir] is the direction either branch at the top computes. *)
Definition ApplyDamageMomentum (e : DamageEnv) (DamageTaken : R)
    (ImpulseDir : FVector) : FVector * bool :=
  let SizeFactor :=
    (6096 / 100 * (6096 / 100) * (13716 / 100))
    / (FMath.Square (ScaledCapsuleRadius e * 2)
       * ScaledCapsuleHalfHeight e * 2) in
  let Magnitude := 1905 / 1000 * DamageTaken * SizeFactor * 5 in
  let Magnitude := FMath.Min Magnitude 1905 in
  let Impulse := ImpulseDir *v Magnitude in
  let bMassIndependentImpulse := negb (bScaleMomentumByMass e) in
  let MassScale := DamageMassScale e in
  let Impulse :=
    if Rlt_dec 0 (CapDamageMomentumZ e) then
      mkVec (X Impulse) (Y Impulse)
        (FMath.Min (Z Impulse * MassScale) (CapDamageMomentumZ e) / MassScale)
    else Impulse in
  (Impulse, bMassIndependentImpulse).

(** [UCharacterMovementComponent::AddImpulse]: what it adds to the pending
    impulse, a change of velocity, for a component that is active. *)
Definition AddImpulse (e : DamageEnv) (Impulse : FVector)
    (bVelocityChange : bool) : FVector :=
  if negb bVelocityChange && Rltb FMath.SMALL_NUMBER (Mass e)
  then Impulse *v (/ Mass e) else Impulse.

End APBPlayerCharacter.

(* ===================================================================== *)
(** ** Crouching (PBPlayerMovement.cpp, 623-651, 1323-1428) *)

(** What [UpdateCrouching] and [DoCrouchResize] read besides [CrouchEnv]. *)
Record CrouchInput : Type := mkCrouchInput {
  CanCrouchInCurrentState : bool;
  bWantsToCrouch : bool;
  crouchIsWalking : bool;               (* IsWalking() *)
  crouchSimulatedProxy : bool;          (* GetLocalRole() == ROLE_SimulatedProxy *)
  crouchListenServerAutonomous : bool;  (* listen server, remote autonomous proxy *)
  crouchHasClientData : bool;           (* GetPredictionData_Client_Character() *)
  crouchCheatFlying : bool;
  crouchOnLadder : bool;
  CrouchTime : R;
  UncrouchTime : R;
  CrouchJumpTime : R;
  UncrouchJumpTime : R;
  (** the location [MoveComponent(Delta, ..., bSweep = true, ...)] leaves
      the component at *)
  SweepComponent : CrouchState -> FVector -> FVector
}.

Definition set_ComponentLocation (l : FVector) (s : CrouchState)
  : CrouchState :=
  mkCrouch l (CapsuleRadius s) (CapsuleHalfHeight s) (bIsCrouched s)
    (bIsInCrouchTransition s) (crouchFrameTolerated s)
    (bForceNextFloorCheck s) (bShrinkProxyCapsule s)
    (MeshTranslationOffsetZ s) (EndCrouchCalls s).

(** [Crouch(false)]: only requests the transition. *)
Definition Crouch (s : CrouchState) : CrouchState :=
  set_bIsInCrouchTransition true s.

(** [DoCrouchResize].  The second component is the [OnStartCrouch]
    notification the call issues, if any. *)
Definition DoCrouchResize (e : CrouchEnv) (i : CrouchInput)
    (TargetTime DeltaTime : R) (bClientSimulation : bool) (s : CrouchState)
  : CrouchState * option (R * R) :=
  if negb (crouchHasValidData e)
     || (negb bClientSimulation && negb (CanCrouchInCurrentState i))
  then (set_bIsInCrouchTransition false s, None)
  else if FMath.IsNearlyEqual (CapsuleHalfHeight s) (CrouchedHalfHeight e)
  then
    (* collision is already at desired size *)
    let s := if negb bClientSimulation then set_bIsCrouched true s else s in
    (set_bIsInCrouchTransition false s, Some (0, 0))
  else
    let s :=
      if bClientSimulation && crouchSimulatedProxy i then
        (* restore collision size before crouching *)
        set_bShrinkProxyCapsule true
          (SetCapsuleSize (DefaultCapsuleRadius e)
             (DefaultCapsuleHalfHeight e) s)
      else s in
    (* Change collision size to crouching dimensions *)
    let ComponentScale := ShapeScale e in
    let OldUnscaledHalfHeight := DefaultCapsuleHalfHeight e in
    let OldUnscaledRadius := CapsuleRadius s in
    let FullCrouchDiff := OldUnscaledHalfHeight - CrouchedHalfHeight e in
    let CurrentUnscaledHalfHeight := CapsuleHalfHeight s in
    (* Determine the crouching progress *)
    let bInstantCrouch := FMath.IsNearlyZero TargetTime in
    let CurrentAlpha :=
      1 - (CurrentUnscaledHalfHeight - CrouchedHalfHeight e)
          / FullCrouchDiff in
    (* Determine how much we are progressing this tick *)
    let '(TargetAlphaDiff, TargetAlpha) :=
      if negb bInstantCrouch
      then (DeltaTime / CrouchTime i, CurrentAlpha + DeltaTime / CrouchTime i)
      else (1, 1) in
    let '(TargetAlphaDiff, TargetAlpha, s) :=
      if Rleb 1 TargetAlpha || FMath.IsNearlyEqual TargetAlpha 1
      then (1 - CurrentAlpha, 1,
            set_bIsCrouched true (set_bIsInCrouchTransition false s))
      else (TargetAlphaDiff, TargetAlpha, s) in
    (* Determine the target height for this tick *)
    let TargetCrouchedHalfHeight :=
      OldUnscaledHalfHeight - FullCrouchDiff * TargetAlpha in
    (* Height is not allowed to be smaller than radius. *)
    let ClampedCrouchedHalfHeight :=
      FMath.Max3 0 OldUnscaledRadius TargetCrouchedHalfHeight in
    let s := SetCapsuleSize OldUnscaledRadius ClampedCrouchedHalfHeight s in
    let HalfHeightAdjust := FullCrouchDiff * TargetAlphaDiff in
    let ScaledHalfHeightAdjust := HalfHeightAdjust * ComponentScale in
    let s :=
      if negb bClientSimulation then
        if bCrouchMaintainsBaseLocation e then
          set_ComponentLocation
            (SweepComponent i s (mkVec 0 0 (- ScaledHalfHeightAdjust))) s
        else
          set_ComponentLocation
            (SweepComponent i s (mkVec 0 0 ScaledHalfHeightAdjust)) s
      else s in
    let s := set_bForceNextFloorCheck true s in
    let MeshAdjust := DefaultCapsuleHalfHeight e - ClampedCrouchedHalfHeight in
    let s := AdjustProxyCapsuleSize e s in
    (* Don't smooth this change in mesh position *)
    let s :=
      if ((bClientSimulation && crouchSimulatedProxy i)
          || crouchListenServerAutonomous i)
         && crouchHasClientData i
      then set_MeshTranslationOffsetZ
             (MeshTranslationOffsetZ s - ScaledHalfHeightAdjust) s
      else s in
    (s, Some (MeshAdjust, MeshAdjust * ComponentScale)).

Definition UpdateCrouching (e : CrouchEnv) (i : CrouchInput) (DeltaTime : R)
    (bOnlyUncrouch : bool) (s : CrouchState)
  : CrouchState * option (R * R) :=
  if crouchSimulatedProxy i then (s, None)
  else if crouchCheatFlying i || negb (bIsInCrouchTransition s) then (s, None)
  (* If the player wants to uncrouch, or we have to uncrouch after movement *)
  else if (negb bOnlyUncrouch && negb (bWantsToCrouch i))
          || (bOnlyUncrouch && negb (CanCrouchInCurrentState i))
  then
    (DoUnCrouchResize e
       (if crouchIsWalking i then UncrouchTime i else UncrouchJumpTime i)
       DeltaTime false s,
     None)
  else if negb bOnlyUncrouch then
    if crouchOnLadder i then (set_bIsInCrouchTransition false s, None)
    else
      DoCrouchResize e i
        (if crouchIsWalking i then CrouchTime i else CrouchJumpTime i)
        DeltaTime false s
  else (s, None).

(** [n] calls of [UpdateCrouching], one per tick; the notifications are
    dropped. *)
Fixpoint UpdateCrouchingTicks (n : nat) (e : CrouchEnv) (i : CrouchInput)
    (DeltaTime : R) (bOnlyUncrouch : bool) (s : CrouchState) : CrouchState :=
  match n with
  | O => s
  | S n' =>
      UpdateCrouchingTicks n' e i DeltaTime bOnlyUncrouch
        (fst (UpdateCrouching e i DeltaTime bOnlyUncrouch s))
  end.

(** [UCharacterMovementComponent::UpdateCharacterStateBeforeMovement], the
    engine's version, which the override calls first: for a character
    that is not a simulated proxy it requests an uncrouch while the
    character is flagged crouched and should not be, and a crouch while it
    is not flagged crouched and wants to be.  The two requests are the
    overrides [UnCrouch(false)] and [Crouch(false)]. *)
Definition Super_UpdateCharacterStateBeforeMovement (i : CrouchInput)
    (s : CrouchState) : CrouchState :=
  (* Proxies get replicated crouch state. *)
  if negb (crouchSimulatedProxy i) then
    (* Check for a change in crouch state. *)
    let bIsCrouching := bIsCrouched s in
    if bIsCrouching
       && (negb (bWantsToCrouch i) || negb (CanCrouchInCurrentState i))
    then UnCrouch s
    else if negb bIsCrouching && bWantsToCrouch i && CanCrouchInCurrentState i
    then Crouch s
    else s
  else s.

(** [UCharacterMovementComponent::UpdateCharacterStateAfterMovement] *)
Definition Super_UpdateCharacterStateAfterMovement (i : CrouchInput)
    (s : CrouchState) : CrouchState :=
  (* Proxies get replicated crouch state. *)
  if negb (crouchSimulatedProxy i) then
    (* Uncrouch if no longer allowed to be crouched *)
    if bIsCrouched s && negb (CanCrouchInCurrentState i) then UnCrouch s
    else s
  else s.

(** The overrides of lines 585-599, as far as the crouch state goes: the
    clamp of [Velocity.Z] and [UpdateSurfaceFriction] write fields of the
    component that are not part of [CrouchState]. *)
Definition UpdateCharacterStateBeforeMovement (e : CrouchEnv)
    (i : CrouchInput) (DeltaSeconds : R) (s : CrouchState) : CrouchState :=
  fst (UpdateCrouching e i DeltaSeconds false
         (Super_UpdateCharacterStateBeforeMovement i s)).

Definition UpdateCharacterStateAfterMovement (e : CrouchEnv)
    (i : CrouchInput) (DeltaSeconds : R) (s : CrouchState) : CrouchState :=
  fst (UpdateCrouching e i DeltaSeconds true
         (Super_UpdateCharacterStateAfterMovement i s)).

(** [n] ticks of a character that stands still: the two updates of the
    crouch state around a move that changes nothing. *)
Fixpoint CrouchTicks (n : nat) (e : CrouchEnv) (i : CrouchInput)
    (DeltaSeconds : R) (s : CrouchState) : CrouchState :=
  match n with
  | O => s
  | S n' =>
      CrouchTicks n' e i DeltaSeconds
        (UpdateCharacterStateAfterMovement e i DeltaSeconds
           (UpdateCharacterStateBeforeMovement e i DeltaSeconds s))
  end.

(** The world coordinate of the bottom of the capsule. *)
Definition CapsuleBaseZ (e : CrouchEnv) (s : CrouchState) : R :=
  Z (ComponentLocation s) - CapsuleHalfHeight s * ShapeScale e.

(* ===================================================================== *)
(** ** Step, jump and landing sounds (PBPlayerMovement.cpp, 452-470,
       653-877; PBMoveStepSound.h) *)

(** Sound cues are assets and physical surfaces enumerators; both are
    identified by a number. *)
Definition USoundCue : Set := nat.
Definition EPhysicalSurface : Set := nat.
Definition SurfaceType_Default : EPhysicalSurface := 0%nat.
Definition SurfaceType1 : EPhysicalSurface := 1%nat.

(** [UPBMoveStepSound], the sounds of one surface. *)
Record UPBMoveStepSound : Set := mkMoveStepSound {
  StepLeftSounds : list USoundCue;
  StepRightSounds : list USoundCue;
  SprintLeftSounds : list USoundCue;
  SprintRightSounds : list USoundCue;
  JumpSounds : list USoundCue;
  LandSounds : list USoundCue;
  WalkVolume : R;
  SprintVolume : R
}.

(** The state of the global random number generator behind
    [FMath::RandRange]. *)
Definition FRandState : Set := nat.

(** What the sound functions read from the component, the character and
    the world. *)
Record SoundEnv : Type := mkSoundEnv {
  bShouldPlayMoveSounds : bool;
  (** [GetMoveStepSoundBySurface]: the default object of the class that
      the character's map holds for the surface, if any *)
  GetMoveStepSoundBySurface : EPhysicalSurface -> option UPBMoveStepSound;
  (** the surface type of the floor hit of [TraceCharacterFloor], when the
      hit has a valid physical material *)
  FloorSurfaceType : option EPhysicalSurface;
  (** [FMath::RandRange(Min, Max)] on the global generator in the given
      state: the draw and the state it leaves the generator in *)
  RandRange : FRandState -> BinNums.Z -> BinNums.Z -> BinNums.Z * FRandState;
  ActorLocation : FVector;
  MinSpeedForFallDamage : R;
  MinLandBounceSpeed : R
}.

(** The step timer and side of the component, and the state of the global
    random generator, which every pick from a sound array of two or more
    cues advances. *)
Record StepState : Set := mkStepState {
  MoveSoundTime : R;
  StepSide : bool;
  RandState : FRandState
}.

(** A call of [UGameplayStatics::SpawnSoundAtLocation]. *)
Record SpawnedSound : Set := mkSpawnedSound {
  SpawnedCue : USoundCue;
  VolumeMultiplier : R;
  StepLocation : FVector
}.

(** The element picked from a sound array that is not empty, and the
    generator state after the pick: an array of one cue is not drawn from;
    otherwise the index is a fresh draw of [FMath::RandRange], so two picks
    from one array need not agree.  The engine's [RandRange] stays within
    its bounds, so the default of [nth] is not reached. *)
Definition PickSound (e : SoundEnv) (seed : FRandState)
    (cues : list USoundCue) : USoundCue * FRandState :=
  if (length cues =? 1)%nat then (nth 0%nat cues 0%nat, seed)
  else
    let '(Index, seed) :=
      RandRange e seed 0%Z (Z.of_nat (length cues) - 1)%Z in
    (nth (Z.to_nat Index) cues 0%nat, seed).

Definition SpawnSoundAtFeet (e : SoundEnv) (o : Owner) (seed : FRandState)
    (cues : list USoundCue) (Volume : R) : SpawnedSound * FRandState :=
  let '(Sound, seed) := PickSound e seed cues in
  (mkSpawnedSound Sound Volume
     (mkVec (X (ActorLocation e)) (Y (ActorLocation e))
        (Z (ActorLocation e) - PawnHalfHeight o)),
   seed).

Definition PlayMoveSound (e : SoundEnv) (c : Config) (o : Owner)
    (m : Movement) (DeltaTime : R) (st : StepState)
  : StepState * option SpawnedSound :=
  if negb (bShouldPlayMoveSounds e) then (st, None)
  else
    (* Count move sound time down if we've got it *)
    let MoveSoundTime :=
      if Rlt_dec 0 (MoveSoundTime st)
      then FMath.Max 0 (MoveSoundTime st - 1000 * DeltaTime)
      else MoveSoundTime st in
    (* Check if it's time to play the sound *)
    if Rlt_dec 0 MoveSoundTime
    then (mkStepState MoveSoundTime (StepSide st) (RandState st), None)
    else
      let Speed := SizeSquared (Velocity m) in
      let bCrouchingOrOnLadder := IsCrouching o || bOnLadder m in
      let RunSpeedThreshold :=
        if bCrouchingOrOnLadder then MaxWalkSpeedCrouched c
        else WalkSpeed c in
      let SprintSpeedThreshold :=
        if bCrouchingOrOnLadder then MaxWalkSpeedCrouched c * (17 / 10)
        else SprintSpeed c in
      (* Only play sounds if we are moving fast enough on the ground or on
         a ladder *)
      if (negb (bBrakingWindowElapsed m) && negb (bOnLadder m))
         || Rltb Speed (RunSpeedThreshold * RunSpeedThreshold)
      then (mkStepState MoveSoundTime (StepSide st) (RandState st), None)
      else
        let bSprinting :=
          Rleb (SprintSpeedThreshold * SprintSpeedThreshold) Speed in
        let '(MoveSoundVolume, MoveSoundTime, MoveSound) :=
          if bOnLadder m then
            (1 / 2, 450, GetMoveStepSoundBySurface e SurfaceType1)
          else
            let MoveSoundTime := if bSprinting then 300 else 400 in
            let MoveSound :=
              match FloorSurfaceType e with
              | Some Surface => GetMoveStepSoundBySurface e Surface
              | None => None
              end in
            let MoveSound :=
              match MoveSound with
              | Some s => Some s
              | None => GetMoveStepSoundBySurface e SurfaceType_Default
              end in
            (* Double-check that is valid before accessing it *)
            match MoveSound with
            | Some s =>
                let MoveSoundVolume :=
                  if bSprinting then SprintVolume s else WalkVolume s in
                if IsCrouching o
                then (MoveSoundVolume * (65 / 100), MoveSoundTime + 100,
                      MoveSound)
                else (MoveSoundVolume, MoveSoundTime, MoveSound)
            | None => (0, MoveSoundTime, MoveSound)
            end in
        match MoveSound with
        | None => (mkStepState MoveSoundTime (StepSide st) (RandState st), None)
        | Some s =>
            let MoveSoundCues :=
              if bSprinting && negb (bOnLadder m) then
                if StepSide st then SprintLeftSounds s
                else SprintRightSounds s
              else [] in
            let MoveSoundCues :=
              if negb bSprinting || bOnLadder m
                 || (length MoveSoundCues <? 1)%nat
              then if StepSide st then StepLeftSounds s
                   else StepRightSounds s
              else MoveSoundCues in
            (* Error handling - Sounds not valid *)
            let Valid :=
              if (length MoveSoundCues <? 1)%nat then
                (* Get default sounds *)
                match GetMoveStepSoundBySurface e SurfaceType_Default with
                | None => None
                | Some d =>
                    let MoveSoundCues :=
                      if bSprinting then
                        if StepSide st then SprintLeftSounds d
                        else SprintRightSounds d
                      else MoveSoundCues in
                    let MoveSoundCues :=
                      if negb bSprinting || (length MoveSoundCues <? 1)%nat
                      then if StepSide st then StepLeftSounds d
                           else StepRightSounds d
                      else MoveSoundCues in
                    if (length MoveSoundCues <? 1)%nat then None
                    else Some MoveSoundCues
                end
              else Some MoveSoundCues in
            match Valid with
            | None => (mkStepState MoveSoundTime (StepSide st) (RandState st), None)
            | Some MoveSoundCues =>
                (* Sound array is valid, play a sound *)
                let '(Sound, seed) :=
                  SpawnSoundAtFeet e o (RandState st) MoveSoundCues
                    MoveSoundVolume in
                (mkStepState MoveSoundTime (negb (StepSide st)) seed,
                 Some Sound)
            end
        end.

Definition PlayJumpSound (e : SoundEnv) (o : Owner) (m : Movement)
    (bJumped : bool) (seed : FRandState)
  : option SpawnedSound * FRandState :=
  if negb (bShouldPlayMoveSounds e) then (None, seed)
  else
    let MoveSound :=
      match FloorSurfaceType e with
      | Some Surface => GetMoveStepSoundBySurface e Surface
      | None => None
      end in
    let MoveSound :=
      match MoveSound with
      | Some s => Some s
      | None => GetMoveStepSoundBySurface e SurfaceType_Default
      end in
    match MoveSound with
    | None => (None, seed)
    | Some s =>
        let MoveSoundVolume :=
          (* if we didn't jump, adjust volume for landing *)
          if negb bJumped then
            let FallSpeed := - Z (Velocity m) in
            if Rlt_dec (MinSpeedForFallDamage e) FallSpeed then 1
            else if Rlt_dec (MinSpeedForFallDamage e / 2) FallSpeed
            then 85 / 100
            else if Rlt_dec FallSpeed (MinLandBounceSpeed e) then 0
            else 1 / 2
          else if IsSprinting o then SprintVolume s else WalkVolume s in
        let MoveSoundVolume :=
          if IsCrouching o then MoveSoundVolume * (65 / 100)
          else MoveSoundVolume in
        if Rle_dec MoveSoundVolume 0 then (None, seed)
        else
          let MoveSoundCues := if bJumped then JumpSounds s else LandSounds s in
          match MoveSoundCues with
          | [] => (None, seed)
          | _ =>
              let '(Sound, seed) :=
                SpawnSoundAtFeet e o seed MoveSoundCues MoveSoundVolume in
              (Some Sound, seed)
          end
    end.

(** [OnMovementModeChanged] of the component, up to the call of the base
    class: [m] is the component after the change. *)
Definition OnMovementModeChanged (e : SoundEnv) (o : Owner) (m : Movement)
    (PreviousMovementMode : EMovementMode) (st : StepState)
  : StepState * option SpawnedSound :=
  (* did we jump or land *)
  let bJumped :=
    match PreviousMovementMode, MovementMode m with
    | MOVE_Walking, MOVE_Falling => true
    | _, _ => false
    end in
  let '(Sound, seed) := PlayJumpSound e o m bJumped (RandState st) in
  (* Reset step side if we are changing modes *)
  (mkStepState (MoveSoundTime st) false seed, Sound).

(** One call of [PlayMoveSound]: what it reads and the time step. *)
Record StepCall : Type := mkStepCall {
  callEnv : SoundEnv;
  callConfig : Config;
  callOwner : Owner;
  callMovement : Movement;
  callDeltaTime : R
}.

(** A run of calls, one per tick, with the sounds they spawn. *)
Fixpoint PlayMoveSounds (calls : list StepCall) (st : StepState)
  : StepState * list (option SpawnedSound) :=
  match calls with
  | [] => (st, [])
  | k :: rest =>
      let '(st1, sound) :=
        PlayMoveSound (callEnv k) (callConfig k) (callOwner k)
          (callMovement k) (callDeltaTime k) st in
      let '(st2, sounds) := PlayMoveSounds rest st1 in
      (st2, sound :: sounds)
  end.

(** The time a run of calls spans, in seconds. *)
Definition TotalTime (calls : list StepCall) : R :=
  fold_right (fun k acc => callDeltaTime k + acc) 0 calls.

(* ===================================================================== *)
(** ** Reference values for the crouch transitions *)

(** The stock capsule in open space, standing on the ground. *)
Definition OpenEnv : CrouchEnv :=
  {| crouchHasValidData := true;
     ShapeScale := 1;
     DefaultCapsuleRadius := 3048 / 100;
     DefaultCapsuleHalfHeight := 6858 / 100;
     CrouchedHalfHeight := 3429 / 100;
     GroundUncrouchCheckFactor := 75 / 100;
     bCrouchMaintainsBaseLocation := true;
     crouchIsMovingOnGround := true;
     FloorBlockingHit := true;
     FloorDist := 2;
     bSmoothMeshOffset := false;
     OverlapBlockingTest := fun _ _ => false;
     AdjustProxyCapsuleSize := fun s => s |}.

(** The stock capsule on the ground under a ceiling 132 units above the
    floor: a shape overlaps blocking geometry when its top is above the
    ceiling.  The standing capsule is 137.16 high, the crouched one
    68.58. *)
Definition LowCeilingEnv : CrouchEnv :=
  {| crouchHasValidData := true;
     ShapeScale := 1;
     DefaultCapsuleRadius := 3048 / 100;
     DefaultCapsuleHalfHeight := 6858 / 100;
     CrouchedHalfHeight := 3429 / 100;
     GroundUncrouchCheckFactor := 75 / 100;
     bCrouchMaintainsBaseLocation := true;
     crouchIsMovingOnGround := true;
     FloorBlockingHit := true;
     FloorDist := 2;
     bSmoothMeshOffset := false;
     OverlapBlockingTest :=
       fun loc shape => Rltb 132 (Z loc + ShapeHalfHeight shape);
     AdjustProxyCapsuleSize := fun s => s |}.

(** A locally controlled, walking character that wants to crouch, with the
    crouch timings of the constructor; nothing obstructs a sweep. *)
Definition LocalCrouchInput : CrouchInput :=
  {| CanCrouchInCurrentState := true;
     bWantsToCrouch := true;
     crouchIsWalking := true;
     crouchSimulatedProxy := false;
     crouchListenServerAutonomous := false;
     crouchHasClientData := false;
     crouchCheatFlying := false;
     crouchOnLadder := false;
     CrouchTime := 4 / 10;
     UncrouchTime := 2 / 10;
     CrouchJumpTime := 0;
     UncrouchJumpTime := 8 / 10;
     SweepComponent := fun st d => ComponentLocation st +v d |}.

(** The same character when it wants to stand up. *)
Definition LocalUncrouchInput : CrouchInput :=
  {| CanCrouchInCurrentState := true;
     bWantsToCrouch := false;
     crouchIsWalking := true;
     crouchSimulatedProxy := false;
     crouchListenServerAutonomous := false;
     crouchHasClientData := false;
     crouchCheatFlying := false;
     crouchOnLadder := false;
     CrouchTime := 4 / 10;
     UncrouchTime := 2 / 10;
     CrouchJumpTime := 0;
     UncrouchJumpTime := 8 / 10;
     SweepComponent := fun st d => ComponentLocation st +v d |}.

(** The character standing upright on the floor, a crouch requested. *)
Definition StandingState : CrouchState :=
  {| ComponentLocation := mkVec 0 0 (6858 / 100);
     CapsuleRadius := 3048 / 100;
     CapsuleHalfHeight := 6858 / 100;
     bIsCrouched := false;
     bIsInCrouchTransition := true;
     crouchFrameTolerated := false;
     bForceNextFloorCheck := false;
     bShrinkProxyCapsule := false;
     MeshTranslationOffsetZ := 0;
     EndCrouchCalls := [] |}.


(** The stock character one tick of 0.12 s into its 0.2 s uncrouch from
    [CrouchedState] in the open: the capsule has grown 0.6 of the way, the
    crouched flag is already cleared and the transition is pending. *)
Definition HalfUncrouchedState : CrouchState :=
  {| ComponentLocation := mkVec 0 0 (54865 / 1000);
     CapsuleRadius := 3048 / 100;
     CapsuleHalfHeight := 54864 / 1000;
     bIsCrouched := false;
     bIsInCrouchTransition := true;
     crouchFrameTolerated := false;
     bForceNextFloorCheck := true;
     bShrinkProxyCapsule := false;
     MeshTranslationOffsetZ := 0;
     EndCrouchCalls := [(54864 / 1000, 54864 / 1000)] |}.

(** ** Reference values for the sounds *)

(** A surface with one cue per array, two for landing, and the volumes
    of [UPBMoveStepSound]. *)
Definition StockMoveStepSound : UPBMoveStepSound :=
  {| StepLeftSounds := [1%nat];
     StepRightSounds := [2%nat];
     SprintLeftSounds := [3%nat];
     SprintRightSounds := [4%nat];
     JumpSounds := [5%nat];
     LandSounds := [6%nat; 7%nat];
     WalkVolume := 2 / 10;
     SprintVolume := 5 / 10 |}.

(** A character whose map of step sounds has the same entry for every
    surface, standing on a floor without physical material, with the fall
    speeds of the constructor of [APBPlayerCharacter]. *)
Definition StockSoundEnv : SoundEnv :=
  {| bShouldPlayMoveSounds := true;
     GetMoveStepSoundBySurface := fun _ => Some StockMoveStepSound;
     FloorSurfaceType := None;
     RandRange :=
       fun seed Min Max =>
         ((Min + Z.of_nat seed mod (Max - Min + 1))%Z, S seed);
     ActorLocation := mkVec 0 0 (6858 / 100);
     MinSpeedForFallDamage := 10029825 / 10000;
     MinLandBounceSpeed := 329565 / 1000 |}.

(** A tick of 0.1 s of the stock character on a ladder. *)
Definition LadderCall : StepCall :=
  {| callEnv := StockSoundEnv;
     callConfig := StockConfig;
     callOwner := LocalOwner;
     callMovement := LadderMovement;
     callDeltaTime := 1 / 10 |}.

(* ===================================================================== *)
(** * Properties *)

Lemma Rleb_true_iff (a b : R) : Rleb a b = true <-> a <= b.
Proof. unfold Rleb; destruct (Rle_dec a b); split; intros; try easy. Qed.

Lemma Rleb_false_iff (a b : R) : Rleb a b = false <-> b < a.
Proof. unfold Rleb; destruct (Rle_dec a b); split; intros; try easy; lra. Qed.

Lemma Rltb_true_iff (a b : R) : Rltb a b = true <-> a < b.
Proof. unfold Rltb; destruct (Rlt_dec a b); split; intros; try easy. Qed.

Lemma Rltb_false_iff (a b : R) : Rltb a b = false <-> b <= a.
Proof. unfold Rltb; destruct (Rlt_dec a b); split; intros; try easy; lra. Qed.

Lemma Reqb_true_iff (a b : R) : Reqb a b = true <-> a = b.
Proof. unfold Reqb; destruct (Req_dec_T a b); split; intros; try easy. Qed.

Lemma Reqb_false_iff (a b : R) : Reqb a b = false <-> a <> b.
Proof. unfold Reqb; destruct (Req_dec_T a b); split; intros; try easy. Qed.

(** Case analysis on every real comparison in sight. *)
Ltac rdec :=
  repeat match goal with
  | |- context [Rle_dec ?a ?b] => destruct (Rle_dec a b)
  | |- context [Rlt_dec ?a ?b] => destruct (Rlt_dec a b)
  | |- context [Req_dec_T ?a ?b] => destruct (Req_dec_T a b)
  | H : context [Rle_dec ?a ?b] |- _ => destruct (Rle_dec a b)
  | H : context [Rlt_dec ?a ?b] |- _ => destruct (Rlt_dec a b)
  | H : context [Req_dec_T ?a ?b] |- _ => destruct (Req_dec_T a b)
  end.

(** Turn boolean comparison facts into propositions. *)
Ltac rbool :=
  repeat match goal with
  | H : Rleb _ _ = true |- _ => apply Rleb_true_iff in H
  | H : Rleb _ _ = false |- _ => apply Rleb_false_iff in H
  | H : Rltb _ _ = true |- _ => apply Rltb_true_iff in H
  | H : Rltb _ _ = false |- _ => apply Rltb_false_iff in H
  | H : Reqb _ _ = true |- _ => apply Reqb_true_iff in H
  | H : Reqb _ _ = false |- _ => apply Reqb_false_iff in H
  | H : _ && _ = true |- _ => apply andb_true_iff in H; destruct H
  | H : _ || _ = false |- _ => apply orb_false_iff in H; destruct H
  | H : negb _ = true |- _ => apply negb_true_iff in H
  | H : negb _ = false |- _ => apply negb_false_iff in H
  end.

Lemma Max_Rmax (a b : R) : FMath.Max a b = Rmax a b.
Proof. unfold FMath.Max, Rmax; rdec; lra. Qed.

Lemma Min_Rmin (a b : R) : FMath.Min a b = Rmin a b.
Proof. unfold FMath.Min, Rmin; rdec; lra. Qed.

Lemma Abs_Rabs (a : R) : FMath.Abs a = Rabs a.
Proof. unfold FMath.Abs, Rabs; destruct (Rcase_abs a); rdec; lra. Qed.

Lemma Abs_nonneg (a : R) : 0 <= FMath.Abs a.
Proof. unfold FMath.Abs; rdec; lra. Qed.

Lemma Clamp_bounds (x lo hi : R) :
  lo <= hi -> lo <= FMath.Clamp x lo hi <= hi.
Proof. unfold FMath.Clamp; intros; rdec; lra. Qed.

Lemma Clamp_id (x lo hi : R) :
  lo <= x <= hi -> FMath.Clamp x lo hi = x.
Proof. unfold FMath.Clamp; intros; rdec; lra. Qed.

Lemma vec_eq (a b : FVector) :
  X a = X b -> Y a = Y b -> Z a = Z b -> a = b.
Proof. destruct a, b; simpl; intros; subst; reflexivity. Qed.

Lemma SizeSquared_nonneg (a : FVector) : 0 <= SizeSquared a.
Proof. unfold SizeSquared; nra. Qed.

Lemma SizeSquared2D_nonneg (a : FVector) : 0 <= SizeSquared2D a.
Proof. unfold SizeSquared2D; nra. Qed.

Lemma Size_nonneg (a : FVector) : 0 <= Size a.
Proof. apply sqrt_pos. Qed.

Lemma Size2D_nonneg (a : FVector) : 0 <= Size2D a.
Proof. apply sqrt_pos. Qed.

Lemma Size_sqr (a : FVector) : Size a * Size a = SizeSquared a.
Proof. apply sqrt_sqrt, SizeSquared_nonneg. Qed.

Lemma Size2D_sqr (a : FVector) : Size2D a * Size2D a = SizeSquared2D a.
Proof. apply sqrt_sqrt, SizeSquared2D_nonneg. Qed.

Lemma sqrt_sq_nonneg (a : R) : 0 <= a -> sqrt (a * a) = a.
Proof. intros; apply sqrt_square; assumption. Qed.

(** Split every conditional of the goal, real comparisons included. *)
Ltac split_ifs :=
  repeat match goal with
  | |- context [if ?b then _ else _] =>
      match type of b with
      | bool => destruct b eqn:?
      | sumbool _ _ => destruct b
      end
  end.

(** Evaluate real comparisons between closed terms: pick one that [lra]
    can decide, keep the branch that is taken, and go on. *)
Ltac rcompute :=
  repeat (simpl; try unfold Rleb, Rltb, Reqb, FMath.Abs, FMath.Max, FMath.Min;
    match goal with
    | |- context [Rle_dec ?a ?b] =>
        first [ destruct (Rle_dec a b); [exfalso; lra | ]
              | destruct (Rle_dec a b); [ | exfalso; lra] ]
    | |- context [Rlt_dec ?a ?b] =>
        first [ destruct (Rlt_dec a b); [exfalso; lra | ]
              | destruct (Rlt_dec a b); [ | exfalso; lra] ]
    | |- context [Req_dec_T ?a ?b] =>
        first [ destruct (Req_dec_T a b); [exfalso; lra | ]
              | destruct (Req_dec_T a b); [ | exfalso; lra] ]
    end); simpl.

Lemma Size2D_mono (a b : FVector) :
  SizeSquared2D a <= SizeSquared2D b -> Size2D a <= Size2D b.
Proof.
  intros H. unfold Size2D, FMath.Sqrt.
  apply sqrt_le_1; auto using SizeSquared2D_nonneg.
Qed.

Lemma Size2D_strict_mono (a b : FVector) :
  SizeSquared2D a < SizeSquared2D b -> Size2D a < Size2D b.
Proof.
  intros H. unfold Size2D, FMath.Sqrt.
  apply sqrt_lt_1; auto using SizeSquared2D_nonneg.
Qed.

(* ===================================================================== *)
(** ** The jump boost *)

(** C10.  The jump boost never lowers the horizontal speed: whatever the
    console variables, input and facing, [OnJumped_Implementation] replaces
    the velocity only by one whose squared 2D speed is strictly larger, so
    the 2D speed after the call is at least the 2D speed before it. *)
Theorem OnJumped_never_slows (e : JumpEnv) (s : JumpState) :
  let s' := OnJumped_Implementation e s in
  (jumpVelocity s' <> jumpVelocity s ->
   SizeSquared2D (jumpVelocity s) < SizeSquared2D (jumpVelocity s'))
  /\ SizeSquared2D (jumpVelocity s) <= SizeSquared2D (jumpVelocity s')
  /\ Size2D (jumpVelocity s) <= Size2D (jumpVelocity s').
Proof.
  intros s'.
  assert (H : jumpVelocity s' = jumpVelocity s
              \/ SizeSquared2D (jumpVelocity s)
                 < SizeSquared2D (jumpVelocity s')).
  { subst s'. unfold OnJumped_Implementation.
    destruct (jumpIsOnLadder e); [now left|].
    destruct (_ && _); [|now left].
    split_ifs; simpl; auto. }
  destruct H as [H | H].
  - rewrite H. repeat split; try lra. intros C; now elim C.
  - repeat split; auto; try lra. apply Size2D_mono; lra.
Qed.

(* ===================================================================== *)
(** ** Braking: the closed form of [ApplyVelocityBraking] *)

Lemma IsNearlyZeroV_false_Size (V : FVector) (tol : R) :
  0 <= tol -> IsNearlyZeroV V tol = false -> tol * tol < SizeSquared V.
Proof.
  intros Ht H. unfold IsNearlyZeroV, Rleb, FMath.Abs, SizeSquared in *.
  destruct V as [x y z]; simpl in *.
  rdec; simpl in H; try discriminate; nra.
Qed.

Lemma IsNearlyZeroV_true_bound (V : FVector) (tol : R) :
  IsNearlyZeroV V tol = true ->
  Rabs (X V) <= tol /\ Rabs (Y V) <= tol /\ Rabs (Z V) <= tol.
Proof.
  unfold IsNearlyZeroV. rewrite !Abs_Rabs. intros H. rbool. auto.
Qed.

Lemma Size_pos (V : FVector) : 0 < SizeSquared V -> 0 < Size V.
Proof. intros; unfold Size, FMath.Sqrt; now apply sqrt_lt_R0. Qed.

Lemma GetSafeNormal_scale (V : FVector) :
  FMath.SMALL_NUMBER <= SizeSquared V ->
  GetSafeNormal V = V *v (/ Size V).
Proof.
  intros H. unfold GetSafeNormal. rdec; try lra.
  - unfold Size, FMath.Sqrt. rewrite e, sqrt_1.
    destruct V; unfold vscale; simpl; f_equal; field.
  - reflexivity.
Qed.

Lemma INR_BrakingFuel (dt : R) : 0 <= dt -> dt * 150 + 1 <= INR (BrakingFuel dt).
Proof.
  intros H. unfold BrakingFuel. rewrite S_INR.
  destruct (archimed (dt * 150)) as [Hup _].
  assert (0 <= up (dt * 150))%Z.
  { apply le_IZR. lra. }
  rewrite INR_IZR_INZ, Z2Nat.id by assumption. lra.
Qed.

Lemma one_minus_div_pos (y s : R) : 0 < s -> (0 < 1 - y / s <-> y < s).
Proof.
  intros Hs. assert (H : y / s * s = y) by (field; lra).
  split; intros; nra.
Qed.

Section BrakingLoop.

(** The loop runs with constants fixed before it: the effective friction
    and deceleration (their product is [k]), the sub-step bound, the
    velocity [V] it started from and its size [s]. *)
Variables (F D MTS dt : R) (V : FVector).
Let s := Size V.
Let k := F * D.
Hypothesis Hk : 0 < k.
Hypothesis Hs : 0 < s.
Hypothesis HMTS : 1 / 75 <= MTS <= 1 / 20.

(** The factor by which [V] is scaled when [r] seconds remain. *)
Let a (r : R) : R := 1 - k * (dt - r) / s.

(** What the loop leaves when it runs to the end of the tick. *)
Let final : FVector :=
  if Rle_dec s (k * dt) then ZeroVector
  else if IsNearlyZeroV (V *v a 0) FMath.KINDA_SMALL_NUMBER
       then ZeroVector else V *v a 0.

Lemma BrakingLoop_exit (fuel : nat) :
  0 < a 0 ->
  BrakingLoop fuel F D MTS (V *v (- / s)) V 0 (V *v a 0) = Some ([], final).
Proof.
  intros Ha.
  assert (E : forall A (x y : A),
             (if Rle_dec MIN_TICK_TIME 0 then x else y) = y).
  { intros. unfold MIN_TICK_TIME. destruct (Rle_dec (/ 1000000) 0); [lra|easy]. }
  assert (Hf : final = if IsNearlyZeroV (V *v a 0) FMath.KINDA_SMALL_NUMBER
                       then ZeroVector else V *v a 0).
  { unfold final. destruct (Rle_dec s (k * dt)); [|reflexivity].
    exfalso. unfold a in Ha. apply (proj1 (one_minus_div_pos _ _ Hs)) in Ha. lra. }
  rewrite Hf. destruct fuel; simpl; now rewrite E.
Qed.

Lemma BrakingLoop_closed (fuel : nat) :
  forall r,
    r = 0 \/ MIN_TICK_TIME <= r ->
    r <= dt ->
    r * 150 <= INR fuel ->
    0 < a r ->
    exists steps,
      BrakingLoop fuel F D MTS (V *v (- / s)) V r (V *v a r)
      = Some (steps, final)
      /\ BrakeTrace V final steps.
Proof.
  assert (Hss : s * s = SizeSquared V) by apply Size_sqr.
  induction fuel as [|fuel IH]; intros r Hr Hle Hfuel Ha.
  - (* no fuel: only possible when no time remains *)
    simpl in Hfuel.
    assert (r = 0) by (unfold MIN_TICK_TIME in *; destruct Hr; lra).
    subst r. exists []. split; [now apply BrakingLoop_exit | constructor].
  - destruct Hr as [-> | Hge].
    { exists []. split; [now apply BrakingLoop_exit | constructor]. }
    simpl. destruct (Rle_dec MIN_TICK_TIME r) as [_ | Hlt]; [|lra].
    set (Delta := if Rlt_dec MTS r then FMath.Min MTS (r * (1 / 2)) else r).
    assert (HD : 0 < Delta <= r
                 /\ (r - Delta = 0 \/ MIN_TICK_TIME <= r - Delta)
                 /\ (r - Delta) * 150 <= INR fuel).
    { rewrite S_INR in Hfuel. pose proof (pos_INR fuel) as Hf0.
      clear IH. unfold MIN_TICK_TIME in *.
      subst Delta. unfold FMath.Min. rdec; repeat split; try lra. }
    destruct HD as (HD1 & HD2 & HD3).
    assert (Hstep : (V *v a r +v (V *v (- / s)) *v (F * D) *v Delta)
                    = V *v a (r - Delta)).
    { unfold a, k. destruct V as [x y z]; unfold vadd, vscale; simpl.
      f_equal; field; lra. }
    rewrite Hstep.
    assert (Hdot : (V *v a (r - Delta)) |v V = a (r - Delta) * (s * s)).
    { rewrite Hss. destruct V as [x y z];
        unfold dot, vscale, SizeSquared; simpl. ring. }
    rewrite Hdot.
    destruct (Rle_dec (a (r - Delta) * (s * s)) 0) as [Hrev | Hfwd].
    + (* reversed: snap to zero *)
      assert (Hz : final = ZeroVector);
        [|exists [ZeroVector]; rewrite Hz; split;
          [reflexivity | now constructor]].
      unfold final.
      destruct (Rle_dec s (k * dt)); [reflexivity|].
      exfalso.
      assert (Hneg : ~ 0 < a (r - Delta)).
      { intros Hq. assert (0 < s * s) by nra.
        pose proof (Rmult_lt_0_compat _ _ Hq H). lra. }
      apply Hneg. unfold a. apply (proj2 (one_minus_div_pos _ _ Hs)). nra.
    + assert (Hpos : 0 < a (r - Delta)).
      { destruct (Rlt_dec 0 (a (r - Delta))) as [|Hn]; [assumption|].
        exfalso. apply Hfwd. assert (0 <= s * s) by nra.
        assert (a (r - Delta) <= 0) by lra.
        rewrite <- (Rmult_0_l (s * s)).
        now apply Rmult_le_compat_r. }
      destruct (IH (r - Delta)) as (steps & Heq & Hall); try lra; auto.
      rewrite Heq. eexists. split; [reflexivity|].
      constructor; [|assumption].
      split; [assumption|].
      unfold a. assert (0 <= k * (dt - (r - Delta)) / s); [|lra].
      unfold Rdiv. apply Rmult_le_pos; [nra|].
      left. now apply Rinv_0_lt_compat.
Qed.

End BrakingLoop.

Lemma Size_axis_x (x : R) : 0 <= x -> Size (mkVec x 0 0) = x.
Proof.
  intros. unfold Size, SizeSquared, FMath.Sqrt; simpl.
  replace (x * x + 0 * 0 + 0 * 0) with (x * x) by ring.
  now apply sqrt_square.
Qed.

Lemma Size2D_axis_x (x z : R) : 0 <= x -> Size2D (mkVec x 0 z) = x.
Proof.
  intros. unfold Size2D, SizeSquared2D, FMath.Sqrt; simpl.
  replace (x * x + 0 * 0) with (x * x) by ring.
  now apply sqrt_square.
Qed.

Lemma Size2D_axis_y (y z : R) : 0 <= y -> Size2D (mkVec 0 y z) = y.
Proof.
  intros. unfold Size2D, SizeSquared2D, FMath.Sqrt; simpl.
  replace (0 * 0 + y * y) with (y * y) by ring.
  now apply sqrt_square.
Qed.

Lemma NotReversed_dot (V W : FVector) : NotReversed V W -> 0 <= W |v V.
Proof.
  intros [-> | (q & Hq & ->)]; unfold dot, vscale, ZeroVector; simpl.
  - lra.
  - destruct V as [x y z]; simpl. nra.
Qed.

(** The result of a call that passes the guards, with its sub-steps. *)
Lemma ApplyVelocityBraking_steps_closed (c : Config) (o : Owner)
    (dt F D : R) (V : FVector) :
  BrakingSkipped o dt V = false ->
  FMath.IsNearlyZero (BrakingEffectiveFriction c F) = false ->
  BrakingEffectiveDeceleration D V <> 0 ->
  exists steps,
    ApplyVelocityBraking_steps c o dt F D V
    = Some (steps,
            BrakedVelocity
              (BrakingEffectiveFriction c F * BrakingEffectiveDeceleration D V)
              dt V)
    /\ BrakeTrace V
         (BrakedVelocity
            (BrakingEffectiveFriction c F * BrakingEffectiveDeceleration D V)
            dt V) steps.
Proof.
  intros Hskip HF HD.
  unfold ApplyVelocityBraking_steps. rewrite Hskip, HF.
  destruct (Reqb _ 0) eqn:E; [rbool; contradiction|]. simpl.
  unfold BrakingSkipped in Hskip. rbool.
  assert (Hsz : 1 / 10 * (1 / 10) < SizeSquared V)
    by (apply IsNearlyZeroV_false_Size; [lra | assumption]).
  assert (Hs : 0 < Size V) by (apply Size_pos; lra).
  assert (HF' : 0 < BrakingEffectiveFriction c F).
  { unfold FMath.IsNearlyZero, FMath.IsNearlyZeroTol in HF. rbool.
    revert HF. unfold BrakingEffectiveFriction, FMath.Max, FMath.Abs,
      FMath.SMALL_NUMBER. rdec; lra. }
  assert (HD' : 0 < BrakingEffectiveDeceleration D V).
  { revert HD. unfold BrakingEffectiveDeceleration, FMath.Max. rdec; lra. }
  rewrite GetSafeNormal_scale by (unfold FMath.SMALL_NUMBER; lra).
  replace (vneg (V *v / Size V)) with (V *v (- / Size V))
    by (destruct V; unfold vneg, vscale; simpl; f_equal; ring).
  pose proof (INR_BrakingFuel dt) as Hfuel.
  assert (Hdt : MIN_TICK_TIME <= dt) by assumption.
  assert (Hmts := Clamp_bounds (BrakingSubStepTime c) (1 / 75) (1 / 20)).
  destruct (BrakingLoop_closed
              (BrakingEffectiveFriction c F) (BrakingEffectiveDeceleration D V)
              (FMath.Clamp (BrakingSubStepTime c) (1 / 75) (1 / 20)) dt V
              (Rmult_lt_0_compat _ _ HF' HD') Hs (Hmts ltac:(lra))
              (BrakingFuel dt) dt) as (steps & Heq & Hall).
  - now right.
  - lra.
  - unfold MIN_TICK_TIME in Hdt. lra.
  - unfold Rminus. rewrite Rplus_opp_r. unfold Rdiv. rewrite Rmult_0_r, Rmult_0_l.
    lra.
  - exists steps. split; [|exact Hall].
    replace (1 - BrakingEffectiveFriction c F * BrakingEffectiveDeceleration D V
                 * (dt - dt) / Size V) with 1 in Heq by (field; lra).
    replace (V *v 1) with V in Heq
      by (destruct V; unfold vscale; simpl; f_equal; ring).
    exact Heq.
Qed.

Lemma ApplyVelocityBraking_closed (c : Config) (o : Owner)
    (dt F D : R) (V : FVector) :
  BrakingSkipped o dt V = false ->
  FMath.IsNearlyZero (BrakingEffectiveFriction c F) = false ->
  BrakingEffectiveDeceleration D V <> 0 ->
  ApplyVelocityBraking c o dt F D V
  = Some (BrakedVelocity
            (BrakingEffectiveFriction c F * BrakingEffectiveDeceleration D V)
            dt V).
Proof.
  intros H1 H2 H3.
  destruct (ApplyVelocityBraking_steps_closed c o dt F D V H1 H2 H3)
    as (steps & Heq & _).
  unfold ApplyVelocityBraking. now rewrite Heq.
Qed.

(** A call that does not pass the guards returns the velocity as it is. *)
Lemma ApplyVelocityBraking_guarded (c : Config) (o : Owner)
    (dt F D : R) (V : FVector) :
  BrakingSkipped o dt V = true
  \/ FMath.IsNearlyZero (BrakingEffectiveFriction c F) = true
  \/ BrakingEffectiveDeceleration D V = 0 ->
  ApplyVelocityBraking_steps c o dt F D V = Some ([], V).
Proof.
  unfold ApplyVelocityBraking_steps.
  intros [H | [H | H]].
  - now rewrite H.
  - rewrite H. now destruct (BrakingSkipped o dt V).
  - apply Reqb_true_iff in H. rewrite H, orb_true_r.
    now destruct (BrakingSkipped o dt V).
Qed.

(** The function always returns: the fuel it is given is enough. *)
Lemma ApplyVelocityBraking_total (c : Config) (o : Owner)
    (dt F D : R) (V : FVector) :
  exists steps V',
    ApplyVelocityBraking_steps c o dt F D V = Some (steps, V')
    /\ BrakeTrace V V' steps
    /\ (V' = V \/ NotReversed V V').
Proof.
  destruct (BrakingSkipped o dt V) eqn:H1;
    [|destruct (FMath.IsNearlyZero (BrakingEffectiveFriction c F)) eqn:H2;
      [|destruct (Req_dec_T (BrakingEffectiveDeceleration D V) 0) as [H3|H3]]].
  1-3: exists [], V; split;
       [apply ApplyVelocityBraking_guarded; auto | split; [constructor|now left]].
  destruct (ApplyVelocityBraking_steps_closed c o dt F D V H1 H2 H3)
    as (steps & Heq & Hall).
  exists steps. eexists. split; [exact Heq|]. split; [exact Hall|].
  right. unfold BrakedVelocity.
  unfold BrakingSkipped in H1. rbool.
  assert (Hsz : 1 / 10 * (1 / 10) < SizeSquared V)
    by (apply IsNearlyZeroV_false_Size; [lra | assumption]).
  assert (Hs : 0 < Size V) by (apply Size_pos; lra).
  set (k := BrakingEffectiveFriction c F * BrakingEffectiveDeceleration D V).
  assert (Hk : 0 <= k).
  { subst k. apply Rmult_le_pos.
    - unfold BrakingEffectiveFriction, FMath.Max. rdec; lra.
    - unfold BrakingEffectiveDeceleration, FMath.Max. rdec; lra. }
  assert (Hdt : 0 <= dt) by (unfold MIN_TICK_TIME in *; lra).
  destruct (Rle_dec (Size V) (k * dt)); [now left|].
  destruct (IsNearlyZeroV (V *v _) _); [now left|].
  right. eexists. split; [|reflexivity].
  split.
  - apply (proj2 (one_minus_div_pos _ _ Hs)). lra.
  - assert (0 <= k * (dt - 0) / Size V); [|lra].
    unfold Rdiv. apply Rmult_le_pos; [nra|].
    left. now apply Rinv_0_lt_compat.
Qed.

(* ===================================================================== *)
(** ** C6: when braking is a no-op *)

Lemma ApplyVelocityBraking_unchanged (c : Config) (o : Owner)
    (dt F D : R) (V : FVector) :
  F = 0 \/ IsNearlyZeroV V (1 / 10) = true \/ (D <= 0 /\ Size2D V = 0) ->
  ApplyVelocityBraking c o dt F D V = Some V.
Proof.
  intros H. unfold ApplyVelocityBraking.
  rewrite ApplyVelocityBraking_guarded; [reflexivity|].
  destruct H as [-> | [H | [HD HS]]].
  - right; left. unfold BrakingEffectiveFriction, FMath.IsNearlyZero,
      FMath.IsNearlyZeroTol, FMath.SMALL_NUMBER.
    apply Rleb_true_iff. unfold FMath.Max, FMath.Abs. rdec; lra.
  - left. unfold BrakingSkipped. now rewrite H.
  - right; right. unfold BrakingEffectiveDeceleration. rewrite HS.
    unfold FMath.Max. rdec; lra.
Qed.

(** C6 (as the code has it).  [ApplyVelocityBraking] returns the velocity
    unchanged when its friction argument is 0, when the velocity is already
    nearly zero (every coordinate within 0.1), or when the braking
    deceleration argument is not positive and the velocity has no
    horizontal part: the deceleration the function uses is the larger of
    its argument and the 2D speed, so a zero argument alone does not stop
    it from braking. *)
Theorem ApplyVelocityBraking_noop (c : Config) (o : Owner)
    (dt F D : R) (V : FVector) :
  F = 0 \/ IsNearlyZeroV V (1 / 10) = true \/ (D <= 0 /\ Size2D V = 0) ->
  ApplyVelocityBraking c o dt F D V = Some V
  /\ ApplyVelocityBraking_steps c o dt F D V = Some ([], V).
Proof.
  intros H. split; [now apply ApplyVelocityBraking_unchanged|].
  pose proof (ApplyVelocityBraking_unchanged c o dt F D V H) as E.
  unfold ApplyVelocityBraking in E.
  destruct (ApplyVelocityBraking_total c o dt F D V)
    as (steps & V' & Heq & Htr & _).
  rewrite Heq in *. simpl in E. injection E as ->.
  f_equal. f_equal.
  destruct H as [-> | [H | [HD HS]]].
  - rewrite ApplyVelocityBraking_guarded in Heq; [congruence|].
    right; left. unfold BrakingEffectiveFriction, FMath.IsNearlyZero,
      FMath.IsNearlyZeroTol, FMath.SMALL_NUMBER.
    apply Rleb_true_iff. unfold FMath.Max, FMath.Abs. rdec; lra.
  - rewrite ApplyVelocityBraking_guarded in Heq; [congruence|].
    left. unfold BrakingSkipped. now rewrite H.
  - rewrite ApplyVelocityBraking_guarded in Heq; [congruence|].
    right; right. unfold BrakingEffectiveDeceleration. rewrite HS.
    unfold FMath.Max. rdec; lra.
Qed.

Lemma ApplyVelocityBraking_noop_witness :
  ApplyVelocityBraking StockConfig LocalOwner (1 / 60) 0 (1905 / 10)
    (mkVec 300 0 0) = Some (mkVec 300 0 0)
  /\ ApplyVelocityBraking_steps StockConfig LocalOwner (1 / 60) 0 (1905 / 10)
       (mkVec 300 0 0) = Some ([], mkVec 300 0 0).
Proof. apply ApplyVelocityBraking_noop. left. reflexivity. Defined.

(** C6, the claim as stated fails: with a braking deceleration argument of
    0, stock friction 4 and one 15 ms tick, a velocity of 300 along X is
    braked to 282 (the deceleration used is the 2D speed, 300). *)
Lemma ApplyVelocityBraking_zero_decel_brakes :
  ApplyVelocityBraking StockConfig LocalOwner (15 / 1000) 4 0 (mkVec 300 0 0)
  = Some (mkVec 282 0 0)
  /\ mkVec 282 0 0 <> mkVec 300 0 0.
Proof.
  split.
  - rewrite ApplyVelocityBraking_closed.
    + f_equal. unfold BrakedVelocity, BrakingEffectiveFriction,
        BrakingEffectiveDeceleration.
      rewrite Size_axis_x, Size2D_axis_x by lra. simpl.
      unfold FMath.Max, IsNearlyZeroV, Rleb, FMath.Abs, vscale,
        FMath.KINDA_SMALL_NUMBER; simpl.
      rdec; simpl; try lra; try (f_equal; field).
    + unfold BrakingSkipped, IsNearlyZeroV, Rleb, Rltb, FMath.Abs,
        MIN_TICK_TIME; simpl. rdec; simpl; try lra; reflexivity.
    + unfold BrakingEffectiveFriction, FMath.IsNearlyZero,
        FMath.IsNearlyZeroTol, Rleb, FMath.Max, FMath.Abs,
        FMath.SMALL_NUMBER; simpl. rdec; simpl; try lra; reflexivity.
    + unfold BrakingEffectiveDeceleration. rewrite Size2D_axis_x by lra.
      unfold FMath.Max. rdec; lra.
  - intros H. injection H as H. lra.
Qed.

(* ===================================================================== *)
(** ** C1: braking never reverses the velocity *)

Lemma Size_scale (V : FVector) (q : R) :
  0 <= q -> Size (V *v q) = q * Size V.
Proof.
  intros Hq. unfold Size, FMath.Sqrt.
  replace (SizeSquared (V *v q)) with (q * q * SizeSquared V)
    by (destruct V; unfold SizeSquared, vscale; simpl; ring).
  rewrite sqrt_mult by (try apply SizeSquared_nonneg; nra).
  now rewrite sqrt_square.
Qed.

Lemma Size2D_scale (V : FVector) (q : R) :
  0 <= q -> Size2D (V *v q) = q * Size2D V.
Proof.
  intros Hq. unfold Size2D, FMath.Sqrt.
  replace (SizeSquared2D (V *v q)) with (q * q * SizeSquared2D V)
    by (destruct V; unfold SizeSquared2D, vscale; simpl; ring).
  rewrite sqrt_mult by (try apply SizeSquared2D_nonneg; nra).
  now rewrite sqrt_square.
Qed.

Lemma vscale_vscale (V : FVector) (p q : R) : (V *v p) *v q = V *v (p * q).
Proof. destruct V; unfold vscale; simpl; f_equal; ring. Qed.

Lemma vscale_1 (V : FVector) : V *v 1 = V.
Proof. destruct V; unfold vscale; simpl; f_equal; ring. Qed.

Lemma NotReversed_trans (V W U : FVector) :
  V = W \/ NotReversed V W -> NotReversed W U -> NotReversed V U.
Proof.
  intros H [-> | (q & Hq & ->)]; [now left|].
  destruct H as [<- | [-> | (p & Hp & ->)]].
  - right. now exists q.
  - left. unfold vscale, ZeroVector; simpl. f_equal; ring.
  - right. exists (p * q). rewrite vscale_vscale. split; [nra|reflexivity].
Qed.

Lemma BrakeTrace_dot (V V' : FVector) (steps : list FVector) :
  BrakeTrace V V' steps -> Forall (fun W => 0 <= W |v V) steps.
Proof.
  induction 1; constructor; auto.
  - unfold dot, ZeroVector; simpl; lra.
  - apply NotReversed_dot. right. now exists q.
Qed.

Lemma BrakeTicks_total (c : Config) (o : Owner) (dt F D : R) (n : nat) :
  forall V, exists Vn,
    BrakeTicks n c o dt F D V = Some Vn /\ (Vn = V \/ NotReversed V Vn).
Proof.
  induction n as [|n IH]; intros V; simpl.
  - exists V. auto.
  - destruct (ApplyVelocityBraking_total c o dt F D V)
      as (steps & V' & Heq & _ & HV').
    unfold ApplyVelocityBraking. rewrite Heq. simpl.
    destruct (IH V') as (Vn & Hn & HVn). exists Vn. split; [assumption|].
    destruct HVn as [-> | HVn]; [assumption|].
    right. apply NotReversed_trans with V'; [|assumption].
    destruct HV' as [-> | HV']; auto.
Qed.

(** Inside the 0.1 box a call, and so any number of calls, changes nothing. *)
Lemma BrakeTicks_fixed (c : Config) (o : Owner) (dt F D : R) (V : FVector)
    (n : nat) :
  IsNearlyZeroV V (1 / 10) = true -> BrakeTicks n c o dt F D V = Some V.
Proof.
  intros H. induction n as [|n IH]; simpl; [reflexivity|].
  now rewrite ApplyVelocityBraking_unchanged by auto.
Qed.

Lemma BrakeTicks_S (c : Config) (o : Owner) (dt F D : R) (V V' : FVector)
    (n : nat) :
  ApplyVelocityBraking c o dt F D V = Some V' ->
  BrakeTicks (S n) c o dt F D V = BrakeTicks n c o dt F D V'.
Proof. intros H. simpl. now rewrite H. Qed.

Lemma ZeroVector_nearly_zero (tol : R) :
  0 <= tol -> IsNearlyZeroV ZeroVector tol = true.
Proof.
  intros. unfold IsNearlyZeroV, ZeroVector, Rleb, FMath.Abs; simpl.
  rdec; simpl; try reflexivity; lra.
Qed.

Lemma BrakeTicks_stays (c : Config) (o : Owner) (dt F D : R) (n : nat) :
  forall V U,
    BrakeTicks n c o dt F D V = Some U ->
    IsNearlyZeroV U (1 / 10) = true ->
    forall m, BrakeTicks (n + m) c o dt F D V = Some U.
Proof.
  induction n as [|n IH]; intros V U Hn HU m.
  - simpl in Hn. injection Hn as ->. now apply BrakeTicks_fixed.
  - simpl in *. destruct (ApplyVelocityBraking c o dt F D V); [|discriminate].
    now apply IH.
Qed.

Section BrakingConverges.

Variables (c : Config) (o : Owner) (dt F D : R) (V : FVector).
Hypothesis Hvalid : HasValidData o = true.
Hypothesis Hroot : HasAnimRootMotion o = false.
Hypothesis Hdt : MIN_TICK_TIME <= dt.
Hypothesis HF : FMath.IsNearlyZero (BrakingEffectiveFriction c F) = false.
Hypothesis HD : 0 < D \/ 0 < Size2D V.
Hypothesis HV : 0 < Size V.

Let f := BrakingEffectiveFriction c F.
(** A lower bound of the deceleration used on any multiple of [V] that is
    still outside the 0.1 box. *)
Let Dlow := FMath.Max D (Size2D V / (10 * Size V)).
Let delta := f * Dlow * dt.

Lemma BrakingConverges_delta_pos : 0 < delta.
Proof.
  assert (0 < f).
  { subst f. unfold FMath.IsNearlyZero, FMath.IsNearlyZeroTol in HF.
    apply Rleb_false_iff in HF. revert HF.
    unfold BrakingEffectiveFriction, FMath.Max, FMath.Abs, FMath.SMALL_NUMBER.
    rdec; lra. }
  assert (0 < Dlow).
  { subst Dlow. unfold FMath.Max. pose proof (Size2D_nonneg V).
    assert (0 < / (10 * Size V)) by (apply Rinv_0_lt_compat; lra).
    destruct HD.
    - rdec; lra.
    - assert (0 < Size2D V / (10 * Size V))
        by (unfold Rdiv; now apply Rmult_lt_0_compat).
      rdec; lra. }
  assert (0 < dt) by (unfold MIN_TICK_TIME in Hdt; lra).
  subst delta. repeat apply Rmult_lt_0_compat; assumption.
Qed.

Lemma BrakingConverges_steps (n : nat) :
  forall q, 0 < q <= 1 -> q * Size V <= INR n * delta ->
    exists m U,
      BrakeTicks m c o dt F D (V *v q) = Some U
      /\ IsNearlyZeroV U (1 / 10) = true.
Proof.
  pose proof BrakingConverges_delta_pos as Hdelta.
  induction n as [|n IH]; intros q Hq Hsize.
  - simpl in Hsize. nra.
  - destruct (IsNearlyZeroV (V *v q) (1 / 10)) eqn:Hbox.
    { exists O, (V *v q). simpl. auto. }
    assert (Hsz : 1 / 10 * (1 / 10) < SizeSquared (V *v q))
      by (apply IsNearlyZeroV_false_Size; [lra | assumption]).
    assert (HsW : Size (V *v q) = q * Size V) by (apply Size_scale; lra).
    assert (Hbig : 1 / 10 < q * Size V).
    { rewrite <- HsW. pose proof (Size_sqr (V *v q)).
      pose proof (Size_nonneg (V *v q)). nra. }
    assert (Hskip : BrakingSkipped o dt (V *v q) = false).
    { unfold BrakingSkipped. rewrite Hbox, Hvalid, Hroot. simpl.
      apply Rltb_false_iff. assumption. }
    (* the deceleration in use is at least [Dlow] *)
    assert (HDeff : Dlow <= BrakingEffectiveDeceleration D (V *v q)).
    { unfold BrakingEffectiveDeceleration.
      rewrite Size2D_scale by lra. subst Dlow.
      assert (Size2D V / (10 * Size V) <= q * Size2D V).
      { pose proof (Size2D_nonneg V).
        assert (E : Size2D V / (10 * Size V) * (10 * Size V) = Size2D V)
          by (field; lra).
        apply Rmult_le_reg_r with (10 * Size V); [lra|].
        rewrite E. nra. }
      unfold FMath.Max. rdec; lra. }
    assert (Hf : 0 < f).
    { subst f. unfold FMath.IsNearlyZero, FMath.IsNearlyZeroTol in HF.
      apply Rleb_false_iff in HF. revert HF.
      unfold BrakingEffectiveFriction, FMath.Max, FMath.Abs,
        FMath.SMALL_NUMBER. rdec; lra. }
    assert (HDlow : 0 < Dlow).
    { assert (0 < dt) by (unfold MIN_TICK_TIME in Hdt; lra).
      subst delta. destruct (Rlt_dec 0 Dlow); [assumption|].
      exfalso. assert (Dlow <= 0) by lra.
      assert (f * Dlow <= 0) by nra. nra. }
    assert (HDne : BrakingEffectiveDeceleration D (V *v q) <> 0) by lra.
    pose proof (ApplyVelocityBraking_closed c o dt F D (V *v q)
                  Hskip HF HDne) as Heq.
    fold f in Heq.
    set (k := f * BrakingEffectiveDeceleration D (V *v q)) in *.
    assert (Hk : delta <= k * dt).
    { subst delta k. assert (0 < dt) by (unfold MIN_TICK_TIME in Hdt; lra).
      apply Rmult_le_compat_r; [lra|].
      apply Rmult_le_compat_l; lra. }
    unfold BrakedVelocity in Heq. rewrite HsW in Heq.
    destruct (Rle_dec (q * Size V) (k * dt)) as [Hstop | Hgo].
    { exists 1%nat, ZeroVector. simpl. rewrite Heq.
      split; [reflexivity | apply ZeroVector_nearly_zero; lra]. }
    destruct (IsNearlyZeroV ((V *v q) *v _) FMath.KINDA_SMALL_NUMBER).
    { exists 1%nat, ZeroVector. simpl. rewrite Heq.
      split; [reflexivity | apply ZeroVector_nearly_zero; lra]. }
    rewrite vscale_vscale in Heq.
    set (q' := q * (1 - k * (dt - 0) / (q * Size V))) in *.
    assert (Hq's : q' * Size V = q * Size V - k * dt).
    { subst q'. field. split; lra. }
    destruct (IH q') as (m & U & Hm & HU).
    + split; [nra|]. assert (0 <= k * dt) by lra. nra.
    + rewrite S_INR in Hsize. nra.
    + exists (S m), U. split; [|assumption].
      now rewrite (BrakeTicks_S _ _ _ _ _ _ _ _ Heq).
Qed.

Lemma BrakingConverges :
  exists n U,
    BrakeTicks n c o dt F D V = Some U
    /\ IsNearlyZeroV U (1 / 10) = true
    /\ (U = V \/ NotReversed V U)
    /\ forall m, BrakeTicks (n + m) c o dt F D V = Some U.
Proof.
  pose proof BrakingConverges_delta_pos as Hdelta.
  destruct (archimed (Size V / delta)) as [Hup _].
  set (N := Z.to_nat (up (Size V / delta))).
  assert (HN : Size V <= INR N * delta).
  { assert (0 <= Size V / delta).
    { unfold Rdiv. apply Rmult_le_pos; [lra|].
      left. now apply Rinv_0_lt_compat. }
    assert (0 <= up (Size V / delta))%Z by (apply le_IZR; lra).
    subst N. rewrite INR_IZR_INZ, Z2Nat.id by assumption.
    assert (E : Size V / delta * delta = Size V) by (field; lra).
    nra. }
  destruct (BrakingConverges_steps N 1) as (n & U & Hn & HU); try lra.
  rewrite vscale_1 in Hn.
  exists n, U. repeat split; auto.
  - destruct (BrakeTicks_total c o dt F D n V) as (U' & HU' & Hrel).
    congruence.
  - intros m. now apply BrakeTicks_stays.
Qed.

End BrakingConverges.

(** One sub-step of the loop: when the updated velocity has a non-positive
    dot product with the velocity before braking, the loop returns the zero
    vector at once. *)
Lemma BrakingLoop_snaps (fuel : nat) (Fr De MTS r : R)
    (RevAccel OldVel Vel : FVector) :
  MIN_TICK_TIME <= r ->
  (Vel +v (RevAccel *v (Fr * De))
        *v (if Rlt_dec MTS r then FMath.Min MTS (r * (1 / 2)) else r))
  |v OldVel <= 0 ->
  BrakingLoop (S fuel) Fr De MTS RevAccel OldVel r Vel
  = Some ([ZeroVector], ZeroVector).
Proof.
  intros Hr Hdot. simpl.
  destruct (Rle_dec MIN_TICK_TIME r); [|contradiction].
  destruct (Rle_dec _ 0); [reflexivity|contradiction].
Qed.

(** C1 (as the code has it).  For every velocity, friction, braking
    deceleration and tick length, [ApplyVelocityBraking] returns, and never
    reverses the velocity: (a) every sub-step of its loop leaves a positive
    multiple of the starting velocity, except that a sub-step whose result
    would have a dot product <= 0 with the starting velocity leaves exactly
    the zero vector, ends the loop and makes the call return zero; the
    returned velocity is the starting one (no-op), zero, or a positive
    multiple of it that is not nearly zero; (b) is the single-sub-step form
    of the snap; (c) any number of repeated calls again gives zero or a
    multiple in (0, 1] of the starting velocity, so the velocity never
    passes zero; (d) when the effective friction is above the near-zero
    tolerance and the deceleration argument or the horizontal speed is
    positive, repeated ticks reach a velocity with every coordinate within
    0.1 (zero, or a small residue) and stay there: inside that box the call
    is a no-op, so convergence is to the box and not always to exactly
    zero. *)
Theorem ApplyVelocityBraking_never_reverses (c : Config) (o : Owner)
    (dt F D : R) (V : FVector) :
  (exists steps V',
      ApplyVelocityBraking_steps c o dt F D V = Some (steps, V')
      /\ BrakeTrace V V' steps
      /\ Forall (fun W => 0 <= W |v V) steps
      /\ (V' = V \/ NotReversed V V')
      /\ 0 <= V' |v V
      /\ (V' = V \/ V' = ZeroVector
          \/ IsNearlyZeroV V' FMath.KINDA_SMALL_NUMBER = false))
  /\ (forall fuel Fr De MTS r RevAccel OldVel Vel,
        MIN_TICK_TIME <= r ->
        (Vel +v (RevAccel *v (Fr * De))
              *v (if Rlt_dec MTS r then FMath.Min MTS (r * (1 / 2)) else r))
        |v OldVel <= 0 ->
        BrakingLoop (S fuel) Fr De MTS RevAccel OldVel r Vel
        = Some ([ZeroVector], ZeroVector))
  /\ (forall n, exists Vn,
        BrakeTicks n c o dt F D V = Some Vn
        /\ (Vn = V \/ NotReversed V Vn) /\ 0 <= Vn |v V)
  /\ (HasValidData o = true -> HasAnimRootMotion o = false ->
      MIN_TICK_TIME <= dt ->
      FMath.IsNearlyZero (BrakingEffectiveFriction c F) = false ->
      0 < D \/ 0 < Size2D V ->
      exists n U,
        BrakeTicks n c o dt F D V = Some U
        /\ IsNearlyZeroV U (1 / 10) = true
        /\ (U = V \/ NotReversed V U)
        /\ forall m, BrakeTicks (n + m) c o dt F D V = Some U).
Proof.
  assert (Hself : 0 <= V |v V) by (destruct V; unfold dot; simpl; nra).
  repeat split.
  - destruct (BrakingSkipped o dt V) eqn:H1;
      [|destruct (FMath.IsNearlyZero (BrakingEffectiveFriction c F)) eqn:H2;
        [|destruct (Req_dec_T (BrakingEffectiveDeceleration D V) 0)
            as [H3|H3]]].
    1-3: exists [], V; rewrite ApplyVelocityBraking_guarded by auto;
         repeat split; auto; constructor.
    destruct (ApplyVelocityBraking_steps_closed c o dt F D V H1 H2 H3)
      as (steps & Heq & Htr).
    destruct (ApplyVelocityBraking_total c o dt F D V)
      as (steps' & V' & Heq' & _ & Hrel).
    rewrite Heq in Heq'. injection Heq' as <- <-.
    eexists. eexists. split; [exact Heq|].
    split; [exact Htr|]. split; [exact (BrakeTrace_dot _ _ _ Htr)|].
    split; [exact Hrel|].
    split.
    + destruct Hrel as [-> | Hrel]; [assumption | now apply NotReversed_dot].
    + right. unfold BrakedVelocity.
      destruct (Rle_dec _ _); [now left|].
      destruct (IsNearlyZeroV (V *v _) _) eqn:E; [now left | now right].
  - intros. now apply BrakingLoop_snaps.
  - intros n. destruct (BrakeTicks_total c o dt F D n V) as (Vn & Hn & Hrel).
    exists Vn. repeat split; auto.
    destruct Hrel as [-> | Hrel]; [assumption | now apply NotReversed_dot].
  - intros Hvalid Hroot Hdt HF HD.
    destruct (IsNearlyZeroV V (1 / 10)) eqn:Hbox.
    + exists O, V. repeat split; auto.
      intros m. simpl. now apply BrakeTicks_fixed.
    + apply BrakingConverges; auto.
      apply Size_pos.
      pose proof (IsNearlyZeroV_false_Size V (1 / 10) ltac:(lra) Hbox). lra.
Qed.

Lemma ApplyVelocityBraking_never_reverses_witness :
  exists n U,
    BrakeTicks n StockConfig LocalOwner (1 / 60) 4 (1905 / 10) (mkVec 300 0 0)
    = Some U
    /\ IsNearlyZeroV U (1 / 10) = true.
Proof.
  destruct (ApplyVelocityBraking_never_reverses StockConfig LocalOwner
              (1 / 60) 4 (1905 / 10) (mkVec 300 0 0)) as (_ & _ & _ & H).
  destruct H as (n & U & Hn & HU & _).
  - reflexivity.
  - reflexivity.
  - unfold MIN_TICK_TIME. lra.
  - unfold BrakingEffectiveFriction, FMath.IsNearlyZero,
      FMath.IsNearlyZeroTol, Rleb, FMath.Max, FMath.Abs,
      FMath.SMALL_NUMBER; simpl. rdec; simpl; try lra; reflexivity.
  - left. lra.
  - exists n, U. auto.
Defined.

(** C1, the claim as stated fails: with the stock friction 4 and braking
    deceleration 190.5, one tick of 0.1 ms takes a velocity of 0.15 along X
    (above the 0.1 threshold) to 0.0738, which is not zero, and every later
    call returns it unchanged because it lies inside the 0.1 box. *)
Lemma ApplyVelocityBraking_stalls_above_zero :
  BrakeTicks 1 StockConfig LocalOwner (1 / 10000) 4 (1905 / 10)
    (mkVec (15 / 100) 0 0) = Some (mkVec (738 / 10000) 0 0)
  /\ ApplyVelocityBraking StockConfig LocalOwner (1 / 10000) 4 (1905 / 10)
       (mkVec (738 / 10000) 0 0) = Some (mkVec (738 / 10000) 0 0)
  /\ mkVec (738 / 10000) 0 0 <> ZeroVector.
Proof.
  repeat split.
  - simpl. rewrite ApplyVelocityBraking_closed.
    + f_equal. unfold BrakedVelocity, BrakingEffectiveFriction,
        BrakingEffectiveDeceleration.
      rewrite Size_axis_x, Size2D_axis_x by lra. simpl.
      unfold FMath.Max, IsNearlyZeroV, Rleb, FMath.Abs, vscale,
        FMath.KINDA_SMALL_NUMBER; simpl.
      rdec; simpl; try lra; try (f_equal; field).
    + unfold BrakingSkipped, IsNearlyZeroV, Rleb, Rltb, FMath.Abs,
        MIN_TICK_TIME; simpl. rdec; simpl; try lra; reflexivity.
    + unfold BrakingEffectiveFriction, FMath.IsNearlyZero,
        FMath.IsNearlyZeroTol, Rleb, FMath.Max, FMath.Abs,
        FMath.SMALL_NUMBER; simpl. rdec; simpl; try lra; reflexivity.
    + unfold BrakingEffectiveDeceleration. rewrite Size2D_axis_x by lra.
      unfold FMath.Max. rdec; lra.
  - apply ApplyVelocityBraking_unchanged. right; left.
    unfold IsNearlyZeroV, Rleb, FMath.Abs; simpl.
    rdec; simpl; try lra; reflexivity.
  - intros H. injection H as H. lra.
Qed.

(* ===================================================================== *)
(** ** C4: the slide vector of HandleSlopeBoosting *)

Lemma Reqb_Abs_one (z : R) : Reqb (FMath.Abs z) 1 = true <-> Rabs z = 1.
Proof. rewrite Abs_Rabs. apply Reqb_true_iff. Qed.

(** C4 (as the code has it).  Off a ladder and out of no-clip,
    [HandleSlopeBoosting] returns (Delta - BounceCoefficient * proj(Delta,
    N)) * Time with BounceCoefficient = 1 + BounceMultiplier * (1 -
    SurfaceFriction), which is exactly 1 when SurfaceFriction = 1.  N is
    the hit's impact normal, except that the [Normal] argument is taken
    instead when |ImpactNormal.Z| <= 0.001 or |ImpactNormal.Z| is exactly 1
    (so for Z = 1 and for Z = -1 alike); when the movement is constrained
    to a plane, N is then passed through [ConstrainNormalToPlane]. *)
Theorem HandleSlopeBoosting_formula (c : Config) (m : Movement)
    (SlideResult Delta : FVector) (t : R) (N : FVector) (Hit : FHitResult) :
  bOnLadder m = false -> bCheatFlying m = false ->
  let z := Z (ImpactNormal Hit) in
  let BC := 1 + BounceMultiplier c * (1 - SurfaceFriction m) in
  let slide n := (Delta -v (n *v (Delta |v n)) *v BC) *v t in
  (Rabs z <= / 1000 \/ Rabs z = 1 ->
   HandleSlopeBoosting c m SlideResult Delta t N Hit
   = slide (ConstrainNormalToPlane c N))
  /\ (/ 1000 < Rabs z /\ Rabs z <> 1 ->
      HandleSlopeBoosting c m SlideResult Delta t N Hit
      = slide (ConstrainNormalToPlane c (ImpactNormal Hit)))
  /\ (bConstrainToPlane c = false ->
      ConstrainNormalToPlane c N = N
      /\ ConstrainNormalToPlane c (ImpactNormal Hit) = ImpactNormal Hit)
  /\ (SurfaceFriction m = 1 -> BC = 1).
Proof.
  intros Hl Hf z BC slide.
  assert (Hc : forall n, (if bConstrainToPlane c
                          then ConstrainNormalToPlane c n else n)
                         = ConstrainNormalToPlane c n).
  { intros n. unfold ConstrainNormalToPlane.
    now destruct (bConstrainToPlane c). }
  unfold HandleSlopeBoosting. rewrite Hl, Hf. simpl.
  rewrite Hc. unfold SlopeNormal, BounceCoefficient, ProjectOnToNormal.
  fold z. unfold PlayerMovementConstants.VerticalSlopeNormalZ.
  repeat split.
  - intros H.
    assert (E : Rleb (FMath.Abs z) (/ 1000) || Reqb (FMath.Abs z) 1 = true).
    { apply orb_true_iff. destruct H as [H | H].
      - left. apply Rleb_true_iff. now rewrite Abs_Rabs.
      - right. now apply Reqb_Abs_one. }
    now rewrite E.
  - intros [H1 H2].
    assert (E : Rleb (FMath.Abs z) (/ 1000) || Reqb (FMath.Abs z) 1 = false).
    { apply orb_false_iff. split.
      - apply Rleb_false_iff. now rewrite Abs_Rabs.
      - apply Reqb_false_iff. now rewrite Abs_Rabs. }
    now rewrite E.
  - unfold ConstrainNormalToPlane. now rewrite H.
  - unfold ConstrainNormalToPlane. now rewrite H.
  - intros H. subst BC. rewrite H. ring.
Qed.

Lemma HandleSlopeBoosting_formula_witness :
  HandleSlopeBoosting StockConfig StockMovement ZeroVector (mkVec 10 0 0) 1
    (Normal SlopeHit) SlopeHit
  = (mkVec 10 0 0
     -v (ImpactNormal SlopeHit *v (mkVec 10 0 0 |v ImpactNormal SlopeHit))
        *v (1 + 0 * (1 - 1))) *v 1.
Proof.
  destruct (HandleSlopeBoosting_formula StockConfig StockMovement ZeroVector
              (mkVec 10 0 0) 1 (Normal SlopeHit) SlopeHit eq_refl eq_refl)
    as (_ & H & _).
  apply H. simpl. split.
  - rewrite Rabs_pos_eq; lra.
  - rewrite Rabs_pos_eq; lra.
Defined.

(** C4, the claim as stated fails for ImpactNormal.Z = -1: that value is
    neither within 0.001 of zero nor exactly 1.0, so the claim slides
    against the impact normal and gets the zero vector for an upward
    Delta, while the code (which tests |Z| == 1) slides against the
    [Normal] argument and returns (4.8, 0, 3.6). *)
Lemma HandleSlopeBoosting_ceiling_uses_Normal :
  HandleSlopeBoosting StockConfig StockMovement ZeroVector (mkVec 0 0 10) 1
    (Normal CeilingHit) CeilingHit = mkVec (48 / 10) 0 (36 / 10)
  /\ (mkVec 0 0 10
      -v ProjectOnToNormal (mkVec 0 0 10) (ImpactNormal CeilingHit)
         *v BounceCoefficient StockConfig StockMovement) *v 1 = ZeroVector
  /\ mkVec (48 / 10) 0 (36 / 10) <> ZeroVector.
Proof.
  repeat split.
  - unfold HandleSlopeBoosting, SlopeNormal, BounceCoefficient,
      ProjectOnToNormal, PlayerMovementConstants.VerticalSlopeNormalZ,
      Rleb, Reqb, FMath.Abs; simpl.
    rdec; simpl; try lra;
      unfold vsub, vscale, dot; simpl; f_equal; field.
  - unfold BounceCoefficient, ProjectOnToNormal, vsub, vscale, dot,
      ZeroVector; simpl. f_equal; ring.
  - intros H. injection H as H. lra.
Qed.

(* ===================================================================== *)
(** ** C5: the dynamic step height and slope limit *)

Lemma CalcVelocity_friction_total (c : Config) (o : Owner)
    (dt F D MaxSpeed : R) (g : bool) (A V : FVector) (sf : R) :
  exists V', CalcVelocity_friction c o dt F D MaxSpeed g A V sf = Some V'.
Proof.
  unfold CalcVelocity_friction. destruct g; [|now exists V].
  destruct (ApplyVelocityBraking_total c o dt
              ((if bUseSeparateBrakingFriction c then BrakingFriction c else F)
               * sf) D V) as (steps & V' & Heq & _).
  unfold ApplyVelocityBraking. rewrite Heq. simpl.
  destruct (_ && _); eexists; reflexivity.
Qed.

(** A call that passes the entry guard ends in the step height block, run
    on a component that differs from the incoming one only in velocity,
    acceleration and analog modifier. *)
Lemma CalcVelocity_shape (c : Config) (o : Owner) (dt F : R) (bFluid : bool)
    (D : R) (m : Movement) :
  CalcVelocitySkipped o dt = false ->
  exists V A a,
    CalcVelocity c o dt F bFluid D m
    = Some (UpdateStepHeight c
              (set_Velocity V (set_Acceleration A
                                 (set_AnalogInputModifier a m)))).
Proof.
  intros Hskip. unfold CalcVelocity. rewrite Hskip.
  destruct (ForcedAcceleration c o m) as [Accel Analog].
  match goal with
  | |- context [CalcVelocity_friction ?c ?o ?dt ?F ?D ?M ?g ?A ?V ?sf] =>
      destruct (CalcVelocity_friction_total c o dt F D M g A V sf)
        as (V' & ->)
  end.
  destruct (bCheatFlying m); [eexists; eexists; eexists; reflexivity|].
  destruct (bOnLadder m); [eexists; eexists; eexists; reflexivity|].
  destruct (ApplyInputAcceleration _ _ _ _ _ _ _ _) as [V1 A1].
  eexists; eexists; eexists; reflexivity.
Qed.

Lemma UpdateStepHeight_Velocity (c : Config) (m : Movement) :
  Velocity (UpdateStepHeight c m) = Velocity m.
Proof. unfold UpdateStepHeight. now destruct (_ || _). Qed.

(** C5.  When [CalcVelocity] gets past its entry guard it returns, and with
    [SpeedSq] the squared 2D speed of the velocity it leaves: if the agent
    is on a ladder or [SpeedSq] <= MaxWalkSpeedCrouched squared, then
    MaxStepHeight is DefaultStepHeight and the walkable floor Z is its
    default; otherwise both are interpolated by the multiplier
    clamp01((speed - SpeedMultMin) / (SpeedMultMax - SpeedMultMin))
    squared, scaled by (1 - SurfaceFriction) and floored at 0 when not
    falling: MaxStepHeight from DefaultStepHeight toward MinStepHeight,
    the walkable floor Z from its default toward 0.9848 (the engine's
    setter keeps it in [0, 1], which changes nothing when
    SurfaceFriction >= 0).  When SpeedMultMax and SpeedMultMin are equal
    the quotient of doubles is infinite or NaN, and its clamp is 0 for a
    speed below SpeedMultMin and 1 otherwise. *)
Theorem CalcVelocity_step_height (c : Config) (o : Owner) (dt F : R)
    (bFluid : bool) (D : R) (m : Movement) :
  CalcVelocitySkipped o dt = false ->
  0 <= DefaultWalkableFloorZ c <= 1 ->
  exists m',
    CalcVelocity c o dt F bFluid D m = Some m'
    /\ let SpeedSq := SizeSquared2D (Velocity m') in
       let Crouch := MaxWalkSpeedCrouched c in
       (bOnLadder m = true \/ SpeedSq <= Crouch * Crouch ->
        MaxStepHeight m' = DefaultStepHeight c
        /\ WalkableFloorZ m' = DefaultWalkableFloorZ c)
       /\ (bOnLadder m = false /\ Crouch * Crouch < SpeedSq ->
           let Scale :=
             (sqrt SpeedSq - SpeedMultMin c)
             / (SpeedMultMax c - SpeedMultMin c) in
           exists Clamped,
             (SpeedMultMax c <> SpeedMultMin c ->
              Clamped = Rmax 0 (Rmin Scale 1))
             /\ (SpeedMultMax c = SpeedMultMin c ->
                 (sqrt SpeedSq < SpeedMultMin c -> Clamped = 0)
                 /\ (SpeedMultMin c <= sqrt SpeedSq -> Clamped = 1))
             /\ let Mult :=
                  if IsFalling m then Clamped * Clamped
                  else Rmax ((1 - SurfaceFriction m) * (Clamped * Clamped)) 0
                in
                MaxStepHeight m'
                = DefaultStepHeight c
                  + Mult * (MinStepHeight c - DefaultStepHeight c)
                /\ WalkableFloorZ m'
                   = FMath.Clamp
                       (DefaultWalkableFloorZ c
                        + Mult * (9848 / 10000 - DefaultWalkableFloorZ c))
                       0 1
                /\ (0 <= SurfaceFriction m ->
                    WalkableFloorZ m'
                    = DefaultWalkableFloorZ c
                      + Mult * (9848 / 10000 - DefaultWalkableFloorZ c))).
Proof.
  intros Hskip Hdef.
  destruct (CalcVelocity_shape c o dt F bFluid D m Hskip)
    as (V & A & a & Heq).
  rewrite Heq. eexists. split; [reflexivity|].
  rewrite UpdateStepHeight_Velocity. simpl.
  set (SpeedSq := SizeSquared2D V).
  unfold UpdateStepHeight. simpl. fold SpeedSq.
  split.
  - intros H.
    assert (E : bOnLadder m
                || Rleb SpeedSq (MaxWalkSpeedCrouched c * MaxWalkSpeedCrouched c)
                = true).
    { apply orb_true_iff. destruct H as [H | H]; [now left|].
      right. now apply Rleb_true_iff. }
    rewrite E. simpl. split; [reflexivity|]. now apply Clamp_id.
  - intros [Hl Hs].
    assert (E : bOnLadder m
                || Rleb SpeedSq (MaxWalkSpeedCrouched c * MaxWalkSpeedCrouched c)
                = false).
    { apply orb_false_iff. split; [assumption|]. now apply Rleb_false_iff. }
    rewrite E. simpl.
    unfold SpeedMultiplierOf, IsFalling, FMath.Lerp, FMath.Sqrt, FMath.Square.
    simpl.
    set (Scale := (sqrt SpeedSq - SpeedMultMin c)
                  / (SpeedMultMax c - SpeedMultMin c)).
    set (Cl := ClampedSpeedScale c (sqrt SpeedSq)).
    assert (HCl : 0 <= Cl <= 1).
    { subst Cl. unfold ClampedSpeedScale, FMath.Clamp. rdec; lra. }
    exists Cl.
    split; [|split].
    { intros Hne. subst Cl. unfold ClampedSpeedScale.
      destruct (Req_dec_T _ _) as [H0 | _]; [exfalso; lra|].
      fold Scale. unfold FMath.Clamp, Rmax, Rmin. rdec; lra. }
    { intros Hsame. subst Cl. unfold ClampedSpeedScale.
      destruct (Req_dec_T _ _) as [_ | H0]; [|exfalso; lra].
      split; intros Hv; rdec; lra. }
    assert (Hmult : (if negb match MovementMode m with
                             | MOVE_Falling => true | _ => false end
                     then FMath.Max ((1 - SurfaceFriction m) * (Cl * Cl)) 0
                     else Cl * Cl)
                    = (if match MovementMode m with
                          | MOVE_Falling => true | _ => false end
                       then Cl * Cl
                       else Rmax ((1 - SurfaceFriction m) * (Cl * Cl)) 0)).
    { rewrite Max_Rmax. now destruct (MovementMode m). }
    rewrite Hmult.
    set (Mult := if match MovementMode m with
                    | MOVE_Falling => true | _ => false end
                 then Cl * Cl
                 else Rmax ((1 - SurfaceFriction m) * (Cl * Cl)) 0).
    repeat split.
    intros Hsf. apply Clamp_id.
    assert (HM : 0 <= Mult <= 1).
    { subst Mult. destruct (match MovementMode m with
                            | MOVE_Falling => true | _ => false end).
      - nra.
      - unfold Rmax. rdec; nra. }
    nra.
Qed.

(* ===================================================================== *)
(** ** C7: the braking window *)

Lemma UpdateBrakingWindow_mode (c : Config) (dt : R) (m : Movement) :
  MovementMode (UpdateBrakingWindow c dt m) = MovementMode m.
Proof.
  unfold UpdateBrakingWindow.
  destruct (IsMovingOnGround m); [|reflexivity].
  now destruct (Rle_dec _ _).
Qed.

(** With the window not elapsed the friction block of [CalcVelocity] is
    not entered, so the result does not depend on the braking arguments. *)
Lemma CalcVelocity_no_braking (c : Config) (o : Owner) (dt F1 F2 D1 D2 : R)
    (m : Movement) :
  bBrakingWindowElapsed m = false ->
  CalcVelocity c o dt F1 false D1 m = CalcVelocity c o dt F2 false D2 m.
Proof.
  intros H. unfold CalcVelocity.
  destruct (CalcVelocitySkipped o dt); [reflexivity|].
  destruct (ForcedAcceleration c o m) as [Accel Analog].
  rewrite H, andb_false_r. reflexivity.
Qed.

(** C7 (as the code has it).  One tick that reaches the braking window
    block, that is, a tick of an agent that is not simulating physics (a
    ragdoll tick returns before the block), where the engine's own tick
    leaves the two window fields alone and times are not negative.  With
    [g] the component as
    the block sees it: off the ground the window is reset to not elapsed
    with accumulated time 0; the accumulated time grows only on a tick
    spent on the ground with the window not yet elapsed, and then by the
    tick's delta time in milliseconds; on such a tick the window becomes
    elapsed (and the time restarts at 0) exactly when the accumulated time
    reaches BrakingWindow; an elapsed window implies the agent is on the
    ground; and [CalcVelocity] on a component whose window is not elapsed
    gives the same result whatever friction and braking deceleration it is
    passed, that is, it applies no braking. *)
Theorem TickComponent_braking_window
    (Super_TickComponent : R -> Movement -> Movement)
    (c : Config) (o : Owner) (dt : R) (m : Movement) :
  IsSimulatingPhysics o = false ->
  bBrakingWindowElapsed (Super_TickComponent dt m) = bBrakingWindowElapsed m ->
  BrakingWindowTimeElapsed (Super_TickComponent dt m)
  = BrakingWindowTimeElapsed m ->
  0 <= dt ->
  0 <= BrakingWindowTimeElapsed m ->
  let g := TickMode Super_TickComponent dt m in
  let m' := TickComponent Super_TickComponent c o dt m in
  let t := BrakingWindowTimeElapsed m in
  let t' := BrakingWindowTimeElapsed m' in
  (IsMovingOnGround g = false ->
   bBrakingWindowElapsed m' = false /\ t' = 0)
  /\ (t < t' ->
      IsMovingOnGround g = true /\ bBrakingWindowElapsed m = false
      /\ t' = t + dt * 1000)
  /\ (IsMovingOnGround g = true -> bBrakingWindowElapsed m = false ->
      (BrakingWindow c <= t + dt * 1000 ->
       bBrakingWindowElapsed m' = true /\ t' = 0)
      /\ (t + dt * 1000 < BrakingWindow c ->
          bBrakingWindowElapsed m' = false /\ t' = t + dt * 1000))
  /\ (bBrakingWindowElapsed m' = true -> IsMovingOnGround g = true)
  /\ 0 <= t'
  /\ (bBrakingWindowElapsed m' = false ->
      forall dt' F1 F2 D1 D2,
        CalcVelocity c o dt' F1 false D1 m'
        = CalcVelocity c o dt' F2 false D2 m').
Proof.
  intros Hphys He Ht Hdt Ht0 g m' t t'.
  assert (Hg : bBrakingWindowElapsed g = bBrakingWindowElapsed m
               /\ BrakingWindowTimeElapsed g = t).
  { subst g t. unfold TickMode.
    destruct (bHasDeferredMovementMode _); simpl; auto. }
  destruct Hg as [Hge Hgt].
  assert (Hm' : m' = set_bCrouchFrameTolerated (IsCrouching o)
                       (UpdateBrakingWindow c dt g)).
  { subst m' g. unfold TickComponent, TickMode. now rewrite Hphys. }
  assert (Hcases :
            (IsMovingOnGround g = false
             /\ bBrakingWindowElapsed m' = false /\ t' = 0)
            \/ (IsMovingOnGround g = true
                /\ bBrakingWindowElapsed m = true
                /\ ((BrakingWindow c <= t
                     /\ bBrakingWindowElapsed m' = true /\ t' = 0)
                    \/ (t < BrakingWindow c
                        /\ bBrakingWindowElapsed m' = true /\ t' = t)))
            \/ (IsMovingOnGround g = true
                /\ bBrakingWindowElapsed m = false
                /\ ((BrakingWindow c <= t + dt * 1000
                     /\ bBrakingWindowElapsed m' = true /\ t' = 0)
                    \/ (t + dt * 1000 < BrakingWindow c
                        /\ bBrakingWindowElapsed m' = false
                        /\ t' = t + dt * 1000)))).
  { subst t'. rewrite Hm'. unfold UpdateBrakingWindow.
    rewrite Hge, Hgt.
    destruct (IsMovingOnGround g); [|left; simpl; auto].
    right. destruct (bBrakingWindowElapsed m); simpl.
    - left. split; [reflexivity|]. split; [reflexivity|].
      destruct (Rle_dec (BrakingWindow c) t); simpl; [left | right];
        repeat split; auto; lra.
    - right. split; [reflexivity|]. split; [reflexivity|].
      destruct (Rle_dec (BrakingWindow c) (t + dt * 1000)); simpl;
        [left | right]; repeat split; auto; lra. }
  assert (Hdt' : 0 <= dt * 1000) by lra.
  fold t in Ht0. clear Hm' Hge Hgt. clearbody t t' g m'.
  repeat split; intros; try (now apply CalcVelocity_no_braking);
    destruct Hcases as [Hc | [Hc | Hc]];
    intuition (try congruence; try lra).
Qed.

Lemma TickComponent_braking_window_witness :
  bBrakingWindowElapsed
    (TickComponent (fun _ m => m) StockConfig LocalOwner (1 / 60)
       FallingMovement) = false
  /\ BrakingWindowTimeElapsed
       (TickComponent (fun _ m => m) StockConfig LocalOwner (1 / 60)
          FallingMovement) = 0.
Proof.
  destruct (TickComponent_braking_window (fun _ m => m) StockConfig
              LocalOwner (1 / 60) FallingMovement) as (H & _).
  - reflexivity.
  - reflexivity.
  - reflexivity.
  - lra.
  - simpl. lra.
  - apply H. reflexivity.
Defined.

(** C7, the claim as stated fails on a ragdoll tick.  The stock
    component is falling with the window elapsed (it went airborne as a
    ragdoll) and its updated component simulates physics: the tick returns
    before the braking window block, so although the agent is not moving
    on ground the window is not reset and stays elapsed. *)
Lemma TickComponent_ragdoll_keeps_window :
  IsSimulatingPhysics RagdollOwner = true
  /\ IsMovingOnGround (TickMode (fun _ m => m) (1 / 60) FallingMovement)
     = false
  /\ bBrakingWindowElapsed
       (TickComponent (fun _ m => m) StockConfig RagdollOwner (1 / 60)
          FallingMovement) = true
  /\ bBrakingWindowElapsed
       (TickComponent (fun _ m => m) StockConfig LocalOwner (1 / 60)
          FallingMovement) = false.
Proof. repeat split. Qed.

(* ===================================================================== *)
(** ** C3: the jump apex sub-step *)

(** The two ways out of the apex block. *)
Lemma JumpApexSubstep_cases (c : Config) (Old Vel : FVector)
    (TimeTick Rem : R) (Iter Num : int32) :
  let a := JumpApexSubstep c Old Vel TimeTick Rem Iter Num in
  (aSplit a = true
   /\ (Num < MaxJumpApexAttemptsPerSimulation c)%Z
   /\ aIterations a = (Iter - 1)%Z
   /\ aNumJumpApexAttempts a = (Num + 1)%Z)
  \/ (aSplit a = false
      /\ aIterations a = Iter
      /\ aNumJumpApexAttempts a = Num
      /\ aVelocity a = Vel
      /\ aRemainingTime a = Rem
      /\ aTimeTick a = TimeTick).
Proof.
  unfold JumpApexSubstep.
  destruct (Rltb 0 (Z Old) && Rleb (Z Vel) 0
            && (Num <? MaxJumpApexAttemptsPerSimulation c)%Z) eqn:E;
    [|right; simpl; auto 6].
  apply andb_true_iff in E. destruct E as [_ E]. apply Z.ltb_lt in E.
  destruct (negb _); [|right; simpl; auto 6].
  destruct (_ && _); [left | right]; simpl; auto 6.
Qed.

Lemma ApexSplits_cons (a : ApexState) (tr : list ApexState) :
  ApexSplits (a :: tr)
  = ((if aSplit a then 1 else 0) + ApexSplits tr)%nat.
Proof. unfold ApexSplits. simpl. now destruct (aSplit a). Qed.

Lemma MovedTime_cons (a : ApexState) (tr : list ApexState) :
  MovedTime (a :: tr) = aTimeTick a + MovedTime tr.
Proof. reflexivity. Qed.

(** What the apex block leaves of the time: the time of the move and the
    remaining time add up to the time step and the remaining time it was
    entered with; and a split entry has a velocity with Z exactly 0 and
    moves for the time to the apex. *)
Lemma JumpApexSubstep_time (c : Config) (Old Vel : FVector)
    (TimeTick Rem : R) (Iter Num : int32) :
  let a := JumpApexSubstep c Old Vel TimeTick Rem Iter Num in
  aTimeTick a + aRemainingTime a = TimeTick + Rem
  /\ (aSplit a = true ->
      Z (aVelocity a) = 0 /\ aTimeToApex a = Some (aTimeTick a)
      /\ / 10000 <= aTimeTick a < TimeTick).
Proof.
  unfold JumpApexSubstep.
  destruct (_ && _ && _); simpl; [|split; [ring | discriminate]].
  destruct (negb _); simpl; [|split; [ring | discriminate]].
  destruct (Rleb ApexTimeMinimum _ && Rltb _ TimeTick) eqn:E; simpl;
    [|split; [ring | discriminate]].
  split; [ring|]. intros _.
  apply andb_true_iff in E. destruct E as [E1 E2].
  unfold ApexTimeMinimum in E1. rbool. auto.
Qed.

(** The loop returns within its fuel; the attempt counter counts the
    splits and never passes its bound; the time the sub-steps moved for
    and the time left over add up to the time the loop was entered with;
    and every split sub-step moved with a vertical velocity of 0 for the
    time to the apex. *)
Lemma PhysFallingLoop_bound (EngineState : Type)
    (e : FallingEngine EngineState) (c : Config) (fuel : nat) :
  forall s : FallingState EngineState,
    (PhysFallingFuel c s <= fuel)%nat ->
    exists tr s',
      PhysFallingLoop fuel e c s = Some (tr, s')
      /\ fNumJumpApexAttempts s'
         = (fNumJumpApexAttempts s + Z.of_nat (ApexSplits tr))%Z
      /\ (fNumJumpApexAttempts s'
          <= Z.max (fNumJumpApexAttempts s)
                   (MaxJumpApexAttemptsPerSimulation c))%Z
      /\ MovedTime tr + fRemainingTime s' = fRemainingTime s
      /\ Forall (fun a => aSplit a = true ->
                          Z (aVelocity a) = 0
                          /\ aTimeToApex a = Some (aTimeTick a)
                          /\ / 10000 <= aTimeTick a) tr.
Proof.
  induction fuel as [|fuel IH]; intros s Hfuel.
  - unfold PhysFallingFuel in Hfuel.
    assert (Hit : (fIterations s <? MaxSimulationIterations c)%Z = false).
    { apply Z.ltb_ge. lia. }
    simpl. rewrite Hit, andb_false_r.
    exists [], s. unfold ApexSplits, MovedTime. simpl.
    split; [reflexivity|]. split; [lia|]. split; [lia|].
    split; [ring | constructor].
  - simpl.
    destruct (Rleb MIN_TICK_TIME (fRemainingTime s)
              && (fIterations s <? MaxSimulationIterations c)%Z) eqn:Hloop.
    2:{ exists [], s. unfold ApexSplits, MovedTime. simpl.
        split; [reflexivity|]. split; [lia|]. split; [lia|].
        split; [ring | constructor]. }
    apply andb_true_iff in Hloop. destruct Hloop as [_ Hit].
    apply Z.ltb_lt in Hit.
    set (TimeTick := GetSimulationTimeStep c (fRemainingTime s)
                       (fIterations s + 1)%Z).
    destruct (BeginSubStep e (fEngine s) (fMovement s)) as [w0 m0].
    destruct (BeforeApex e TimeTick (Velocity m0) w0 m0) as [w1 m1].
    pose proof (JumpApexSubstep_cases c (Velocity m0)
                  (Velocity m1) TimeTick (fRemainingTime s - TimeTick)
                  (fIterations s + 1)%Z (fNumJumpApexAttempts s)) as Hcases.
    pose proof (JumpApexSubstep_time c (Velocity m0)
                  (Velocity m1) TimeTick (fRemainingTime s - TimeTick)
                  (fIterations s + 1)%Z (fNumJumpApexAttempts s)) as Htime.
    set (a := JumpApexSubstep c (Velocity m0) (Velocity m1)
                TimeTick (fRemainingTime s - TimeTick) (fIterations s + 1)%Z
                (fNumJumpApexAttempts s)) in *.
    simpl in Hcases, Htime. destruct Htime as [Htime Hsplit].
    destruct (AfterApex e (aTimeTick a) (aRemainingTime a) (aIterations a)
                (Velocity m0) w1 (set_Velocity (aVelocity a) m1))
      as [[w2 m2] returned].
    assert (Hnum : aNumJumpApexAttempts a
                   = (fNumJumpApexAttempts s
                      + Z.of_nat (if aSplit a then 1 else 0))%Z
                   /\ (aNumJumpApexAttempts a
                       <= Z.max (fNumJumpApexAttempts s)
                            (MaxJumpApexAttemptsPerSimulation c))%Z).
    { destruct Hcases as [(-> & ? & _ & ->) | (-> & _ & -> & _)];
        simpl; lia. }
    destruct Hnum as [Hnum Hle].
    assert (Hentry : aSplit a = true ->
                     Z (aVelocity a) = 0
                     /\ aTimeToApex a = Some (aTimeTick a)
                     /\ / 10000 <= aTimeTick a).
    { intros Hs. destruct (Hsplit Hs) as (? & ? & ? & _). auto. }
    destruct returned.
    + eexists. eexists. split; [reflexivity|]. simpl.
      rewrite ApexSplits_cons. unfold ApexSplits at 1. simpl.
      split; [rewrite Hnum; destruct (aSplit a); simpl; lia|].
      split; [assumption|].
      split; [unfold MovedTime; simpl; lra|].
      constructor; [assumption | constructor].
    + destruct (IH (mkFalling w2 (set_Velocity (SnapLateral (Velocity m2)) m2)
                      (aRemainingTime a) (aIterations a)
                      (aNumJumpApexAttempts a)))
        as (tr & s' & Heq & Hcount & Hmax & Hmoved & Hall).
      * unfold PhysFallingFuel in *. simpl.
        destruct Hcases as [(_ & ? & -> & ->) | (_ & -> & -> & _)]; lia.
      * rewrite Heq. eexists. eexists. split; [reflexivity|].
        simpl in Hcount, Hmax, Hmoved. rewrite ApexSplits_cons.
        split; [rewrite Hcount, Hnum; destruct (aSplit a); simpl; lia|].
        split; [lia|].
        split; [rewrite MovedTime_cons; lra|].
        constructor; assumption.
Qed.



(* ===================================================================== *)
(** ** C9: what IsValidLandingSpot depends on *)

(** The verdict of [IsValidLandingSpot], condition by condition. *)
Lemma IsValidLandingSpot_true_iff (FindFloorWalkable : FloorQuery)
    (c : Config) (o : Owner) (m : Movement)
    (CapsuleLocation : FVector) (Hit : FHitResult) :
  IsValidLandingSpot FindFloorWalkable c o m CapsuleLocation Hit = true
  <-> bBlockingHit Hit = true
      /\ (bStartPenetrating Hit = false ->
          IsWalkable m Hit = true
          /\ (bUseFlatBaseForFloorChecks c = true ->
              Z (ImpactNormal Hit) < WalkableFloorZ m
              \/ Z (ImpactNormal Hit) = 1 ->
              Z (ImpactPoint Hit)
              <= Z (Location Hit) - PawnHalfHeight o + MAX_FLOOR_DIST)
          /\ (bUseFlatBaseForFloorChecks c = false ->
              Z (ImpactPoint Hit)
              < Z (Location Hit) - PawnHalfHeight o + PawnRadius o)
          /\ IsWithinEdgeTolerance (Location Hit) (ImpactPoint Hit)
               (PawnRadius o) = true)
      /\ (bStartPenetrating Hit = true ->
          FMath.KINDA_SMALL_NUMBER <= Z (Normal Hit))
      /\ FindFloorWalkable CapsuleLocation Hit = true
      /\ (Z (Normal Hit) < 1 -> Velocity m |v Normal Hit < 0 ->
          Z (ComputeSlideVector c m
               (mkVec (X (Velocity m)) (Y (Velocity m))
                  (Z (Velocity m) + 1 / 2 * GravityZ c * DeltaSeconds o))
               1 (Normal Hit) Hit)
          <= PlayerMovementConstants.JumpVelocity).
Proof.
  unfold IsValidLandingSpot.
  set (Defl := ComputeSlideVector c m _ 1 (Normal Hit) Hit).
  destruct (bBlockingHit Hit) eqn:EB; simpl;
    [|split; [discriminate | intros [H0 _]; discriminate H0]].
  destruct (bStartPenetrating Hit) eqn:EP; simpl.
  - destruct (Rltb (Z (Normal Hit)) FMath.KINDA_SMALL_NUMBER) eqn:EN;
      destruct (FindFloorWalkable CapsuleLocation Hit) eqn:EQ; simpl;
      destruct (Rltb (Z (Normal Hit)) 1) eqn:E1;
      destruct (Rltb (Velocity m |v Normal Hit) 0) eqn:E2; simpl;
      try destruct (Rltb PlayerMovementConstants.JumpVelocity (Z Defl)) eqn:EJ;
      simpl; rbool;
      (split;
       [ try discriminate; intros _;
         repeat split; intros; try discriminate; try lra
       | intros (_ & _ & HN & HQ & HS); try discriminate HQ;
         try reflexivity;
         try (specialize (HN eq_refl); exfalso; lra);
         try (specialize (HS ltac:(assumption) ltac:(assumption));
              exfalso; lra) ]).
  - destruct (IsWalkable m Hit) eqn:EW; simpl;
      [|split; [discriminate
               | intros (_ & HW & _); destruct (HW eq_refl) as [HW' _];
                 discriminate HW']].
    destruct (bUseFlatBaseForFloorChecks c) eqn:EF;
      [ destruct (Rltb (Z (ImpactNormal Hit)) (WalkableFloorZ m)) eqn:EA1;
        destruct (Reqb (Z (ImpactNormal Hit)) 1) eqn:EA2;
        destruct (Rltb (Z (Location Hit) - PawnHalfHeight o + MAX_FLOOR_DIST)
                    (Z (ImpactPoint Hit))) eqn:EA3
      | destruct (Rleb (Z (Location Hit) - PawnHalfHeight o + PawnRadius o)
                    (Z (ImpactPoint Hit))) eqn:EA3 ];
      simpl;
      destruct (IsWithinEdgeTolerance (Location Hit) (ImpactPoint Hit)
                  (PawnRadius o)) eqn:ET; simpl;
      destruct (FindFloorWalkable CapsuleLocation Hit) eqn:EQ; simpl;
      destruct (Rltb (Z (Normal Hit)) 1) eqn:E1;
      destruct (Rltb (Velocity m |v Normal Hit) 0) eqn:E2; simpl;
      try destruct (Rltb PlayerMovementConstants.JumpVelocity (Z Defl)) eqn:EJ;
      simpl; rbool;
      (split;
       [ try discriminate; intros _;
         repeat split; intros; try discriminate; try lra;
         try (match goal with H : _ \/ _ |- _ => destruct H end; lra)
       | intros (_ & HW & _ & HQ & HS); try discriminate HQ;
         destruct (HW eq_refl) as (_ & HF1 & HF2 & HT);
         try discriminate HT; try reflexivity;
         try (specialize (HF1 eq_refl); exfalso;
              first [ specialize (HF1 (or_introl EA1)); lra
                    | specialize (HF1 (or_intror EA2)); lra ]);
         try (specialize (HF2 eq_refl); exfalso; lra);
         try (specialize (HS ltac:(assumption) ltac:(assumption));
              exfalso; lra) ]).
Qed.



Lemma SlopeHit_passes_static_checks (m : Movement) :
  WalkableFloorZ m = 7 / 10 ->
  IsWalkable m SlopeHit = true
  /\ IsWithinEdgeTolerance (Location SlopeHit) (ImpactPoint SlopeHit)
       (PawnRadius LocalOwner) = true.
Proof.
  intros Hw. split.
  - unfold IsWalkable, ModifyWalkableFloorZ; simpl. rewrite Hw.
    unfold Rltb, FMath.KINDA_SMALL_NUMBER. rdec; simpl; try lra; reflexivity.
  - unfold IsWithinEdgeTolerance, Rltb, FMath.Square, FMath.Max,
      SWEEP_EDGE_REJECT_DISTANCE, FMath.KINDA_SMALL_NUMBER, SizeSquared2D,
      vsub; simpl.
    rdec; simpl; try lra; try nra; reflexivity.
Qed.


(* ===================================================================== *)
(** ** A blocked uncrouch *)

Lemma UncrouchProbe_blocked (e : CrouchEnv) (adj : R) (s : CrouchState) :
  fst (UncrouchProbe e adj s) = true -> snd (UncrouchProbe e adj s) = s.
Proof.
  unfold UncrouchProbe.
  destruct (negb (bCrouchMaintainsBaseLocation e)).
  - destruct (OverlapBlockingTest e _ _); [|discriminate].
    destruct (Rlt_dec 0 adj); [|reflexivity].
    destruct (OverlapBlockingTest e _ _); [reflexivity | discriminate].
  - destruct (OverlapBlockingTest e _ _); [|discriminate].
    destruct (crouchIsMovingOnGround e); [|reflexivity].
    destruct (_ && _); [|reflexivity].
    destruct (OverlapBlockingTest e _ _); [reflexivity | discriminate].
Qed.

Lemma UncrouchProbe_flag (e : CrouchEnv) (adj : R) (b : bool)
    (s : CrouchState) :
  UncrouchProbe e adj (set_bIsInCrouchTransition b s)
  = (fst (UncrouchProbe e adj s),
     set_bIsInCrouchTransition b (snd (UncrouchProbe e adj s))).
Proof.
  unfold UncrouchProbe, GetPawnCapsuleCollisionShape, StandingLocationFor.
  simpl.
  destruct (negb (bCrouchMaintainsBaseLocation e)).
  - destruct (OverlapBlockingTest e _ _); [|reflexivity].
    destruct (Rlt_dec 0 adj); [|reflexivity].
    destruct (OverlapBlockingTest e _ _); reflexivity.
  - destruct (OverlapBlockingTest e _ _); [|reflexivity].
    destruct (crouchIsMovingOnGround e); [|reflexivity].
    destruct (_ && _); [|reflexivity].
    destruct (OverlapBlockingTest e _ _); reflexivity.
Qed.

Lemma UncrouchProbe_all_blocked (e : CrouchEnv) (adj : R) (s : CrouchState) :
  (forall loc shape, OverlapBlockingTest e loc shape = true) ->
  fst (UncrouchProbe e adj s) = true.
Proof.
  intros H. unfold UncrouchProbe. rewrite !H.
  destruct (negb (bCrouchMaintainsBaseLocation e)).
  - now destruct (Rlt_dec 0 adj).
  - destruct (crouchIsMovingOnGround e); [|reflexivity].
    now destruct (_ && _).
Qed.

(** X28 ([DoUnCrouchResize]).  A server- or owner-side call
    ([bClientSimulation = false]) on a valid component whose capsule is
    not yet at standing size.  (a) When
    the transition is not instant and the base location is maintained,
    the first probe tests a capsule grown by only GroundUncrouchCheckFactor
    times the missing height (plus the sweep inflation); if it reports
    blocking geometry the call returns with the state untouched.  (b) If
    the encroachment test at the prospective standing capsule ends with
    its verdict "encroached", the call returns without resizing the
    capsule, moving the component or clearing the crouched flag: nothing
    changes except, at most, the in-transition flag, so that a later
    uncrouch request starts from the same state.  (c) The verdict is
    "encroached" whenever every overlap test reports blocking. *)
Theorem DoUnCrouchResize_blocked (e : CrouchEnv) (TargetTime DeltaTime : R)
    (s : CrouchState) :
  crouchHasValidData e = true ->
  FMath.IsNearlyEqual (CapsuleHalfHeight s) (DefaultCapsuleHalfHeight e)
  = false ->
  let s' := DoUnCrouchResize e TargetTime DeltaTime false s in
  let Missing := DefaultCapsuleHalfHeight e - CapsuleHalfHeight s in
  let Relaxed :=
    mkShape
      (Rmax (CapsuleRadius s * ShapeScale e) (/ 10000 * 10))
      (Rmax (CapsuleHalfHeight s * ShapeScale e
             + (/ 10000 * 10
                + ShapeScale e * Missing * GroundUncrouchCheckFactor e))
            (/ 10000 * 10)) in
  (FMath.IsNearlyZero TargetTime = false ->
   bCrouchMaintainsBaseLocation e = true ->
   OverlapBlockingTest e
     (ComponentLocation s
      +v mkVec 0 0 (ShapeHalfHeight Relaxed
                    - CapsuleHalfHeight s * ShapeScale e))
     Relaxed = true ->
   s' = s)
  /\ (UncrouchEncroached e TargetTime DeltaTime s = true ->
      (s' = s \/ s' = set_bIsInCrouchTransition false s)
      /\ CapsuleHalfHeight s' = CapsuleHalfHeight s
      /\ CapsuleRadius s' = CapsuleRadius s
      /\ ComponentLocation s' = ComponentLocation s
      /\ bIsCrouched s' = bIsCrouched s
      /\ UnCrouch s' = UnCrouch s)
  /\ ((forall loc shape, OverlapBlockingTest e loc shape = true) ->
      UncrouchEncroached e TargetTime DeltaTime s = true).
Proof.
  intros Hvalid Hsize s' Missing Relaxed.
  assert (HRel : RelaxedProbeShape e s = Relaxed).
  { unfold RelaxedProbeShape, GetPawnCapsuleCollisionShape, SweepInflation,
      FMath.KINDA_SMALL_NUMBER. subst Relaxed Missing.
    rewrite !Max_Rmax. f_equal. f_equal. ring. }
  assert (Hframe : forall b,
             CapsuleHalfHeight (set_bIsInCrouchTransition b s)
             = CapsuleHalfHeight s
             /\ CapsuleRadius (set_bIsInCrouchTransition b s) = CapsuleRadius s
             /\ ComponentLocation (set_bIsInCrouchTransition b s)
                = ComponentLocation s
             /\ bIsCrouched (set_bIsInCrouchTransition b s) = bIsCrouched s
             /\ UnCrouch (set_bIsInCrouchTransition b s) = UnCrouch s)
    by (intros b; repeat split).
  assert (Hmain : UncrouchEncroached e TargetTime DeltaTime s = true ->
                  s' = s \/ s' = set_bIsInCrouchTransition false s).
  { intros Hverdict. unfold UncrouchEncroached in Hverdict.
    subst s'. unfold DoUnCrouchResize. rewrite Hvalid, Hsize. simpl.
    destruct (negb (FMath.IsNearlyZero TargetTime)
              && bCrouchMaintainsBaseLocation e
              && RelaxedProbeBlocked e s);
      [destruct (negb (FMath.IsNearlyZero TargetTime)); now left|].
    destruct (negb (FMath.IsNearlyZero TargetTime)).
    + destruct (Rleb 1 _ || FMath.IsNearlyEqual _ 1).
      * rewrite UncrouchProbe_flag, Hverdict. simpl.
        rewrite UncrouchProbe_blocked by assumption. now right.
      * pose proof (UncrouchProbe_blocked e _ s Hverdict) as Hs.
        destruct (UncrouchProbe e _ s) as [b s1]. simpl in *.
        subst b s1. now left.
    + assert (E1 : Rleb 1 1 || FMath.IsNearlyEqual 1 1 = true).
      { apply orb_true_iff. left. apply Rleb_true_iff. lra. }
      rewrite E1 in *.
      rewrite UncrouchProbe_flag, Hverdict. simpl.
      rewrite UncrouchProbe_blocked by assumption. now right. }
  split; [|split].
  - intros Hinst Hbase Hblock.
    assert (Hb : RelaxedProbeBlocked e s = true).
    { unfold RelaxedProbeBlocked, StandingLocationFor. now rewrite HRel. }
    subst s'. unfold DoUnCrouchResize. rewrite Hvalid, Hsize. simpl.
    rewrite Hinst, Hbase, Hb. reflexivity.
  - intros Hverdict. split; [now apply Hmain|].
    destruct (Hmain Hverdict) as [-> | ->];
      [repeat split | apply Hframe].
  - intros Hall. unfold UncrouchEncroached.
    now apply UncrouchProbe_all_blocked.
Qed.

Lemma DoUnCrouchResize_blocked_witness :
  DoUnCrouchResize VentEnv (2 / 10) (1 / 60) false CrouchedState
  = CrouchedState.
Proof.
  destruct (DoUnCrouchResize_blocked VentEnv (2 / 10) (1 / 60) CrouchedState)
    as (H & _).
  - reflexivity.
  - unfold FMath.IsNearlyEqual, FMath.SMALL_NUMBER. rcompute. reflexivity.
  - apply H.
    + unfold FMath.IsNearlyZero, FMath.IsNearlyZeroTol, FMath.SMALL_NUMBER.
      rcompute. reflexivity.
    + reflexivity.
    + reflexivity.
Defined.

(* ===================================================================== *)
(** ** C2: air strafing *)

Lemma KSN_pos : 0 < FMath.KINDA_SMALL_NUMBER.
Proof. unfold FMath.KINDA_SMALL_NUMBER. lra. Qed.

(** Clamping the 2D size scales X and Y by a factor in (0, 1]. *)
Lemma GetClampedToMaxSize2D_spec (B : FVector) (M : R) :
  FMath.KINDA_SMALL_NUMBER <= M ->
  exists s,
    0 < s <= 1
    /\ GetClampedToMaxSize2D B M = mkVec (X B * s) (Y B * s) (Z B)
    /\ SizeSquared2D (GetClampedToMaxSize2D B M)
       = (if Rlt_dec (M * M) (SizeSquared2D B) then M * M
          else SizeSquared2D B).
Proof.
  intros HM. pose proof KSN_pos as HK.
  unfold GetClampedToMaxSize2D, FMath.Square, FMath.InvSqrt.
  destruct (Rlt_dec M FMath.KINDA_SMALL_NUMBER); [lra|].
  destruct (Rlt_dec (M * M) (SizeSquared2D B)) as [Hbig | Hsmall].
  - assert (Hq : 0 < SizeSquared2D B) by nra.
    assert (Hr : 0 < sqrt (SizeSquared2D B)) by now apply sqrt_lt_R0.
    assert (Hrr : sqrt (SizeSquared2D B) * sqrt (SizeSquared2D B)
                  = SizeSquared2D B) by (apply sqrt_sqrt; lra).
    assert (HMr : M < sqrt (SizeSquared2D B)) by nra.
    exists (M * / sqrt (SizeSquared2D B)). repeat split.
    + apply Rmult_lt_0_compat; [lra | now apply Rinv_0_lt_compat].
    + apply Rmult_le_reg_r with (sqrt (SizeSquared2D B)); [assumption|].
      rewrite Rmult_assoc, Rinv_l by lra. lra.
    + set (r := sqrt (SizeSquared2D B)) in *.
      transitivity (M * / r * (M * / r) * SizeSquared2D B);
        [unfold SizeSquared2D; simpl; ring|].
      rewrite <- Hrr. field. lra.
  - exists 1. repeat split; try lra.
    destruct B; simpl; f_equal; ring.
Qed.

Lemma GetSafeNormal2D_parallel (B : FVector) :
  exists t,
    X (GetSafeNormal2D B) = X B * t /\ Y (GetSafeNormal2D B) = Y B * t.
Proof.
  unfold GetSafeNormal2D.
  destruct (Req_dec_T (SizeSquared2D B) 1).
  - exists 1. destruct (Req_dec_T (Z B) 0); simpl; split; ring.
  - destruct (Rlt_dec _ _).
    + exists 0. simpl. split; ring.
    + eexists. simpl. split; reflexivity.
Qed.

Lemma sq_le_abs (x b : R) : 0 <= b -> x * x <= b * b -> Rabs x <= b.
Proof.
  intros Hb H. unfold Rabs. destruct (Rcase_abs x); nra.
Qed.

(** The input branch in the air, for a horizontal input perpendicular to
    the velocity: a positive multiple of the input is added, of 2D size at
    most the air speed cap. *)
Lemma ApplyInputAcceleration_air (c : Config) (dt MaxSpeed sf : R)
    (A V : FVector) :
  FMath.KINDA_SMALL_NUMBER <= MaxSpeed ->
  FMath.KINDA_SMALL_NUMBER <= AirSpeedCap c ->
  0 < AirAccelerationMultiplier c -> 0 < sf -> 0 < dt ->
  Z A = 0 ->
  IsNearlyZeroV A FMath.KINDA_SMALL_NUMBER = false ->
  X V * X A + Y V * Y A = 0 ->
  exists kappa,
    0 < kappa
    /\ fst (ApplyInputAcceleration c dt MaxSpeed false false sf A V)
       = V +v mkVec (X A * kappa) (Y A * kappa) 0
    /\ kappa * kappa * SizeSquared2D A <= AirSpeedCap c * AirSpeedCap c.
Proof.
  intros HMax HCap Hmult Hsf Hdt HZ HA Hperp.
  pose proof KSN_pos as HK.
  assert (HA2 : FMath.KINDA_SMALL_NUMBER * FMath.KINDA_SMALL_NUMBER
                < SizeSquared2D A).
  { pose proof (IsNearlyZeroV_false_Size A _ (Rlt_le _ _ HK) HA) as H.
    unfold SizeSquared in H. unfold SizeSquared2D. rewrite HZ in H. lra. }
  unfold ApplyInputAcceleration. simpl.
  destruct (GetClampedToMaxSize2D_spec A MaxSpeed HMax)
    as (s1 & Hs1 & EA1 & SA1).
  set (A1 := GetClampedToMaxSize2D A MaxSpeed) in *.
  destruct (GetClampedToMaxSize2D_spec A1 (AirSpeedCap c) HCap)
    as (s3 & Hs3 & EA2 & SA2).
  set (A2 := GetClampedToMaxSize2D A1 (AirSpeedCap c)) in *.
  assert (XA1 : X A1 = X A * s1) by now rewrite EA1.
  assert (YA1 : Y A1 = Y A * s1) by now rewrite EA1.
  assert (ZA1 : Z A1 = 0) by now rewrite EA1.
  (* sizes stay above the small number and below the cap *)
  assert (HA1 : FMath.KINDA_SMALL_NUMBER * FMath.KINDA_SMALL_NUMBER
                <= SizeSquared2D A1).
  { assert (FMath.KINDA_SMALL_NUMBER * FMath.KINDA_SMALL_NUMBER
            <= MaxSpeed * MaxSpeed)
      by (apply Rmult_le_compat; lra).
    rewrite SA1. destruct (Rlt_dec (MaxSpeed * MaxSpeed) _); lra. }
  assert (HA2' : FMath.KINDA_SMALL_NUMBER * FMath.KINDA_SMALL_NUMBER
                 <= SizeSquared2D A2
                 <= AirSpeedCap c * AirSpeedCap c).
  { assert (FMath.KINDA_SMALL_NUMBER * FMath.KINDA_SMALL_NUMBER
            <= AirSpeedCap c * AirSpeedCap c)
      by (apply Rmult_le_compat; lra).
    rewrite SA2.
    destruct (Rlt_dec (AirSpeedCap c * AirSpeedCap c) _); lra. }
  assert (HAdd : FMath.KINDA_SMALL_NUMBER <= Size2D A2).
  { unfold Size2D, FMath.Sqrt.
    rewrite <- (sqrt_square FMath.KINDA_SMALL_NUMBER) at 1 by lra.
    apply sqrt_le_1; nra. }
  (* the veer term vanishes *)
  destruct (GetSafeNormal2D_parallel A1) as (t & Hx & Hy).
  assert (Hveer : X V * X (GetSafeNormal2D A1) + Y V * Y (GetSafeNormal2D A1)
                  = 0).
  { rewrite Hx, Hy, XA1, YA1.
    replace (X V * (X A * s1 * t) + Y V * (Y A * s1 * t))
      with ((X V * X A + Y V * Y A) * (s1 * t)) by ring.
    rewrite Hperp. ring. }
  rewrite Hveer, Rminus_0_r.
  destruct (Rlt_dec 0 (Size2D A2)) as [_ | Hn]; [|lra].
  simpl.
  set (B := A1 *v AirAccelerationMultiplier c *v sf *v dt).
  destruct (GetClampedToMaxSize2D_spec B (Size2D A2) HAdd)
    as (s4 & Hs4 & EB & SB).
  set (g := AirAccelerationMultiplier c * sf * dt).
  assert (Hg : 0 < g) by (subst g; repeat apply Rmult_lt_0_compat; lra).
  exists (s1 * g * s4). repeat split.
  - repeat apply Rmult_lt_0_compat; lra.
  - rewrite EB. f_equal. subst B g. simpl.
    rewrite XA1, YA1, ZA1. f_equal; ring.
  - assert (HCB : SizeSquared2D (GetClampedToMaxSize2D B (Size2D A2))
                  <= AirSpeedCap c * AirSpeedCap c).
    { rewrite SB. rewrite Size2D_sqr.
      destruct (Rlt_dec (SizeSquared2D A2) _); lra. }
    rewrite EB in HCB. unfold SizeSquared2D in HCB. simpl in HCB.
    subst B g. simpl in HCB. rewrite XA1, YA1 in HCB.
    unfold SizeSquared2D. nra.
Qed.

Lemma CalcVelocity_not_ground_move (c : Config) (o : Owner)
    (dt F1 F2 D1 D2 : R) (m : Movement) :
  IsMovingOnGround m && bBrakingWindowElapsed m = false ->
  CalcVelocity c o dt F1 false D1 m = CalcVelocity c o dt F2 false D2 m.
Proof.
  intros H. unfold CalcVelocity.
  destruct (CalcVelocitySkipped o dt); [reflexivity|].
  destruct (ForcedAcceleration c o m) as [Accel Analog].
  rewrite H. reflexivity.
Qed.

Lemma Clamp_symmetric_id (x L : R) :
  Rabs x <= L -> FMath.Clamp x (- L) L = x.
Proof.
  intros H. apply Clamp_id. unfold Rabs in H.
  destruct (Rcase_abs x); lra.
Qed.

(** C2 (as the code has it).  A tick of [CalcVelocity] that is not a
    ground move (airborne, or grounded inside the braking window), outside
    no-clip and ladders, with a horizontal input acceleration that is not
    nearly zero (some coordinate above 1e-4) and perpendicular to the
    horizontal velocity, a positive air acceleration multiplier and
    surface friction, speed caps of at least 1e-4, and both horizontal
    velocity coordinates at least AirSpeedCap below the axis speed limit:
    the call returns, the 2D speed strictly increases whatever it was
    before (no ground max speed caps it), the velocity added has 2D size
    at most AirSpeedCap, the vertical velocity is untouched, and the
    result does not depend on the friction and braking deceleration
    arguments (no braking is applied). *)
Theorem CalcVelocity_air_strafe (c : Config) (o : Owner) (dt F D : R)
    (m : Movement) :
  CalcVelocitySkipped o dt = false ->
  bForceMaxAccel c = false ->
  IsMovingOnGround m && bBrakingWindowElapsed m = false ->
  bCheatFlying m = false -> bOnLadder m = false ->
  Z (Acceleration m) = 0 ->
  IsNearlyZeroV (Acceleration m) FMath.KINDA_SMALL_NUMBER = false ->
  X (Velocity m) * X (Acceleration m) + Y (Velocity m) * Y (Acceleration m)
  = 0 ->
  FMath.KINDA_SMALL_NUMBER
  <= FMath.Max (GetMaxSpeed c o m * AnalogInputModifier m) (MinAnalogSpeed c) ->
  FMath.KINDA_SMALL_NUMBER <= AirSpeedCap c ->
  0 < AirAccelerationMultiplier c -> 0 < SurfaceFriction m ->
  Rabs (X (Velocity m)) + AirSpeedCap c <= AxisSpeedLimit c ->
  Rabs (Y (Velocity m)) + AirSpeedCap c <= AxisSpeedLimit c ->
  exists m',
    CalcVelocity c o dt F false D m = Some m'
    /\ SizeSquared2D (Velocity m) < SizeSquared2D (Velocity m')
    /\ Size2D (Velocity m) < Size2D (Velocity m')
    /\ SizeSquared2D (Velocity m' -v Velocity m)
       <= AirSpeedCap c * AirSpeedCap c
    /\ Z (Velocity m') = Z (Velocity m)
    /\ forall F' D', CalcVelocity c o dt F' false D' m = Some m'.
Proof.
  intros Hskip Hforce Hair Hfly Hladder HZ HA Hperp HMax HCap Hmult Hsf HX HY.
  pose proof KSN_pos as HK.
  assert (Hdt : 0 < dt).
  { unfold CalcVelocitySkipped in Hskip. rbool.
    unfold MIN_TICK_TIME in *. lra. }
  destruct (ApplyInputAcceleration_air c dt _ (SurfaceFriction m)
              (Acceleration m) (Velocity m)
              HMax HCap Hmult Hsf Hdt HZ HA Hperp)
    as (kappa & Hk & Hfst & Hbound).
  set (A := Acceleration m) in *. set (V := Velocity m) in *.
  set (CA := mkVec (X A * kappa) (Y A * kappa) 0) in *.
  assert (HA2 : 0 < SizeSquared2D A).
  { pose proof (IsNearlyZeroV_false_Size A _ (Rlt_le _ _ HK) HA) as H.
    unfold SizeSquared in H. unfold SizeSquared2D. rewrite HZ in H. nra. }
  assert (HCAx : Rabs (X A * kappa) <= AirSpeedCap c).
  { apply sq_le_abs; [lra|]. unfold SizeSquared2D in Hbound. nra. }
  assert (HCAy : Rabs (Y A * kappa) <= AirSpeedCap c).
  { apply sq_le_abs; [lra|]. unfold SizeSquared2D in Hbound. nra. }
  assert (Hclamp1 : ClampAxes c V = V).
  { unfold ClampAxes. rewrite !Clamp_symmetric_id by lra.
    now destruct V. }
  assert (Hclamp2 : ClampAxes c (V +v CA) = V +v CA).
  { unfold ClampAxes. simpl.
    pose proof (Rabs_triang (X V) (X A * kappa)).
    pose proof (Rabs_triang (Y V) (Y A * kappa)).
    rewrite !Clamp_symmetric_id by lra. reflexivity. }
  assert (Heq : CalcVelocity c o dt F false D m
                = Some (UpdateStepHeight c
                          (set_Velocity (V +v CA)
                             (set_Acceleration
                                (snd (ApplyInputAcceleration c dt
                                        (FMath.Max
                                           (GetMaxSpeed c o m
                                            * AnalogInputModifier m)
                                           (MinAnalogSpeed c))
                                        false false (SurfaceFriction m) A V))
                                (set_AnalogInputModifier
                                   (AnalogInputModifier m) m))))).
  { unfold CalcVelocity. rewrite Hskip.
    unfold ForcedAcceleration. rewrite Hforce, Hair.
    fold A. rewrite HA. simpl. fold V. rewrite Hclamp1, Hfly, Hladder.
    destruct (ApplyInputAcceleration c dt _ false false (SurfaceFriction m)
                A V) as [V1 A1].
    simpl in Hfst. subst V1. simpl. now rewrite Hclamp2. }
  eexists. split; [exact Heq|].
  rewrite UpdateStepHeight_Velocity. simpl.
  assert (Hinc : SizeSquared2D V < SizeSquared2D (V +v CA)).
  { unfold SizeSquared2D in *. simpl.
    assert (0 < kappa * kappa * (X A * X A + Y A * Y A))
      by (apply Rmult_lt_0_compat; nra).
    nra. }
  repeat split.
  - exact Hinc.
  - now apply Size2D_strict_mono.
  - unfold SizeSquared2D in *. simpl. nra.
  - lra.
  - intros F' D'. rewrite <- Heq.
    now apply CalcVelocity_not_ground_move.
Qed.

Lemma LocalOwner_not_skipped :
  CalcVelocitySkipped LocalOwner (1 / 60) = false.
Proof.
  unfold CalcVelocitySkipped, MIN_TICK_TIME. rcompute. reflexivity.
Qed.

Lemma CalcVelocity_air_strafe_witness :
  exists m',
    CalcVelocity StockConfig LocalOwner (1 / 60) 0 false 0 AirStrafeMovement
    = Some m'
    /\ Size2D (Velocity AirStrafeMovement) < Size2D (Velocity m').
Proof.
  destruct (CalcVelocity_air_strafe StockConfig LocalOwner (1 / 60) 0 0
              AirStrafeMovement) as (m' & Heq & _ & Hinc & _).
  - exact LocalOwner_not_skipped.
  - reflexivity.
  - reflexivity.
  - reflexivity.
  - reflexivity.
  - reflexivity.
  - unfold IsNearlyZeroV, FMath.KINDA_SMALL_NUMBER. rcompute. reflexivity.
  - simpl. ring.
  - unfold GetMaxSpeed, FMath.KINDA_SMALL_NUMBER. rcompute. lra.
  - unfold FMath.KINDA_SMALL_NUMBER. simpl. lra.
  - simpl. lra.
  - simpl. lra.
  - simpl. rewrite Rabs_pos_eq; lra.
  - simpl. rewrite Rabs_R0. lra.
  - exists m'. auto.
Defined.

(** With an input that is nearly zero the input branch is skipped. *)
Lemma CalcVelocity_nearly_zero_input (c : Config) (o : Owner) (dt F D : R)
    (m : Movement) :
  CalcVelocitySkipped o dt = false ->
  bForceMaxAccel c = false ->
  IsMovingOnGround m && bBrakingWindowElapsed m = false ->
  bCheatFlying m = false -> bOnLadder m = false ->
  IsNearlyZeroV (Acceleration m) FMath.KINDA_SMALL_NUMBER = true ->
  Rabs (X (Velocity m)) <= AxisSpeedLimit c ->
  Rabs (Y (Velocity m)) <= AxisSpeedLimit c ->
  exists m',
    CalcVelocity c o dt F false D m = Some m' /\ Velocity m' = Velocity m.
Proof.
  intros Hskip Hforce Hair Hfly Hladder HA HX HY.
  assert (Hclamp : ClampAxes c (Velocity m) = Velocity m).
  { unfold ClampAxes. rewrite !Clamp_symmetric_id by lra.
    now destruct (Velocity m). }
  unfold CalcVelocity. rewrite Hskip.
  unfold ForcedAcceleration. rewrite Hforce, Hair, HA. simpl.
  rewrite Hclamp, Hfly, Hladder. unfold ApplyInputAcceleration. simpl.
  rewrite Hclamp. eexists. split; [reflexivity|].
  now rewrite UpdateStepHeight_Velocity.
Qed.

(** The step height block on the interpolated branch: airborne at
    1280.16 u/s, half way between SpeedMultMin (1036.32) and SpeedMultMax
    (1524), the multiplier is 0.25, the step height 34.29 - 0.25 * 24.29
    and the walkable floor Z 0.7 + 0.25 * 0.2848. *)
Lemma CalcVelocity_step_height_witness :
  exists m',
    CalcVelocity StockConfig LocalOwner (1 / 60) 0 false 0 FastFallingMovement
    = Some m'
    /\ MaxStepHeight m' = 282175 / 10000
    /\ WalkableFloorZ m' = 7712 / 10000.
Proof.
  destruct (CalcVelocity_step_height StockConfig LocalOwner (1 / 60) 0 false
              0 FastFallingMovement) as (m' & Heq & _ & H).
  - exact LocalOwner_not_skipped.
  - simpl. lra.
  - destruct (CalcVelocity_nearly_zero_input StockConfig LocalOwner (1 / 60)
                0 0 FastFallingMovement) as (m2 & Heq2 & Hv).
    + exact LocalOwner_not_skipped.
    + reflexivity.
    + reflexivity.
    + reflexivity.
    + reflexivity.
    + apply ZeroVector_nearly_zero. unfold FMath.KINDA_SMALL_NUMBER. lra.
    + simpl. rewrite Rabs_pos_eq; lra.
    + simpl. rewrite Rabs_R0. lra.
    + rewrite Heq in Heq2. injection Heq2 as <-.
      exists m'. split; [exact Heq|].
      rewrite Hv in H.
      assert (Hsq : sqrt (SizeSquared2D (Velocity FastFallingMovement))
                    = 128016 / 100).
      { apply (Size2D_axis_x (128016 / 100) 0). lra. }
      rewrite Hsq in H.
      destruct H as (Clamped & Hne & _ & Hstep & _ & Hfloor).
      * split; [reflexivity|]. unfold SizeSquared2D; simpl. lra.
      * assert (HC : Clamped = 1 / 2).
        { rewrite Hne by (simpl; lra). simpl. unfold Rmax, Rmin.
          rdec; lra. }
        subst Clamped. simpl in Hstep, Hfloor.
        split; [rewrite Hstep; lra|].
        rewrite Hfloor by lra. lra.
Defined.

(** C2, the claim as stated fails: airborne at 700 u/s along X with the
    non-zero input (0, 0.00005, 0), which is perpendicular to the
    velocity, [CalcVelocity] leaves the velocity as it is (every
    coordinate of the input is within 1e-4, so the input counts as zero),
    and the 2D speed does not strictly increase. *)
Lemma CalcVelocity_tiny_input_no_gain :
  exists m',
    CalcVelocity StockConfig LocalOwner (1 / 60) 0 false 0 TinyInputMovement
    = Some m'
    /\ Size2D (Velocity m') = Size2D (Velocity TinyInputMovement)
    /\ Acceleration TinyInputMovement <> ZeroVector
    /\ X (Velocity TinyInputMovement) * X (Acceleration TinyInputMovement)
       + Y (Velocity TinyInputMovement) * Y (Acceleration TinyInputMovement)
       = 0.
Proof.
  destruct (CalcVelocity_nearly_zero_input StockConfig LocalOwner (1 / 60)
              0 0 TinyInputMovement) as (m' & Heq & Hv).
  - exact LocalOwner_not_skipped.
  - reflexivity.
  - reflexivity.
  - reflexivity.
  - reflexivity.
  - unfold IsNearlyZeroV, FMath.KINDA_SMALL_NUMBER. rcompute. reflexivity.
  - simpl. rewrite Rabs_pos_eq; lra.
  - simpl. rewrite Rabs_R0. lra.
  - exists m'. split; [exact Heq|]. split; [now rewrite Hv|].
    split.
    + simpl. intros H. injection H as H. lra.
    + simpl. ring.
Qed.

(* ===================================================================== *)
(** ** Two scenarios *)

(** One full second of braking on a 0.95-friction floor (ground friction
    4, braking deceleration 190.5) from 300 u/s ends at exactly zero. *)
Example braking_one_second_stops :
  ApplyVelocityBraking StockConfig LocalOwner 1 (4 * (95 / 100)) (1905 / 10)
    (mkVec 300 0 0) = Some ZeroVector.
Proof.
  rewrite ApplyVelocityBraking_closed.
  - f_equal. unfold BrakedVelocity, BrakingEffectiveFriction,
      BrakingEffectiveDeceleration.
    rewrite Size_axis_x, Size2D_axis_x by lra. rcompute. reflexivity.
  - unfold BrakingSkipped, IsNearlyZeroV, MIN_TICK_TIME. rcompute.
    reflexivity.
  - unfold BrakingEffectiveFriction, FMath.IsNearlyZero,
      FMath.IsNearlyZeroTol, FMath.SMALL_NUMBER. rcompute. reflexivity.
  - unfold BrakingEffectiveDeceleration. rewrite Size2D_axis_x by lra.
    unfold FMath.Max. rdec; lra.
Qed.

(** A running jump with forward input at 300 u/s: the boost is scaled down
    to the envelope of twice the run speed times one half, 361.9 u/s. *)
Example jump_boost_reaches_envelope :
  jumpVelocity
    (OnJumped_Implementation
       {| CVarJumpBoost := 1%Z; CVarBunnyhop := 0%Z; jumpIsOnLadder := false;
          TimeSeconds := 10; MaxJumpTime := 3556 / 10000;
          Facing := mkVec 1 0 0;
          CurrentAcceleration := mkVec (85725 / 100) 0 0;
          jumpIsSprinting := false; jumpIsCrouched := false;
          jumpMaxSpeed := 3619 / 10; jumpMaxAcceleration := 85725 / 100 |}
       {| jumpVelocity := mkVec 300 0 (3048 / 10); LastJumpBoostTime := 0 |})
  = mkVec (3619 / 10) 0 (3048 / 10).
Proof.
  pose proof (SIN_bound (6981 / 10000)) as [Hsin _].
  unfold OnJumped_Implementation. simpl.
  rewrite Size2D_axis_x by lra.
  unfold dot, vscale, vadd, SizeSquared2D. rcompute.
  f_equal; field.
Qed.

(* ===================================================================== *)
(** * Further properties *)

(** ** Surface friction and catching air *)

Lemma GetFrictionFromHit_range (mat : option R) :
  GetFrictionFromHit mat <= 1
  /\ ((forall f, mat = Some f -> 0 <= f) -> 0 <= GetFrictionFromHit mat).
Proof.
  destruct mat as [f|]; simpl.
  - unfold FMath.Min. split.
    + rdec; lra.
    + intros H. specialize (H f eq_refl). rdec; lra.
  - split; intros; lra.
Qed.

(** X1 ([UpdateSurfaceFriction], [GetFrictionFromHit]).  The surface
    friction stays within [[0, 1]] when the floor material's friction is not
    negative and the friction before the call is in that range; the call
    writes no other field; a component that is falling or has no walkable
    floor, and does not move up or moves up faster than the jump velocity,
    gets friction exactly 1; and with a bounce multiplier that is not
    negative the bounce coefficient of the slide is at least 1
    afterwards. *)
Theorem UpdateSurfaceFriction_range (FloorIsWalkable : bool)
    (FloorMaterial : option R) (bIsSliding : bool) (m : Movement) :
  0 <= SurfaceFriction m <= 1 ->
  (forall f, FloorMaterial = Some f -> 0 <= f) ->
  let m' := UpdateSurfaceFriction FloorIsWalkable FloorMaterial bIsSliding m in
  0 <= SurfaceFriction m' <= 1
  /\ m' = set_SurfaceFriction (SurfaceFriction m') m
  /\ (negb (IsFalling m) && FloorIsWalkable = false ->
      Z (Velocity m) <= 0
      \/ PlayerMovementConstants.JumpVelocity < Z (Velocity m) ->
      SurfaceFriction m' = 1)
  /\ (forall c, 0 <= BounceMultiplier c -> 1 <= BounceCoefficient c m').
Proof.
  intros Hsf Hmat m'.
  assert (Hrange : 0 <= SurfaceFriction m' <= 1).
  { subst m'. unfold UpdateSurfaceFriction.
    destruct (GetFrictionFromHit_range FloorMaterial) as [Hle Hge].
    specialize (Hge Hmat).
    split_ifs; simpl; lra. }
  split; [exact Hrange|]. split; [|split].
  - subst m'. unfold UpdateSurfaceFriction.
    split_ifs; try reflexivity. destruct m; reflexivity.
  - intros Hair Hz. subst m'. unfold UpdateSurfaceFriction.
    rewrite Hair.
    destruct (bOnLadder m); [reflexivity|]. simpl.
    destruct (Rltb _ _) eqn:Hup; [reflexivity|]. simpl.
    destruct (Rleb _ _) eqn:Hdown; [reflexivity|]. simpl.
    rbool. lra.
  - intros c Hb. unfold BounceCoefficient. nra.
Qed.

Lemma UpdateSurfaceFriction_range_witness :
  SurfaceFriction
    (UpdateSurfaceFriction true (Some (2 / 10)) false StockMovement)
  <= 1.
Proof.
  apply (UpdateSurfaceFriction_range true (Some (2 / 10)) false StockMovement).
  - simpl. lra.
  - intros f Hf. injection Hf as <-. lra.
Defined.

(** X2 ([ShouldCatchAir]).  When the base class does not ask for it, a
    moving character catches air exactly when its lateral speed exceeds
    twice the old floor's friction times [SpeedMultMax], the new floor is
    not steeper than the old one, and it either moves into the old floor's
    normal (up the ramp) or strafes. *)
Theorem ShouldCatchAir_iff (c : Config) (OldFloorMaterial : option R)
    (OldImpactNormal NewImpactNormal LastInputVector ActorRightVector : FVector)
    (m : Movement) :
  0 < Size2D (Velocity m) ->
  ShouldCatchAir false c OldFloorMaterial OldImpactNormal NewImpactNormal
    LastInputVector ActorRightVector m = true
  <-> (2 * GetFrictionFromHit OldFloorMaterial * SpeedMultMax c
       < Size2D (Velocity m)
       /\ Z OldImpactNormal <= Z NewImpactNormal
       /\ (Velocity m |v OldImpactNormal < 0
           \/ LastInputVector |v ActorRightVector <> 0)).
Proof.
  intros Hs. unfold ShouldCatchAir.
  set (f := GetFrictionFromHit OldFloorMaterial).
  set (s := Size2D (Velocity m)) in *.
  assert (Hdiv : f * (SpeedMultMax c / s) < 1 / 2
                 <-> 2 * f * SpeedMultMax c < s).
  { replace (f * (SpeedMultMax c / s)) with ((f * SpeedMultMax c) / s)
      by (field; lra).
    split; intros H.
    - apply (Rmult_lt_compat_r s) in H; [|exact Hs].
      unfold Rdiv in H. rewrite Rmult_assoc, Rinv_l in H; lra.
    - apply (Rmult_lt_reg_r s); [exact Hs|].
      unfold Rdiv. rewrite Rmult_assoc, Rinv_l; lra. }
  assert (Habs : forall x, 0 < FMath.Abs x <-> x <> 0).
  { intros x. unfold FMath.Abs. rdec; lra. }
  split.
  - intros H.
    destruct (Rltb (f * _) _) eqn:H1; [|discriminate].
    destruct (Rleb 0 _) eqn:H2; [|discriminate].
    destruct (Rltb (_ |v _) 0) eqn:H3.
    + rbool. repeat split; [now apply Hdiv | lra | now left].
    + destruct (Rltb 0 _) eqn:H4; [|discriminate].
      rbool. repeat split; [now apply Hdiv | lra | right; now apply Habs].
  - intros (H1 & H2 & H3).
    apply Hdiv in H1. apply Rltb_true_iff in H1. rewrite H1.
    assert (H2' : Rleb 0 (Z NewImpactNormal - Z OldImpactNormal) = true)
      by (apply Rleb_true_iff; lra).
    rewrite H2'. simpl.
    destruct H3 as [H3 | H3].
    + apply Rltb_true_iff in H3. now rewrite H3.
    + apply Habs, Rltb_true_iff in H3. rewrite H3.
      now rewrite orb_true_r.
Qed.

Lemma ShouldCatchAir_iff_witness :
  ShouldCatchAir false StockConfig (Some (2 / 10))
    (mkVec (- (6 / 10)) 0 (8 / 10)) (mkVec 0 0 1) ZeroVector (mkVec 0 1 0)
    (set_Velocity (mkVec 800 0 0) StockMovement) = true.
Proof.
  apply (proj2 (ShouldCatchAir_iff StockConfig (Some (2 / 10))
                  (mkVec (- (6 / 10)) 0 (8 / 10)) (mkVec 0 0 1) ZeroVector
                  (mkVec 0 1 0)
                  (set_Velocity (mkVec 800 0 0) StockMovement)
                  ltac:(simpl; rewrite Size2D_axis_x; lra))).
  simpl. rewrite Size2D_axis_x by lra.
  split; [unfold FMath.Min; rcompute; lra|].
  split; [lra|]. left. unfold dot; simpl. lra.
Defined.

(* ===================================================================== *)
(** ** Speed limits of the integrator *)

Lemma ClampAxes_bounds (c : Config) (v : FVector) :
  0 <= AxisSpeedLimit c ->
  Rabs (X (ClampAxes c v)) <= AxisSpeedLimit c
  /\ Rabs (Y (ClampAxes c v)) <= AxisSpeedLimit c
  /\ Z (ClampAxes c v) = Z v.
Proof.
  intros HL. unfold ClampAxes; simpl.
  pose proof (Clamp_bounds (X v) (- AxisSpeedLimit c) (AxisSpeedLimit c)).
  pose proof (Clamp_bounds (Y v) (- AxisSpeedLimit c) (AxisSpeedLimit c)).
  repeat split; try reflexivity; apply Rabs_le; lra.
Qed.

(** The velocity a call that passes the entry guard leaves went through
    the final axis clamp. *)
Lemma CalcVelocity_clamped (c : Config) (o : Owner) (dt F : R) (bFluid : bool)
    (D : R) (m : Movement) :
  CalcVelocitySkipped o dt = false ->
  exists m' V,
    CalcVelocity c o dt F bFluid D m = Some m'
    /\ Velocity m' = ClampAxes c V.
Proof.
  intros Hskip. unfold CalcVelocity. rewrite Hskip.
  destruct (ForcedAcceleration c o m) as [Accel Analog].
  match goal with
  | |- context [CalcVelocity_friction ?c ?o ?dt ?F ?D ?M ?g ?A ?V ?sf] =>
      destruct (CalcVelocity_friction_total c o dt F D M g A V sf)
        as (V' & ->)
  end.
  destruct (bCheatFlying m);
    [eexists; eexists; split;
     [reflexivity | rewrite UpdateStepHeight_Velocity; reflexivity]|].
  destruct (bOnLadder m);
    [eexists; eexists; split;
     [reflexivity | rewrite UpdateStepHeight_Velocity; reflexivity]|].
  destruct (ApplyInputAcceleration _ _ _ _ _ _ _ _) as [V1 A1].
  eexists; eexists; split;
    [reflexivity | rewrite UpdateStepHeight_Velocity; reflexivity].
Qed.

(** X3 ([CalcVelocity], [NewFallVelocity]).  With an axis speed limit that
    is not negative, every call of [CalcVelocity] that passes its entry
    guard leaves the X and Y velocity within the limit, whatever the input,
    mode or previous velocity; [NewFallVelocity] returns a Z velocity within
    the limit and the X and Y of the engine's fall velocity, and changes
    nothing when the engine's Z is already within the limit. *)
Theorem Velocity_axis_limits (c : Config) :
  0 <= AxisSpeedLimit c ->
  (forall o dt F bFluid D m,
      CalcVelocitySkipped o dt = false ->
      exists m',
        CalcVelocity c o dt F bFluid D m = Some m'
        /\ Rabs (X (Velocity m')) <= AxisSpeedLimit c
        /\ Rabs (Y (Velocity m')) <= AxisSpeedLimit c)
  /\ (forall Super_NewFallVelocity V G dt,
        let Fall := Super_NewFallVelocity V G dt in
        let W := NewFallVelocity Super_NewFallVelocity c V G dt in
        Rabs (Z W) <= AxisSpeedLimit c
        /\ X W = X Fall /\ Y W = Y Fall
        /\ (Rabs (Z Fall) <= AxisSpeedLimit c -> W = Fall)).
Proof.
  intros HL. split.
  - intros o dt F bFluid D m Hskip.
    destruct (CalcVelocity_clamped c o dt F bFluid D m Hskip)
      as (m' & V & Heq & HV).
    exists m'. rewrite HV.
    destruct (ClampAxes_bounds c V HL) as (Hx & Hy & _). auto.
  - intros S V G dt Fall W. subst W. unfold NewFallVelocity. fold Fall.
    simpl.
    pose proof (Clamp_bounds (Z Fall) (- AxisSpeedLimit c) (AxisSpeedLimit c)).
    repeat split.
    + apply Rabs_le. lra.
    + intros Hz. rewrite Clamp_symmetric_id by exact Hz.
      destruct Fall; reflexivity.
Qed.

Lemma Velocity_axis_limits_witness :
  exists m',
    CalcVelocity StockConfig LocalOwner (1 / 60) 4 false (1905 / 10)
      (set_Velocity (mkVec 9000 0 0) StockMovement) = Some m'
    /\ Rabs (X (Velocity m')) <= 66675 / 10.
Proof.
  destruct (Velocity_axis_limits StockConfig) as [H _].
  - simpl. lra.
  - destruct (H LocalOwner (1 / 60) 4 false (1905 / 10)
                (set_Velocity (mkVec 9000 0 0) StockMovement)
                LocalOwner_not_skipped) as (m' & Heq & Hx & _).
    exists m'. split; [exact Heq | exact Hx].
Defined.

(* ===================================================================== *)
(** ** Input acceleration: the wish speed rule *)

Lemma dot2D_le_Size2D (a b : FVector) :
  X a * X b + Y a * Y b <= Size2D a * Size2D b.
Proof.
  unfold Size2D, FMath.Sqrt.
  pose proof (SizeSquared2D_nonneg a) as Ha.
  pose proof (SizeSquared2D_nonneg b) as Hb.
  rewrite <- sqrt_mult by assumption.
  destruct (Rle_dec (X a * X b + Y a * Y b) 0) as [Hneg | Hpos].
  - pose proof (sqrt_pos (SizeSquared2D a * SizeSquared2D b)). lra.
  - rewrite <- (sqrt_sq_nonneg (X a * X b + Y a * Y b)) by lra.
    apply sqrt_le_1; [nra | nra |].
    unfold SizeSquared2D.
    pose proof (Rle_0_sqr (X a * Y b - Y a * X b)) as Hsq.
    unfold Rsqr in Hsq. nra.
Qed.

Lemma Size2D_GetSafeNormal2D_le (B : FVector) :
  Size2D (GetSafeNormal2D B) <= 1.
Proof.
  unfold GetSafeNormal2D, Size2D, FMath.Sqrt.
  destruct (Req_dec_T (SizeSquared2D B) 1) as [H1 | H1].
  - replace (SizeSquared2D (if Req_dec_T (Z B) 0 then B
                            else mkVec (X B) (Y B) 0)) with 1
      by (destruct (Req_dec_T (Z B) 0); [now rewrite H1 | exact (eq_sym H1)]).
    rewrite sqrt_1. lra.
  - destruct (Rlt_dec _ _) as [Hs | Hs].
    + unfold SizeSquared2D; simpl.
      replace (0 * 0 + 0 * 0) with 0 by ring. rewrite sqrt_0. lra.
    + unfold FMath.SMALL_NUMBER in Hs.
      assert (Hq : 0 < SizeSquared2D B) by lra.
      pose proof (sqrt_lt_R0 _ Hq) as Hr.
      pose proof (sqrt_sqrt (SizeSquared2D B) (Rlt_le _ _ Hq)) as Hrr.
      unfold FMath.InvSqrt.
      set (r := sqrt (SizeSquared2D B)) in *.
      replace (SizeSquared2D (mkVec (X B * / r) (Y B * / r) 0)) with 1.
      * rewrite sqrt_1. lra.
      * unfold SizeSquared2D at 1; simpl.
        transitivity (SizeSquared2D B * (/ r * / r));
          [rewrite <- Hrr; field; lra | unfold SizeSquared2D; ring].
Qed.

Lemma Size2D_zero_xy (z : R) : Size2D (mkVec 0 0 z) = 0.
Proof.
  unfold Size2D, SizeSquared2D, FMath.Sqrt; simpl.
  replace (0 * 0 + 0 * 0) with 0 by ring. apply sqrt_0.
Qed.

(** The 2D size after [GetClampedToMaxSize2D]. *)
Lemma Size2D_GetClampedToMaxSize2D (B : FVector) (M : R) :
  Size2D (GetClampedToMaxSize2D B M) <= Rmax 0 M
  /\ Size2D (GetClampedToMaxSize2D B M) <= Size2D B.
Proof.
  pose proof (Size2D_nonneg B) as HB.
  destruct (Rlt_dec M FMath.KINDA_SMALL_NUMBER) as [Hsmall | Hbig].
  - unfold GetClampedToMaxSize2D.
    destruct (Rlt_dec M FMath.KINDA_SMALL_NUMBER); [|lra].
    rewrite Size2D_zero_xy. split; [apply Rmax_l | exact HB].
  - pose proof KSN_pos as HK.
    destruct (GetClampedToMaxSize2D_spec B M) as (s & Hs & _ & Hsq); [lra|].
    assert (HM : Rmax 0 M = M) by (apply Rmax_right; lra).
    rewrite HM.
    unfold Size2D at 1 2, FMath.Sqrt. rewrite Hsq.
    destruct (Rlt_dec (M * M) (SizeSquared2D B)) as [Hlt | Hge].
    + rewrite sqrt_sq_nonneg by lra. split; [lra|].
      rewrite <- (sqrt_sq_nonneg M) at 1 by lra.
      apply sqrt_le_1; [nra | apply SizeSquared2D_nonneg | lra].
    + split; [|apply Rle_refl].
      rewrite <- (sqrt_sq_nonneg M) by lra.
      apply sqrt_le_1; [apply SizeSquared2D_nonneg | nra | lra].
Qed.

(** The 2D dot product with the direction of a vector is its 2D size, or 0
    when the direction degenerates. *)
Lemma dot2D_GetSafeNormal2D_nonneg (B : FVector) :
  0 <= X B * X (GetSafeNormal2D B) + Y B * Y (GetSafeNormal2D B).
Proof.
  unfold GetSafeNormal2D.
  destruct (Req_dec_T (SizeSquared2D B) 1) as [H1 | H1].
  - replace (X B * X (if Req_dec_T (Z B) 0 then B else mkVec (X B) (Y B) 0)
             + Y B * Y (if Req_dec_T (Z B) 0 then B
                        else mkVec (X B) (Y B) 0))
      with (SizeSquared2D B)
      by (destruct (Req_dec_T (Z B) 0); reflexivity).
    lra.
  - destruct (Rlt_dec _ _) as [Hs | Hs]; simpl.
    + lra.
    + unfold FMath.SMALL_NUMBER in Hs.
      assert (Hq : 0 < SizeSquared2D B) by lra.
      pose proof (sqrt_lt_R0 _ Hq) as Hr.
      unfold FMath.InvSqrt.
      apply Rinv_0_lt_compat in Hr.
      unfold SizeSquared2D in *.
      replace (X B * (X B * / sqrt (X B * X B + Y B * Y B))
               + Y B * (Y B * / sqrt (X B * X B + Y B * Y B)))
        with ((X B * X B + Y B * Y B) * / sqrt (X B * X B + Y B * Y B))
        by ring.
      apply Rmult_le_pos; lra.
Qed.

(** X4 ([CalcVelocity], the walk/air branch).  After the input
    acceleration the velocity along the input direction is at most the
    larger of its previous value and the wish speed, where the wish speed is
    the 2D size of the clamped input on the ground and of the input clamped
    again to [AirSpeedCap] in the air; the wish speed never exceeds
    [MaxSpeed], nor [AirSpeedCap] in the air; a character already at the
    wish speed along the input direction gains nothing; and with multipliers
    that are not negative the speed along the input direction never
    drops. *)
Theorem ApplyInputAcceleration_wish_speed (c : Config) (dt MaxSpeed : R)
    (bIsGroundMove : bool) (sf : R) (A V : FVector) :
  let V' :=
    fst (ApplyInputAcceleration c dt MaxSpeed bIsGroundMove false sf A V) in
  let A' :=
    snd (ApplyInputAcceleration c dt MaxSpeed bIsGroundMove false sf A V) in
  let WishDir := GetSafeNormal2D A' in
  let WishSpeed :=
    Size2D (if bIsGroundMove then A'
            else GetClampedToMaxSize2D A' (AirSpeedCap c)) in
  let along W := X W * X WishDir + Y W * Y WishDir in
  A' = GetClampedToMaxSize2D A MaxSpeed
  /\ along V' <= Rmax (along V) WishSpeed
  /\ (WishSpeed <= along V -> V' = V)
  /\ WishSpeed <= Rmax 0 MaxSpeed
  /\ (bIsGroundMove = false -> WishSpeed <= Rmax 0 (AirSpeedCap c))
  /\ (0 <= (if bIsGroundMove then GroundAccelerationMultiplier c
            else AirAccelerationMultiplier c) * sf * dt ->
      along V <= along V').
Proof.
  intros V' A' WishDir WishSpeed along.
  assert (HA' : A' = GetClampedToMaxSize2D A MaxSpeed).
  { subst A'. unfold ApplyInputAcceleration. simpl.
    destruct (Rlt_dec 0 _); reflexivity. }
  set (A1 := GetClampedToMaxSize2D A MaxSpeed) in *.
  set (mult := if bIsGroundMove then GroundAccelerationMultiplier c
               else AirAccelerationMultiplier c).
  set (CA := GetClampedToMaxSize2D (((A1 *v mult) *v sf) *v dt)
               (WishSpeed - along V)).
  assert (HV' : V' = if Rlt_dec 0 (WishSpeed - along V) then V +v CA else V).
  { subst V' CA WishSpeed along WishDir mult. rewrite HA'.
    unfold ApplyInputAcceleration. simpl.
    destruct (Rlt_dec 0 _); reflexivity. }
  assert (Hwish : WishSpeed <= Rmax 0 MaxSpeed
                  /\ (bIsGroundMove = false
                      -> WishSpeed <= Rmax 0 (AirSpeedCap c))).
  { subst WishSpeed. rewrite HA'.
    pose proof (Size2D_GetClampedToMaxSize2D A MaxSpeed) as [H1 _].
    fold A1 in H1.
    pose proof (Size2D_GetClampedToMaxSize2D A1 (AirSpeedCap c)) as [H2 H3].
    destruct bIsGroundMove; split; intros; try discriminate; lra. }
  assert (Hdir : Size2D WishDir <= 1) by apply Size2D_GetSafeNormal2D_le.
  split; [exact HA'|]. split; [|split; [|split; [|split]]].
  - rewrite HV'. destruct (Rlt_dec 0 (WishSpeed - along V)) as [Hadd | Hno].
    + assert (HCA : X CA * X WishDir + Y CA * Y WishDir
                    <= WishSpeed - along V).
      { pose proof (dot2D_le_Size2D CA WishDir) as Hcs.
        pose proof (Size2D_GetClampedToMaxSize2D
                      (((A1 *v mult) *v sf) *v dt) (WishSpeed - along V))
          as [Hle _].
        fold CA in Hle. rewrite Rmax_right in Hle by lra.
        pose proof (Size2D_nonneg CA). pose proof (Size2D_nonneg WishDir).
        nra. }
      replace (along (V +v CA))
        with (along V + (X CA * X WishDir + Y CA * Y WishDir))
        by (unfold along; simpl; ring).
      pose proof (Rmax_r (along V) WishSpeed). lra.
    + apply Rmax_l.
  - intros Hfull. rewrite HV'.
    destruct (Rlt_dec 0 (WishSpeed - along V)); [lra | reflexivity].
  - apply Hwish.
  - apply Hwish.
  - intros Hk. rewrite HV'.
    destruct (Rlt_dec 0 (WishSpeed - along V)) as [Hadd | Hno]; [|lra].
    replace (along (V +v CA))
      with (along V + (X CA * X WishDir + Y CA * Y WishDir))
      by (unfold along; simpl; ring).
    assert (Hpar : 0 <= X A1 * X WishDir + Y A1 * Y WishDir).
    { subst WishDir. rewrite HA'. apply dot2D_GetSafeNormal2D_nonneg. }
    assert (Hs : exists s, 0 <= s
                   /\ X CA = X (((A1 *v mult) *v sf) *v dt) * s
                   /\ Y CA = Y (((A1 *v mult) *v sf) *v dt) * s).
    { subst CA. unfold GetClampedToMaxSize2D at 1 2.
      destruct (Rlt_dec (WishSpeed - along V) FMath.KINDA_SMALL_NUMBER).
      - exists 0. simpl. repeat split; try ring. lra.
      - destruct (Rlt_dec _ _) as [Hbig | Hsmall].
        + eexists. simpl. repeat split; try reflexivity.
          apply Rmult_le_pos; [lra|].
          unfold FMath.InvSqrt. apply Rlt_le, Rinv_0_lt_compat.
          apply sqrt_lt_R0. unfold FMath.Square in Hbig.
          pose proof KSN_pos. nra.
        + exists 1. repeat split; try ring. lra. }
    destruct Hs as (s & Hs0 & HX & HY). rewrite HX, HY. simpl.
    replace (X A1 * mult * sf * dt * s * X WishDir
             + Y A1 * mult * sf * dt * s * Y WishDir)
      with ((mult * sf * dt) * s * (X A1 * X WishDir + Y A1 * Y WishDir))
      by ring.
    assert (0 <= mult * sf * dt * s) by (apply Rmult_le_pos; assumption).
    assert (0 <= mult * sf * dt * s
                 * (X A1 * X WishDir + Y A1 * Y WishDir))
      by (apply Rmult_le_pos; assumption).
    lra.
Qed.

(* ===================================================================== *)
(** ** No-clip flight *)

Lemma Rabs_X_le_Size (W : FVector) :
  Rabs (X W) <= Size W /\ Rabs (Y W) <= Size W /\ Rabs (Z W) <= Size W.
Proof.
  pose proof (Size_nonneg W) as Hs. pose proof (Size_sqr W) as Hq.
  unfold SizeSquared in Hq.
  repeat split; apply sq_le_abs; try assumption; nra.
Qed.

Lemma Clamp_same (x k : R) : FMath.Clamp x k k = k.
Proof. unfold FMath.Clamp. rdec; lra. Qed.

(** Clamping to a single size [k] gives a vector of size [k], or zero. *)
Lemma GetClampedToSize_same (a : FVector) (k : R) :
  0 <= k ->
  GetClampedToSize a k k = ZeroVector \/ Size (GetClampedToSize a k k) = k.
Proof.
  intros Hk. unfold GetClampedToSize. rewrite Clamp_same.
  destruct (Rlt_dec FMath.SMALL_NUMBER (Size a)) as [Hbig | Hsmall].
  - right. unfold FMath.SMALL_NUMBER in Hbig.
    assert (Hs : 0 < Size a) by lra.
    rewrite Size_scale by exact Hk.
    rewrite Size_scale by (apply Rlt_le, Rinv_0_lt_compat; exact Hs).
    field. lra.
  - left. apply vec_eq; simpl; ring.
Qed.

Lemma CalcVelocity_noclip_velocity (c : Config) (o : Owner) (dt F : R)
    (bFluid : bool) (D : R) (m : Movement) :
  CalcVelocitySkipped o dt = false ->
  bCheatFlying m = true ->
  bForceMaxAccel c = false ->
  exists m',
    CalcVelocity c o dt F bFluid D m = Some m'
    /\ Velocity m'
       = ClampAxes c
           (NoClipVelocity c o (Acceleration m)
              (IsNearlyZeroV (Acceleration m) FMath.KINDA_SMALL_NUMBER)).
Proof.
  intros Hskip Hfly Hforce. unfold CalcVelocity. rewrite Hskip.
  unfold ForcedAcceleration. rewrite Hforce.
  match goal with
  | |- context [CalcVelocity_friction ?c ?o ?dt ?F ?D ?M ?g ?A ?V ?sf] =>
      destruct (CalcVelocity_friction_total c o dt F D M g A V sf)
        as (V' & ->)
  end.
  rewrite Hfly. eexists. split; [reflexivity|].
  rewrite UpdateStepHeight_Velocity. reflexivity.
Qed.

(** X5 ([CalcVelocity], the no-clip branch).  In no-clip, with
    [bForceMaxAccel] off and an acceleration clamp ([MaxAcceleration],
    doubled when sprinting) between 0 and the axis speed limit: the call
    returns; the velocity it leaves does not depend on the previous
    velocity, the friction, or the braking deceleration; it is zero when the
    input is nearly zero; and otherwise it is zero or has exactly the size
    of the acceleration clamp. *)
Theorem CalcVelocity_noclip (c : Config) (o : Owner) (dt F : R)
    (bFluid : bool) (D : R) (m : Movement) :
  CalcVelocitySkipped o dt = false ->
  bCheatFlying m = true ->
  bForceMaxAccel c = false ->
  let NoClipAccelClamp :=
    if IsSprinting o then 2 * MaxAcceleration c else MaxAcceleration c in
  0 <= NoClipAccelClamp <= AxisSpeedLimit c ->
  exists m',
    CalcVelocity c o dt F bFluid D m = Some m'
    /\ (IsNearlyZeroV (Acceleration m) FMath.KINDA_SMALL_NUMBER = true ->
        Velocity m' = ZeroVector)
    /\ (Velocity m' = ZeroVector \/ Size (Velocity m') = NoClipAccelClamp)
    /\ (forall V0 F' bFluid' D',
          exists m2,
            CalcVelocity c o dt F' bFluid' D' (set_Velocity V0 m) = Some m2
            /\ Velocity m2 = Velocity m').
Proof.
  intros Hskip Hfly Hforce K HK.
  destruct (CalcVelocity_noclip_velocity c o dt F bFluid D m Hskip Hfly Hforce)
    as (m' & Heq & HV).
  exists m'. split; [exact Heq|].
  assert (Hzero : ClampAxes c ZeroVector = ZeroVector).
  { unfold ClampAxes; simpl.
    rewrite !Clamp_symmetric_id by (rewrite Rabs_R0; lra). reflexivity. }
  split; [|split].
  - intros Hz. rewrite HV, Hz. unfold NoClipVelocity. exact Hzero.
  - rewrite HV. unfold NoClipVelocity.
    destruct (IsNearlyZeroV (Acceleration m) FMath.KINDA_SMALL_NUMBER);
      [left; exact Hzero|].
    fold K.
    match goal with
    | |- context [GetClampedToSize ?a K K] =>
        set (W := GetClampedToSize a K K);
        destruct (GetClampedToSize_same a K (proj1 HK)) as [HW | HW];
        fold W in HW
    end.
    + left. rewrite HW. exact Hzero.
    + right.
      destruct (Rabs_X_le_Size W) as (Hx & Hy & _).
      replace (ClampAxes c W) with W; [exact HW|].
      unfold ClampAxes.
      rewrite !Clamp_symmetric_id by lra. destruct W; reflexivity.
  - intros V0 F' bFluid' D'.
    destruct (CalcVelocity_noclip_velocity c o dt F' bFluid' D'
                (set_Velocity V0 m) Hskip Hfly Hforce) as (m2 & Heq2 & HV2).
    exists m2. split; [exact Heq2|]. rewrite HV2, HV. reflexivity.
Qed.

Lemma CalcVelocity_noclip_witness :
  exists m',
    CalcVelocity StockConfig LocalOwner (1 / 60) 4 false (1905 / 10)
      (set_bCheatFlying true (set_Velocity (mkVec 300 0 0) StockMovement))
    = Some m'
    /\ Velocity m' = ZeroVector.
Proof.
  destruct (CalcVelocity_noclip StockConfig LocalOwner (1 / 60) 4 false
              (1905 / 10)
              (set_bCheatFlying true
                 (set_Velocity (mkVec 300 0 0) StockMovement)))
    as (m' & Heq & Hz & _).
  - exact LocalOwner_not_skipped.
  - reflexivity.
  - reflexivity.
  - simpl. lra.
  - exists m'. split; [exact Heq|]. apply Hz.
    apply ZeroVector_nearly_zero. pose proof KSN_pos. lra.
Defined.

(* ===================================================================== *)
(** ** Jumping *)

Lemma FloorZ_walkable_bound (N : FVector) (w : R) :
  Rleb w (mkVec 0 0 1 |v N) || FMath.IsNearlyEqual (mkVec 0 0 1 |v N) w = true
  -> w - FMath.SMALL_NUMBER <= Z N.
Proof.
  unfold FMath.IsNearlyEqual, FMath.Abs, dot; simpl.
  replace (0 * X N + 0 * Y N + 1 * Z N) with (Z N) by ring.
  intros H. apply orb_true_iff in H. unfold FMath.SMALL_NUMBER in *.
  destruct H as [H | H]; rbool; [lra|].
  destruct (Rlt_dec (Z N - w) 0); lra.
Qed.

(** X6 ([DoJump], [CanJumpInternal_Implementation]).  A jump that is
    granted happens outside no-clip with jumping allowed; from the ground
    only on a floor whose normal Z is at least the walkable floor Z (up to
    1e-8); without a held jump only while the jump count is below
    [JumpMaxCount], and below [JumpMaxCount - 1] for a character that fell
    without jumping; it leaves X and Y of the velocity alone, sets Z to
    [JumpZVelocity] plus whatever upward speed there was, and switches to
    falling.  A jump that is refused changes nothing. *)
Theorem DoJump_guard (c : Config) (JumpZVelocity : R)
    (r : APBPlayerCharacter.JumpRules) (FloorImpactNormal : FVector)
    (m : Movement) (j : APBPlayerCharacter.JumpInput) :
  let res :=
    DoJump c JumpZVelocity
      (APBPlayerCharacter.CanJumpInternal_Implementation r FloorImpactNormal
         m j) m in
  (fst res = true ->
   bCheatFlying m = false
   /\ APBPlayerCharacter.IsJumpAllowed r = true
   /\ (IsMovingOnGround m = true ->
       WalkableFloorZ m - FMath.SMALL_NUMBER <= Z FloorImpactNormal)
   /\ (APBPlayerCharacter.bWasJumping j = false
       \/ APBPlayerCharacter.JumpMaxHoldTime r <= 0 ->
       (APBPlayerCharacter.JumpCurrentCount j
        < APBPlayerCharacter.JumpMaxCount r)%Z
       /\ (IsFalling m = true ->
           APBPlayerCharacter.JumpCurrentCount j = 0%Z ->
           (2 <= APBPlayerCharacter.JumpMaxCount r)%Z))
   /\ Velocity (snd res)
      = mkVec (X (Velocity m)) (Y (Velocity m))
          (JumpZVelocity + Rmax 0 (Z (Velocity m)))
   /\ MovementMode (snd res) = MOVE_Falling)
  /\ (fst res = false -> snd res = m).
Proof.
  intros res. subst res. unfold DoJump. split.
  - destruct (bCheatFlying m); [discriminate|]. simpl.
    destruct (APBPlayerCharacter.CanJumpInternal_Implementation _ _ _ _)
      eqn:Hcan; [|discriminate].
    destruct (_ || _); [|discriminate]. simpl. intros _.
    unfold APBPlayerCharacter.CanJumpInternal_Implementation in Hcan.
    destruct (APBPlayerCharacter.IsJumpAllowed r); [|discriminate].
    split; [reflexivity|]. split; [reflexivity|].
    split; [|split; [|split]].
    + intros Hg. rewrite Hg in Hcan. apply andb_true_iff in Hcan.
      apply FloorZ_walkable_bound, Hcan.
    + intros Hhold.
      assert (Hb : negb (APBPlayerCharacter.bWasJumping j)
                   || Rleb (APBPlayerCharacter.JumpMaxHoldTime r) 0 = true).
      { destruct Hhold as [-> | H]; [reflexivity|].
        apply Rleb_true_iff in H. rewrite H. apply orb_true_r. }
      rewrite Hb in Hcan.
      assert (Hcount :
                (if (APBPlayerCharacter.JumpCurrentCount j =? 0)%Z
                    && IsFalling m
                 then (APBPlayerCharacter.JumpCurrentCount j + 1
                       <? APBPlayerCharacter.JumpMaxCount r)%Z
                 else (APBPlayerCharacter.JumpCurrentCount j
                       <? APBPlayerCharacter.JumpMaxCount r)%Z) = true).
      { destruct (IsMovingOnGround m);
          [apply andb_true_iff in Hcan; apply Hcan | exact Hcan]. }
      clear Hcan Hb.
      destruct (Z.eqb_spec (APBPlayerCharacter.JumpCurrentCount j) 0)
        as [H0 | H0];
        destruct (IsFalling m); simpl in Hcount;
        apply Z.ltb_lt in Hcount;
        (split; [lia | intros Hf Hc; try discriminate Hf; lia]).
    + simpl. f_equal. unfold Rmax.
      destruct (Rle_dec (Z (Velocity m)) 0) as [Hz | Hz];
        destruct (Rle_dec 0 (Z (Velocity m))); lra.
    + reflexivity.
  - destruct (negb (bCheatFlying m) && _); [|reflexivity].
    destruct (_ || _); [discriminate | reflexivity].
Qed.

(** X7 ([Jump], [StopJumping], [ClearJumpInput], [Tick]).  A jump pressed
    while falling survives the release of the key: [StopJumping] and
    [ClearJumpInput] leave the pressed jump as it is until the next [Tick],
    which clears both the deferral and the press.  On the ground, with no
    deferral pending, the release clears the press at once. *)
Theorem Jump_deferred_stop (r : APBPlayerCharacter.JumpRules) (dt : R)
    (m : Movement) (j : APBPlayerCharacter.JumpInput) :
  let pressed := APBPlayerCharacter.Jump m j in
  let released := APBPlayerCharacter.StopJumping m pressed in
  (IsFalling m = true ->
   released = pressed
   /\ APBPlayerCharacter.bPressedJump released = true
   /\ APBPlayerCharacter.ClearJumpInput r dt m released = released
   /\ forall Super_Tick m',
        APBPlayerCharacter.bDeferJumpStop (Super_Tick released) = true ->
        APBPlayerCharacter.bPressedJump
          (APBPlayerCharacter.Tick Super_Tick m' released) = false
        /\ APBPlayerCharacter.bDeferJumpStop
             (APBPlayerCharacter.Tick Super_Tick m' released) = false)
  /\ (IsFalling m = false ->
      APBPlayerCharacter.bDeferJumpStop j = false ->
      APBPlayerCharacter.bPressedJump released = false
      /\ APBPlayerCharacter.JumpCurrentCount released = 0%Z).
Proof.
  intros pressed released. subst released pressed.
  unfold APBPlayerCharacter.StopJumping, APBPlayerCharacter.Jump.
  split.
  - intros Hf. rewrite Hf. simpl. repeat split.
    + unfold APBPlayerCharacter.ClearJumpInput. simpl.
      now rewrite !orb_true_r.
    + unfold APBPlayerCharacter.Tick. rewrite H.
      unfold APBPlayerCharacter.Super_StopJumping,
        APBPlayerCharacter.ResetJumpState.
      destruct (negb (IsFalling m')); reflexivity.
    + unfold APBPlayerCharacter.Tick. rewrite H.
      unfold APBPlayerCharacter.Super_StopJumping,
        APBPlayerCharacter.ResetJumpState.
      destruct (negb (IsFalling m')); reflexivity.
  - intros Hf Hd. rewrite Hf. simpl. rewrite Hd. simpl.
    unfold APBPlayerCharacter.Super_StopJumping,
      APBPlayerCharacter.ResetJumpState.
    rewrite Hf. simpl. split; reflexivity.
Qed.

(** X8 ([OnMovementModeChanged] of the character, [CanJumpInternal],
    [DoJump]).  After a change to a ground mode on a walkable floor, a
    character that is allowed to jump and has [JumpMaxCount] of at least 1
    can jump again at once, whether or not the jump key is still held and
    whatever its jump count was; outside no-clip and without a vertical
    plane constraint [DoJump] then launches it with a vertical speed of at
    least [JumpZVelocity]. *)
Theorem Landing_rearms_jump (c : Config) (JumpZVelocity : R)
    (r : APBPlayerCharacter.JumpRules) (FloorImpactNormal : FVector)
    (m : Movement) (j : APBPlayerCharacter.JumpInput) :
  IsMovingOnGround m = true ->
  APBPlayerCharacter.IsJumpAllowed r = true ->
  (1 <= APBPlayerCharacter.JumpMaxCount r)%Z ->
  WalkableFloorZ m <= Z FloorImpactNormal ->
  let j' := APBPlayerCharacter.OnMovementModeChanged m j in
  APBPlayerCharacter.JumpCurrentCount j' = 0%Z
  /\ APBPlayerCharacter.CanJumpInternal_Implementation r FloorImpactNormal
       m j' = true
  /\ (bCheatFlying m = false -> bConstrainToPlane c = false ->
      let res :=
        DoJump c JumpZVelocity
          (APBPlayerCharacter.CanJumpInternal_Implementation r
             FloorImpactNormal m j') m in
      fst res = true
      /\ MovementMode (snd res) = MOVE_Falling
      /\ JumpZVelocity <= Z (Velocity (snd res))).
Proof.
  intros Hg Hallow Hmax Hfloor j'.
  assert (Hfall : IsFalling m = false).
  { unfold IsMovingOnGround in Hg. unfold IsFalling.
    destruct (MovementMode m); try discriminate; reflexivity. }
  assert (Hcount : APBPlayerCharacter.JumpCurrentCount j' = 0%Z).
  { subst j'. unfold APBPlayerCharacter.OnMovementModeChanged.
    rewrite Hfall. reflexivity. }
  assert (Hwas : APBPlayerCharacter.bWasJumping j' = false).
  { subst j'. unfold APBPlayerCharacter.OnMovementModeChanged.
    rewrite Hfall. reflexivity. }
  assert (Hcan : APBPlayerCharacter.CanJumpInternal_Implementation r
                   FloorImpactNormal m j' = true).
  { unfold APBPlayerCharacter.CanJumpInternal_Implementation.
    rewrite Hallow, Hwas, Hcount, Hfall, Hg. simpl.
    apply andb_true_iff. split.
    - apply Z.ltb_lt. lia.
    - apply orb_true_iff. left. apply Rleb_true_iff.
      unfold dot; simpl. lra. }
  split; [exact Hcount|]. split; [exact Hcan|].
  intros Hfly Hplane res. subst res. rewrite Hcan.
  unfold DoJump. rewrite Hfly, Hplane. simpl.
  repeat split.
  destruct (Rle_dec (Z (Velocity m)) 0); lra.
Qed.

Lemma Landing_rearms_jump_witness :
  APBPlayerCharacter.CanJumpInternal_Implementation
    (APBPlayerCharacter.mkJumpRules true 0 1%Z 0%Z false) (mkVec 0 0 1)
    StockMovement
    (APBPlayerCharacter.OnMovementModeChanged StockMovement
       (APBPlayerCharacter.mkJumpInput true true (1 / 10) 0 1%Z 0%Z false))
  = true.
Proof.
  apply (Landing_rearms_jump StockConfig (3048 / 10)
           (APBPlayerCharacter.mkJumpRules true 0 1%Z 0%Z false)
           (mkVec 0 0 1) StockMovement
           (APBPlayerCharacter.mkJumpInput true true (1 / 10) 0 1%Z 0%Z
              false)).
  - reflexivity.
  - reflexivity.
  - simpl. lia.
  - simpl. lra.
Defined.

(* ===================================================================== *)
(** ** Camera roll and no-clip *)

(** X9 ([GetCameraRoll]).  The roll never exceeds [RollAngle] in absolute
    value, whatever the velocity and the roll speed; it is odd in the
    velocity; and with a positive roll speed it is linear in the side speed
    up to [RollSpeed] and saturates at [RollAngle] from there on. *)
Theorem GetCameraRoll_bounded (RollSpeed RollAngle : R) (RightAxis : FVector)
    (m : Movement) :
  Rabs (GetCameraRoll RollSpeed RollAngle RightAxis m) <= Rabs RollAngle
  /\ GetCameraRoll RollSpeed RollAngle RightAxis
       (set_Velocity (vneg (Velocity m)) m)
     = - GetCameraRoll RollSpeed RollAngle RightAxis m
  /\ (0 < RollSpeed ->
      let Side := Velocity m |v RightAxis in
      (Rabs Side < RollSpeed ->
       GetCameraRoll RollSpeed RollAngle RightAxis m
       = Side * RollAngle / RollSpeed)
      /\ (RollSpeed <= Side ->
          GetCameraRoll RollSpeed RollAngle RightAxis m = RollAngle)
      /\ (Side <= - RollSpeed ->
          GetCameraRoll RollSpeed RollAngle RightAxis m = - RollAngle)).
Proof.
  unfold GetCameraRoll.
  replace (Velocity (set_Velocity (vneg (Velocity m)) m) |v RightAxis)
    with (- (Velocity m |v RightAxis)) by (unfold dot; simpl; ring).
  set (Side := Velocity m |v RightAxis).
  destruct (Req_dec_T RollSpeed 0) as [HS0 | HS0].
  { assert (H0 : Reqb RollSpeed 0 = true) by now apply Reqb_true_iff.
    rewrite H0. simpl. rewrite Rabs_R0.
    repeat split; try ring; try lra; try apply Rabs_pos. }
  assert (H0 : Reqb RollSpeed 0 = false) by now apply Reqb_false_iff.
  rewrite H0. simpl.
  destruct (Req_dec_T RollAngle 0) as [HA0 | HA0].
  { assert (H1 : Reqb RollAngle 0 = true) by now apply Reqb_true_iff.
    rewrite H1. rewrite Rabs_R0. subst RollAngle.
    repeat split; intros; try (unfold Rdiv; ring); try lra;
      try apply Rabs_pos. }
  assert (H1 : Reqb RollAngle 0 = false) by now apply Reqb_false_iff.
  rewrite H1.
  split; [|split].
  - unfold Sign, FMath.Abs.
    destruct (Rlt_dec Side 0) as [Hneg | Hpos].
    + destruct (Rlt_dec 0 Side); [lra|].
      destruct (Rlt_dec (- Side) RollSpeed) as [Hlin | Hsat].
      * assert (HRS : 0 < RollSpeed) by lra.
        replace (- Side * RollAngle / RollSpeed * -1)
          with (RollAngle * (Side / RollSpeed)) by (field; lra).
        rewrite Rabs_mult.
        rewrite <- (Rmult_1_r (Rabs RollAngle)) at 2.
        apply Rmult_le_compat_l; [apply Rabs_pos|].
        apply Rabs_le. split.
        -- apply (Rmult_le_reg_r RollSpeed); [exact HRS|].
           unfold Rdiv. rewrite Rmult_assoc, Rinv_l by lra. lra.
        -- apply (Rmult_le_reg_r RollSpeed); [exact HRS|].
           unfold Rdiv. rewrite Rmult_assoc, Rinv_l by lra. lra.
      * replace (RollAngle * -1) with (- RollAngle) by ring.
        rewrite Rabs_Ropp. apply Rle_refl.
    + destruct (Rlt_dec 0 Side) as [Hp | Hz].
      * destruct (Rlt_dec Side RollSpeed) as [Hlin | Hsat].
        -- assert (HRS : 0 < RollSpeed) by lra.
           replace (Side * RollAngle / RollSpeed * 1)
             with (RollAngle * (Side / RollSpeed)) by (field; lra).
           rewrite Rabs_mult.
           rewrite <- (Rmult_1_r (Rabs RollAngle)) at 2.
           apply Rmult_le_compat_l; [apply Rabs_pos|].
           apply Rabs_le. split.
           ++ apply (Rmult_le_reg_r RollSpeed); [exact HRS|].
              unfold Rdiv. rewrite Rmult_assoc, Rinv_l by lra. lra.
           ++ apply (Rmult_le_reg_r RollSpeed); [exact HRS|].
              unfold Rdiv. rewrite Rmult_assoc, Rinv_l by lra. lra.
        -- rewrite Rmult_1_r. apply Rle_refl.
      * rewrite Rmult_0_r, Rabs_R0. apply Rabs_pos.
  - unfold Sign, FMath.Abs.
    destruct (Rlt_dec Side 0); destruct (Rlt_dec 0 Side);
      destruct (Rlt_dec (- Side) 0); destruct (Rlt_dec 0 (- Side));
      try lra;
      try (replace (- - Side) with Side by ring);
      try (assert (Hz : Side = 0) by lra; rewrite Hz;
           replace (- 0) with 0 by ring);
      repeat match goal with
             | |- context [Rlt_dec ?a ?b] => destruct (Rlt_dec a b)
             end; try lra; try ring.
  - intros HRS. unfold Sign, FMath.Abs.
    repeat split.
    + intros Hlin. apply Rabs_def2 in Hlin.
      destruct (Rlt_dec Side 0); destruct (Rlt_dec 0 Side); try lra.
      * destruct (Rlt_dec (- Side) RollSpeed); [field; lra | lra].
      * destruct (Rlt_dec Side RollSpeed); [field; lra | lra].
      * assert (Hz : Side = 0) by lra. rewrite Hz. unfold Rdiv. ring.
    + intros Hsat.
      destruct (Rlt_dec Side 0); [lra|].
      destruct (Rlt_dec 0 Side); [|lra].
      destruct (Rlt_dec Side RollSpeed); [lra | ring].
    + intros Hsat.
      destruct (Rlt_dec Side 0); [|lra].
      destruct (Rlt_dec 0 Side); [lra|].
      destruct (Rlt_dec (- Side) RollSpeed); [lra | ring].
Qed.

(** X10 ([SetNoClip], [ToggleNoClip], [TickComponent]).  [SetNoClip] sets
    the cheat flag and the mode at once, and the mode it asks for (flying
    for no-clip, walking otherwise) is the mode after the next tick even if
    the engine's tick changed the mode in between, provided the engine's
    tick leaves the deferred request alone; that tick consumes the request.
    Toggling twice restores the cheat flag and leaves the mode walking or
    flying, never the mode before the first toggle. *)
Theorem SetNoClip_deferred_mode (Super_TickComponent : R -> Movement -> Movement)
    (c : Config) (o : Owner) (dt : R) (bNoClip : bool) (m : Movement) :
  bHasDeferredMovementMode (Super_TickComponent dt (SetNoClip bNoClip m))
  = true ->
  DeferredMovementMode (Super_TickComponent dt (SetNoClip bNoClip m))
  = DeferredMovementMode (SetNoClip bNoClip m) ->
  let Requested := if bNoClip then MOVE_Flying else MOVE_Walking in
  let m' := TickComponent Super_TickComponent c o dt (SetNoClip bNoClip m) in
  bCheatFlying (SetNoClip bNoClip m) = bNoClip
  /\ MovementMode (SetNoClip bNoClip m) = Requested
  /\ MovementMode m' = Requested
  /\ bHasDeferredMovementMode m' = false
  /\ bCheatFlying (ToggleNoClip (ToggleNoClip m)) = bCheatFlying m
  /\ MovementMode (ToggleNoClip (ToggleNoClip m))
     = (if bCheatFlying m then MOVE_Flying else MOVE_Walking).
Proof.
  intros Hflag Hmode Requested m'.
  split; [destruct bNoClip; reflexivity|].
  split; [destruct bNoClip; reflexivity|].
  assert (Hm' : MovementMode m' = Requested
                /\ bHasDeferredMovementMode m' = false).
  { subst m'. unfold TickComponent. rewrite Hflag, Hmode.
    destruct (IsSimulatingPhysics o); simpl.
    - split; [destruct bNoClip; reflexivity | reflexivity].
    - rewrite UpdateBrakingWindow_mode. simpl.
      split; [destruct bNoClip; reflexivity|].
      unfold UpdateBrakingWindow. split_ifs; reflexivity. }
  split; [apply Hm'|]. split; [apply Hm'|].
  unfold ToggleNoClip. destruct (bCheatFlying m) eqn:Hc; simpl;
    split; reflexivity.
Qed.

Lemma SetNoClip_deferred_mode_witness :
  MovementMode
    (TickComponent (fun _ m => SetMovementMode MOVE_Falling m) StockConfig
       LocalOwner (1 / 60) (SetNoClip true StockMovement))
  = MOVE_Flying.
Proof.
  apply (SetNoClip_deferred_mode (fun _ m => SetMovementMode MOVE_Falling m)
           StockConfig LocalOwner (1 / 60) true StockMovement).
  - reflexivity.
  - reflexivity.
Defined.

(* ===================================================================== *)
(** ** The braking window over several ticks *)

Lemma UpdateBrakingWindow_ground (c : Config) (dt : R) (m : Movement) :
  IsMovingOnGround m = true ->
  0 <= dt ->
  let m' := UpdateBrakingWindow c dt m in
  (bBrakingWindowElapsed m = true -> bBrakingWindowElapsed m' = true)
  /\ (bBrakingWindowElapsed m = false ->
      (BrakingWindow c <= BrakingWindowTimeElapsed m + dt * 1000 ->
       bBrakingWindowElapsed m' = true)
      /\ (BrakingWindowTimeElapsed m + dt * 1000 < BrakingWindow c ->
          bBrakingWindowElapsed m' = false
          /\ BrakingWindowTimeElapsed m'
             = BrakingWindowTimeElapsed m + dt * 1000)).
Proof.
  intros Hg Hdt m'. subst m'. unfold UpdateBrakingWindow. rewrite Hg.
  split.
  - intros He. rewrite He. simpl. destruct (Rle_dec _ _); reflexivity.
  - intros He. rewrite He. simpl.
    destruct (Rle_dec _ _); split; intros; try lra; auto.
Qed.

(** The window fields after one tick, in terms of those before it. *)
Lemma TickComponent_window (S : R -> Movement -> Movement) (c : Config)
    (o : Owner) (dt : R) (m : Movement) :
  IsSimulatingPhysics o = false ->
  bBrakingWindowElapsed (S dt m) = bBrakingWindowElapsed m ->
  BrakingWindowTimeElapsed (S dt m) = BrakingWindowTimeElapsed m ->
  bBrakingWindowElapsed (TickComponent S c o dt m)
  = bBrakingWindowElapsed (UpdateBrakingWindow c dt (TickMode S dt m))
  /\ BrakingWindowTimeElapsed (TickComponent S c o dt m)
     = BrakingWindowTimeElapsed (UpdateBrakingWindow c dt (TickMode S dt m))
  /\ bBrakingWindowElapsed (TickMode S dt m) = bBrakingWindowElapsed m
  /\ BrakingWindowTimeElapsed (TickMode S dt m) = BrakingWindowTimeElapsed m.
Proof.
  intros Hphys He Ht. unfold TickComponent, TickMode. rewrite Hphys.
  destruct (bHasDeferredMovementMode (S dt m)); simpl; auto.
Qed.

(** X11 ([TickComponent], the braking window).  For a character that the
    engine keeps on the ground, with a time step that is not negative and
    an engine tick that leaves the window fields alone: after [n >= 1]
    ticks braking is enabled exactly when it was enabled before the first
    tick or the accumulated ground time, the initial window time plus
    [n * DeltaTime * 1000] ms, has reached [BrakingWindow].  So braking
    starts at the first tick that reaches the window and stays on. *)
Theorem BrakingWindow_elapses (Super_TickComponent : R -> Movement -> Movement)
    (c : Config) (o : Owner) (dt : R) :
  IsSimulatingPhysics o = false ->
  0 <= dt ->
  (forall m,
      IsMovingOnGround (TickMode Super_TickComponent dt m) = true
      /\ bBrakingWindowElapsed (Super_TickComponent dt m)
         = bBrakingWindowElapsed m
      /\ BrakingWindowTimeElapsed (Super_TickComponent dt m)
         = BrakingWindowTimeElapsed m) ->
  forall n m,
    bBrakingWindowElapsed
      (TickComponents (S n) Super_TickComponent c o dt m) = true
    <-> (bBrakingWindowElapsed m = true
         \/ BrakingWindow c
            <= BrakingWindowTimeElapsed m + INR (S n) * (dt * 1000)).
Proof.
  intros Hphys Hdt HS.
  assert (Hstep : forall m,
            let m' := TickComponent Super_TickComponent c o dt m in
            (bBrakingWindowElapsed m = true -> bBrakingWindowElapsed m' = true)
            /\ (bBrakingWindowElapsed m = false ->
                (BrakingWindow c <= BrakingWindowTimeElapsed m + dt * 1000 ->
                 bBrakingWindowElapsed m' = true)
                /\ (BrakingWindowTimeElapsed m + dt * 1000 < BrakingWindow c ->
                    bBrakingWindowElapsed m' = false
                    /\ BrakingWindowTimeElapsed m'
                       = BrakingWindowTimeElapsed m + dt * 1000))).
  { intros m m'. subst m'.
    destruct (HS m) as (Hg & He & Ht).
    destruct (TickComponent_window Super_TickComponent c o dt m Hphys He Ht)
      as (-> & -> & He' & Ht').
    pose proof (UpdateBrakingWindow_ground c dt
                  (TickMode Super_TickComponent dt m) Hg Hdt) as H.
    simpl in H. rewrite He', Ht' in H. exact H. }
  induction n as [|n IH]; intros m.
  - simpl. replace (1 * (dt * 1000)) with (dt * 1000) by ring.
    destruct (Hstep m) as [Hon Hoff]. simpl in Hon, Hoff.
    destruct (bBrakingWindowElapsed m) eqn:He.
    + split; [now left | intros _; now apply Hon].
    + destruct (Hoff eq_refl) as [Hreach Hnot].
      destruct (Rle_dec (BrakingWindow c)
                  (BrakingWindowTimeElapsed m + dt * 1000)) as [Hle | Hgt].
      * split; [now right | intros _; now apply Hreach].
      * destruct Hnot as [Hf _]; [lra|]. rewrite Hf.
        split; [discriminate | intros [H | H]; [discriminate | lra]].
  - change (TickComponents (S (S n)) Super_TickComponent c o dt m)
      with (TickComponents (S n) Super_TickComponent c o dt
              (TickComponent Super_TickComponent c o dt m)).
    rewrite IH.
    destruct (Hstep m) as [Hon Hoff]. simpl in Hon, Hoff.
    assert (HS2 : INR (S (S n)) = INR (S n) + 1) by (rewrite (S_INR (S n)); ring).
    rewrite HS2.
    pose proof (pos_INR (S n)) as Hpos.
    assert (Hnn : 0 <= INR (S n) * (dt * 1000)) by nra.
    destruct (bBrakingWindowElapsed m) eqn:He.
    + split; [now left | intros _; left; now apply Hon].
    + destruct (Hoff eq_refl) as [Hreach Hnot].
      destruct (Rle_dec (BrakingWindow c)
                  (BrakingWindowTimeElapsed m + dt * 1000)) as [Hle | Hgt].
      * split; [intros _; right; nra | intros _; left; now apply Hreach].
      * destruct Hnot as [Hf Ht]; [lra|]. rewrite Hf, Ht.
        split; (intros [H | H]; [discriminate | right; lra]).
Qed.

Lemma BrakingWindow_elapses_witness :
  bBrakingWindowElapsed
    (TickComponents 1
       (fun _ m => SetMovementMode MOVE_Walking
                     (set_bHasDeferredMovementMode false m))
       StockConfig LocalOwner (1 / 60)
       (set_BrakingWindow false 0 StockMovement)) = true.
Proof.
  apply (BrakingWindow_elapses
           (fun _ m => SetMovementMode MOVE_Walking
                         (set_bHasDeferredMovementMode false m))
           StockConfig LocalOwner (1 / 60)).
  - reflexivity.
  - lra.
  - intros m. repeat split.
  - right. simpl. lra.
Defined.

(* ===================================================================== *)
(** ** Sliding along a surface *)

Lemma HandleSlopeBoosting_slide (c : Config) (m : Movement)
    (SlideResult Delta : FVector) (t : R) (N : FVector) (Hit : FHitResult) :
  bOnLadder m = false -> bCheatFlying m = false ->
  bConstrainToPlane c = false ->
  HandleSlopeBoosting c m SlideResult Delta t N Hit
  = (Delta
     -v (SlopeNormal N Hit *v (Delta |v SlopeNormal N Hit))
        *v BounceCoefficient c m) *v t.
Proof.
  intros Hl Hf Hp. unfold HandleSlopeBoosting, ProjectOnToNormal.
  rewrite Hl, Hf, Hp. reflexivity.
Qed.

(** X12 ([HandleSlopeBoosting]).  Outside ladders and no-clip, without a
    plane constraint and against a unit slope normal [n]: the engine's
    slide result is ignored; the tangential part of the result is the
    tangential part of the move, scaled by the time; its normal part is
    (1 - BounceCoefficient) times that of the move, so it vanishes when the
    surface friction is 1 or the bounce multiplier 0; and for a move into
    the surface, with friction at most 1 and a bounce multiplier that is
    not negative, the result never points into the surface. *)
Theorem HandleSlopeBoosting_tangent (c : Config) (m : Movement)
    (SlideResult Delta : FVector) (t : R) (N : FVector) (Hit : FHitResult) :
  bOnLadder m = false -> bCheatFlying m = false ->
  bConstrainToPlane c = false ->
  SizeSquared (SlopeNormal N Hit) = 1 ->
  let n := SlopeNormal N Hit in
  let Out := HandleSlopeBoosting c m SlideResult Delta t N Hit in
  (forall SlideResult',
      HandleSlopeBoosting c m SlideResult' Delta t N Hit = Out)
  /\ Out |v n = (1 - BounceCoefficient c m) * (Delta |v n) * t
  /\ Out -v n *v (Out |v n) = (Delta -v n *v (Delta |v n)) *v t
  /\ (SurfaceFriction m = 1 \/ BounceMultiplier c = 0 -> Out |v n = 0)
  /\ (0 <= t -> 0 <= BounceMultiplier c -> SurfaceFriction m <= 1 ->
      Delta |v n <= 0 -> 0 <= Out |v n).
Proof.
  intros Hl Hf Hp Hunit n Out.
  assert (HOut : Out = (Delta -v (n *v (Delta |v n))
                                 *v BounceCoefficient c m) *v t)
    by (apply HandleSlopeBoosting_slide; assumption).
  assert (Hdot : Out |v n = (1 - BounceCoefficient c m) * (Delta |v n) * t).
  { rewrite HOut. unfold dot; simpl.
    unfold SizeSquared in Hunit. fold n in Hunit.
    transitivity
      ((X Delta * X n + Y Delta * Y n + Z Delta * Z n) * t
       * (1 - BounceCoefficient c m * (X n * X n + Y n * Y n + Z n * Z n)));
      [ring | rewrite Hunit; ring]. }
  split; [|split; [exact Hdot | split; [|split]]].
  - intros S'. rewrite HOut. apply HandleSlopeBoosting_slide; assumption.
  - rewrite Hdot. rewrite HOut. apply vec_eq; unfold dot; simpl; ring.
  - intros Hone. rewrite Hdot. unfold BounceCoefficient.
    destruct Hone as [-> | ->]; ring.
  - intros Ht Hb Hs Hin. rewrite Hdot.
    assert (HBC : 1 - BounceCoefficient c m <= 0)
      by (unfold BounceCoefficient; nra).
    assert (0 <= (1 - BounceCoefficient c m) * (Delta |v n)) by nra.
    nra.
Qed.

Lemma HandleSlopeBoosting_tangent_witness :
  HandleSlopeBoosting StockConfig FallingMovement ZeroVector
    (mkVec 10 0 (- 5)) 1 (Normal SlopeHit) SlopeHit
  |v SlopeNormal (Normal SlopeHit) SlopeHit = 0.
Proof.
  destruct (HandleSlopeBoosting_tangent StockConfig FallingMovement ZeroVector
              (mkVec 10 0 (- 5)) 1 (Normal SlopeHit) SlopeHit)
    as (_ & _ & _ & H & _).
  - reflexivity.
  - reflexivity.
  - reflexivity.
  - unfold SlopeNormal, SizeSquared,
      PlayerMovementConstants.VerticalSlopeNormalZ.
    rcompute. lra.
  - apply H. left. reflexivity.
Defined.

Lemma SlopeNormal_same (Hit : FHitResult) :
  SlopeNormal (ImpactNormal Hit) Hit = ImpactNormal Hit.
Proof. unfold SlopeNormal. now destruct (_ || _). Qed.

(** X13 ([MoveUpdatedComponentImpl]).  The delta handed to the base class
    differs from the requested one only for a sweeping, non-teleporting,
    rising move of a falling character with lateral motion whose look-ahead
    trace hit a nearly vertical surface.  In that case, outside ladders and
    no-clip, without a plane constraint and for a unit impact normal, the
    new delta keeps the tangential part of the move, carries
    (1 - BounceCoefficient) of its normal part, and its Z differs from the
    requested Z by at most a thousandth of the normal part. *)
Theorem MoveUpdatedComponentImpl_deflects
    (LineTraceSingle : FVector -> FVector -> FHitResult)
    (c : Config) (o : Owner) (m : Movement) (ComponentLocation : FVector)
    (Delta : FVector) (bSweep bTeleportNone : bool) :
  let NewDelta :=
    MoveUpdatedComponentImpl_NewDelta LineTraceSingle c o m ComponentLocation
      Delta bSweep bTeleportNone in
  let LineTraceStart :=
    mkVec (X ComponentLocation) (Y ComponentLocation)
      (Z ComponentLocation + (- PawnHalfHeight o + MAX_FLOOR_DIST + Z Delta)) in
  let Hit :=
    LineTraceSingle LineTraceStart
      (LineTraceStart
       +v GetSafeNormal2D Delta *v (PawnRadius o + SWEEP_EDGE_REJECT_DISTANCE)) in
  let n := ImpactNormal Hit in
  (NewDelta <> Delta ->
   bSweep = true /\ bTeleportNone = true /\ IsFalling m = true
   /\ 0 < Z Delta /\ FMath.KINDA_SMALL_NUMBER < SizeSquared2D Delta
   /\ bBlockingHit Hit = true /\ Rabs (Z n) <= / 1000
   /\ NewDelta = ComputeSlideVector c m Delta 1 n Hit)
  /\ (bSweep = true -> bTeleportNone = true -> IsFalling m = true ->
      0 < Z Delta -> FMath.KINDA_SMALL_NUMBER < SizeSquared2D Delta ->
      bBlockingHit Hit = true -> Rabs (Z n) <= / 1000 ->
      bOnLadder m = false -> bCheatFlying m = false ->
      bConstrainToPlane c = false -> SizeSquared n = 1 ->
      NewDelta |v n = (1 - BounceCoefficient c m) * (Delta |v n)
      /\ NewDelta -v n *v (NewDelta |v n) = Delta -v n *v (Delta |v n)
      /\ Rabs (Z NewDelta - Z Delta)
         <= / 1000 * Rabs (BounceCoefficient c m * (Delta |v n))).
Proof.
  intros NewDelta LineTraceStart Hit n.
  assert (Habs : FMath.Abs (Z n)
                 <= PlayerMovementConstants.VerticalSlopeNormalZ
                 <-> Rabs (Z n) <= / 1000).
  { rewrite Abs_Rabs.
    unfold PlayerMovementConstants.VerticalSlopeNormalZ. tauto. }
  split.
  - intros Hne. subst NewDelta.
    unfold MoveUpdatedComponentImpl_NewDelta in *.
    fold LineTraceStart in Hne |- *. fold Hit in Hne |- *. fold n in Hne |- *.
    destruct bSweep; [|now elim Hne].
    destruct bTeleportNone; [|now elim Hne]. simpl in Hne |- *.
    destruct (negb _); [|now elim Hne].
    destruct (IsFalling m); [|now elim Hne]. simpl in Hne |- *.
    destruct (Rltb 0 (Z Delta)) eqn:Hz; [|now elim Hne].
    destruct (Rlt_dec _ _) as [Hh | Hh]; [|now elim Hne].
    destruct (bBlockingHit Hit); [|now elim Hne]. simpl in Hne |- *.
    destruct (Rleb _ _) eqn:Hv; [|now elim Hne].
    rbool. repeat split; try assumption.
    now apply Habs.
  - intros -> -> Hfall Hz Hh Hblock Hv Hl Hf Hp Hunit.
    assert (HN : NewDelta = ComputeSlideVector c m Delta 1 n Hit).
    { subst NewDelta. unfold MoveUpdatedComponentImpl_NewDelta.
      fold LineTraceStart. fold Hit. fold n.
      rewrite Hfall. apply Rltb_true_iff in Hz. rewrite Hz.
      assert (Hnz : negb (Reqb (X Delta) 0 && Reqb (Y Delta) 0
                          && Reqb (Z Delta) 0) = true).
      { apply negb_true_iff. apply andb_false_iff. right.
        apply Reqb_false_iff. apply Rltb_true_iff in Hz. lra. }
      rewrite Hnz. simpl.
      destruct (Rlt_dec _ _); [|contradiction].
      rewrite Hblock. apply Habs, Rleb_true_iff in Hv. rewrite Hv.
      reflexivity. }
    assert (HS : NewDelta
                 = (Delta -v (n *v (Delta |v n)) *v BounceCoefficient c m)
                   *v 1).
    { rewrite HN. unfold ComputeSlideVector. rewrite Hfall.
      rewrite HandleSlopeBoosting_slide by assumption.
      unfold n. rewrite SlopeNormal_same. reflexivity. }
    assert (Hdot : NewDelta |v n
                   = (1 - BounceCoefficient c m) * (Delta |v n)).
    { rewrite HS. unfold dot; simpl. unfold SizeSquared in Hunit.
      transitivity
        ((X Delta * X n + Y Delta * Y n + Z Delta * Z n)
         * (1 - BounceCoefficient c m * (X n * X n + Y n * Y n + Z n * Z n)));
        [ring | rewrite Hunit; ring]. }
    split; [exact Hdot|]. split.
    + rewrite Hdot. rewrite HS. apply vec_eq; unfold dot; simpl; ring.
    + rewrite HS. simpl.
      replace ((Z Delta - Z n * (Delta |v n) * BounceCoefficient c m) * 1
               - Z Delta)
        with (- Z n * (BounceCoefficient c m * (Delta |v n))) by ring.
      rewrite Rabs_mult, Rabs_Ropp.
      apply Rmult_le_compat_r; [apply Rabs_pos | exact Hv].
Qed.

(* ===================================================================== *)
(** ** Landing spots *)

(** X14 ([IsValidLandingSpot]).  A hit that is accepted as a landing spot
    is a blocking hit whose floor query found a walkable floor; when the
    hit did not start in penetration its impact normal passes the walkable
    test ([IsWalkable]: Z at least 1e-4 and at least the walkable floor Z
    as modified by the surface override) and the impact point lies within
    the edge tolerance of the capsule; when it did, the hit normal has Z of
    at least 1e-4; and a character moving into a sloped hit normal is not
    deflected upwards faster than the jump velocity. *)
Theorem IsValidLandingSpot_sound (FindFloorWalkable : FloorQuery)
    (c : Config) (o : Owner) (m : Movement)
    (CapsuleLocation : FVector) (Hit : FHitResult) :
  IsValidLandingSpot FindFloorWalkable c o m CapsuleLocation Hit = true ->
  bBlockingHit Hit = true
  /\ FindFloorWalkable CapsuleLocation Hit = true
  /\ (bStartPenetrating Hit = false ->
      IsWalkable m Hit = true
      /\ FMath.KINDA_SMALL_NUMBER <= Z (ImpactNormal Hit)
      /\ ModifyWalkableFloorZ Hit (WalkableFloorZ m) <= Z (ImpactNormal Hit)
      /\ IsWithinEdgeTolerance (Location Hit) (ImpactPoint Hit) (PawnRadius o)
         = true
      /\ (bUseFlatBaseForFloorChecks c = false ->
          Z (ImpactPoint Hit)
          < Z (Location Hit) - PawnHalfHeight o + PawnRadius o))
  /\ (bStartPenetrating Hit = true ->
      FMath.KINDA_SMALL_NUMBER <= Z (Normal Hit))
  /\ (Z (Normal Hit) < 1 -> Velocity m |v Normal Hit < 0 ->
      Z (ComputeSlideVector c m
           (mkVec (X (Velocity m)) (Y (Velocity m))
              (Z (Velocity m) + 1 / 2 * GravityZ c * DeltaSeconds o))
           1 (Normal Hit) Hit)
      <= PlayerMovementConstants.JumpVelocity).
Proof.
  unfold IsValidLandingSpot. intros H.
  destruct (bBlockingHit Hit) eqn:Hb; [|discriminate]. simpl in H.
  split; [reflexivity|].
  destruct (bStartPenetrating Hit) eqn:Hpen; simpl in H.
  - destruct (Rltb (Z (Normal Hit)) FMath.KINDA_SMALL_NUMBER) eqn:Hn;
      [discriminate|].
    destruct (FindFloorWalkable CapsuleLocation Hit); [|discriminate].
    simpl in H. split; [reflexivity|].
    split; [discriminate|]. split; [intros _; rbool; lra|].
    intros Hz Hv.
    apply Rltb_true_iff in Hz, Hv. rewrite Hz, Hv in H. simpl in H.
    rbool. lra.
  - destruct (IsWalkable m Hit) eqn:Hw; [|discriminate]. simpl in H.
    assert (Hwalk : FMath.KINDA_SMALL_NUMBER <= Z (ImpactNormal Hit)
                    /\ ModifyWalkableFloorZ Hit (WalkableFloorZ m)
                       <= Z (ImpactNormal Hit)).
    { unfold IsWalkable in Hw. rewrite Hb, Hpen in Hw. simpl in Hw.
      destruct (Rltb (Z (ImpactNormal Hit)) FMath.KINDA_SMALL_NUMBER) eqn:H1;
        [discriminate|].
      rbool. lra. }
    destruct (bUseFlatBaseForFloorChecks c) eqn:Hflat.
    + destruct (_ && _); [discriminate|].
      destruct (IsWithinEdgeTolerance _ _ _) eqn:He; [|discriminate].
      simpl in H.
      destruct (FindFloorWalkable CapsuleLocation Hit); [|discriminate].
      simpl in H. split; [reflexivity|].
      split; [intros _; repeat split; try apply Hwalk; discriminate|].
      split; [discriminate|].
      intros Hz Hv.
      apply Rltb_true_iff in Hz, Hv. rewrite Hz, Hv in H. simpl in H.
      rbool. lra.
    + destruct (Rleb _ (Z (ImpactPoint Hit))) eqn:Habove; [discriminate|].
      destruct (IsWithinEdgeTolerance _ _ _) eqn:He; [|discriminate].
      simpl in H.
      destruct (FindFloorWalkable CapsuleLocation Hit); [|discriminate].
      simpl in H. split; [reflexivity|].
      split; [intros _; repeat split; try apply Hwalk; rbool; lra|].
      split; [discriminate|].
      intros Hz Hv.
      apply Rltb_true_iff in Hz, Hv. rewrite Hz, Hv in H. simpl in H.
      rbool. lra.
Qed.

Lemma SlopeHit_is_landing_spot :
  IsValidLandingSpot (fun _ _ => true) StockConfig LocalOwner
    (set_Velocity (mkVec 0 0 (- 100)) FallingMovement) ZeroVector SlopeHit
  = true.
Proof.
  destruct (SlopeHit_passes_static_checks
              (set_Velocity (mkVec 0 0 (- 100)) FallingMovement) eq_refl)
    as [Hwalk Hedge].
  unfold IsValidLandingSpot. rewrite Hwalk, Hedge. simpl.
  unfold Rltb, Reqb, Rleb, dot, ComputeSlideVector, HandleSlopeBoosting,
    SlopeNormal, BounceCoefficient, ProjectOnToNormal,
    Base_ComputeSlideVector, VectorPlaneProject, FMath.Abs,
    PlayerMovementConstants.VerticalSlopeNormalZ,
    PlayerMovementConstants.JumpVelocity,
    PlayerMovementConstants.DesiredGravity, MAX_FLOOR_DIST,
    vsub, vscale.
  rcompute; reflexivity.
Qed.

Lemma IsValidLandingSpot_sound_witness :
  IsWalkable (set_Velocity (mkVec 0 0 (- 100)) FallingMovement) SlopeHit
  = true.
Proof.
  destruct (IsValidLandingSpot_sound (fun _ _ => true) StockConfig LocalOwner
              (set_Velocity (mkVec 0 0 (- 100)) FallingMovement) ZeroVector
              SlopeHit SlopeHit_is_landing_spot) as (_ & _ & H & _).
  apply H. reflexivity.
Defined.

(* ===================================================================== *)
(** ** Crouch transitions *)

Lemma Max3_id (a r : R) : 0 <= r -> r <= a -> FMath.Max3 0 r a = a.
Proof. intros. unfold FMath.Max3, FMath.Max. rdec; lra. Qed.

Lemma Max3_id' (a r : R) : 0 <= r -> r <= a -> FMath.Max3 0 a r = a.
Proof. intros. unfold FMath.Max3, FMath.Max. rdec; lra. Qed.

Lemma Max_0_id (r : R) : 0 <= r -> FMath.Max 0 r = r.
Proof. intros. unfold FMath.Max. rdec; lra. Qed.

Lemma nearly_done_iff (a : R) :
  Rleb 1 a || FMath.IsNearlyEqual a 1 = true <-> 1 - FMath.SMALL_NUMBER <= a.
Proof.
  unfold FMath.IsNearlyEqual, FMath.Abs, FMath.SMALL_NUMBER.
  rewrite orb_true_iff, !Rleb_true_iff.
  destruct (Rlt_dec (a - 1) 0); lra.
Qed.

Section CrouchStep.

Variables (e : CrouchEnv) (i : CrouchInput).
Hypothesis Hvalid : crouchHasValidData e = true.
Hypothesis Hcan : CanCrouchInCurrentState i = true.
Hypothesis Hproxy : forall s, AdjustProxyCapsuleSize e s = s.
Hypothesis Hnet : crouchListenServerAutonomous i = false.
Hypothesis Hheights : CrouchedHalfHeight e < DefaultCapsuleHalfHeight e.
Hypothesis HCT : 0 < CrouchTime i.
Hypothesis Hsweep :
  forall st d, SweepComponent i st d = ComponentLocation st +v d.

Let Full := DefaultCapsuleHalfHeight e - CrouchedHalfHeight e.

Lemma DoCrouchResize_step (T dt : R) (s : CrouchState) :
  0 <= dt ->
  0 <= CapsuleRadius s <= CrouchedHalfHeight e ->
  CrouchedHalfHeight e <= CapsuleHalfHeight s <= DefaultCapsuleHalfHeight e ->
  let s' := fst (DoCrouchResize e i T dt false s) in
  let TargetAlpha :=
    1 - (CapsuleHalfHeight s - CrouchedHalfHeight e) / Full
    + dt / CrouchTime i in
  CapsuleRadius s' = CapsuleRadius s
  /\ X (ComponentLocation s') = X (ComponentLocation s)
  /\ Y (ComponentLocation s') = Y (ComponentLocation s)
  /\ Z (ComponentLocation s')
     = Z (ComponentLocation s)
       + (if bCrouchMaintainsBaseLocation e then - 1 else 1)
         * ((CapsuleHalfHeight s - CapsuleHalfHeight s') * ShapeScale e)
  /\ (FMath.IsNearlyEqual (CapsuleHalfHeight s) (CrouchedHalfHeight e) = true ->
      CapsuleHalfHeight s' = CapsuleHalfHeight s
      /\ bIsCrouched s' = true /\ bIsInCrouchTransition s' = false
      /\ ComponentLocation s' = ComponentLocation s)
  /\ (FMath.IsNearlyEqual (CapsuleHalfHeight s) (CrouchedHalfHeight e) = false ->
      FMath.IsNearlyZero T = true \/ 1 - FMath.SMALL_NUMBER <= TargetAlpha ->
      CapsuleHalfHeight s' = CrouchedHalfHeight e
      /\ bIsCrouched s' = true /\ bIsInCrouchTransition s' = false)
  /\ (FMath.IsNearlyEqual (CapsuleHalfHeight s) (CrouchedHalfHeight e) = false ->
      FMath.IsNearlyZero T = false -> TargetAlpha < 1 - FMath.SMALL_NUMBER ->
      CapsuleHalfHeight s' = CapsuleHalfHeight s - Full * (dt / CrouchTime i)
      /\ bIsCrouched s' = bIsCrouched s
      /\ bIsInCrouchTransition s' = bIsInCrouchTransition s).
Proof.
  intros Hdt Hr Hh s' TA.
  assert (HF : 0 < Full) by (unfold Full; lra).
  subst s'. unfold DoCrouchResize. rewrite Hvalid, Hcan. simpl.
  destruct (FMath.IsNearlyEqual (CapsuleHalfHeight s) (CrouchedHalfHeight e))
    eqn:Hnear.
  - simpl. repeat split; intros; try discriminate; try reflexivity.
    destruct (bCrouchMaintainsBaseLocation e); ring.
  - fold Full. rewrite Hnet. simpl (false && _). cbv iota.
    assert (HCA : Full * (1 - (CapsuleHalfHeight s - CrouchedHalfHeight e) / Full)
                  = DefaultCapsuleHalfHeight e - CapsuleHalfHeight s)
      by (unfold Full; field; unfold Full in HF; lra).
    destruct (FMath.IsNearlyZero T) eqn:Hinst; simpl negb; cbv iota.
    + assert (Hone : Rleb 1 1 || FMath.IsNearlyEqual 1 1 = true)
        by (apply nearly_done_iff; unfold FMath.SMALL_NUMBER; lra).
      rewrite Hone. rewrite !Hproxy, !Hsweep.
      replace (DefaultCapsuleHalfHeight e - Full * 1)
        with (CrouchedHalfHeight e) by (unfold Full; ring).
      rewrite (Max3_id (CrouchedHalfHeight e) (CapsuleRadius s)) by lra.
      destruct (bCrouchMaintainsBaseLocation e); simpl;
        rewrite (Max_0_id (CapsuleRadius s)) by lra;
        rewrite (Max3_id' (CrouchedHalfHeight e) (CapsuleRadius s)) by lra;
        repeat split; intros; try discriminate; try reflexivity;
        try ring; field; lra.
    + fold TA.
      destruct (Rleb 1 TA || FMath.IsNearlyEqual TA 1) eqn:Hdone.
      * rewrite !Hproxy, !Hsweep.
        replace (DefaultCapsuleHalfHeight e - Full * 1)
          with (CrouchedHalfHeight e) by (unfold Full; ring).
        rewrite (Max3_id (CrouchedHalfHeight e) (CapsuleRadius s)) by lra.
        apply nearly_done_iff in Hdone.
        destruct (bCrouchMaintainsBaseLocation e); simpl;
          rewrite (Max_0_id (CapsuleRadius s)) by lra;
          rewrite (Max3_id' (CrouchedHalfHeight e) (CapsuleRadius s)) by lra;
          repeat split; intros; try discriminate; try reflexivity;
          try ring; try lra; field; lra.
      * rewrite !Hproxy, !Hsweep.
        assert (Hlt : TA < 1 - FMath.SMALL_NUMBER).
        { destruct (Rlt_dec TA (1 - FMath.SMALL_NUMBER)) as [H | H];
            [exact H|].
          assert (Hd : Rleb 1 TA || FMath.IsNearlyEqual TA 1 = true)
            by (apply nearly_done_iff; lra).
          congruence. }
        assert (Htarget : DefaultCapsuleHalfHeight e - Full * TA
                          = CapsuleHalfHeight s - Full * (dt / CrouchTime i)).
        { unfold TA. rewrite Rmult_plus_distr_l, HCA. ring. }
        rewrite Htarget.
        assert (Hge : CrouchedHalfHeight e
                      <= CapsuleHalfHeight s - Full * (dt / CrouchTime i)).
        { rewrite <- Htarget. unfold FMath.SMALL_NUMBER in Hlt.
          unfold Full at 1. nra. }
        rewrite (Max3_id _ (CapsuleRadius s)) by lra.
        destruct (bCrouchMaintainsBaseLocation e); simpl;
          rewrite (Max_0_id (CapsuleRadius s)) by lra;
          rewrite (Max3_id' _ (CapsuleRadius s)) by lra;
          repeat split; intros; try discriminate; try reflexivity;
          try ring; unfold FMath.SMALL_NUMBER in *; lra.
Qed.

End CrouchStep.

Section UncrouchStep.

Variable e : CrouchEnv.
Hypothesis Hvalid : crouchHasValidData e = true.
Hypothesis Hproxy : forall s, AdjustProxyCapsuleSize e s = s.
Hypothesis Hfree : forall loc shape, OverlapBlockingTest e loc shape = false.
Hypothesis Hheights : CrouchedHalfHeight e < DefaultCapsuleHalfHeight e.
Hypothesis Hradius : 0 <= DefaultCapsuleRadius e <= CrouchedHalfHeight e.
Hypothesis Hscale : 0 <= ShapeScale e.

Let Full := DefaultCapsuleHalfHeight e - CrouchedHalfHeight e.

Lemma UncrouchProbe_free (adj : R) (s : CrouchState) :
  UncrouchProbe e adj s
  = (false,
     if bCrouchMaintainsBaseLocation e then
       set_bForceNextFloorCheck true
         (MoveComponent
            (StandingLocationFor e s
               (GetPawnCapsuleCollisionShape e s (- SweepInflation - adj))
             -v ComponentLocation s) s)
     else s).
Proof.
  unfold UncrouchProbe. rewrite !Hfree.
  destruct (bCrouchMaintainsBaseLocation e); reflexivity.
Qed.

Lemma DoUnCrouchResize_step (T dt : R) (s : CrouchState) :
  0 <= dt ->
  FMath.IsNearlyZero T = true \/ 0 < T ->
  CrouchedHalfHeight e <= CapsuleHalfHeight s <= DefaultCapsuleHalfHeight e ->
  FMath.IsNearlyEqual (CapsuleHalfHeight s) (DefaultCapsuleHalfHeight e)
  = false ->
  let s' := DoUnCrouchResize e T dt false s in
  let TargetAlpha := UncrouchCurrentAlpha e s + dt / T in
  CapsuleRadius s' = DefaultCapsuleRadius e
  /\ bIsCrouched s' = false
  /\ X (ComponentLocation s') = X (ComponentLocation s)
  /\ Y (ComponentLocation s') = Y (ComponentLocation s)
  /\ Z (ComponentLocation s')
     = Z (ComponentLocation s)
       + (if bCrouchMaintainsBaseLocation e
          then (CapsuleHalfHeight s' - CapsuleHalfHeight s) * ShapeScale e
               + SweepInflation
          else 0)
  /\ (FMath.IsNearlyZero T = true \/ 1 - FMath.SMALL_NUMBER <= TargetAlpha ->
      CapsuleHalfHeight s' = DefaultCapsuleHalfHeight e
      /\ bIsInCrouchTransition s' = false)
  /\ (FMath.IsNearlyZero T = false -> TargetAlpha < 1 - FMath.SMALL_NUMBER ->
      CapsuleHalfHeight s' = CapsuleHalfHeight s + Full * (dt / T)
      /\ bIsInCrouchTransition s' = bIsInCrouchTransition s).
Proof.
  intros Hdt HT Hh Hnear s' TA.
  assert (HF : 0 < Full) by (unfold Full; lra).
  assert (HSI : 0 < SweepInflation)
    by (unfold SweepInflation, FMath.KINDA_SMALL_NUMBER; lra).
  assert (HCA : Full * (1 - UncrouchCurrentAlpha e s)
                = DefaultCapsuleHalfHeight e - CapsuleHalfHeight s).
  { unfold UncrouchCurrentAlpha. fold Full. field. lra. }
  assert (Hshape : forall adj, 0 <= adj ->
            FMath.Max (CapsuleHalfHeight s * ShapeScale e
                       - (- SweepInflation - adj * ShapeScale e))
              (FMath.KINDA_SMALL_NUMBER * 10)
            = CapsuleHalfHeight s * ShapeScale e + SweepInflation
              + adj * ShapeScale e).
  { intros adj Hadj. unfold FMath.Max.
    assert (0 <= CapsuleHalfHeight s * ShapeScale e) by (apply Rmult_le_pos; lra).
    assert (0 <= adj * ShapeScale e) by (apply Rmult_le_pos; lra).
    fold SweepInflation. rdec; lra. }
  subst s'. unfold DoUnCrouchResize. rewrite Hvalid, Hnear. simpl negb.
  cbv iota.
  unfold RelaxedProbeBlocked. rewrite Hfree. rewrite andb_false_r.
  fold Full.
  destruct (FMath.IsNearlyZero T) eqn:Hinst; simpl negb; cbv iota.
  - assert (Hone : Rleb 1 1 || FMath.IsNearlyEqual 1 1 = true)
      by (apply nearly_done_iff; unfold FMath.SMALL_NUMBER; lra).
    rewrite Hone. rewrite UncrouchProbe_free. rewrite !Hproxy.
    rewrite HCA.
    replace (CapsuleHalfHeight s
             + (DefaultCapsuleHalfHeight e - CapsuleHalfHeight s))
      with (DefaultCapsuleHalfHeight e) by ring.
    unfold StandingLocationFor, GetPawnCapsuleCollisionShape.
    cbn [ShapeHalfHeight CapsuleHalfHeight set_bIsInCrouchTransition].
    rewrite (Hshape (DefaultCapsuleHalfHeight e - CapsuleHalfHeight s))
      by lra.
    destruct (bSmoothMeshOffset e);
      destruct (bCrouchMaintainsBaseLocation e); simpl;
      rewrite ?(Max_0_id (DefaultCapsuleRadius e)) by lra;
      rewrite ?(Max3_id' (DefaultCapsuleHalfHeight e) (DefaultCapsuleRadius e))
        by lra;
      repeat split; intros; try discriminate; try reflexivity;
      try ring; try lra.
  - assert (HTpos : 0 < T) by (destruct HT as [HT | HT]; [discriminate | exact HT]).
    assert (Hd : 0 <= dt / T)
      by (apply Rmult_le_pos; [lra | apply Rlt_le, Rinv_0_lt_compat; lra]).
    fold TA.
    destruct (Rleb 1 TA || FMath.IsNearlyEqual TA 1) eqn:Hdone.
    + rewrite UncrouchProbe_free. rewrite !Hproxy. rewrite HCA.
      replace (CapsuleHalfHeight s
               + (DefaultCapsuleHalfHeight e - CapsuleHalfHeight s))
        with (DefaultCapsuleHalfHeight e) by ring.
      unfold StandingLocationFor, GetPawnCapsuleCollisionShape.
      cbn [ShapeHalfHeight CapsuleHalfHeight set_bIsInCrouchTransition].
      rewrite (Hshape (DefaultCapsuleHalfHeight e - CapsuleHalfHeight s))
        by lra.
      apply nearly_done_iff in Hdone.
      destruct (bSmoothMeshOffset e);
        destruct (bCrouchMaintainsBaseLocation e); simpl;
        rewrite ?(Max_0_id (DefaultCapsuleRadius e)) by lra;
        rewrite ?(Max3_id' (DefaultCapsuleHalfHeight e)
                    (DefaultCapsuleRadius e)) by lra;
        repeat split; intros; try discriminate; try reflexivity;
        try ring; try lra.
    + assert (Hlt : TA < 1 - FMath.SMALL_NUMBER).
      { destruct (Rlt_dec TA (1 - FMath.SMALL_NUMBER)) as [H | H];
          [exact H|].
        assert (Hd' : Rleb 1 TA || FMath.IsNearlyEqual TA 1 = true)
          by (apply nearly_done_iff; lra).
        congruence. }
      assert (Hadj : 0 <= Full * (dt / T)) by (apply Rmult_le_pos; lra).
      assert (Hle : CapsuleHalfHeight s + Full * (dt / T)
                    <= DefaultCapsuleHalfHeight e).
      { unfold TA in Hlt. unfold FMath.SMALL_NUMBER in Hlt.
        assert (Full * (UncrouchCurrentAlpha e s + dt / T) <= Full * 1)
          by (apply Rmult_le_compat_l; lra).
        rewrite Rmult_plus_distr_l in H.
        assert (Full * UncrouchCurrentAlpha e s
                = Full - (DefaultCapsuleHalfHeight e - CapsuleHalfHeight s))
          by (rewrite <- HCA; ring).
        unfold Full in *. lra. }
      rewrite UncrouchProbe_free. rewrite !Hproxy.
      unfold StandingLocationFor, GetPawnCapsuleCollisionShape.
      cbn [ShapeHalfHeight CapsuleHalfHeight set_bIsInCrouchTransition].
      rewrite (Hshape (Full * (dt / T))) by lra.
      destruct (bSmoothMeshOffset e);
        destruct (bCrouchMaintainsBaseLocation e); simpl;
        rewrite ?(Max_0_id (DefaultCapsuleRadius e)) by lra;
        rewrite ?(Max3_id' (CapsuleHalfHeight s + Full * (dt / T))
                    (DefaultCapsuleRadius e)) by lra;
        repeat split; intros; try discriminate; try reflexivity;
        try ring; unfold FMath.SMALL_NUMBER in *; try lra.
Qed.

End UncrouchStep.

Lemma UpdateCrouchingTicks_idle (e : CrouchEnv) (i : CrouchInput) (dt : R)
    (b : bool) (s : CrouchState) (k : nat) :
  bIsInCrouchTransition s = false ->
  UpdateCrouchingTicks k e i dt b s = s.
Proof.
  intros Hidle. induction k as [|k IH]; [reflexivity|]. simpl.
  unfold UpdateCrouching at 1. rewrite Hidle. simpl.
  rewrite orb_true_r. destruct (crouchSimulatedProxy i); exact IH.
Qed.

Lemma UpdateCrouchingTicks_plus (e : CrouchEnv) (i : CrouchInput) (dt : R)
    (b : bool) (n k : nat) :
  forall s,
    UpdateCrouchingTicks (n + k) e i dt b s
    = UpdateCrouchingTicks k e i dt b (UpdateCrouchingTicks n e i dt b s).
Proof.
  induction n as [|n IH]; intros s; [reflexivity|]. simpl. apply IH.
Qed.

Lemma nearly_equal_bound (a b : R) :
  FMath.IsNearlyEqual a b = true -> Rabs (a - b) <= FMath.SMALL_NUMBER.
Proof.
  unfold FMath.IsNearlyEqual. rewrite Rleb_true_iff, Abs_Rabs. tauto.
Qed.

Section CrouchCompletes.

Variables (e : CrouchEnv) (i : CrouchInput) (dt : R).
Hypothesis Hvalid : crouchHasValidData e = true.
Hypothesis Hcan : CanCrouchInCurrentState i = true.
Hypothesis Hproxy : forall s, AdjustProxyCapsuleSize e s = s.
Hypothesis Hnet : crouchListenServerAutonomous i = false.
Hypothesis Hheights : CrouchedHalfHeight e < DefaultCapsuleHalfHeight e.
Hypothesis HCT : 0 < CrouchTime i.
Hypothesis Hsweep :
  forall st d, SweepComponent i st d = ComponentLocation st +v d.
Hypothesis Hlocal : crouchSimulatedProxy i = false.
Hypothesis Hfly : crouchCheatFlying i = false.
Hypothesis Hwant : bWantsToCrouch i = true.
Hypothesis Hladder : crouchOnLadder i = false.
Hypothesis Hdt : 0 < dt.

Let Full := DefaultCapsuleHalfHeight e - CrouchedHalfHeight e.
Let delta := Full * (dt / CrouchTime i).

Let Done (s : CrouchState) : Prop :=
  bIsCrouched s = true /\ bIsInCrouchTransition s = false
  /\ Rabs (CapsuleHalfHeight s - CrouchedHalfHeight e) <= FMath.SMALL_NUMBER.

Lemma UpdateCrouching_crouches (s : CrouchState) :
  bIsInCrouchTransition s = true ->
  fst (UpdateCrouching e i dt false s)
  = fst (DoCrouchResize e i
           (if crouchIsWalking i then CrouchTime i else CrouchJumpTime i)
           dt false s).
Proof.
  intros Htr. unfold UpdateCrouching.
  rewrite Hlocal, Hfly, Htr, Hwant, Hladder. reflexivity.
Qed.

Lemma Crouch_completes_steps (N : nat) :
  forall s,
    bIsInCrouchTransition s = true ->
    0 <= CapsuleRadius s <= CrouchedHalfHeight e ->
    CrouchedHalfHeight e <= CapsuleHalfHeight s ->
    CapsuleHalfHeight s - CrouchedHalfHeight e <= INR (S N) * delta ->
    CapsuleHalfHeight s <= DefaultCapsuleHalfHeight e ->
    exists n,
      (1 <= n <= S N)%nat
      /\ Done (UpdateCrouchingTicks n e i dt false s).
Proof.
  assert (HF : 0 < Full) by (unfold Full; lra).
  assert (Hd : 0 < dt / CrouchTime i)
    by (apply Rmult_lt_0_compat; [lra | apply Rinv_0_lt_compat; lra]).
  assert (Hdelta : 0 < delta) by (unfold delta; nra).
  induction N as [|N IH]; intros s Htr Hr Hlo Hmeasure Hhi.
  - exists 1%nat. split; [lia|]. simpl.
    rewrite UpdateCrouching_crouches by exact Htr.
    set (T := if crouchIsWalking i then CrouchTime i else CrouchJumpTime i).
    destruct (DoCrouchResize_step e i Hvalid Hcan Hproxy Hnet Hheights
                Hsweep T dt s (Rlt_le _ _ Hdt) Hr (conj Hlo Hhi))
      as (_ & _ & _ & _ & Hnear & Hfull & _).
    destruct (FMath.IsNearlyEqual (CapsuleHalfHeight s) (CrouchedHalfHeight e))
      eqn:Hn.
    + destruct (Hnear eq_refl) as (Hh & Hc & Ht & _).
      repeat split; try assumption. rewrite Hh.
      now apply nearly_equal_bound.
    + destruct (Hfull eq_refl) as (Hh & Hc & Ht).
      { right. fold Full. simpl in Hmeasure. unfold delta in Hmeasure.
        assert (Hq : (CapsuleHalfHeight s - CrouchedHalfHeight e) / Full
                     <= dt / CrouchTime i).
        { apply (Rmult_le_reg_l Full); [exact HF|].
          replace (Full * ((CapsuleHalfHeight s - CrouchedHalfHeight e) / Full))
            with (CapsuleHalfHeight s - CrouchedHalfHeight e)
            by (field; lra).
          lra. }
        unfold FMath.SMALL_NUMBER. lra. }
      repeat split; try assumption. rewrite Hh.
      replace (CrouchedHalfHeight e - CrouchedHalfHeight e) with 0 by ring.
      rewrite Rabs_R0. unfold FMath.SMALL_NUMBER. lra.
  - set (T := if crouchIsWalking i then CrouchTime i else CrouchJumpTime i).
    destruct (DoCrouchResize_step e i Hvalid Hcan Hproxy Hnet Hheights
                Hsweep T dt s (Rlt_le _ _ Hdt) Hr (conj Hlo Hhi))
      as (Hrad & _ & _ & _ & Hnear & Hfull & Hpart).
    fold Full in Hfull, Hpart.
    destruct (FMath.IsNearlyEqual (CapsuleHalfHeight s) (CrouchedHalfHeight e))
      eqn:Hn.
    + exists 1%nat. split; [lia|]. simpl.
      rewrite UpdateCrouching_crouches by exact Htr. fold T.
      destruct (Hnear eq_refl) as (Hh & Hc & Ht & _).
      repeat split; try assumption. rewrite Hh.
      now apply nearly_equal_bound.
    + set (TA := 1 - (CapsuleHalfHeight s - CrouchedHalfHeight e) / Full
                 + dt / CrouchTime i) in *.
      destruct (FMath.IsNearlyZero T) eqn:Hinst.
      * exists 1%nat. split; [lia|]. simpl.
        rewrite UpdateCrouching_crouches by exact Htr. fold T.
        destruct (Hfull eq_refl (or_introl eq_refl)) as (Hh & Hc & Ht).
        repeat split; try assumption. rewrite Hh.
        replace (CrouchedHalfHeight e - CrouchedHalfHeight e) with 0 by ring.
        rewrite Rabs_R0. unfold FMath.SMALL_NUMBER. lra.
      * destruct (Rlt_dec TA (1 - FMath.SMALL_NUMBER)) as [Hlt | Hge].
        -- destruct (Hpart eq_refl eq_refl Hlt) as (Hh & Hc & Ht).
           fold delta in Hh.
           destruct (IH (fst (DoCrouchResize e i T dt false s)))
             as (n & Hn1 & HDone).
           ++ rewrite Ht. exact Htr.
           ++ rewrite Hrad. exact Hr.
           ++ rewrite Hh. unfold TA, FMath.SMALL_NUMBER in Hlt.
              assert (Hq : Full * ((CapsuleHalfHeight s - CrouchedHalfHeight e)
                                   / Full)
                           = CapsuleHalfHeight s - CrouchedHalfHeight e)
                by (field; lra).
              assert (Hm : Full * (dt / CrouchTime i)
                           < Full * ((CapsuleHalfHeight s
                                      - CrouchedHalfHeight e) / Full))
                by (apply Rmult_lt_compat_l; lra).
              unfold delta. lra.
           ++ rewrite Hh. rewrite (S_INR (S N)) in Hmeasure. lra.
           ++ rewrite Hh. lra.
           ++ exists (S n). split; [lia|].
              change (UpdateCrouchingTicks (S n) e i dt false s)
                with (UpdateCrouchingTicks n e i dt false
                        (fst (UpdateCrouching e i dt false s))).
              rewrite UpdateCrouching_crouches by exact Htr. exact HDone.
        -- exists 1%nat. split; [lia|]. simpl.
           rewrite UpdateCrouching_crouches by exact Htr. fold T.
           destruct (Hfull eq_refl) as (Hh & Hc & Ht); [right; lra|].
           repeat split; try assumption. rewrite Hh.
           replace (CrouchedHalfHeight e - CrouchedHalfHeight e) with 0
             by ring.
           rewrite Rabs_R0. unfold FMath.SMALL_NUMBER. lra.
Qed.

End CrouchCompletes.

Section UncrouchCompletes.

Variables (e : CrouchEnv) (i : CrouchInput) (dt : R).
Hypothesis Hvalid : crouchHasValidData e = true.
Hypothesis Hproxy : forall s, AdjustProxyCapsuleSize e s = s.
Hypothesis Hfree : forall loc shape, OverlapBlockingTest e loc shape = false.
Hypothesis Hheights : CrouchedHalfHeight e < DefaultCapsuleHalfHeight e.
Hypothesis Hradius : 0 <= DefaultCapsuleRadius e <= CrouchedHalfHeight e.
Hypothesis Hscale : 0 <= ShapeScale e.
Hypothesis Hlocal : crouchSimulatedProxy i = false.
Hypothesis Hfly : crouchCheatFlying i = false.
Hypothesis Hwant : bWantsToCrouch i = false.
Hypothesis Hdt : 0 < dt.

Let T := if crouchIsWalking i then UncrouchTime i else UncrouchJumpTime i.
Let Full := DefaultCapsuleHalfHeight e - CrouchedHalfHeight e.
Let delta := Full * (dt / T).

Let Done (s : CrouchState) : Prop :=
  bIsCrouched s = false /\ bIsInCrouchTransition s = false
  /\ Rabs (CapsuleHalfHeight s - DefaultCapsuleHalfHeight e)
     <= FMath.SMALL_NUMBER.

Lemma UpdateCrouching_uncrouches (s : CrouchState) :
  bIsInCrouchTransition s = true ->
  fst (UpdateCrouching e i dt false s) = DoUnCrouchResize e T dt false s.
Proof.
  intros Htr. unfold UpdateCrouching.
  rewrite Hlocal, Hfly, Htr, Hwant. reflexivity.
Qed.

Lemma DoUnCrouchResize_at_size (s : CrouchState) :
  FMath.IsNearlyEqual (CapsuleHalfHeight s) (DefaultCapsuleHalfHeight e)
  = true ->
  Done (DoUnCrouchResize e T dt false s).
Proof.
  intros Hn. unfold DoUnCrouchResize. rewrite Hvalid, Hn. simpl.
  repeat split. now apply nearly_equal_bound.
Qed.

Lemma Uncrouch_completes_steps (N : nat) :
  forall s,
    bIsInCrouchTransition s = true ->
    CrouchedHalfHeight e <= CapsuleHalfHeight s <= DefaultCapsuleHalfHeight e ->
    FMath.IsNearlyZero T = true
    \/ (0 < T
        /\ DefaultCapsuleHalfHeight e - CapsuleHalfHeight s
           <= INR (S N) * delta) ->
    exists n,
      (1 <= n <= S N)%nat
      /\ Done (UpdateCrouchingTicks n e i dt false s).
Proof.
  assert (HF : 0 < Full) by (unfold Full; lra).
  assert (Hzero : Rabs (DefaultCapsuleHalfHeight e - DefaultCapsuleHalfHeight e)
                  <= FMath.SMALL_NUMBER).
  { replace (DefaultCapsuleHalfHeight e - DefaultCapsuleHalfHeight e) with 0
      by ring.
    rewrite Rabs_R0. unfold FMath.SMALL_NUMBER. lra. }
  assert (Hone : forall s,
            bIsInCrouchTransition s = true ->
            CrouchedHalfHeight e <= CapsuleHalfHeight s
            <= DefaultCapsuleHalfHeight e ->
            FMath.IsNearlyZero T = true \/ 0 < T ->
            FMath.IsNearlyEqual (CapsuleHalfHeight s)
              (DefaultCapsuleHalfHeight e) = true
            \/ FMath.IsNearlyZero T = true
            \/ 1 - FMath.SMALL_NUMBER <= UncrouchCurrentAlpha e s + dt / T ->
            Done (UpdateCrouchingTicks 1 e i dt false s)).
  { intros s Htr Hh HT Hcase. simpl.
    rewrite UpdateCrouching_uncrouches by exact Htr.
    destruct (FMath.IsNearlyEqual (CapsuleHalfHeight s)
                (DefaultCapsuleHalfHeight e)) eqn:Hn.
    - now apply DoUnCrouchResize_at_size.
    - destruct (DoUnCrouchResize_step e Hvalid Hproxy Hfree Hheights Hradius
                  Hscale T dt s (Rlt_le _ _ Hdt) HT Hh Hn)
        as (_ & Hc & _ & _ & _ & Hfull & _).
      destruct Hfull as (Hhh & Ht).
      { destruct Hcase as [H | [H | H]];
          [discriminate | now left | now right]. }
      repeat split; try assumption. rewrite Hhh. exact Hzero. }
  induction N as [|N IH]; intros s Htr Hh Hmeasure.
  - exists 1%nat. split; [lia|].
    apply Hone; try assumption.
    + destruct Hmeasure as [H | [H _]]; [now left | now right].
    + right. destruct Hmeasure as [H | [HT Hm]]; [now left | right].
      simpl in Hm. unfold delta in Hm.
      unfold UncrouchCurrentAlpha. fold Full.
      assert (Hq : (DefaultCapsuleHalfHeight e - CapsuleHalfHeight s) / Full
                   <= dt / T).
      { apply (Rmult_le_reg_l Full); [exact HF|].
        replace (Full * ((DefaultCapsuleHalfHeight e - CapsuleHalfHeight s)
                         / Full))
          with (DefaultCapsuleHalfHeight e - CapsuleHalfHeight s)
          by (field; lra).
        lra. }
      unfold FMath.SMALL_NUMBER. lra.
  - destruct Hmeasure as [Hinst | [HT Hm]].
    { exists 1%nat. split; [lia|]. apply Hone; auto. }
    destruct (FMath.IsNearlyEqual (CapsuleHalfHeight s)
                (DefaultCapsuleHalfHeight e)) eqn:Hn.
    { exists 1%nat. split; [lia|]. apply Hone; auto. }
    destruct (Rlt_dec (UncrouchCurrentAlpha e s + dt / T)
                (1 - FMath.SMALL_NUMBER)) as [Hlt | Hge].
    2:{ exists 1%nat. split; [lia|]. apply Hone; auto. right. right. lra. }
    destruct (FMath.IsNearlyZero T) eqn:Hinst.
    { exists 1%nat. split; [lia|]. apply Hone; auto. }
    destruct (DoUnCrouchResize_step e Hvalid Hproxy Hfree Hheights Hradius
                Hscale T dt s (Rlt_le _ _ Hdt) (or_intror HT) Hh Hn)
      as (_ & _ & _ & _ & _ & _ & Hpart).
    destruct (Hpart Hinst Hlt) as (Hhh & Ht).
    fold Full in Hhh. fold delta in Hhh.
    assert (Hd : 0 < dt / T)
      by (apply Rmult_lt_0_compat; [lra | apply Rinv_0_lt_compat; lra]).
    assert (Hdelta : 0 < delta) by (unfold delta; nra).
    destruct (IH (DoUnCrouchResize e T dt false s)) as (n & Hn1 & HDone).
    + rewrite Ht. exact Htr.
    + rewrite Hhh. split; [lra|].
      unfold UncrouchCurrentAlpha in Hlt. fold Full in Hlt.
      unfold FMath.SMALL_NUMBER in Hlt.
      assert (Hq : Full * ((DefaultCapsuleHalfHeight e - CapsuleHalfHeight s)
                           / Full)
                   = DefaultCapsuleHalfHeight e - CapsuleHalfHeight s)
        by (field; lra).
      assert (Hm' : Full * (dt / T)
                    < Full * ((DefaultCapsuleHalfHeight e - CapsuleHalfHeight s)
                              / Full))
        by (apply Rmult_lt_compat_l; lra).
      unfold delta. lra.
    + right. split; [exact HT|]. rewrite Hhh.
      rewrite (S_INR (S N)) in Hm. lra.
    + exists (S n). split; [lia|].
      change (UpdateCrouchingTicks (S n) e i dt false s)
        with (UpdateCrouchingTicks n e i dt false
                (fst (UpdateCrouching e i dt false s))).
      rewrite UpdateCrouching_uncrouches by exact Htr. exact HDone.
Qed.

End UncrouchCompletes.

Lemma ceil_nat (x : R) : 0 < x -> exists N, x <= INR (S N) <= x + 1.
Proof.
  intros Hx. destruct (archimed x) as [Hup Hlow].
  assert (HK : (0 < up x)%Z) by (apply lt_IZR; lra).
  exists (Z.to_nat (up x - 1)).
  replace (S (Z.to_nat (up x - 1))) with (Z.to_nat (up x)) by lia.
  rewrite INR_IZR_INZ, Z2Nat.id by lia. lra.
Qed.

(** X15 ([DoCrouchResize]).  For a local character that may crouch, with a
    capsule radius of at most the crouched half height and a half height
    between the crouched and the default one: a call never grows the capsule
    and never shrinks it below the crouched half height, and keeps its
    radius.  The call completes the crouch (sets [bIsCrouched], ends the
    transition, half height within 1e-8 of the crouched one) when the
    capsule is already at size, the target time is nearly zero, or the
    progress reaches 1 (up to 1e-8); otherwise it shrinks the half height by
    the full crouch difference times [DeltaTime / CrouchTime] and leaves
    both flags alone.  The target time matters only through being nearly
    zero or not: the rate is always that of [CrouchTime]. *)
Theorem DoCrouchResize_progress (e : CrouchEnv) (i : CrouchInput)
    (T dt : R) (s : CrouchState) :
  crouchHasValidData e = true ->
  CanCrouchInCurrentState i = true ->
  (forall s0, AdjustProxyCapsuleSize e s0 = s0) ->
  crouchListenServerAutonomous i = false ->
  (forall st d, SweepComponent i st d = ComponentLocation st +v d) ->
  CrouchedHalfHeight e < DefaultCapsuleHalfHeight e ->
  0 < CrouchTime i -> 0 <= dt ->
  0 <= CapsuleRadius s <= CrouchedHalfHeight e ->
  CrouchedHalfHeight e <= CapsuleHalfHeight s <= DefaultCapsuleHalfHeight e ->
  let s' := fst (DoCrouchResize e i T dt false s) in
  let FullCrouchDiff := DefaultCapsuleHalfHeight e - CrouchedHalfHeight e in
  let TargetAlpha :=
    1 - (CapsuleHalfHeight s - CrouchedHalfHeight e) / FullCrouchDiff
    + dt / CrouchTime i in
  CrouchedHalfHeight e <= CapsuleHalfHeight s' <= CapsuleHalfHeight s
  /\ CapsuleRadius s' = CapsuleRadius s
  /\ (FMath.IsNearlyEqual (CapsuleHalfHeight s) (CrouchedHalfHeight e) = true
      \/ FMath.IsNearlyZero T = true
      \/ 1 - FMath.SMALL_NUMBER <= TargetAlpha ->
      bIsCrouched s' = true /\ bIsInCrouchTransition s' = false
      /\ Rabs (CapsuleHalfHeight s' - CrouchedHalfHeight e)
         <= FMath.SMALL_NUMBER)
  /\ (FMath.IsNearlyEqual (CapsuleHalfHeight s) (CrouchedHalfHeight e) = false ->
      FMath.IsNearlyZero T = false ->
      TargetAlpha < 1 - FMath.SMALL_NUMBER ->
      CapsuleHalfHeight s'
      = CapsuleHalfHeight s - FullCrouchDiff * (dt / CrouchTime i)
      /\ bIsCrouched s' = bIsCrouched s
      /\ bIsInCrouchTransition s' = bIsInCrouchTransition s)
  /\ (forall T',
        FMath.IsNearlyZero T' = FMath.IsNearlyZero T ->
        DoCrouchResize e i T' dt false s = DoCrouchResize e i T dt false s).
Proof.
  intros Hvalid Hcan Hproxy Hnet Hsweep Hheights HCT Hdt Hr Hh s' Full TA.
  destruct (DoCrouchResize_step e i Hvalid Hcan Hproxy Hnet Hheights Hsweep
              T dt s Hdt Hr Hh)
    as (Hrad & _ & _ & _ & Hnear & Hfull & Hpart).
  fold s' in Hrad, Hnear, Hfull, Hpart. fold Full in Hfull, Hpart.
  fold TA in Hfull, Hpart.
  assert (HF : 0 < Full) by (unfold Full; lra).
  assert (Hd : 0 <= dt / CrouchTime i)
    by (apply Rmult_le_pos; [lra | apply Rlt_le, Rinv_0_lt_compat; lra]).
  assert (Hzero : Rabs (CrouchedHalfHeight e - CrouchedHalfHeight e)
                  <= FMath.SMALL_NUMBER).
  { replace (CrouchedHalfHeight e - CrouchedHalfHeight e) with 0 by ring.
    rewrite Rabs_R0. unfold FMath.SMALL_NUMBER. lra. }
  split; [|split; [exact Hrad | split; [|split]]].
  - destruct (FMath.IsNearlyEqual (CapsuleHalfHeight s) (CrouchedHalfHeight e))
      eqn:Hn.
    + destruct (Hnear eq_refl) as (-> & _). lra.
    + destruct (FMath.IsNearlyZero T) eqn:Hinst.
      * destruct (Hfull eq_refl (or_introl eq_refl)) as (-> & _). lra.
      * destruct (Rlt_dec TA (1 - FMath.SMALL_NUMBER)) as [Hlt | Hge].
        -- destruct (Hpart eq_refl eq_refl Hlt) as (-> & _).
           assert (0 <= Full * (dt / CrouchTime i))
             by (apply Rmult_le_pos; lra).
           split; [|lra].
           unfold TA, FMath.SMALL_NUMBER in Hlt.
           assert (Hq : Full * ((CapsuleHalfHeight s - CrouchedHalfHeight e)
                                / Full)
                        = CapsuleHalfHeight s - CrouchedHalfHeight e)
             by (field; lra).
           assert (Hm : Full * (dt / CrouchTime i)
                        < Full * ((CapsuleHalfHeight s
                                   - CrouchedHalfHeight e) / Full))
             by (apply Rmult_lt_compat_l; lra).
           lra.
        -- destruct (Hfull eq_refl) as (-> & _); [right; lra | lra].
  - intros Hcase.
    destruct (FMath.IsNearlyEqual (CapsuleHalfHeight s) (CrouchedHalfHeight e))
      eqn:Hn.
    + destruct (Hnear eq_refl) as (Hhh & Hc & Ht & _).
      repeat split; try assumption. rewrite Hhh.
      now apply nearly_equal_bound.
    + destruct (Hfull eq_refl) as (Hhh & Hc & Ht).
      { destruct Hcase as [H | [H | H]];
          [discriminate | now left | now right]. }
      repeat split; try assumption. rewrite Hhh. exact Hzero.
  - intros Hn Hinst Hlt. exact (Hpart Hn Hinst Hlt).
  - intros T' HT'. unfold DoCrouchResize. rewrite HT'. reflexivity.
Qed.

Lemma DoCrouchResize_progress_witness :
  bIsCrouched
    (fst (DoCrouchResize OpenEnv LocalCrouchInput 0 (1 / 60) false
            StandingState)) = true.
Proof.
  destruct (DoCrouchResize_progress OpenEnv LocalCrouchInput 0 (1 / 60)
              StandingState) as (_ & _ & H & _).
  - reflexivity.
  - reflexivity.
  - reflexivity.
  - reflexivity.
  - reflexivity.
  - simpl. lra.
  - simpl. lra.
  - lra.
  - simpl. lra.
  - simpl. lra.
  - apply H. right. left.
    unfold FMath.IsNearlyZero, FMath.IsNearlyZeroTol, FMath.SMALL_NUMBER.
    rcompute. reflexivity.
Defined.

(** X16 ([DoCrouchResize], [DoUnCrouchResize]).  What a resize step keeps
    fixed when nothing obstructs it.  A crouch step keeps the bottom of the
    capsule where it is when the base location is maintained (on the
    ground), and the top of the capsule otherwise (in the air, the feet are
    pulled up).  An uncrouch step that maintains the base raises the bottom
    of the capsule by exactly the sweep inflation (0.001); otherwise it
    grows the capsule in place around its centre.  Neither moves the
    component sideways. *)
Theorem Crouch_anchor (e : CrouchEnv) :
  crouchHasValidData e = true ->
  (forall s0, AdjustProxyCapsuleSize e s0 = s0) ->
  CrouchedHalfHeight e < DefaultCapsuleHalfHeight e ->
  0 <= ShapeScale e ->
  (forall i T dt s,
      CanCrouchInCurrentState i = true ->
      crouchListenServerAutonomous i = false ->
      (forall st d, SweepComponent i st d = ComponentLocation st +v d) ->
      0 < CrouchTime i -> 0 <= dt ->
      0 <= CapsuleRadius s <= CrouchedHalfHeight e ->
      CrouchedHalfHeight e <= CapsuleHalfHeight s
      <= DefaultCapsuleHalfHeight e ->
      let s' := fst (DoCrouchResize e i T dt false s) in
      X (ComponentLocation s') = X (ComponentLocation s)
      /\ Y (ComponentLocation s') = Y (ComponentLocation s)
      /\ (bCrouchMaintainsBaseLocation e = true ->
          CapsuleBaseZ e s' = CapsuleBaseZ e s)
      /\ (bCrouchMaintainsBaseLocation e = false ->
          Z (ComponentLocation s') + CapsuleHalfHeight s' * ShapeScale e
          = Z (ComponentLocation s) + CapsuleHalfHeight s * ShapeScale e))
  /\ (forall T dt s,
        (forall loc shape, OverlapBlockingTest e loc shape = false) ->
        0 <= DefaultCapsuleRadius e <= CrouchedHalfHeight e ->
        0 <= dt ->
        FMath.IsNearlyZero T = true \/ 0 < T ->
        CrouchedHalfHeight e <= CapsuleHalfHeight s
        <= DefaultCapsuleHalfHeight e ->
        FMath.IsNearlyEqual (CapsuleHalfHeight s) (DefaultCapsuleHalfHeight e)
        = false ->
        let s' := DoUnCrouchResize e T dt false s in
        X (ComponentLocation s') = X (ComponentLocation s)
        /\ Y (ComponentLocation s') = Y (ComponentLocation s)
        /\ (bCrouchMaintainsBaseLocation e = true ->
            CapsuleBaseZ e s' = CapsuleBaseZ e s + SweepInflation)
        /\ (bCrouchMaintainsBaseLocation e = false ->
            ComponentLocation s' = ComponentLocation s)).
Proof.
  intros Hvalid Hproxy Hheights Hscale. split.
  - intros i T dt s Hcan Hnet Hsweep HCT Hdt Hr Hh s'.
    destruct (DoCrouchResize_step e i Hvalid Hcan Hproxy Hnet Hheights Hsweep
                T dt s Hdt Hr Hh) as (_ & Hx & Hy & Hz & _).
    fold s' in Hx, Hy, Hz.
    split; [exact Hx|]. split; [exact Hy|]. unfold CapsuleBaseZ.
    split; intros Hbase; rewrite Hbase in Hz; rewrite Hz; ring.
  - intros T dt s Hfree Hradius Hdt HT Hh Hn s'.
    destruct (DoUnCrouchResize_step e Hvalid Hproxy Hfree Hheights Hradius
                Hscale T dt s Hdt HT Hh Hn) as (_ & _ & Hx & Hy & Hz & _).
    fold s' in Hx, Hy, Hz.
    split; [exact Hx|]. split; [exact Hy|]. unfold CapsuleBaseZ.
    split; intros Hbase; rewrite Hbase in Hz.
    + rewrite Hz. ring.
    + apply vec_eq; try assumption. rewrite Hz. ring.
Qed.

Lemma Crouch_anchor_witness :
  CapsuleBaseZ OpenEnv
    (fst (DoCrouchResize OpenEnv LocalCrouchInput (4 / 10) (1 / 60) false
            StandingState))
  = CapsuleBaseZ OpenEnv StandingState.
Proof.
  destruct (Crouch_anchor OpenEnv) as (H & _).
  - reflexivity.
  - reflexivity.
  - simpl. lra.
  - simpl. lra.
  - apply (H LocalCrouchInput (4 / 10) (1 / 60) StandingState);
      try reflexivity; simpl; lra.
Defined.

(** X17 ([DoUnCrouchResize]).  In open space, for a capsule between the
    crouched and the default half height that is not yet at the default
    one: every call clears [bIsCrouched] at once, sets the default radius,
    and never shrinks the capsule nor grows it past the default half
    height.  With a target time that is nearly zero, or when the progress
    reaches 1 (up to 1e-8), the half height becomes exactly the default one
    and the transition ends; otherwise the half height grows by the full
    crouch difference times [DeltaTime / TargetTime] and the transition
    goes on. *)
Theorem DoUnCrouchResize_progress (e : CrouchEnv) (T dt : R)
    (s : CrouchState) :
  crouchHasValidData e = true ->
  (forall s0, AdjustProxyCapsuleSize e s0 = s0) ->
  (forall loc shape, OverlapBlockingTest e loc shape = false) ->
  CrouchedHalfHeight e < DefaultCapsuleHalfHeight e ->
  0 <= DefaultCapsuleRadius e <= CrouchedHalfHeight e ->
  0 <= ShapeScale e ->
  0 <= dt ->
  FMath.IsNearlyZero T = true \/ 0 < T ->
  CrouchedHalfHeight e <= CapsuleHalfHeight s <= DefaultCapsuleHalfHeight e ->
  FMath.IsNearlyEqual (CapsuleHalfHeight s) (DefaultCapsuleHalfHeight e)
  = false ->
  let s' := DoUnCrouchResize e T dt false s in
  let FullCrouchDiff := DefaultCapsuleHalfHeight e - CrouchedHalfHeight e in
  let TargetAlpha :=
    1 - (DefaultCapsuleHalfHeight e - CapsuleHalfHeight s) / FullCrouchDiff
    + dt / T in
  bIsCrouched s' = false
  /\ CapsuleRadius s' = DefaultCapsuleRadius e
  /\ CapsuleHalfHeight s <= CapsuleHalfHeight s' <= DefaultCapsuleHalfHeight e
  /\ (FMath.IsNearlyZero T = true \/ 1 - FMath.SMALL_NUMBER <= TargetAlpha ->
      CapsuleHalfHeight s' = DefaultCapsuleHalfHeight e
      /\ bIsInCrouchTransition s' = false)
  /\ (FMath.IsNearlyZero T = false -> TargetAlpha < 1 - FMath.SMALL_NUMBER ->
      CapsuleHalfHeight s' = CapsuleHalfHeight s + FullCrouchDiff * (dt / T)
      /\ bIsInCrouchTransition s' = bIsInCrouchTransition s).
Proof.
  intros Hvalid Hproxy Hfree Hheights Hradius Hscale Hdt HT Hh Hn s' Full TA.
  destruct (DoUnCrouchResize_step e Hvalid Hproxy Hfree Hheights Hradius
              Hscale T dt s Hdt HT Hh Hn)
    as (Hrad & Hc & _ & _ & _ & Hfull & Hpart).
  fold s' in Hrad, Hc, Hfull, Hpart.
  unfold UncrouchCurrentAlpha in Hfull, Hpart.
  fold Full in Hfull, Hpart. fold TA in Hfull, Hpart.
  assert (HF : 0 < Full) by (unfold Full; lra).
  split; [exact Hc|]. split; [exact Hrad|].
  split; [|split; [exact Hfull | exact Hpart]].
  destruct (FMath.IsNearlyZero T) eqn:Hinst.
  - destruct Hfull as (-> & _); [now left | lra].
  - destruct (Rlt_dec TA (1 - FMath.SMALL_NUMBER)) as [Hlt | Hge].
    + destruct (Hpart eq_refl Hlt) as (-> & _).
      assert (HTpos : 0 < T)
        by (destruct HT as [HT | HT]; [discriminate | exact HT]).
      assert (Hd : 0 <= dt / T)
        by (apply Rmult_le_pos; [lra | apply Rlt_le, Rinv_0_lt_compat; lra]).
      assert (0 <= Full * (dt / T)) by (apply Rmult_le_pos; lra).
      split; [lra|].
      unfold TA, FMath.SMALL_NUMBER in Hlt.
      assert (Hq : Full * ((DefaultCapsuleHalfHeight e - CapsuleHalfHeight s)
                           / Full)
                   = DefaultCapsuleHalfHeight e - CapsuleHalfHeight s)
        by (field; lra).
      assert (Hm : Full * (dt / T)
                   < Full * ((DefaultCapsuleHalfHeight e - CapsuleHalfHeight s)
                             / Full))
        by (apply Rmult_lt_compat_l; lra).
      lra.
    + destruct Hfull as (-> & _); [right; lra | lra].
Qed.

Lemma CrouchedState_not_at_default :
  FMath.IsNearlyEqual (CapsuleHalfHeight CrouchedState)
    (DefaultCapsuleHalfHeight OpenEnv) = false.
Proof.
  unfold FMath.IsNearlyEqual, FMath.SMALL_NUMBER. rcompute. reflexivity.
Qed.

Lemma DoUnCrouchResize_progress_witness :
  bIsCrouched (DoUnCrouchResize OpenEnv (2 / 10) (1 / 60) false CrouchedState)
  = false.
Proof.
  destruct (DoUnCrouchResize_progress OpenEnv (2 / 10) (1 / 60) CrouchedState)
    as (H & _).
  - reflexivity.
  - reflexivity.
  - reflexivity.
  - simpl. lra.
  - simpl. lra.
  - simpl. lra.
  - lra.
  - right. lra.
  - simpl. lra.
  - exact CrouchedState_not_at_default.
  - exact H.
Defined.

(** X18 ([UpdateCrouching], [DoCrouchResize]).  A local character that
    wants to crouch, is not in no-clip nor on a ladder and has a crouch
    transition pending reaches the crouched state after finitely many
    ticks of [UpdateCrouching], at most [CrouchTime / DeltaTime + 1] of
    them: [bIsCrouched] is set, the transition is over, the half height is
    within 1e-8 of the crouched one; and every later tick leaves that state
    unchanged. *)
Theorem Crouch_completes (e : CrouchEnv) (i : CrouchInput) (dt : R)
    (s : CrouchState) :
  crouchHasValidData e = true ->
  CanCrouchInCurrentState i = true ->
  (forall s0, AdjustProxyCapsuleSize e s0 = s0) ->
  crouchListenServerAutonomous i = false ->
  (forall st d, SweepComponent i st d = ComponentLocation st +v d) ->
  crouchSimulatedProxy i = false ->
  crouchCheatFlying i = false ->
  bWantsToCrouch i = true ->
  crouchOnLadder i = false ->
  CrouchedHalfHeight e < DefaultCapsuleHalfHeight e ->
  0 < CrouchTime i -> 0 < dt ->
  bIsInCrouchTransition s = true ->
  0 <= CapsuleRadius s <= CrouchedHalfHeight e ->
  CrouchedHalfHeight e <= CapsuleHalfHeight s <= DefaultCapsuleHalfHeight e ->
  exists n,
    (1 <= n)%nat
    /\ INR n <= CrouchTime i / dt + 1
    /\ bIsCrouched (UpdateCrouchingTicks n e i dt false s) = true
    /\ bIsInCrouchTransition (UpdateCrouchingTicks n e i dt false s) = false
    /\ Rabs (CapsuleHalfHeight (UpdateCrouchingTicks n e i dt false s)
             - CrouchedHalfHeight e) <= FMath.SMALL_NUMBER
    /\ forall k,
         UpdateCrouchingTicks (n + k) e i dt false s
         = UpdateCrouchingTicks n e i dt false s.
Proof.
  intros Hvalid Hcan Hproxy Hnet Hsweep Hlocal Hfly Hwant Hladder Hheights
    HCT Hdt Htr Hr Hh.
  assert (Hx : 0 < CrouchTime i / dt)
    by (apply Rmult_lt_0_compat; [lra | apply Rinv_0_lt_compat; lra]).
  destruct (ceil_nat _ Hx) as (N & HN1 & HN2).
  destruct (Crouch_completes_steps e i dt Hvalid Hcan Hproxy Hnet Hheights HCT
              Hsweep Hlocal Hfly Hwant Hladder Hdt N s Htr Hr (proj1 Hh))
    as (n & Hn & Hc & Ht & Hhh).
  - replace (INR (S N)
             * ((DefaultCapsuleHalfHeight e - CrouchedHalfHeight e)
                * (dt / CrouchTime i)))
      with ((DefaultCapsuleHalfHeight e - CrouchedHalfHeight e)
            * (INR (S N) * (dt / CrouchTime i))) by ring.
    assert (Hone : 1 <= INR (S N) * (dt / CrouchTime i)).
    { replace 1 with (CrouchTime i / dt * (dt / CrouchTime i))
        by (field; lra).
      apply Rmult_le_compat_r; [|exact HN1].
      apply Rmult_le_pos; [lra | apply Rlt_le, Rinv_0_lt_compat; lra]. }
    assert (0 <= DefaultCapsuleHalfHeight e - CrouchedHalfHeight e) by lra.
    nra.
  - apply Hh.
  - exists n. split; [lia|]. split.
    + assert (INR n <= INR (S N)) by (apply le_INR; lia). lra.
    + split; [exact Hc|]. split; [exact Ht|]. split; [exact Hhh|].
      intros k. rewrite UpdateCrouchingTicks_plus.
      now apply UpdateCrouchingTicks_idle.
Qed.

Lemma Crouch_completes_witness :
  exists n,
    (1 <= n)%nat
    /\ INR n <= 4 / 10 / (1 / 60) + 1
    /\ bIsCrouched
         (UpdateCrouchingTicks n OpenEnv LocalCrouchInput (1 / 60) false
            StandingState) = true.
Proof.
  destruct (Crouch_completes OpenEnv LocalCrouchInput (1 / 60) StandingState)
    as (n & Hn & Hb & Hc & _);
    try reflexivity; try (simpl; lra).
  exists n. auto.
Defined.

(** X19 ([UpdateCrouching], [DoUnCrouchResize]).  In open space a local
    character that no longer wants to crouch and has a transition pending
    stands up after finitely many ticks of [UpdateCrouching]: one tick when
    the uncrouch time is nearly zero, at most
    [UncrouchTime / DeltaTime + 1] ticks otherwise (the air time when not
    walking).  Then [bIsCrouched] is cleared, the transition is over, the
    half height is within 1e-8 of the default one, and every later tick
    leaves the state unchanged. *)
Theorem Uncrouch_completes (e : CrouchEnv) (i : CrouchInput) (dt : R)
    (s : CrouchState) :
  crouchHasValidData e = true ->
  (forall s0, AdjustProxyCapsuleSize e s0 = s0) ->
  (forall loc shape, OverlapBlockingTest e loc shape = false) ->
  crouchSimulatedProxy i = false ->
  crouchCheatFlying i = false ->
  bWantsToCrouch i = false ->
  CrouchedHalfHeight e < DefaultCapsuleHalfHeight e ->
  0 <= DefaultCapsuleRadius e <= CrouchedHalfHeight e ->
  0 <= ShapeScale e ->
  0 < dt ->
  let T := if crouchIsWalking i then UncrouchTime i else UncrouchJumpTime i in
  FMath.IsNearlyZero T = true \/ 0 < T ->
  bIsInCrouchTransition s = true ->
  CrouchedHalfHeight e <= CapsuleHalfHeight s <= DefaultCapsuleHalfHeight e ->
  exists n,
    (1 <= n)%nat
    /\ (FMath.IsNearlyZero T = true -> n = 1%nat)
    /\ (0 < T -> INR n <= T / dt + 1)
    /\ bIsCrouched (UpdateCrouchingTicks n e i dt false s) = false
    /\ bIsInCrouchTransition (UpdateCrouchingTicks n e i dt false s) = false
    /\ Rabs (CapsuleHalfHeight (UpdateCrouchingTicks n e i dt false s)
             - DefaultCapsuleHalfHeight e) <= FMath.SMALL_NUMBER
    /\ forall k,
         UpdateCrouchingTicks (n + k) e i dt false s
         = UpdateCrouchingTicks n e i dt false s.
Proof.
  intros Hvalid Hproxy Hfree Hlocal Hfly Hwant Hheights Hradius Hscale Hdt T
    HT Htr Hh.
  assert (Hfinish : forall n,
            bIsCrouched (UpdateCrouchingTicks n e i dt false s) = false
            /\ bIsInCrouchTransition (UpdateCrouchingTicks n e i dt false s)
               = false
            /\ Rabs (CapsuleHalfHeight (UpdateCrouchingTicks n e i dt false s)
                     - DefaultCapsuleHalfHeight e) <= FMath.SMALL_NUMBER ->
            bIsCrouched (UpdateCrouchingTicks n e i dt false s) = false
            /\ bIsInCrouchTransition (UpdateCrouchingTicks n e i dt false s)
               = false
            /\ Rabs (CapsuleHalfHeight (UpdateCrouchingTicks n e i dt false s)
                     - DefaultCapsuleHalfHeight e) <= FMath.SMALL_NUMBER
            /\ forall k,
                 UpdateCrouchingTicks (n + k) e i dt false s
                 = UpdateCrouchingTicks n e i dt false s).
  { intros n (Hc & Ht & Hhh). repeat split; try assumption.
    intros k. rewrite UpdateCrouchingTicks_plus.
    now apply UpdateCrouchingTicks_idle. }
  destruct (FMath.IsNearlyZero T) eqn:Hinst.
  - destruct (Uncrouch_completes_steps e i dt Hvalid Hproxy Hfree Hheights
                Hradius Hscale Hlocal Hfly Hwant Hdt 0 s Htr Hh)
      as (n & Hn & HDone).
    { left. exact Hinst. }
    assert (n = 1%nat) by lia. subst n.
    exists 1%nat. split; [lia|]. split; [reflexivity|]. split.
    + intros HTpos. simpl.
      assert (0 < T / dt)
        by (apply Rmult_lt_0_compat; [lra | apply Rinv_0_lt_compat; lra]).
      lra.
    + apply Hfinish. exact HDone.
  - assert (HTpos : 0 < T)
      by (destruct HT as [HT | HT]; [discriminate | exact HT]).
    assert (Hx : 0 < T / dt)
      by (apply Rmult_lt_0_compat; [lra | apply Rinv_0_lt_compat; lra]).
    destruct (ceil_nat _ Hx) as (N & HN1 & HN2).
    destruct (Uncrouch_completes_steps e i dt Hvalid Hproxy Hfree Hheights
                Hradius Hscale Hlocal Hfly Hwant Hdt N s Htr Hh)
      as (n & Hn & HDone).
    { right. fold T. split; [exact HTpos|].
      replace (INR (S N)
               * ((DefaultCapsuleHalfHeight e - CrouchedHalfHeight e)
                  * (dt / T)))
        with ((DefaultCapsuleHalfHeight e - CrouchedHalfHeight e)
              * (INR (S N) * (dt / T))) by ring.
      assert (Hone : 1 <= INR (S N) * (dt / T)).
      { replace 1 with (T / dt * (dt / T)) by (field; lra).
        apply Rmult_le_compat_r; [|exact HN1].
        apply Rmult_le_pos; [lra | apply Rlt_le, Rinv_0_lt_compat; lra]. }
      assert (0 <= DefaultCapsuleHalfHeight e - CrouchedHalfHeight e) by lra.
      nra. }
    exists n. split; [lia|]. split; [discriminate|]. split.
    + intros _. assert (INR n <= INR (S N)) by (apply le_INR; lia). lra.
    + apply Hfinish. exact HDone.
Qed.

Lemma Uncrouch_completes_witness :
  exists n,
    INR n <= 2 / 10 / (1 / 60) + 1
    /\ bIsCrouched
         (UpdateCrouchingTicks n OpenEnv LocalUncrouchInput (1 / 60) false
            CrouchedState) = false.
Proof.
  destruct (Uncrouch_completes OpenEnv LocalUncrouchInput (1 / 60)
              CrouchedState)
    as (n & _ & _ & Hb & Hc & _);
    try reflexivity; try (simpl; lra).
  exists n. split; [apply Hb; simpl; lra | exact Hc].
Defined.

(** X20 ([DoCrouchResize] then [DoUnCrouchResize]).  An instant crouch
    followed by an instant uncrouch, in open space, from a standing
    capsule: the half height goes to the crouched one and comes back to
    exactly the default one, the radius is restored, [bIsCrouched] is set
    and cleared again.  The component does not come back to where it was:
    when the base location is maintained it ends the sweep inflation
    (0.001) higher, otherwise (in the air) it ends higher by the full
    crouch difference times the shape scale. *)
Theorem Crouch_round_trip (e : CrouchEnv) (i : CrouchInput)
    (T1 T2 dt1 dt2 : R) (s : CrouchState) :
  crouchHasValidData e = true ->
  CanCrouchInCurrentState i = true ->
  (forall s0, AdjustProxyCapsuleSize e s0 = s0) ->
  crouchListenServerAutonomous i = false ->
  (forall st d, SweepComponent i st d = ComponentLocation st +v d) ->
  (forall loc shape, OverlapBlockingTest e loc shape = false) ->
  CrouchedHalfHeight e + FMath.SMALL_NUMBER < DefaultCapsuleHalfHeight e ->
  0 <= DefaultCapsuleRadius e <= CrouchedHalfHeight e ->
  0 <= ShapeScale e ->
  0 <= dt1 -> 0 <= dt2 ->
  FMath.IsNearlyZero T1 = true -> FMath.IsNearlyZero T2 = true ->
  CapsuleRadius s = DefaultCapsuleRadius e ->
  CapsuleHalfHeight s = DefaultCapsuleHalfHeight e ->
  let crouched := fst (DoCrouchResize e i T1 dt1 false s) in
  let stood := DoUnCrouchResize e T2 dt2 false crouched in
  CapsuleHalfHeight crouched = CrouchedHalfHeight e
  /\ bIsCrouched crouched = true
  /\ CapsuleHalfHeight stood = DefaultCapsuleHalfHeight e
  /\ CapsuleRadius stood = CapsuleRadius s
  /\ bIsCrouched stood = false
  /\ bIsInCrouchTransition stood = false
  /\ X (ComponentLocation stood) = X (ComponentLocation s)
  /\ Y (ComponentLocation stood) = Y (ComponentLocation s)
  /\ Z (ComponentLocation stood)
     = Z (ComponentLocation s)
       + (if bCrouchMaintainsBaseLocation e then SweepInflation
          else (DefaultCapsuleHalfHeight e - CrouchedHalfHeight e)
               * ShapeScale e).
Proof.
  intros Hvalid Hcan Hproxy Hnet Hsweep Hfree Hheights Hradius Hscale
    Hdt1 Hdt2 HT1 HT2 Hrad Hhh crouched stood.
  assert (Hsmall : 0 < FMath.SMALL_NUMBER)
    by (unfold FMath.SMALL_NUMBER; lra).
  assert (Hlt : CrouchedHalfHeight e < DefaultCapsuleHalfHeight e) by lra.
  assert (Hfar : forall a b, a + FMath.SMALL_NUMBER < b ->
                   FMath.IsNearlyEqual a b = false
                   /\ FMath.IsNearlyEqual b a = false).
  { intros a b Hab. unfold FMath.IsNearlyEqual, FMath.Abs.
    split; apply Rleb_false_iff; rdec; lra. }
  destruct (Hfar _ _ Hheights) as [Hn1 Hn2].
  destruct (DoCrouchResize_step e i Hvalid Hcan Hproxy Hnet Hlt Hsweep
              T1 dt1 s Hdt1) as (Hr1 & Hx1 & Hy1 & Hz1 & _ & Hfull1 & _).
  { rewrite Hrad. exact Hradius. }
  { rewrite Hhh. lra. }
  fold crouched in Hr1, Hx1, Hy1, Hz1, Hfull1.
  rewrite Hhh in Hfull1.
  destruct (Hfull1 Hn2 (or_introl HT1)) as (Hh1 & Hc1 & Ht1).
  destruct (DoUnCrouchResize_step e Hvalid Hproxy Hfree Hlt Hradius Hscale
              T2 dt2 crouched Hdt2 (or_introl HT2))
    as (Hr2 & Hc2 & Hx2 & Hy2 & Hz2 & Hfull2 & _).
  { rewrite Hh1. lra. }
  { rewrite Hh1. exact Hn1. }
  fold stood in Hr2, Hc2, Hx2, Hy2, Hz2, Hfull2.
  destruct (Hfull2 (or_introl HT2)) as (Hh2 & Ht2).
  repeat split; try assumption; try congruence.
  rewrite Hz2, Hz1, Hh2, Hh1, Hhh.
  destruct (bCrouchMaintainsBaseLocation e); ring.
Qed.

Lemma Crouch_round_trip_witness :
  Z (ComponentLocation
       (DoUnCrouchResize OpenEnv 0 (1 / 60) false
          (fst (DoCrouchResize OpenEnv LocalCrouchInput 0 (1 / 60) false
                  StandingState))))
  = 6858 / 100 + SweepInflation.
Proof.
  assert (Hz : FMath.IsNearlyZero 0 = true).
  { unfold FMath.IsNearlyZero, FMath.IsNearlyZeroTol, FMath.SMALL_NUMBER.
    rcompute. reflexivity. }
  destruct (Crouch_round_trip OpenEnv LocalCrouchInput 0 0 (1 / 60) (1 / 60)
              StandingState)
    as (_ & _ & _ & _ & _ & _ & _ & _ & H);
    try reflexivity; try exact Hz;
    try (unfold FMath.SMALL_NUMBER; simpl; lra).
  exact H.
Defined.

(* ===================================================================== *)
(** ** Eye height and damage momentum *)

Lemma SimpleSpline_monotone (a b : R) :
  0 <= a -> a <= b -> b <= 1 ->
  APBPlayerCharacter.SimpleSpline a <= APBPlayerCharacter.SimpleSpline b.
Proof.
  intros Ha Hab Hb. unfold APBPlayerCharacter.SimpleSpline.
  assert (H : 3 * (b * b) - 2 * (b * b) * b - (3 * (a * a) - 2 * (a * a) * a)
              = (b - a) * (3 * (a + b) - 2 * (a * a + a * b + b * b)))
    by ring.
  assert (Hpos : 0 <= 3 * (a + b) - 2 * (a * a + a * b + b * b)).
  { assert (a * a <= a) by nra. assert (b * b <= b) by nra.
    assert (a * b <= a) by nra. nra. }
  assert (0 <= (b - a) * (3 * (a + b) - 2 * (a * a + a * b + b * b)))
    by (apply Rmult_le_pos; lra).
  lra.
Qed.

(** X21 ([RecalculateBaseEyeHeight], [SimpleSpline]).  With a crouched eye
    height of at most the default one and half heights between the
    crouched and the default half height: the eye height is the default
    one for a standing capsule and the crouched one for a fully crouched
    capsule, always lies between the two, and never drops when the capsule
    grows. *)
Theorem RecalculateBaseEyeHeight_range (e : CrouchEnv)
    (DefaultBaseEyeHeight CrouchedEyeHeight : R) (s1 s2 : CrouchState) :
  CrouchedHalfHeight e < DefaultCapsuleHalfHeight e ->
  CrouchedEyeHeight <= DefaultBaseEyeHeight ->
  CrouchedHalfHeight e <= CapsuleHalfHeight s1 ->
  CapsuleHalfHeight s1 <= CapsuleHalfHeight s2 ->
  CapsuleHalfHeight s2 <= DefaultCapsuleHalfHeight e ->
  let Eye :=
    APBPlayerCharacter.RecalculateBaseEyeHeight e DefaultBaseEyeHeight
      CrouchedEyeHeight in
  CrouchedEyeHeight <= Eye s1
  /\ Eye s1 <= Eye s2
  /\ Eye s2 <= DefaultBaseEyeHeight
  /\ (CapsuleHalfHeight s2 = DefaultCapsuleHalfHeight e ->
      Eye s2 = DefaultBaseEyeHeight)
  /\ (CapsuleHalfHeight s1 = CrouchedHalfHeight e ->
      Eye s1 = CrouchedEyeHeight).
Proof.
  intros Hheights Heye H1 H12 H2 Eye.
  set (Full := DefaultCapsuleHalfHeight e - CrouchedHalfHeight e).
  assert (HF : 0 < Full) by (unfold Full; lra).
  set (alpha := fun s : CrouchState =>
                  1 - (CapsuleHalfHeight s - CrouchedHalfHeight e) / Full).
  assert (HEye : forall s,
            Eye s = DefaultBaseEyeHeight
                    + APBPlayerCharacter.SimpleSpline (alpha s)
                      * (CrouchedEyeHeight - DefaultBaseEyeHeight))
    by reflexivity.
  assert (Hq : forall s,
            CrouchedHalfHeight e <= CapsuleHalfHeight s
            <= DefaultCapsuleHalfHeight e -> 0 <= alpha s <= 1).
  { intros s Hs. unfold alpha.
    assert (0 <= (CapsuleHalfHeight s - CrouchedHalfHeight e) / Full)
      by (apply Rmult_le_pos; [lra | apply Rlt_le, Rinv_0_lt_compat; lra]).
    assert ((CapsuleHalfHeight s - CrouchedHalfHeight e) / Full <= 1).
    { apply (Rmult_le_reg_r Full); [exact HF|].
      unfold Rdiv. rewrite Rmult_assoc, Rinv_l by lra. unfold Full. lra. }
    lra. }
  assert (Ha1 : 0 <= alpha s1 <= 1) by (apply Hq; lra).
  assert (Ha2 : 0 <= alpha s2 <= 1) by (apply Hq; lra).
  assert (Ha21 : alpha s2 <= alpha s1).
  { unfold alpha.
    assert ((CapsuleHalfHeight s1 - CrouchedHalfHeight e) / Full
            <= (CapsuleHalfHeight s2 - CrouchedHalfHeight e) / Full).
    { apply Rmult_le_compat_r; [apply Rlt_le, Rinv_0_lt_compat; lra | lra]. }
    lra. }
  assert (Hs0 : APBPlayerCharacter.SimpleSpline 0 = 0)
    by (unfold APBPlayerCharacter.SimpleSpline; ring).
  assert (Hs1 : APBPlayerCharacter.SimpleSpline 1 = 1)
    by (unfold APBPlayerCharacter.SimpleSpline; ring).
  pose proof (SimpleSpline_monotone 0 (alpha s2) (proj2 (conj I (Rle_refl 0)))
                (proj1 Ha2) (proj2 Ha2)) as Hm0.
  pose proof (SimpleSpline_monotone (alpha s2) (alpha s1) (proj1 Ha2) Ha21
                (proj2 Ha1)) as Hm1.
  pose proof (SimpleSpline_monotone (alpha s1) 1 (proj1 Ha1) (proj2 Ha1)
                (Rle_refl 1)) as Hm2.
  rewrite Hs0 in Hm0. rewrite Hs1 in Hm2.
  rewrite !HEye.
  split; [nra|]. split; [nra|]. split; [nra|]. split.
  - intros Hd. unfold alpha. rewrite Hd. fold Full.
    replace (1 - Full / Full) with 0 by (field; lra).
    rewrite Hs0. ring.
  - intros Hc. unfold alpha. rewrite Hc.
    replace (1 - (CrouchedHalfHeight e - CrouchedHalfHeight e) / Full) with 1
      by (field; lra).
    rewrite Hs1. ring.
Qed.

Lemma RecalculateBaseEyeHeight_range_witness :
  APBPlayerCharacter.RecalculateBaseEyeHeight OpenEnv (5334 / 100)
    (5334 / 100 - 3429 / 100) CrouchedState
  <= APBPlayerCharacter.RecalculateBaseEyeHeight OpenEnv (5334 / 100)
       (5334 / 100 - 3429 / 100) StandingState.
Proof.
  refine (proj1 (proj2 (RecalculateBaseEyeHeight_range OpenEnv (5334 / 100)
                          (5334 / 100 - 3429 / 100) CrouchedState
                          StandingState _ _ _ _ _)));
    simpl; lra.
Defined.

(** X22 ([ApplyDamageMomentum]).  With a positive cap, the Z velocity that
    the impulse passed to [AddImpulse] adds to the character is the
    uncapped one or the cap, whichever is smaller, so never more than
    [CapDamageMomentumZ], whether or not the damage type scales momentum by
    mass; the X and Y of the impulse are those of the impulse direction
    times a magnitude of at most 1905. *)
Theorem ApplyDamageMomentum_capped (e : APBPlayerCharacter.DamageEnv)
    (DamageTaken : R) (ImpulseDir : FVector) :
  0 < APBPlayerCharacter.CapDamageMomentumZ e ->
  let Impulse :=
    fst (APBPlayerCharacter.ApplyDamageMomentum e DamageTaken ImpulseDir) in
  let bVelocityChange :=
    snd (APBPlayerCharacter.ApplyDamageMomentum e DamageTaken ImpulseDir) in
  let Added := APBPlayerCharacter.AddImpulse e Impulse bVelocityChange in
  let SizeFactor :=
    (6096 / 100 * (6096 / 100) * (13716 / 100))
    / (FMath.Square (APBPlayerCharacter.ScaledCapsuleRadius e * 2)
       * APBPlayerCharacter.ScaledCapsuleHalfHeight e * 2) in
  let Magnitude := Rmin (1905 / 1000 * DamageTaken * SizeFactor * 5) 1905 in
  let MassScale := APBPlayerCharacter.DamageMassScale e in
  Z Added <= APBPlayerCharacter.CapDamageMomentumZ e
  /\ Z Added
     = Rmin (Z ImpulseDir * Magnitude * MassScale)
         (APBPlayerCharacter.CapDamageMomentumZ e)
  /\ X Impulse = X ImpulseDir * Magnitude
  /\ Y Impulse = Y ImpulseDir * Magnitude
  /\ Magnitude <= 1905
  /\ 0 < MassScale.
Proof.
  intros Hcap Impulse bVel Added SizeFactor Magnitude MassScale.
  assert (Hscale :
            (bVel = false /\ Rltb FMath.SMALL_NUMBER (APBPlayerCharacter.Mass e)
                             = true
             /\ MassScale = 1 / APBPlayerCharacter.Mass e
             /\ 0 < APBPlayerCharacter.Mass e)
            \/ (MassScale = 1
                /\ (bVel = true
                    \/ Rltb FMath.SMALL_NUMBER (APBPlayerCharacter.Mass e)
                       = false))).
  { subst bVel MassScale.
    unfold APBPlayerCharacter.ApplyDamageMomentum,
      APBPlayerCharacter.DamageMassScale. simpl.
    destruct (APBPlayerCharacter.bScaleMomentumByMass e); simpl.
    - destruct (Rltb _ _) eqn:Hm.
      + left. repeat split. rbool. unfold FMath.SMALL_NUMBER in Hm. lra.
      + right. split; [reflexivity | now right].
    - right. split; [reflexivity | now left]. }
  assert (HMS : 0 < MassScale).
  { destruct Hscale as [(_ & _ & -> & Hm) | (-> & _)]; [|lra].
    unfold Rdiv. rewrite Rmult_1_l. now apply Rinv_0_lt_compat. }
  assert (HI : Impulse
               = mkVec (X ImpulseDir * Magnitude) (Y ImpulseDir * Magnitude)
                   (Rmin (Z ImpulseDir * Magnitude * MassScale)
                      (APBPlayerCharacter.CapDamageMomentumZ e) / MassScale)).
  { subst Impulse. unfold APBPlayerCharacter.ApplyDamageMomentum.
    fold SizeFactor. fold MassScale. simpl.
    destruct (Rlt_dec 0 (APBPlayerCharacter.CapDamageMomentumZ e)); [|lra].
    rewrite !Min_Rmin. reflexivity. }
  assert (HZ : Z Added
               = Rmin (Z ImpulseDir * Magnitude * MassScale)
                   (APBPlayerCharacter.CapDamageMomentumZ e)).
  { subst Added. unfold APBPlayerCharacter.AddImpulse. rewrite HI.
    destruct Hscale as [(Hb & Hm & HMeq & Hpos) | (HMeq & Hcase)].
    - rewrite Hb, Hm. simpl. rewrite HMeq. field. lra.
    - assert (Hcond : negb bVel
                      && Rltb FMath.SMALL_NUMBER (APBPlayerCharacter.Mass e)
                      = false).
      { destruct Hcase as [-> | ->]; [reflexivity | apply andb_false_r]. }
      rewrite Hcond. simpl. rewrite HMeq. field. }
  split; [rewrite HZ; apply Rmin_r|]. split; [exact HZ|].
  rewrite HI. simpl. repeat split; try assumption. apply Rmin_r.
Qed.

Lemma ApplyDamageMomentum_capped_witness :
  Z (APBPlayerCharacter.AddImpulse
       (APBPlayerCharacter.mkDamageEnv (3048 / 100) (6858 / 100) false 85
          (47625 / 100))
       (fst (APBPlayerCharacter.ApplyDamageMomentum
               (APBPlayerCharacter.mkDamageEnv (3048 / 100) (6858 / 100) false
                  85 (47625 / 100))
               1000 (mkVec 0 0 1)))
       (snd (APBPlayerCharacter.ApplyDamageMomentum
               (APBPlayerCharacter.mkDamageEnv (3048 / 100) (6858 / 100) false
                  85 (47625 / 100))
               1000 (mkVec 0 0 1))))
  <= 47625 / 100.
Proof.
  apply (ApplyDamageMomentum_capped
           (APBPlayerCharacter.mkDamageEnv (3048 / 100) (6858 / 100) false 85
              (47625 / 100))
           1000 (mkVec 0 0 1)).
  simpl. lra.
Defined.

(* ===================================================================== *)
(** ** The envelope of the jump boost *)

Lemma Size2D_scale_abs (V : FVector) (q : R) :
  Size2D (V *v q) = Rabs q * Size2D V.
Proof.
  unfold Size2D, SizeSquared2D, FMath.Sqrt; simpl.
  replace (X V * q * (X V * q) + Y V * q * (Y V * q))
    with (Rsqr q * (X V * X V + Y V * Y V)) by (unfold Rsqr; ring).
  rewrite sqrt_mult; [|apply Rle_0_sqr | nra].
  rewrite sqrt_Rsqr_abs. reflexivity.
Qed.

Lemma Size2D_triangle (a b : FVector) :
  Size2D (a +v b) <= Size2D a + Size2D b.
Proof.
  pose proof (Size2D_nonneg a) as Ha. pose proof (Size2D_nonneg b) as Hb.
  pose proof (Size2D_sqr a) as Hqa. pose proof (Size2D_sqr b) as Hqb.
  pose proof (dot2D_le_Size2D a b) as Hcs.
  unfold Size2D at 1, FMath.Sqrt.
  rewrite <- (sqrt_sq_nonneg (Size2D a + Size2D b)) by lra.
  apply sqrt_le_1; [apply SizeSquared2D_nonneg | nra |].
  unfold SizeSquared2D in *; simpl. nra.
Qed.

(** X23 ([OnJumped_Implementation]).  With bunnyhopping off and a facing
    vector of 2D size at most 1, a character whose lateral speed is within
    the boost envelope (twice the maximum speed times the boost percentage:
    0.1 when sprinting or crouched, 0.5 otherwise) is still within it after
    the jump boost.  On a ladder, with the boost disabled, or before
    [MaxJumpTime] has passed since the last boost, the call changes
    nothing; a call that gets past these guards stamps the boost time. *)
Theorem OnJumped_boost_envelope (e : JumpEnv) (s : JumpState) :
  CVarBunnyhop e = 0%Z ->
  Size2D (Facing e) <= 1 ->
  let SpeedBoostPerc :=
    if jumpIsSprinting e || jumpIsCrouched e then 1 / 10 else 1 / 2 in
  let MaxBoostedSpeed := (jumpMaxSpeed e + jumpMaxSpeed e) * SpeedBoostPerc in
  let s' := OnJumped_Implementation e s in
  (Size2D (jumpVelocity s) <= MaxBoostedSpeed ->
   Size2D (jumpVelocity s') <= MaxBoostedSpeed)
  /\ (jumpIsOnLadder e = true \/ CVarJumpBoost e = 0%Z
      \/ TimeSeconds e < LastJumpBoostTime s + MaxJumpTime e ->
      s' = s)
  /\ (jumpIsOnLadder e = false -> CVarJumpBoost e <> 0%Z ->
      LastJumpBoostTime s + MaxJumpTime e <= TimeSeconds e ->
      LastJumpBoostTime s' = TimeSeconds e).
Proof.
  intros Hbhop Hface Perc MB s'. split; [|split].
  - intros Hin. subst s'. unfold OnJumped_Implementation.
    destruct (jumpIsOnLadder e); [exact Hin|].
    destruct (_ && _); [|exact Hin].
    rewrite Hbhop. simpl negb. cbv iota.
    fold Perc. fold MB.
    match goal with
    | |- context [FMath.Abs (?fs * Perc)] => set (ForwardSpeed := fs)
    end.
    set (SA0 := FMath.Abs (ForwardSpeed * Perc)).
    set (SAc := if Rlt_dec MB (SA0 + Size2D (jumpVelocity s))
                then SA0 - (SA0 + Size2D (jumpVelocity s) - MB) else SA0).
    assert (HSAc : 0 <= SAc <= MB - Size2D (jumpVelocity s)).
    { subst SAc. pose proof (Abs_nonneg (ForwardSpeed * Perc)) as H0.
      fold SA0 in H0. destruct (Rlt_dec _ _); lra. }
    assert (Hbound : forall k, Rabs k <= SAc ->
              Size2D (jumpVelocity s +v Facing e *v k) <= MB).
    { intros k Hk.
      pose proof (Size2D_triangle (jumpVelocity s) (Facing e *v k)) as Htri.
      rewrite Size2D_scale_abs in Htri.
      pose proof (Size2D_nonneg (Facing e)) as HF0.
      pose proof (Rabs_pos k) as Hk0.
      assert (Rabs k * Size2D (Facing e) <= SAc) by nra.
      lra. }
    clearbody SAc.
    destruct (Rlt_dec ForwardSpeed _); simpl.
    + destruct (Rlt_dec (SizeSquared2D (jumpVelocity s)) _); simpl;
        [|exact Hin].
      apply Hbound.
      replace (SAc * -1) with (- SAc) by ring.
      rewrite Rabs_Ropp, Rabs_pos_eq; lra.
    + destruct (Rlt_dec (SizeSquared2D (jumpVelocity s)) _); simpl;
        [|exact Hin].
      apply Hbound. rewrite Rabs_pos_eq; lra.
  - intros Hcase. subst s'. unfold OnJumped_Implementation.
    destruct (jumpIsOnLadder e) eqn:Hl; [reflexivity|].
    destruct Hcase as [H | [H | H]]; [discriminate | |].
    + rewrite H. simpl. rewrite andb_false_r. reflexivity.
    + apply Rleb_false_iff in H. rewrite H. reflexivity.
  - intros Hl Hb Ht. subst s'. unfold OnJumped_Implementation.
    rewrite Hl. apply Rleb_true_iff in Ht. rewrite Ht.
    apply Z.eqb_neq in Hb. rewrite Hb. simpl.
    destruct (Rlt_dec _ (- jumpMaxAcceleration e * sin (6981 / 10000)));
      destruct (negb (CVarBunnyhop e =? 0)%Z);
      repeat match goal with
             | |- context [let '(_, _) := ?p in _] => destruct p
             | |- context [if ?b then _ else _] => destruct b
             end; reflexivity.
Qed.

Lemma OnJumped_boost_envelope_witness :
  Size2D
    (jumpVelocity
       (OnJumped_Implementation
          {| CVarJumpBoost := 1%Z; CVarBunnyhop := 0%Z;
             jumpIsOnLadder := false;
             TimeSeconds := 10; MaxJumpTime := 3556 / 10000;
             Facing := mkVec 1 0 0;
             CurrentAcceleration := mkVec (85725 / 100) 0 0;
             jumpIsSprinting := false; jumpIsCrouched := false;
             jumpMaxSpeed := 3619 / 10; jumpMaxAcceleration := 85725 / 100 |}
          {| jumpVelocity := mkVec 300 0 (3048 / 10);
             LastJumpBoostTime := 0 |}))
  <= (3619 / 10 + 3619 / 10) * (1 / 2).
Proof.
  refine (proj1 (OnJumped_boost_envelope
                   {| CVarJumpBoost := 1%Z; CVarBunnyhop := 0%Z;
                      jumpIsOnLadder := false;
                      TimeSeconds := 10; MaxJumpTime := 3556 / 10000;
                      Facing := mkVec 1 0 0;
                      CurrentAcceleration := mkVec (85725 / 100) 0 0;
                      jumpIsSprinting := false; jumpIsCrouched := false;
                      jumpMaxSpeed := 3619 / 10;
                      jumpMaxAcceleration := 85725 / 100 |}
                   {| jumpVelocity := mkVec 300 0 (3048 / 10);
                      LastJumpBoostTime := 0 |} eq_refl _) _).
  - simpl. rewrite Size2D_axis_x; lra.
  - simpl. rewrite Size2D_axis_x; lra.
Defined.

(* ===================================================================== *)
(** ** Braking does not depend on the sub-step *)

Lemma Size_ZeroVector : Size ZeroVector = 0.
Proof.
  unfold Size, SizeSquared, FMath.Sqrt; simpl.
  replace (0 * 0 + 0 * 0 + 0 * 0) with 0 by ring. apply sqrt_0.
Qed.

Lemma BrakingEffectiveDeceleration_nonneg (D : R) (V : FVector) :
  0 <= BrakingEffectiveDeceleration D V.
Proof. unfold BrakingEffectiveDeceleration, FMath.Max. rdec; lra. Qed.

(** X24 ([ApplyVelocityBraking]).  Two components that differ in
    [BrakingSubStepTime] (or in anything but [BrakingFrictionFactor]) brake
    a velocity to the same result: the subdivision of the time step has no
    effect.  The call returns, never raises the speed, and either leaves
    the velocity alone, stops the body, or lowers the speed by exactly the
    effective friction times the effective deceleration times
    [DeltaTime]. *)
Theorem ApplyVelocityBraking_substep_independent (c1 c2 : Config) (o : Owner)
    (dt F D : R) (V : FVector) :
  BrakingFrictionFactor c1 = BrakingFrictionFactor c2 ->
  exists V',
    ApplyVelocityBraking c1 o dt F D V = Some V'
    /\ ApplyVelocityBraking c2 o dt F D V = Some V'
    /\ Size V' <= Size V
    /\ (V' = V \/ V' = ZeroVector
        \/ Size V'
           = Size V
             - BrakingEffectiveFriction c1 F * BrakingEffectiveDeceleration D V
               * dt).
Proof.
  intros Hfactor.
  assert (Hf : BrakingEffectiveFriction c2 F = BrakingEffectiveFriction c1 F)
    by (unfold BrakingEffectiveFriction; now rewrite Hfactor).
  destruct (BrakingSkipped o dt V) eqn:Hskip.
  { exists V. unfold ApplyVelocityBraking.
    rewrite !ApplyVelocityBraking_guarded by (now left).
    simpl. repeat split; try lra. now left. }
  destruct (FMath.IsNearlyZero (BrakingEffectiveFriction c1 F)) eqn:Hzf.
  { exists V. unfold ApplyVelocityBraking.
    rewrite !ApplyVelocityBraking_guarded
      by (right; left; rewrite ?Hf; exact Hzf).
    simpl. repeat split; try lra. now left. }
  destruct (Req_dec_T (BrakingEffectiveDeceleration D V) 0) as [Hzd | Hzd].
  { exists V. unfold ApplyVelocityBraking.
    rewrite !ApplyVelocityBraking_guarded by (right; right; exact Hzd).
    simpl. repeat split; try lra. now left. }
  set (k := BrakingEffectiveFriction c1 F * BrakingEffectiveDeceleration D V).
  exists (BrakedVelocity k dt V).
  split; [now apply ApplyVelocityBraking_closed|].
  split.
  { rewrite (ApplyVelocityBraking_closed c2 o dt F D V Hskip)
      by (rewrite ?Hf; assumption).
    rewrite Hf. reflexivity. }
  assert (Hk : 0 < k).
  { unfold k. apply Rmult_lt_0_compat.
    - unfold FMath.IsNearlyZero, FMath.IsNearlyZeroTol in Hzf.
      apply Rleb_false_iff in Hzf. unfold FMath.SMALL_NUMBER in Hzf.
      assert (0 <= BrakingEffectiveFriction c1 F)
        by (unfold BrakingEffectiveFriction, FMath.Max; rdec; lra).
      unfold FMath.Abs in Hzf.
      destruct (Rlt_dec (BrakingEffectiveFriction c1 F) 0); lra.
    - pose proof (BrakingEffectiveDeceleration_nonneg D V). lra. }
  assert (Hdt : 0 < dt).
  { unfold BrakingSkipped in Hskip. rbool. unfold MIN_TICK_TIME in *. lra. }
  pose proof (Size_nonneg V) as HsV.
  unfold BrakedVelocity.
  destruct (Rle_dec (Size V) (k * dt)) as [Hstop | Hgo].
  { rewrite Size_ZeroVector. split; [exact HsV | right; now left]. }
  destruct (IsNearlyZeroV _ _).
  { rewrite Size_ZeroVector. split; [exact HsV | right; now left]. }
  assert (Hs : 0 < Size V) by nra.
  assert (Hq : 0 <= 1 - k * (dt - 0) / Size V).
  { apply Rlt_le. apply one_minus_div_pos; [exact Hs | lra]. }
  rewrite Size_scale by exact Hq.
  assert (Heq : (1 - k * (dt - 0) / Size V) * Size V = Size V - k * dt)
    by (field; lra).
  rewrite Heq. split; [nra | right; right; reflexivity].
Qed.

Lemma ApplyVelocityBraking_substep_independent_witness :
  exists V',
    ApplyVelocityBraking StockConfig LocalOwner (1 / 10) 4 (1905 / 10)
      (mkVec 300 0 0) = Some V'
    /\ ApplyVelocityBraking (set_BrakingSubStepTime (1 / 20) StockConfig)
         LocalOwner (1 / 10) 4 (1905 / 10) (mkVec 300 0 0) = Some V'.
Proof.
  destruct (ApplyVelocityBraking_substep_independent StockConfig
              (set_BrakingSubStepTime (1 / 20) StockConfig) LocalOwner
              (1 / 10) 4 (1905 / 10) (mkVec 300 0 0) eq_refl)
    as (V' & H1 & H2 & _).
  exists V'. split; assumption.
Defined.

Lemma BrakingEffectiveDeceleration_stop_speed (D : R) (V : FVector) :
  Size2D V <= D -> BrakingEffectiveDeceleration D V = D.
Proof.
  intros H. pose proof (Size2D_nonneg V).
  unfold BrakingEffectiveDeceleration, FMath.Max. rdec; lra.
Qed.

(** X25 ([ApplyVelocityBraking]).  At or below the stop speed (lateral
    speed at most the braking deceleration) braking composes over ticks:
    braking for [dt1] and then, from a result that is not yet inside the
    0.1 dead zone, for [dt2] gives exactly the result of braking once for
    [dt1 + dt2].  In that regime the result does not depend on the frame
    rate. *)
Theorem ApplyVelocityBraking_additive (c : Config) (o : Owner)
    (dt1 dt2 F D : R) (V V1 : FVector) :
  HasValidData o = true -> HasAnimRootMotion o = false ->
  MIN_TICK_TIME <= dt1 -> MIN_TICK_TIME <= dt2 ->
  Size2D V <= D ->
  ApplyVelocityBraking c o dt1 F D V = Some V1 ->
  IsNearlyZeroV V1 (1 / 10) = false ->
  ApplyVelocityBraking c o dt2 F D V1
  = ApplyVelocityBraking c o (dt1 + dt2) F D V.
Proof.
  intros Hvalid Hroot Hdt1 Hdt2 HD H1 HV1.
  assert (Hmin : 0 < MIN_TICK_TIME) by (unfold MIN_TICK_TIME; lra).
  assert (Hguard : forall dt W,
            FMath.IsNearlyZero (BrakingEffectiveFriction c F) = true
            \/ BrakingEffectiveDeceleration D W = 0 ->
            ApplyVelocityBraking c o dt F D W = Some W).
  { intros dt W Hg. unfold ApplyVelocityBraking.
    rewrite ApplyVelocityBraking_guarded by (right; exact Hg). reflexivity. }
  assert (Hskip : forall dt W,
            MIN_TICK_TIME <= dt -> IsNearlyZeroV W (1 / 10) = false ->
            BrakingSkipped o dt W = false).
  { intros dt W Hdt HW. unfold BrakingSkipped.
    rewrite HW, Hvalid, Hroot. simpl. apply Rltb_false_iff. exact Hdt. }
  destruct (FMath.IsNearlyZero (BrakingEffectiveFriction c F)) eqn:Hzf.
  { rewrite Hguard in H1 by (now left). injection H1 as <-.
    rewrite !Hguard by (now left). reflexivity. }
  destruct (Req_dec_T (BrakingEffectiveDeceleration D V) 0) as [Hzd | Hzd].
  { rewrite Hguard in H1 by (now right). injection H1 as <-.
    rewrite !Hguard by (now right). reflexivity. }
  destruct (IsNearlyZeroV V (1 / 10)) eqn:HV0.
  { unfold ApplyVelocityBraking in H1.
    rewrite ApplyVelocityBraking_guarded in H1
      by (left; unfold BrakingSkipped; rewrite HV0; reflexivity).
    simpl in H1. injection H1 as <-. congruence. }
  rewrite (BrakingEffectiveDeceleration_stop_speed D V HD) in Hzd.
  set (k := BrakingEffectiveFriction c F * D).
  assert (Hk : 0 < k).
  { unfold k. apply Rmult_lt_0_compat.
    - unfold FMath.IsNearlyZero, FMath.IsNearlyZeroTol in Hzf.
      apply Rleb_false_iff in Hzf. unfold FMath.SMALL_NUMBER in Hzf.
      assert (0 <= BrakingEffectiveFriction c F)
        by (unfold BrakingEffectiveFriction, FMath.Max; rdec; lra).
      unfold FMath.Abs in Hzf.
      destruct (Rlt_dec (BrakingEffectiveFriction c F) 0); lra.
    - pose proof (Size2D_nonneg V). lra. }
  assert (HsV : 0 < Size V).
  { apply Size_pos.
    pose proof (IsNearlyZeroV_false_Size V (1 / 10)
                  ltac:(lra) HV0). lra. }
  rewrite (ApplyVelocityBraking_closed c o dt1 F D V) in H1;
    [| now apply Hskip | exact Hzf
     | rewrite (BrakingEffectiveDeceleration_stop_speed D V HD); exact Hzd].
  rewrite (BrakingEffectiveDeceleration_stop_speed D V HD) in H1.
  fold k in H1. injection H1 as H1.
  assert (Hnz : V1 <> ZeroVector).
  { intros ->. rewrite ZeroVector_nearly_zero in HV1 by lra. discriminate. }
  unfold BrakedVelocity in H1.
  destruct (Rle_dec (Size V) (k * dt1)) as [Hstop | Hgo];
    [now elim Hnz|].
  destruct (IsNearlyZeroV (V *v (1 - k * (dt1 - 0) / Size V))
              FMath.KINDA_SMALL_NUMBER); [now elim Hnz|].
  set (q1 := 1 - k * (dt1 - 0) / Size V) in *.
  assert (Hq1 : 0 < q1 <= 1).
  { split.
    - apply one_minus_div_pos; [exact HsV | lra].
    - unfold q1. assert (0 <= k * (dt1 - 0) / Size V).
      { apply Rmult_le_pos; [nra | apply Rlt_le, Rinv_0_lt_compat; lra]. }
      lra. }
  assert (HsV1 : Size V1 = q1 * Size V)
    by (rewrite <- H1; apply Size_scale; lra).
  assert (Hs1 : Size V1 = Size V - k * dt1)
    by (rewrite HsV1; unfold q1; field; lra).
  assert (HD1 : Size2D V1 <= D).
  { rewrite <- H1. rewrite Size2D_scale by lra.
    pose proof (Size2D_nonneg V). nra. }
  rewrite (ApplyVelocityBraking_closed c o dt2 F D V1);
    [| now apply Hskip | exact Hzf
     | rewrite (BrakingEffectiveDeceleration_stop_speed D V1 HD1); exact Hzd].
  rewrite (ApplyVelocityBraking_closed c o (dt1 + dt2) F D V);
    [| apply Hskip; [lra | exact HV0] | exact Hzf
     | rewrite (BrakingEffectiveDeceleration_stop_speed D V HD); exact Hzd].
  rewrite (BrakingEffectiveDeceleration_stop_speed D V1 HD1).
  rewrite (BrakingEffectiveDeceleration_stop_speed D V HD).
  fold k. f_equal. unfold BrakedVelocity.
  destruct (Rle_dec (Size V1) (k * dt2)) as [Ha | Ha];
    destruct (Rle_dec (Size V) (k * (dt1 + dt2))) as [Hb | Hb];
    try reflexivity; try lra.
  assert (HW : V1 *v (1 - k * (dt2 - 0) / Size V1)
               = V *v (1 - k * (dt1 + dt2 - 0) / Size V)).
  { rewrite <- H1 at 1. rewrite vscale_vscale. f_equal.
    rewrite HsV1. unfold q1. field. repeat split; lra. }
  rewrite HW. reflexivity.
Qed.

Lemma ApplyVelocityBraking_additive_witness :
  ApplyVelocityBraking StockConfig LocalOwner (1 / 60) 4 (1905 / 10)
    (mkVec (9365 / 100) 0 0)
  = ApplyVelocityBraking StockConfig LocalOwner (1 / 120 + 1 / 60) 4
      (1905 / 10) (mkVec 100 0 0).
Proof.
  assert (H1 : ApplyVelocityBraking StockConfig LocalOwner (1 / 120) 4
                 (1905 / 10) (mkVec 100 0 0)
               = Some (mkVec (9365 / 100) 0 0)).
  { rewrite ApplyVelocityBraking_closed.
    - f_equal. unfold BrakedVelocity, BrakingEffectiveFriction,
        BrakingEffectiveDeceleration.
      rewrite Size2D_axis_x, Size_axis_x by lra.
      unfold IsNearlyZeroV, FMath.KINDA_SMALL_NUMBER. rcompute.
      apply vec_eq; simpl; lra.
    - unfold BrakingSkipped, IsNearlyZeroV, MIN_TICK_TIME. rcompute.
      reflexivity.
    - unfold FMath.IsNearlyZero, FMath.IsNearlyZeroTol,
        BrakingEffectiveFriction, FMath.SMALL_NUMBER. rcompute. reflexivity.
    - unfold BrakingEffectiveDeceleration.
      rewrite Size2D_axis_x by lra. rcompute. lra. }
  apply (ApplyVelocityBraking_additive StockConfig LocalOwner (1 / 120)
           (1 / 60) 4 (1905 / 10) (mkVec 100 0 0) (mkVec (9365 / 100) 0 0)).
  - reflexivity.
  - reflexivity.
  - unfold MIN_TICK_TIME. lra.
  - unfold MIN_TICK_TIME. lra.
  - rewrite Size2D_axis_x; lra.
  - exact H1.
  - unfold IsNearlyZeroV. rcompute. reflexivity.
Defined.

(* ===================================================================== *)
(** ** Step and landing sounds *)

(** While the step timer has more left than the tick takes away,
    [PlayMoveSound] stays silent, keeps the side and takes at most the
    tick off the timer. *)
Lemma PlayMoveSound_waiting (e : SoundEnv) (c : Config) (o : Owner)
    (m : Movement) (dt : R) (st : StepState) :
  0 <= dt -> 1000 * dt < MoveSoundTime st ->
  snd (PlayMoveSound e c o m dt st) = None
  /\ StepSide (fst (PlayMoveSound e c o m dt st)) = StepSide st
  /\ MoveSoundTime st - 1000 * dt
     <= MoveSoundTime (fst (PlayMoveSound e c o m dt st)).
Proof.
  intros Hdt Hlt. unfold PlayMoveSound.
  destruct (negb (bShouldPlayMoveSounds e)).
  { simpl. repeat split. nra. }
  destruct (Rlt_dec 0 (MoveSoundTime st)) as [Hpos | Hneg]; [|exfalso; nra].
  assert (HT : FMath.Max 0 (MoveSoundTime st - 1000 * dt)
               = MoveSoundTime st - 1000 * dt).
  { unfold FMath.Max. rdec; lra. }
  rewrite HT.
  destruct (Rlt_dec 0 (MoveSoundTime st - 1000 * dt)) as [H1 | H1];
    [|exfalso; lra].
  simpl. repeat split. lra.
Qed.

(** A call of [PlayMoveSound] that spawns a sound rearms the timer to at
    least 300 ms and changes the side. *)
Lemma PlayMoveSound_rearms (e : SoundEnv) (c : Config) (o : Owner)
    (m : Movement) (dt : R) (st : StepState) :
  snd (PlayMoveSound e c o m dt st) <> None ->
  300 <= MoveSoundTime (fst (PlayMoveSound e c o m dt st))
  /\ StepSide (fst (PlayMoveSound e c o m dt st)) = negb (StepSide st).
Proof.
  unfold PlayMoveSound.
  destruct (negb (bShouldPlayMoveSounds e)); [simpl; congruence|].
  destruct (Rlt_dec 0 _); [simpl; congruence|].
  destruct (_ || Rltb _ _); [simpl; congruence|].
  set (bSprinting := Rleb _ _).
  match goal with
  | |- context [match ?p with pair _ _ => _ end] =>
      assert (Htime : 300 <= snd (fst p));
      [ | destruct p as [[vol T2] ms] ]
  end.
  { destruct (bOnLadder m); simpl; [lra|].
    destruct (match FloorSurfaceType e with
              | Some Surface => GetMoveStepSoundBySurface e Surface
              | None => None
              end) as [s|];
      [|destruct (GetMoveStepSoundBySurface e SurfaceType_Default) as [s|]];
      destruct (IsCrouching o); destruct bSprinting; simpl; lra. }
  simpl in Htime.
  destruct ms as [s|]; [|simpl; congruence].
  match goal with
  | |- context [match ?v with Some _ => _ | None => _ end] =>
      destruct v as [cues|]
  end; simpl; [|congruence].
  destruct (SpawnSoundAtFeet e o (RandState st) cues vol) as [Sound seed].
  simpl. intros _. split; [exact Htime | reflexivity].
Qed.

Lemma TotalTime_nonneg (calls : list StepCall) :
  Forall (fun k => 0 <= callDeltaTime k) calls -> 0 <= TotalTime calls.
Proof.
  induction 1 as [|k rest Hk _ IH]; simpl; [lra|].
  fold (TotalTime rest). lra.
Qed.

(** A run of ticks that together take less than what is left on the step
    timer spawns no step sound and keeps the side. *)
Lemma PlayMoveSounds_silent (calls : list StepCall) :
  forall st : StepState,
    Forall (fun k => 0 <= callDeltaTime k) calls ->
    1000 * TotalTime calls < MoveSoundTime st ->
    Forall (fun sound => sound = None) (snd (PlayMoveSounds calls st))
    /\ StepSide (fst (PlayMoveSounds calls st)) = StepSide st.
Proof.
  induction calls as [|k rest IH]; intros st Hpos Hlt.
  { simpl. split; [constructor | reflexivity]. }
  inversion Hpos as [|k' rest' Hk Hrest]; subst.
  simpl in Hlt. fold (TotalTime rest) in Hlt.
  pose proof (TotalTime_nonneg rest Hrest) as Htot.
  destruct (PlayMoveSound_waiting (callEnv k) (callConfig k) (callOwner k)
              (callMovement k) (callDeltaTime k) st Hk ltac:(lra))
    as (Hnone & Hside & Htime).
  simpl.
  destruct (PlayMoveSound (callEnv k) (callConfig k) (callOwner k)
              (callMovement k) (callDeltaTime k) st) as [st1 sound].
  simpl in Hnone, Hside, Htime.
  destruct (IH st1 Hrest ltac:(lra)) as (Hall & Hside').
  destruct (PlayMoveSounds rest st1) as [st2 sounds].
  simpl in *. split; [constructor; assumption | congruence].
Qed.



(** X27 (OnMovementModeChanged, PlayJumpSound).  Landing sounds follow
    the fall speed.  For a change of movement mode that ends in walking,
    with a fall damage speed that is not negative: when a sound is
    spawned, the character came down at least at the bounce speed or
    faster than half the fall damage speed, the volume is positive and at
    most 1, the sound is placed at the foot of the capsule, and the same
    landing at a higher fall speed, whatever the state of the random
    generator then, also spawns a sound, at least as loud. *)
Theorem Landing_sound_monotone (e : SoundEnv) (o : Owner)
    (m1 m2 : Movement) (Previous1 Previous2 : EMovementMode)
    (st1 st2 : StepState) (s1 : SpawnedSound) :
  0 <= MinSpeedForFallDamage e ->
  MovementMode m1 = MOVE_Walking ->
  MovementMode m2 = MOVE_Walking ->
  Z (Velocity m2) <= Z (Velocity m1) ->
  snd (OnMovementModeChanged e o m1 Previous1 st1) = Some s1 ->
  (MinLandBounceSpeed e <= - Z (Velocity m1)
   \/ MinSpeedForFallDamage e / 2 < - Z (Velocity m1))
  /\ 0 < VolumeMultiplier s1 <= 1
  /\ StepLocation s1
     = mkVec (X (ActorLocation e)) (Y (ActorLocation e))
         (Z (ActorLocation e) - PawnHalfHeight o)
  /\ exists s2 : SpawnedSound,
       snd (OnMovementModeChanged e o m2 Previous2 st2) = Some s2
       /\ VolumeMultiplier s1 <= VolumeMultiplier s2.
Proof.
  intros HD Hm1 Hm2 Hfall.
  unfold OnMovementModeChanged. rewrite Hm1, Hm2.
  replace (match Previous1 with MOVE_Walking => false | _ => false end)
    with false by (destruct Previous1; reflexivity).
  replace (match Previous2 with MOVE_Walking => false | _ => false end)
    with false by (destruct Previous2; reflexivity).
  unfold PlayJumpSound.
  destruct (negb (bShouldPlayMoveSounds e)); [discriminate|].
  destruct (match
               match FloorSurfaceType e with
               | Some Surface => GetMoveStepSoundBySurface e Surface
               | None => None
               end
             with
             | Some s => Some s
             | None => GetMoveStepSoundBySurface e SurfaceType_Default
             end) as [s|]; [|discriminate].
  simpl negb. cbv iota.
  unfold SpawnSoundAtFeet.
  destruct (LandSounds s) as [|cue cues];
    [intros H; destruct (Rle_dec _ _); discriminate H|].
  destruct (Rlt_dec (MinSpeedForFallDamage e) (- Z (Velocity m1)));
    destruct (Rlt_dec (MinSpeedForFallDamage e / 2) (- Z (Velocity m1)));
    destruct (Rlt_dec (- Z (Velocity m1)) (MinLandBounceSpeed e));
    destruct (Rlt_dec (MinSpeedForFallDamage e) (- Z (Velocity m2)));
    destruct (Rlt_dec (MinSpeedForFallDamage e / 2) (- Z (Velocity m2)));
    destruct (Rlt_dec (- Z (Velocity m2)) (MinLandBounceSpeed e));
    try (exfalso; lra);
    destruct (IsCrouching o);
    repeat match goal with
           | |- context [Rle_dec ?a ?b] =>
               destruct (Rle_dec a b); try (exfalso; lra)
           end;
    try (intros H; discriminate H);
    destruct (PickSound e (RandState st1) (cue :: cues)) as [c1 seed1];
    destruct (PickSound e (RandState st2) (cue :: cues)) as [c2 seed2];
    simpl; intros H; injection H as <-; simpl;
    (split; [lra|]); (split; [lra|]); (split; [reflexivity|]);
    eexists; (split; [reflexivity|]); simpl; lra.
Qed.

Lemma Landing_sound_monotone_witness :
  (MinLandBounceSpeed StockSoundEnv <= - - 400
   \/ MinSpeedForFallDamage StockSoundEnv / 2 < - - 400)
  /\ 0 < 1 / 2 <= 1
  /\ mkVec 0 0 (6858 / 100 - 6858 / 100)
     = mkVec (X (ActorLocation StockSoundEnv)) (Y (ActorLocation StockSoundEnv))
         (Z (ActorLocation StockSoundEnv) - PawnHalfHeight LocalOwner)
  /\ exists s2 : SpawnedSound,
       snd (OnMovementModeChanged StockSoundEnv LocalOwner
              (set_Velocity (mkVec 0 0 (- 1100)) StockMovement)
              MOVE_Falling (mkStepState 0 true 1%nat)) = Some s2
       /\ 1 / 2 <= VolumeMultiplier s2.
Proof.
  refine (Landing_sound_monotone StockSoundEnv LocalOwner
            (set_Velocity (mkVec 0 0 (- 400)) StockMovement)
            (set_Velocity (mkVec 0 0 (- 1100)) StockMovement)
            MOVE_Falling MOVE_Falling (mkStepState 0 true 0%nat)
            (mkStepState 0 true 1%nat)
            (mkSpawnedSound 6%nat (1 / 2)
               (mkVec 0 0 (6858 / 100 - 6858 / 100))) _ _ _ _ _).
  - simpl; lra.
  - reflexivity.
  - reflexivity.
  - simpl; lra.
  - unfold OnMovementModeChanged, PlayJumpSound; simpl.
    repeat match goal with
           | |- context [Rlt_dec ?a ?b] =>
               destruct (Rlt_dec a b); try (exfalso; lra)
           | |- context [Rle_dec ?a ?b] =>
               destruct (Rle_dec a b); try (exfalso; lra)
           end.
    reflexivity.
Defined.

(* ===================================================================== *)
(** ** C8: the final step of an uncrouch that is blocked *)

Lemma CrouchState_eq (l1 l2 : FVector) (r1 r2 h1 h2 : R) (a b c d f : bool)
    (o1 o2 : R) (c1 c2 : list (R * R)) :
  l1 = l2 -> r1 = r2 -> h1 = h2 -> o1 = o2 -> c1 = c2 ->
  mkCrouch l1 r1 h1 a b c d f o1 c1 = mkCrouch l2 r2 h2 a b c d f o2 c2.
Proof. now intros -> -> -> -> ->. Qed.

(** Decide the real comparisons of a goal between closed terms, each in
    an empty context. *)
Ltac rdecide :=
  repeat (simpl; try unfold Rleb, Rltb, Reqb, FMath.Abs, FMath.Max, FMath.Min;
    match goal with
    | |- context [Rle_dec ?a ?b] =>
        first
          [ let H := fresh in
            assert (H : a <= b) by (clear; lra);
            destruct (Rle_dec a b) as [_ | n];
            [clear H | exfalso; exact (n H)]
          | let H := fresh in
            assert (H : b < a) by (clear; lra);
            destruct (Rle_dec a b) as [l | _];
            [exfalso; clear - l H; lra | clear H] ]
    | |- context [Rlt_dec ?a ?b] =>
        first
          [ let H := fresh in
            assert (H : a < b) by (clear; lra);
            destruct (Rlt_dec a b) as [_ | n];
            [clear H | exfalso; exact (n H)]
          | let H := fresh in
            assert (H : b <= a) by (clear; lra);
            destruct (Rlt_dec a b) as [l | _];
            [exfalso; clear - l H; lra | clear H] ]
    end); simpl.

(** Evaluate one tick of the crouch state at closed values. *)
Ltac crouch_eval :=
  simpl;
  unfold UpdateCharacterStateBeforeMovement,
    UpdateCharacterStateAfterMovement,
    Super_UpdateCharacterStateBeforeMovement,
    Super_UpdateCharacterStateAfterMovement, UpdateCrouching; simpl;
  unfold DoUnCrouchResize; simpl;
  unfold FMath.IsNearlyEqual, FMath.IsNearlyZero, FMath.IsNearlyZeroTol,
    FMath.SMALL_NUMBER, UncrouchCurrentAlpha, RelaxedProbeBlocked,
    UncrouchProbe, StandingLocationFor, RelaxedProbeShape,
    GetPawnCapsuleCollisionShape, SweepInflation, FMath.KINDA_SMALL_NUMBER,
    FMath.Max3;
  rdecide.

(** A character that is neither flagged crouched nor in a transition and
    does not want to crouch gets no request from the engine, and
    [UpdateCrouching] returns at its transition test: no tick changes its
    crouch state, whatever the world. *)
Lemma CrouchTicks_idle (n : nat) (e : CrouchEnv) (i : CrouchInput) (dt : R)
    (s : CrouchState) :
  bWantsToCrouch i = false ->
  bIsCrouched s = false ->
  bIsInCrouchTransition s = false ->
  CrouchTicks n e i dt s = s.
Proof.
  intros Hw Hc Ht. induction n as [|n IH]; [reflexivity|].
  simpl.
  assert (Hb : UpdateCharacterStateBeforeMovement e i dt s = s).
  { unfold UpdateCharacterStateBeforeMovement,
      Super_UpdateCharacterStateBeforeMovement, UpdateCrouching.
    rewrite Hc, Hw. simpl.
    destruct (negb (crouchSimulatedProxy i)) eqn:Hp; simpl;
      destruct (crouchSimulatedProxy i); try reflexivity;
      rewrite Ht; simpl; now rewrite orb_true_r. }
  assert (Ha : UpdateCharacterStateAfterMovement e i dt s = s).
  { unfold UpdateCharacterStateAfterMovement,
      Super_UpdateCharacterStateAfterMovement, UpdateCrouching.
    rewrite Hc. simpl.
    destruct (negb (crouchSimulatedProxy i)) eqn:Hp; simpl;
      destruct (crouchSimulatedProxy i); try reflexivity;
      rewrite Ht; simpl; now rewrite orb_true_r. }
  now rewrite Hb, Ha.
Qed.

(** C8, where the code does not retry.  The stock character stands up
    from [CrouchedState] with ticks of 0.12 s and an uncrouch time of
    0.2 s.  The first tick, in the open, grows the capsule 0.6 of the way
    and clears the crouched flag.  The second tick is the final step; under
    a ceiling at 132 the relaxed probe passes and the probe at the
    standing capsule is blocked: the call returns without resizing or
    moving, but it has already cleared [bIsInCrouchTransition].  From then
    on no tick in any world changes the crouch state: the engine requests
    an uncrouch only for a character flagged crouched, so the capsule
    stays at 54.864 of 68.58 although the character may long be in the
    open, where the same final step completes.  A blocked step that is not
    the final one (a tick of 0.078 s) leaves the transition pending and is
    retried. *)
Theorem Uncrouch_blocked_final_step_stalls :
  CrouchTicks 1 OpenEnv LocalUncrouchInput (12 / 100) CrouchedState
  = HalfUncrouchedState
  /\ CrouchTicks 1 LowCeilingEnv LocalUncrouchInput (12 / 100)
       HalfUncrouchedState
     = set_bIsInCrouchTransition false HalfUncrouchedState
  /\ (forall (n : nat) (e : CrouchEnv),
        CrouchTicks n e LocalUncrouchInput (12 / 100)
          (set_bIsInCrouchTransition false HalfUncrouchedState)
        = set_bIsInCrouchTransition false HalfUncrouchedState)
  /\ CapsuleHalfHeight (set_bIsInCrouchTransition false HalfUncrouchedState)
     < DefaultCapsuleHalfHeight OpenEnv
  /\ CapsuleHalfHeight
       (CrouchTicks 1 OpenEnv LocalUncrouchInput (12 / 100)
          HalfUncrouchedState)
     = DefaultCapsuleHalfHeight OpenEnv
  /\ CrouchTicks 1 LowCeilingEnv LocalUncrouchInput (78 / 1000)
       HalfUncrouchedState
     = HalfUncrouchedState.
Proof.
  split; [|split; [|split; [|split; [|split]]]].
  - crouch_eval.
    unfold set_crouchFrameTolerated, OnEndCrouch, SetCapsuleSize,
      set_bIsCrouched, set_bForceNextFloorCheck, MoveComponent, UnCrouch,
      set_bIsInCrouchTransition, HalfUncrouchedState, FMath.Max3; simpl.
    rdecide.
    apply CrouchState_eq; try lra.
    + apply vec_eq; simpl; lra.
    + f_equal. f_equal; lra.
  - crouch_eval. reflexivity.
  - intros n e. now apply CrouchTicks_idle.
  - simpl. lra.
  - crouch_eval. unfold SetCapsuleSize, FMath.Max3; simpl. rdecide. lra.
  - crouch_eval. reflexivity.
Qed.
